(* ===== verification/_CoqProject ===== *)
-Q . S2P
Prelude.v
Mem.v
LibString.v
PageAlloc.v
Pmm.v
Kheap.v
KheapInv.v
KheapSpec.v
KmallocSpec.v
HeapCredit.v
KreallocSpec.v
HeapRuns.v
CString.v
Paging.v
PagingSpec.v
Ipc.v
IpcSpec.v
IpcFifo.v
Process.v
ProcessSpec.v
SchedSpec.v
ProcCreateSpec.v
SchedFair.v
Fs.v
FsSpec.v
UnlinkSpec.v
MountSpec.v
Keyboard.v
Driver.v
Printk.v
Rtc.v
PortIO.v
Serial.v
Gdt.v
Idt.v
Report.v
Font.v
Framebuffer.v
FramebufferSpec.v
Syscall.v
SyscallSpec.v
Interrupts.v
Shell.v
ShellSpec.v
Console.v
ShellCmd.v
ShellCmdSpec.v
Session.v
Boot.v
CreditSpec.v
BootSpec.v
KmainSpec.v
InitSpec.v
System.v
SystemSpec.v
