(* ===== verification/Prelude.v ===== *)
(** * HeroOS kernel: verification library

    HeroOS is a small x86_64 kernel in C: a physical page allocator, 4-level
    page tables, a first-fit heap, kernel threads with a priority scheduler,
    pipes, message queues and shared memory, a virtual file system with one
    in-memory file system, a few drivers, and a shell.  This library models its
    C code function by function and proves what makes each part correct.

    ** How the parts interact

    kmain.c sets the parts up in order.  pmm.c hands out 4 KiB pages; kheap.c,
    vmm.c, process.c and ipc.c take pages from it.  tmpfs.c, process.c and
    ipc.c keep their objects in the heap.  The timer interrupt calls
    [sched_tick]; the keyboard interrupt fills a ring that the shell polls;
    system calls reach the scheduler, the signals and the serial port;
    everything prints through printk.c.  init.c is the first process: it makes
    the directories and starts the shell.

    ** Files

    - Prelude.v (this file): outcomes, machine words with explicit wrap-around,
      the macros of include/kernel/types.h, counted loops, counting; the tactics
      [word_lia], [zcases] and the hint database [word].
    - Mem.v: byte-addressed memory with little-endian 32- and 64-bit accesses;
      the hint database [mem].
    - LibString.v, CString.v: lib/string.c, the memory functions, and the string
      and number functions.
    - PageAlloc.v: the class [PageAlloc] of what pmm.h offers, and the class
      [PageAllocSpec] of its laws.  All clients are modelled and proved against
      these two.
    - Pmm.v: kernel/mm/pmm.c and its instance of both classes.
    - Kheap.v: kernel/mm/kheap.c.  KheapInv.v: the invariant [kheap_inv] that
      attaches a list of blocks to a memory.  KheapSpec.v: [kfree].
      KmallocSpec.v: [kmalloc], [kcalloc], [kheap_init], when they give NULL or panic,
      what clients see of an allocation ([heap_grows]), and concrete heaps.  HeapCredit.v: what the heap
      and the allocator can still give, so that allocations cannot fail or panic.
      KreallocSpec.v: [krealloc] and [kmalloc_aligned].  HeapRuns.v: whole runs of
      a client against a map from pointers to contents.
    - Paging.v: kernel/mm/vmm.c and mm/paging.h.  PagingSpec.v: the page tables
      as a tree, and the effect of mapping and unmapping on translation.
    - Ipc.v: pipes, message queues and shared memory of kernel/ipc/ipc.c.
      IpcSpec.v: single operations as FIFO queues and sets of pages.
      IpcFifo.v: whole runs against the queues [ByteQueue] and [MsgQueue].
    - Process.v: kernel/proc/process.c and sched.c, and the signals of ipc.c.
      ProcessSpec.v: the run queue as a list.  SchedSpec.v: the scheduler
      invariant, ticks and the choice of the next process.  ProcCreateSpec.v: the
      memory of new processes, and concrete systems.  SchedFair.v: how long a READY process
      waits.
    - Fs.v: kernel/fs/vfs.c and fs/tmpfs/tmpfs.c.  FsSpec.v: path resolution,
      creating directories, writing and reading files.  UnlinkSpec.v: removing them.
      MountSpec.v: the table of mounts.
    - Keyboard.v: drivers/keyboard/keyboard.c, with its specification as a
      decoder in front of a queue.
    - Driver.v: drivers/driver.c, the registry as a list.
    - Printk.v: lib/printk.c, formats as lists of pieces, log lines, the panic
      banner.
    - Rtc.v: arch/x86_64/drivers/pit.c, the clock as a device.
    - PortIO.v: port input and output, as a log of accesses and a device that
      answers reads.  Serial.v: arch/x86_64/drivers/serial.c on it.
    - Gdt.v: arch/x86_64/cpu/gdt.c, and the descriptors as the processor reads
      them.  Idt.v: arch/x86_64/cpu/idt.c, the gates, the two interrupt
      controllers and the common handlers.
    - Report.v: what the kernel prints about itself: the report of an exception,
      heap statistics, memory line and banner, listings of processes and drivers.
    - Font.v, Framebuffer.v: drivers/framebuffer/font8x16.h and framebuffer.c.
      FramebufferSpec.v: pixels, bounds, and the terminal as a grid of
      characters ([Term]).
    - Syscall.v: kernel/syscall/syscall.c.  SyscallSpec.v: each call against
      [effect], with the pointers of the caller that fault or hit kernel objects.
      Interrupts.v: the timer and keyboard handlers behind the common handlers of idt.c
      on the whole machine, processes parked inside an interrupt, and the in-service
      bits of the two 8259 controllers ([pics]).
    - Shell.v: the line editor, history, tokenizer and dispatch of
      userspace/heroshell/heroshell.c.  ShellSpec.v: the editor on lists ([Edit]).
      Console.v: from the scan codes of typed lines to the commands executed.
      ShellCmd.v, ShellCmdSpec.v: the commands on the file system.  Session.v: the
      shell thread as a whole, its screen and its effects, against [replay] (any
      keys) and [transcript], [dialogue] (typed lines).
    - Boot.v: kernel/kmain.c and userspace/init/init.c on one machine.
      CreditSpec.v: allocation with the memory it needs at hand, and [proc_create].
      BootSpec.v: runs that may panic ([wp]), the tags of the boot loader, new
      processes.  KmainSpec.v: the boot sequence.  InitSpec.v: the first process.
    - System.v: what the processor does after [kmain], as the step relation [life]:
      the idle loop, init from its entry and in its loop, and the interrupts the
      controllers deliver.  SystemSpec.v: the invariant [system_ok] and the [phase]s
      of its runs, from power on.

    ** Conventions

    A C function is a Rocq function of the same name.  One that can fail to
    return normally gives an [outcome]: [Ok], [Panic] (kernel_panic), [Undef]
    (an operation C leaves undefined, such as an access outside an array) or
    [Diverge] (the fuel of a loop ran out).  State is passed explicitly: each
    component has a record of its static variables ([pmm], [kheap], [mmu],
    [ipc], [sys], [fs], [kbd], [registry], [ports], [cpu], [gdt_state], [fb],
    [kern], [shell], [term]), [machine] and [boot] put them together, and an
    operation is [kop S A := S -> outcome (A * S)] or a plain function of the
    state; [kzoom] runs an operation on a part.  An unsigned w-bit integer is a
    [Z] in [0, 2^w), and every addition, subtraction or product the code makes
    is wrapped where it could matter.  NULL is 0.

    Heap blocks, page tables, pipes, queues, pixels and buffers are bytes of
    memory, read and written at the offsets the compiler gives the fields.
    Processes, inodes and drivers are typed objects in a store keyed by address,
    since the code reaches them only through their fields.

    ** Fuel

    Loops with a counter need none.  A walk along a list or a search for a NUL
    takes fuel, and each theorem assumes more fuel than the list or the string
    is long and concludes that the call returns; [Diverge] is never counted as a
    result.  Recursion on the room left in a fixed array (the digit buffers of
    utoa and print_uint) ends in [Undef], which the theorems exclude.  The boot
    theorems take fuel 8 for [kmain] (its longest walks are over lists of a few blocks)
    and 26 for what runs after it.

    ** Context switches

    [context_switch] records the switch in the state and comes back: what follows in
    the model is what the next process does.  The common interrupt handler therefore
    asks whether its handler came back to the same process; if not, the rest of the
    interrupt, the end-of-interrupt command included, is parked with the interrupted
    process ([m_parked]) and done when that process runs again.

    ** What the theorems show

    - Page allocator: which page each call returns, that exactly it becomes
      used, that the free counter stays exact over every sequence of calls, that
      allocating and freeing is the identity, what is free after boot.
    - Heap: [kmalloc] returns a block that overlaps no block in use, first fit,
      and keeps all payloads; [kfree] merges with adjacent free blocks and keeps
      the rest; [kcalloc] zeroes; [krealloc] keeps the contents; [kheap_init]
      establishes the invariant; the statistics are exact.  Once the heap has
      grown to its limit over contiguous memory, every run of a client sees a map
      of live pointers to contents, and freeing everything leaves one free block.
    - Paging: mapping, unmapping and mapping a range change the translation of
      exactly the pages named, and flush the TLB.
    - Processes and scheduler: no operation follows a bad pointer or loops, at
      most the current process is RUNNING, the least virtual runtime runs next,
      every READY process gets the processor within a bounded number of ticks;
      creation takes the lowest free slot.
    - IPC: over every run, pipes and queues are FIFO queues of bounded capacity;
      the life cycle of a shared segment.
    - File system: a path resolves to the node its components lead to; making a
      directory adds exactly one node; what is written to a file, in place or
      with a new buffer, is read back; unlinking removes exactly one entry; mounts
      are a table that no path follows.
    - Library and drivers: the copies, comparisons and conversions of string.c
      and printk.c; the keyboard queue over every interleaving of interrupts and
      polls; the driver list; the Unix time of the clock; what the serial chip
      and the interrupt controllers are told.
    - Processor tables: the segments and gates the processor reads from what
      gdt.c and idt.c store; every hardware interrupt does its work, and is acknowledged
      at once or, after a switch, when the interrupted process runs again; every system
      call has its specified effect or faults at a pointer of its caller.
    - Screen and shell: no drawing outside the frame buffer, the terminal shows
      the text; the line editor refines one on lists; cat prints the file up to the
      NUL bytes in it; over
      every sequence of keys the shell thread prints and does what the session on
      texts says, and lines typed on the keyboard get their answers, up to exit.
    - Whole system: handed over as [loader] asks, [kmain] ends in a well-formed
      machine with all parts on one heap, without panic when 30 pages in a row are
      free; the tenth timer tick then brings init to its entry, [init_main] runs to its
      loop with the shell READY in the queue, and no state reached by any interrupts
      and steps is ill-formed, panics or is stuck.

    Some theorems state behaviour that is not what the code means to do.  The tenth
    tick switches to init before its end-of-interrupt command, so that no interrupt is
    ever delivered again and the shell never gets the processor.  A sleeping or exited
    process is left READY, the lower priority number gets less processor time, a full
    process table is written past its end, a timestamp is a day behind in some years,
    [kfree] merges list neighbours that do not touch, sizes near 2^64 wrap, mapping
    inside a 2 MiB page overwrites the mapped frame, boot tags in free memory are
    overwritten, overlapping entries of the memory map are counted twice, scrolling by
    more than the screen writes past it, ls of a directory with an entry never returns,
    the listing of processes reads a number as an address.

    ** What is not modelled

    Interrupt entry, the switch of stacks and registers, [invlpg], [lgdt] and [lidt]
    are assembly: a switch and a TLB flush are recorded as events, what is loaded is
    a field of the state, and devices answer port reads through a parameter.
    Non-maskable and spurious interrupts are left out.  Most log messages are left out.

    Memory is identity-mapped and never faults, except where a system call follows a
    pointer of its caller (Syscall.v, with the mapped addresses as a parameter) and
    in Paging.v, whose page tables translate.  boot.asm maps the first GiB; the boot
    theorems assume memory and screen in it and show the heap in it.

    A call of a component is a function, so by itself it runs without interruption.
    Where interrupts can come between calls, components interleave (Keyboard.v,
    Session.v, SchedFair.v); in the whole system no line is deliverable while init
    runs, which is proved (SystemSpec.v).  Kernel code takes no locks, so if the
    acknowledgement were repaired, ticks inside [kmalloc] or [sched_add] would have
    to be looked at, and these theorems would not cover them.

    hal.h, heropkg.h and heroserve.h have no implementation; boot configuration,
    linker script and build files hold no C code.

    Every C function of the repository has a definition, but for those that only
    write a log line, return a constant or a static variable, call one other function
    or sleep for ever.  The shell is verified as a component: Session.v follows its
    thread on whatever file system it finds and with every key that is typed, since in
    the running system it never gets the processor.  The first two free blocks of a
    heap while others are live, and growing it, can separate list neighbours, which
    [kfree] does not look at: theorems on freeing assume that they touch, or, over whole
    runs, that the heap has its full size (HeapRuns.v, [arena]). *)

From stdpp Require Export base tactics option list numbers gmap strings.
From Stdlib Require Export ZArith Lia.

#[export] Set Default Goal Selector "!".
Open Scope Z_scope.

(** ** Outcomes

    What one call of a kernel function can do.  [Panic] is [kernel_panic]
    (kernel/printk.h), which never returns; [Undef] is a C operation with no
    defined result (an access outside an array, a division by zero);
    [Diverge] is a loop of the code that the fuel of the model did not cover. *)
Inductive outcome (A : Type) : Type :=
  | Ok (a : A)
  | Panic (msg : string)
  | Undef (why : string)
  | Diverge.
Arguments Ok {A} a.
Arguments Panic {A} msg.
Arguments Undef {A} why.
Arguments Diverge {A}.

#[export] Instance outcome_ret : MRet outcome := fun A a => Ok a.
#[export] Instance outcome_bind : MBind outcome := fun A B f m =>
  match m with
  | Ok a => f a
  | Panic msg => Panic msg
  | Undef why => Undef why
  | Diverge => Diverge
  end.

#[export] Instance outcome_fmap : FMap outcome := fun A B f m => m ≫= fun a => Ok (f a).

(** Names for the result of a computation that was evaluated to a success. *)
Definition is_ok {A} (o : outcome A) : bool := if o is Ok _ then true else false.

Lemma is_ok_eq {A} (o : outcome A) : is_ok o = true → ∃ a, o = Ok a.
Proof. destruct o; try discriminate. eauto. Qed.

Lemma fst_ok {A S} (o : outcome (A * S)) a : fst <$> o = Ok a → ∃ s, o = Ok (a, s).
Proof. destruct o as [[a' s]| | |]; try discriminate. intros [= <-]. by exists s. Qed.

(** A kernel operation over a state [S] that returns an [A]. *)
Definition kop (S A : Type) : Type := S → outcome (A * S).

#[export] Instance kop_ret {S} : MRet (kop S) := fun A a s => Ok (a, s).
#[export] Instance kop_bind {S} : MBind (kop S) := fun A B f m s =>
  match m s with
  | Ok (a, s') => f a s'
  | Panic msg => Panic msg
  | Undef why => Undef why
  | Diverge => Diverge
  end.

Definition kget {S A} (f : S → A) : kop S A := fun s => Ok (f s, s).
Definition kmod {S} (f : S → S) : kop S unit := fun s => Ok (tt, f s).
Definition kpanic {S A} (msg : string) : kop S A := fun _ => Panic msg.
Definition kundef {S A} (why : string) : kop S A := fun _ => Undef why.

(** Run an operation on a component [T] of the state [S]. *)
Definition kzoom {S T A} (get : S → T) (put : T → S → S) (m : kop T A) : kop S A :=
  fun s => '(a, t) ← m (get s); Ok (a, put t s).

(** Injectivity without reducing the arguments, unlike [injection]. *)
Lemma Ok_inj {A} (a b : A) : Ok a = Ok b → a = b.
Proof. by intros [=]. Qed.

Lemma outcome_bind_ok {A B} (m : outcome A) (f : A → outcome B) b :
  (m ≫= f) = Ok b → ∃ a, m = Ok a ∧ f a = Ok b.
Proof. destruct m as [a| | |]; try discriminate. intros H. by exists a. Qed.

Lemma kop_bind_ok {S A B} (m : kop S A) (f : A → kop S B) s b s'' :
  (m ≫= f) s = Ok (b, s'') →
  ∃ a s', m s = Ok (a, s') ∧ f a s' = Ok (b, s'').
Proof.
  unfold mbind, kop_bind. destruct (m s) as [[a s']| | |]; try discriminate. eauto.
Qed.

Lemma kop_bind_step {S A B} (m : kop S A) (f : A → kop S B) s a s' :
  m s = Ok (a, s') → (m ≫= f) s = f a s'.
Proof. unfold mbind, kop_bind. by intros ->. Qed.

(** ** Machine words

    A C unsigned integer is a [Z] in [0, 2^w); arithmetic wraps. *)
Abbreviation UINT64_MOD := 18446744073709551616 (only parsing).
Abbreviation UINT32_MOD := 4294967296 (only parsing).

Definition wrap64 (x : Z) : Z := x mod 18446744073709551616.
Definition wrap32 (x : Z) : Z := x mod 4294967296.
Definition wrap16 (x : Z) : Z := x mod 65536.
Definition wrap8 (x : Z) : Z := x mod 256.

(** The value of a w-bit pattern as a two's complement signed integer. *)
Definition signed64 (x : Z) : Z :=
  if x <? 9223372036854775808 then x else x - 18446744073709551616.
Definition signed32 (x : Z) : Z :=
  if x <? 2147483648 then x else x - 4294967296.

Declare Scope word_scope.
Delimit Scope word_scope with word.
Notation "x +₆₄ y" := (wrap64 (x + y)) (at level 50, left associativity) : word_scope.
Notation "x -₆₄ y" := (wrap64 (x - y)) (at level 50, left associativity) : word_scope.
Notation "x *₆₄ y" := (wrap64 (x * y)) (at level 40, left associativity) : word_scope.
Notation "~₆₄ x" := (wrap64 (Z.lnot x)) (at level 35, right associativity) : word_scope.
Notation "x +₃₂ y" := (wrap32 (x + y)) (at level 50, left associativity) : word_scope.
Notation "x -₃₂ y" := (wrap32 (x - y)) (at level 50, left associativity) : word_scope.
Notation "x *₃₂ y" := (wrap32 (x * y)) (at level 40, left associativity) : word_scope.
Notation "~₃₂ x" := (wrap32 (Z.lnot x)) (at level 35, right associativity) : word_scope.
Open Scope word_scope.

Definition is_u64 (x : Z) : Prop := 0 ≤ x < 18446744073709551616.
Definition is_u32 (x : Z) : Prop := 0 ≤ x < 4294967296.

(** Arithmetic with wrap-around: expose the moduli to [lia]. *)
Ltac word_lia :=
  unfold is_u64, is_u32, wrap64, wrap32, wrap16, wrap8 in *;
  Z.div_mod_to_equations; lia.

(** Case analysis on every boolean comparison of integers in the goal. *)
Ltac zcases :=
  repeat match goal with
    | |- context [?a <=? ?b] => destruct (Z.leb_spec a b)
    | |- context [?a <? ?b] => destruct (Z.ltb_spec a b)
    | |- context [?a =? ?b] => destruct (Z.eqb_spec a b)
    end; simpl.

Lemma signed64_small x : x < 9223372036854775808 → signed64 x = x.
Proof. intros H. unfold signed64. by destruct (Z.ltb_spec x 9223372036854775808); [|lia]. Qed.

Create HintDb word.

Lemma wrap64_range x : 0 ≤ wrap64 x < 18446744073709551616.
Proof. word_lia. Qed.
Lemma wrap32_range x : 0 ≤ wrap32 x < 4294967296.
Proof. word_lia. Qed.
Lemma wrap64_small x : 0 ≤ x < 18446744073709551616 → wrap64 x = x.
Proof. word_lia. Qed.
Lemma wrap32_small x : 0 ≤ x < 4294967296 → wrap32 x = x.
Proof. word_lia. Qed.
Lemma wrap8_byte x : 0 ≤ x < 256 → wrap8 x = x.
Proof. word_lia. Qed.
#[export] Hint Resolve wrap64_range wrap32_range : word.

Lemma wrap64_testbit x i :
  0 ≤ i → Z.testbit (wrap64 x) i = (i <? 64) && Z.testbit x i.
Proof.
  intros Hi. unfold wrap64. change 18446744073709551616 with (2 ^ 64).
  destruct (Z.ltb_spec i 64).
  - by rewrite Z.mod_pow2_bits_low.
  - by rewrite Z.mod_pow2_bits_high.
Qed.

Lemma wrap32_testbit x i :
  0 ≤ i → Z.testbit (wrap32 x) i = (i <? 32) && Z.testbit x i.
Proof.
  intros Hi. unfold wrap32. change 4294967296 with (2 ^ 32).
  destruct (Z.ltb_spec i 32).
  - by rewrite Z.mod_pow2_bits_low.
  - by rewrite Z.mod_pow2_bits_high.
Qed.

(** ** The constants and macros of include/kernel/types.h *)

Definition PAGE_SIZE : Z := 4096.
Definition KERNEL_PHYS_BASE : Z := 16777216.

(** [BIT(n)]: [1ULL << n], for [n < 64]. *)
Definition BIT (n : Z) : Z := Z.shiftl 1 n.

(** [ALIGN_UP(x, a)] at 64 and at 32 bits: [((x) + (a) - 1) & ~((a) - 1)]. *)
Definition ALIGN_UP64 (x a : Z) : Z := Z.land ((x +₆₄ a) -₆₄ 1) (~₆₄ (a - 1)).
Definition ALIGN_UP32 (x a : Z) : Z := Z.land ((x +₃₂ a) -₃₂ 1) (~₃₂ (a - 1)).

Definition MIN (a b : Z) : Z := if a <? b then a else b.

(** The bytes of a string literal. *)
Definition codes (s : string) : list Z :=
  (fun c => Z.of_nat (Ascii.nat_of_ascii c)) <$> String.list_ascii_of_string s.

Lemma ones_testbit k i : 0 ≤ k → 0 ≤ i → Z.testbit (2 ^ k - 1) i = (i <? k).
Proof.
  intros Hk Hi. replace (2 ^ k - 1) with (Z.ones k) by (rewrite Z.ones_equiv; lia).
  by apply Z.testbit_ones_nonneg.
Qed.

(** Masking the low [k] bits off with [& ~(2^k - 1)] rounds down to a multiple. *)
Lemma land_lnot_ones k x :
  0 ≤ k → Z.land x (Z.lnot (2 ^ k - 1)) = x / 2 ^ k * 2 ^ k.
Proof.
  intros Hk. rewrite <- Z.shiftr_div_pow2, <- Z.shiftl_mul_pow2 by lia.
  apply Z.bits_inj'; intros i Hi.
  rewrite Z.land_spec, Z.lnot_spec, ones_testbit by lia.
  destruct (Z.ltb_spec i k).
  - rewrite Z.shiftl_spec_low by lia. apply andb_false_r.
  - rewrite Z.shiftl_spec, Z.shiftr_spec by lia.
    rewrite andb_true_r. f_equal; lia.
Qed.

Lemma land_lnot64_ones k x :
  0 ≤ k → is_u64 x → Z.land x (~₆₄ (2 ^ k - 1)) = x / 2 ^ k * 2 ^ k.
Proof.
  intros Hk Hx. rewrite <- land_lnot_ones by lia.
  rewrite <- (wrap64_small x) by (unfold is_u64 in Hx; lia).
  apply Z.bits_inj'; intros i Hi.
  rewrite !Z.land_spec, !wrap64_testbit by lia.
  by destruct (i <? 64), (Z.testbit x i).
Qed.

Lemma land_lnot32_ones k x :
  0 ≤ k → is_u32 x → Z.land x (~₃₂ (2 ^ k - 1)) = x / 2 ^ k * 2 ^ k.
Proof.
  intros Hk Hx. rewrite <- land_lnot_ones by lia.
  rewrite <- (wrap32_small x) by (unfold is_u32 in Hx; lia).
  apply Z.bits_inj'; intros i Hi.
  rewrite !Z.land_spec, !wrap32_testbit by lia.
  by destruct (i <? 32), (Z.testbit x i).
Qed.

(** [ALIGN_UP] to a power of two: the least multiple not below [x], as long as
    the addition does not wrap. *)
Lemma align_up64_div k x :
  0 ≤ k → ALIGN_UP64 x (2 ^ k) = wrap64 (x + 2 ^ k - 1) / 2 ^ k * 2 ^ k.
Proof.
  intros Hk. unfold ALIGN_UP64. rewrite land_lnot64_ones.
  - f_equal; f_equal. unfold wrap64. rewrite Zminus_mod_idemp_l. f_equal; lia.
  - lia.
  - apply wrap64_range.
Qed.

Lemma align_up32_div k x :
  0 ≤ k → ALIGN_UP32 x (2 ^ k) = wrap32 (x + 2 ^ k - 1) / 2 ^ k * 2 ^ k.
Proof.
  intros Hk. unfold ALIGN_UP32. rewrite land_lnot32_ones.
  - f_equal; f_equal. unfold wrap32. rewrite Zminus_mod_idemp_l. f_equal; lia.
  - lia.
  - apply wrap32_range.
Qed.

Lemma align_up64_page x : ALIGN_UP64 x PAGE_SIZE = wrap64 (x + 4095) / 4096 * 4096.
Proof.
  unfold PAGE_SIZE. change 4096 with (2 ^ 12) at 1.
  rewrite align_up64_div by lia. change (2 ^ 12) with 4096. do 3 f_equal. lia.
Qed.

Lemma align_up64_16 x : ALIGN_UP64 x 16 = wrap64 (x + 15) / 16 * 16.
Proof.
  change 16 with (2 ^ 4) at 1. rewrite align_up64_div by lia.
  change (2 ^ 4) with 16. do 3 f_equal. lia.
Qed.

Lemma align_up32_8 x : ALIGN_UP32 x 8 = wrap32 (x + 7) / 8 * 8.
Proof.
  change 8 with (2 ^ 3) at 1. rewrite align_up32_div by lia.
  change (2 ^ 3) with 8. do 3 f_equal. lia.
Qed.

(** 64-bit values are closed under the bit operations. *)
Lemma u64_wrap x : is_u64 x ↔ wrap64 x = x.
Proof.
  split; [apply wrap64_small|]. intros <-. apply wrap64_range.
Qed.

Lemma u64_testbit_high x i : is_u64 x → 64 ≤ i → Z.testbit x i = false.
Proof.
  intros Hx Hi. apply u64_wrap in Hx. rewrite <- Hx, wrap64_testbit by lia.
  by destruct (Z.ltb_spec i 64); [lia|].
Qed.

Lemma lor_u64 x y : is_u64 x → is_u64 y → is_u64 (Z.lor x y).
Proof.
  intros Hx Hy. apply u64_wrap, Z.bits_inj'. intros i Hi.
  rewrite wrap64_testbit, Z.lor_spec by done.
  destruct (Z.ltb_spec i 64); [done|]. by rewrite !u64_testbit_high.
Qed.

Lemma land_u64 x y : is_u64 x → is_u64 (Z.land x y).
Proof.
  intros Hx. apply u64_wrap, Z.bits_inj'. intros i Hi.
  rewrite wrap64_testbit, Z.land_spec by done.
  destruct (Z.ltb_spec i 64); [done|]. by rewrite (u64_testbit_high x).
Qed.

Lemma bit_u64 k : 0 ≤ k < 64 → is_u64 (BIT k).
Proof.
  intros Hk. unfold is_u64, BIT. rewrite Z.shiftl_1_l.
  change 18446744073709551616 with (2 ^ 64). split; [lia|].
  apply Z.pow_lt_mono_r; lia.
Qed.
#[export] Hint Resolve lor_u64 land_u64 bit_u64 : word.

(** The test [w & (1ULL << n)] of a bit. *)
Lemma land_bit w n : 0 ≤ n → negb (Z.land w (BIT n) =? 0) = Z.testbit w n.
Proof.
  intros Hn. unfold BIT. rewrite Z.shiftl_1_l.
  destruct (Z.testbit w n) eqn:Hb.
  - apply negb_true_iff, Z.eqb_neq. intros H0.
    apply (f_equal (fun z => Z.testbit z n)) in H0.
    rewrite Z.land_spec, Z.bits_0, Z.pow2_bits_true, Hb in H0 by lia. done.
  - apply negb_false_iff, Z.eqb_eq. apply Z.bits_inj'; intros i Hi.
    rewrite Z.land_spec, Z.bits_0.
    destruct (Z.eq_dec i n) as [->|Hne]; [by rewrite Hb|].
    rewrite Z.pow2_bits_false by lia. apply andb_false_r.
Qed.

(** ** Counted loops

    [c_for lo hi body s] is [for (i = lo; i < hi; i++) s = body(i, s)];
    [c_for_ret] is the same loop with a body that may also return from the
    function ([inr]).  The iteration count is [hi - lo], so no fuel is needed. *)
Fixpoint iter_up {S} (body : Z → S → S) (n : nat) (i : Z) (s : S) : S :=
  match n with
  | O => s
  | Datatypes.S n' => iter_up body n' (i + 1) (body i s)
  end.
Definition c_for {S} (lo hi : Z) (body : Z → S → S) (s : S) : S :=
  iter_up body (Z.to_nat (hi - lo)) lo s.

Fixpoint iter_ret {S R} (body : Z → S → S + R) (n : nat) (i : Z) (s : S) : S + R :=
  match n with
  | O => inl s
  | Datatypes.S n' =>
      match body i s with
      | inl s' => iter_ret body n' (i + 1) s'
      | inr r => inr r
      end
  end.
Definition c_for_ret {S R} (lo hi : Z) (body : Z → S → S + R) (s : S) : S + R :=
  iter_ret body (Z.to_nat (hi - lo)) lo s.

(** The invariant rules of the two loops. *)
Lemma c_for_inv {S} (P : Z → S → Prop) lo hi body s :
  lo ≤ hi → P lo s →
  (∀ i s, lo ≤ i < hi → P i s → P (i + 1) (body i s)) →
  P hi (c_for lo hi body s).
Proof.
  intros Hle H0 Hstep. unfold c_for.
  assert (Hgen : ∀ n i s, i + Z.of_nat n = hi → lo ≤ i → P i s → P hi (iter_up body n i s)).
  { clear s H0. induction n as [|n IH]; intros i s Hn Hi HP; simpl.
    - by replace hi with i by lia.
    - apply IH; [lia|lia|]. apply Hstep; [lia|done]. }
  apply Hgen; [lia|lia|done].
Qed.

(** What the body leaves alone the loop leaves alone. *)
Lemma c_for_keeps {S X} (f : S → X) lo hi body s :
  (∀ i s, f (body i s) = f s) → f (c_for lo hi body s) = f s.
Proof.
  intros Hb. unfold c_for. generalize (Z.to_nat (hi - lo)). intros n. revert lo s.
  induction n as [|n IH]; intros lo s; [done|].
  cbn [iter_up]. by rewrite IH, Hb.
Qed.

Lemma c_for_ret_inv {S R} (P : Z → S → Prop) (Q : R → Prop) lo hi body s :
  lo ≤ hi → P lo s →
  (∀ i s, lo ≤ i < hi → P i s →
    match body i s with inl s' => P (i + 1) s' | inr r => Q r end) →
  match c_for_ret lo hi body s with inl s' => P hi s' | inr r => Q r end.
Proof.
  intros Hle H0 Hstep. unfold c_for_ret.
  assert (Hgen : ∀ n i s, i + Z.of_nat n = hi → lo ≤ i → P i s →
    match iter_ret body n i s with inl s' => P hi s' | inr r => Q r end).
  { clear s H0. induction n as [|n IH]; intros i s Hn Hi HP; simpl.
    - by replace hi with i by lia.
    - specialize (Hstep i s ltac:(lia) HP).
      destruct (body i s) as [s'|r]; [|done]. apply IH; [lia|lia|done]. }
  apply Hgen; [lia|lia|done].
Qed.

Lemma c_for_empty {S} lo hi (body : Z → S → S) s : hi ≤ lo → c_for lo hi body s = s.
Proof. intros H. unfold c_for. by replace (Z.to_nat (hi - lo)) with O by lia. Qed.

Lemma c_for_step {S} lo hi (body : Z → S → S) s :
  lo < hi → c_for lo hi body s = c_for (lo + 1) hi body (body lo s).
Proof.
  intros H. unfold c_for.
  by replace (Z.to_nat (hi - lo)) with (Datatypes.S (Z.to_nat (hi - (lo + 1)))) by lia.
Qed.

(** ** Counting

    [count_if f lo n]: how many of the [n] integers from [lo] satisfy [f]. *)
Fixpoint count_if (f : Z → bool) (lo : Z) (n : nat) : Z :=
  match n with
  | O => 0
  | S n' => Z.b2z (f lo) + count_if f (lo + 1) n'
  end.

Lemma count_if_ext f g lo n :
  (∀ p, lo ≤ p < lo + Z.of_nat n → f p = g p) → count_if f lo n = count_if g lo n.
Proof.
  revert lo. induction n as [|n IH]; intros lo H; simpl; [done|].
  rewrite (H lo), (IH (lo + 1)); [done|intros; apply H; lia|lia].
Qed.

Lemma count_if_bounds f lo n : 0 ≤ count_if f lo n ≤ Z.of_nat n.
Proof.
  revert lo. induction n as [|n IH]; intros lo; simpl; [lia|].
  specialize (IH (lo + 1)). destruct (f lo); simpl; lia.
Qed.

(** Changing [f] at one point of the range changes the count by one. *)
Lemma count_if_flip f g lo n p :
  lo ≤ p < lo + Z.of_nat n → f p = false → g p = true →
  (∀ q, lo ≤ q < lo + Z.of_nat n → q ≠ p → f q = g q) →
  count_if g lo n = count_if f lo n + 1.
Proof.
  revert lo. induction n as [|n IH]; intros lo Hp Hf Hg Hne; simpl; [lia|].
  destruct (Z.eq_dec p lo) as [->|Hlo].
  - rewrite Hf, Hg; simpl. rewrite (count_if_ext f g); [lia|].
    intros q Hq. apply Hne; lia.
  - rewrite (Hne lo), (IH (lo + 1)); [lia|lia|done|done| |lia|done].
    intros q Hq. apply Hne. lia.
Qed.

Lemma count_if_pos f lo n p :
  lo ≤ p < lo + Z.of_nat n → f p = true → 0 < count_if f lo n.
Proof.
  revert lo. induction n as [|n IH]; intros lo Hp Hf; simpl; [lia|].
  pose proof (count_if_bounds f (lo + 1) n).
  destruct (Z.eq_dec p lo) as [->|Hlo]; [rewrite Hf; simpl; lia|].
  specialize (IH (lo + 1) ltac:(lia) Hf). destruct (f lo); simpl; lia.
Qed.

Lemma count_if_false f lo n :
  (∀ p, lo ≤ p < lo + Z.of_nat n → f p = false) → count_if f lo n = 0.
Proof.
  revert lo. induction n as [|n IH]; intros lo H; simpl; [done|].
  rewrite (H lo), IH; [done|intros; apply H; lia|lia].
Qed.

(** The same over a half-open range of integers. *)
Definition count_range (f : Z → bool) (lo hi : Z) : Z := count_if f lo (Z.to_nat (hi - lo)).

Lemma count_range_ext f g lo hi :
  (∀ p, lo ≤ p < hi → f p = g p) → count_range f lo hi = count_range g lo hi.
Proof. intros H. apply count_if_ext. intros p Hp. apply H. lia. Qed.

Lemma count_range_bounds f lo hi : lo ≤ hi → 0 ≤ count_range f lo hi ≤ hi - lo.
Proof.
  intros H. pose proof (count_if_bounds f lo (Z.to_nat (hi - lo))).
  unfold count_range. lia.
Qed.

Lemma count_range_flip f g lo hi p :
  lo ≤ p < hi → f p = false → g p = true →
  (∀ q, lo ≤ q < hi → q ≠ p → f q = g q) →
  count_range g lo hi = count_range f lo hi + 1.
Proof.
  intros Hp Hf Hg Hne. apply (count_if_flip _ _ _ _ p); [lia|done|done|].
  intros q Hq. apply Hne. lia.
Qed.

Lemma count_range_pos f lo hi p : lo ≤ p < hi → f p = true → 0 < count_range f lo hi.
Proof. intros Hp Hf. apply (count_if_pos _ _ _ p); [lia|done]. Qed.

Lemma count_range_false f lo hi :
  (∀ p, lo ≤ p < hi → f p = false) → count_range f lo hi = 0.
Proof. intros H. apply count_if_false. intros p Hp. apply H. lia. Qed.

(** The count is reasoned about through these lemmas only: its ranges can be
    long, and conversion must not unfold them. *)
#[global] Opaque count_range.
