(* ===== verification/Mem.v ===== *)
(** * Byte-addressed memory

    The kernel runs on identity-mapped physical memory and reaches it through
    casted pointers (headers of heap blocks, page tables, the boot loader's
    tags).  A memory maps an address to a byte; 32- and 64-bit accesses are
    little-endian, as on x86_64. *)
From S2P Require Import Prelude.

Create HintDb mem.

Definition mem : Type := Z → Z.

Definition load8 (m : mem) (a : Z) : Z := m a.
Definition store8 (m : mem) (a v : Z) : mem :=
  fun x => if x =? a then wrap8 v else m x.

Definition load32 (m : mem) (a : Z) : Z :=
  m a + 256 * (m (a + 1) + 256 * (m (a + 2) + 256 * m (a + 3))).

Definition load64 (m : mem) (a : Z) : Z :=
  load32 m a + 4294967296 * load32 m (a + 4).

Definition store32 (m : mem) (a v : Z) : mem :=
  store8 (store8 (store8 (store8 m a v) (a + 1) (v / 256))
    (a + 2) (v / 65536)) (a + 3) (v / 16777216).

Definition store64 (m : mem) (a v : Z) : mem :=
  store32 (store32 m a v) (a + 4) (v / 4294967296).

(** Every cell holds a byte. *)
Definition mem_bytes (m : mem) : Prop := ∀ a, 0 ≤ m a < 256.

(** [m] and [m'] agree on [lo, hi). *)
Definition mem_agree (m m' : mem) (lo hi : Z) : Prop :=
  ∀ x, lo ≤ x < hi → m' x = m x.

Lemma mem_agree_refl m lo hi : mem_agree m m lo hi.
Proof. by intros x _. Qed.

Lemma mem_agree_trans m1 m2 m3 lo hi :
  mem_agree m1 m2 lo hi → mem_agree m2 m3 lo hi → mem_agree m1 m3 lo hi.
Proof. intros H1 H2 x Hx. by rewrite H2, H1. Qed.

Lemma mem_agree_sub m m' lo hi lo' hi' :
  mem_agree m m' lo hi → lo ≤ lo' → hi' ≤ hi → mem_agree m m' lo' hi'.
Proof. intros H Hl Hh x Hx. apply H. lia. Qed.

#[export] Hint Resolve mem_agree_refl : mem.

Lemma store8_other m a v x : x ≠ a → store8 m a v x = m x.
Proof. intros H. unfold store8. by destruct (Z.eqb_spec x a). Qed.

Lemma store8_same m a v : store8 m a v a = wrap8 v.
Proof. unfold store8. by rewrite Z.eqb_refl. Qed.

Lemma store32_other m a v x : x < a ∨ a + 4 ≤ x → store32 m a v x = m x.
Proof. intros H. unfold store32. rewrite !store8_other by lia. done. Qed.

Lemma store64_other m a v x : x < a ∨ a + 8 ≤ x → store64 m a v x = m x.
Proof. intros H. unfold store64. rewrite !store32_other by lia. done. Qed.

Lemma load32_ext m m' a : mem_agree m m' a (a + 4) → load32 m' a = load32 m a.
Proof. intros H. unfold load32. rewrite !H by lia. done. Qed.

Lemma load64_ext m m' a : mem_agree m m' a (a + 8) → load64 m' a = load64 m a.
Proof.
  intros H. unfold load64. rewrite !(load32_ext m m'); [done| |];
    eapply mem_agree_sub; eauto; lia.
Qed.

Lemma store8_agree m a v lo hi : hi ≤ a ∨ a < lo → mem_agree m (store8 m a v) lo hi.
Proof. intros H x Hx. apply store8_other. lia. Qed.

Lemma store32_agree m a v lo hi :
  hi ≤ a ∨ a + 4 ≤ lo → mem_agree m (store32 m a v) lo hi.
Proof. intros H x Hx. apply store32_other. lia. Qed.

Lemma store64_agree m a v lo hi :
  hi ≤ a ∨ a + 8 ≤ lo → mem_agree m (store64 m a v) lo hi.
Proof. intros H x Hx. apply store64_other. lia. Qed.

#[export] Hint Resolve store8_agree store32_agree store64_agree : mem.

Lemma load32_store32_same m a v : load32 (store32 m a v) a = wrap32 v.
Proof.
  unfold load32, store32.
  rewrite store8_same.
  rewrite (store8_other _ (a + 3) _ a), (store8_other _ (a + 2) _ a),
    (store8_other _ (a + 1) _ a), store8_same by lia.
  rewrite (store8_other _ (a + 3) _ (a + 1)), (store8_other _ (a + 2) _ (a + 1)),
    store8_same by lia.
  rewrite (store8_other _ (a + 3) _ (a + 2)), store8_same by lia.
  word_lia.
Qed.

Lemma load32_store32_other m a v b :
  b + 4 ≤ a ∨ a + 4 ≤ b → load32 (store32 m a v) b = load32 m b.
Proof. intros H. apply load32_ext, store32_agree. lia. Qed.

(** Reading back a stored 64-bit word; disjoint accesses do not interfere. *)
Lemma load64_store64_same m a v : load64 (store64 m a v) a = wrap64 v.
Proof.
  unfold load64, store64. rewrite load32_store32_same.
  rewrite load32_store32_other by lia. rewrite load32_store32_same. word_lia.
Qed.

Lemma load64_store64_other m a v b :
  b + 8 ≤ a ∨ a + 8 ≤ b → load64 (store64 m a v) b = load64 m b.
Proof. intros H. apply load64_ext, store64_agree. lia. Qed.

Lemma load64_store8_other m a v b :
  b + 8 ≤ a ∨ a < b → load64 (store8 m a v) b = load64 m b.
Proof. intros H. apply load64_ext, store8_agree. lia. Qed.

Lemma load8_store64_other m a v b :
  b < a ∨ a + 8 ≤ b → load8 (store64 m a v) b = load8 m b.
Proof. intros H. apply store64_other. lia. Qed.

Lemma load8_store8_same m a v : load8 (store8 m a v) a = wrap8 v.
Proof. apply store8_same. Qed.

Lemma load8_store8_other m a v b : b ≠ a → load8 (store8 m a v) b = load8 m b.
Proof. apply store8_other. Qed.

Lemma store8_bytes m a v : mem_bytes m → mem_bytes (store8 m a v).
Proof.
  intros H x. unfold store8. destruct (x =? a); [|apply H]. word_lia.
Qed.

Lemma store64_bytes m a v : mem_bytes m → mem_bytes (store64 m a v).
Proof. intros H. unfold store64, store32. by repeat apply store8_bytes. Qed.

#[export] Hint Resolve store8_bytes store64_bytes : mem.

Lemma load32_range m a : mem_bytes m → is_u32 (load32 m a).
Proof.
  intros H. unfold load32, is_u32.
  pose proof (H a). pose proof (H (a + 1)). pose proof (H (a + 2)).
  pose proof (H (a + 3)). lia.
Qed.

Lemma load64_range m a : mem_bytes m → is_u64 (load64 m a).
Proof.
  intros H. unfold load64, is_u64.
  pose proof (load32_range m a H). pose proof (load32_range m (a + 4) H).
  unfold is_u32 in *. lia.
Qed.

(** Simplify a load from a chain of stores whose addresses [lia] separates. *)
Ltac mem_simpl :=
  repeat first
    [ rewrite load64_store64_same
    | rewrite load8_store8_same
    | rewrite load64_store64_other by lia
    | rewrite load64_store8_other by lia
    | rewrite load8_store64_other by lia
    | rewrite load8_store8_other by lia ].

(** The [n] bytes from an address on. *)
Definition bytes_at (m : mem) (a : Z) (n : nat) : list Z := (fun i => m (a + Z.of_nat i)) <$> seq 0 n.

Lemma bytes_at_length m a n : length (bytes_at m a n) = n.
Proof. unfold bytes_at. by rewrite length_fmap, length_seq. Qed.

Lemma bytes_at_cons m a n : bytes_at m a (S n) = m a :: bytes_at m (a + 1) n.
Proof.
  unfold bytes_at. cbn [seq fmap list_fmap]. rewrite Z.add_0_r. f_equal.
  rewrite <- fmap_S_seq, <- list_fmap_compose. apply list_fmap_ext. intros i x _. cbn. f_equal. lia.
Qed.

Lemma bytes_at_add m a n1 n2 : bytes_at m a (n1 + n2) = bytes_at m a n1 ++ bytes_at m (a + Z.of_nat n1) n2.
Proof.
  revert a. induction n1 as [|n IH]; intros a; cbn [Nat.add].
  - by rewrite Z.add_0_r.
  - rewrite !bytes_at_cons, IH. cbn [app]. do 3 f_equal. lia.
Qed.

Lemma bytes_at_shift m m' a b n :
  (∀ i, 0 ≤ i < Z.of_nat n → m' (a + i) = m (b + i)) → bytes_at m' a n = bytes_at m b n.
Proof.
  intros H. apply list_fmap_ext. intros i x Hx. apply lookup_seq in Hx as [-> Hi]. apply H. lia.
Qed.

Lemma bytes_at_ext m m' a n :
  (∀ x, a ≤ x < a + Z.of_nat n → m' x = m x) → bytes_at m' a n = bytes_at m a n.
Proof. intros H. apply bytes_at_shift. intros i Hi. apply H. lia. Qed.

(** A memory that holds the given 32-bit words from [base] on, and 0 elsewhere;
    used for concrete inputs. *)
Definition mem_image (base : Z) (words : list Z) : mem := fun a =>
  if a <? base then 0
  else wrap8 (default 0 (words !! Z.to_nat ((a - base) / 4)) / 2 ^ (8 * ((a - base) mod 4))).

Lemma mem_image_bytes base words : mem_bytes (mem_image base words).
Proof. intros a. unfold mem_image. destruct (a <? base); word_lia. Qed.
