(* ===== verification/LibString.v ===== *)
(** * lib/string.c: memory and string primitives

    Each function works on the byte memory [Mem.mem]; the C return value
    [dst] is the argument and is not repeated.  Loops bounded by a count run
    by recursion on the count.  Loops that look for a terminating NUL take
    fuel, and their theorems show that any fuel larger than the string is
    enough.  Index arithmetic on the buffers is not wrapped: an object does
    not straddle the end of the address space. *)
From S2P Require Import Prelude Mem.

(** ** memset, memcpy, memmove, memcmp *)

(** [while (n--) *p++ = (uint8_t)c;] *)
Fixpoint memset_loop (c : Z) (n : nat) (p : Z) (m : mem) : mem :=
  match n with
  | O => m
  | S n' => memset_loop c n' (p + 1) (store8 m p c)
  end.
Definition memset (dst c n : Z) (m : mem) : mem := memset_loop c (Z.to_nat n) dst m.

(** [while (n--) *d++ = *s++;] *)
Fixpoint copy_up (n : nat) (d s : Z) (m : mem) : mem :=
  match n with
  | O => m
  | S n' => copy_up n' (d + 1) (s + 1) (store8 m d (load8 m s))
  end.
Definition memcpy (dst src n : Z) (m : mem) : mem := copy_up (Z.to_nat n) dst src m.

(** [while (n--) *--d = *--s;] *)
Fixpoint copy_down (n : nat) (d s : Z) (m : mem) : mem :=
  match n with
  | O => m
  | S n' => copy_down n' (d - 1) (s - 1) (store8 m (d - 1) (load8 m (s - 1)))
  end.
Definition memmove (dst src n : Z) (m : mem) : mem :=
  if dst <? src then copy_up (Z.to_nat n) dst src m
  else if src <? dst then copy_down (Z.to_nat n) (dst + n) (src + n) m
  else m.

Fixpoint memcmp_loop (m : mem) (n : nat) (p q : Z) : Z :=
  match n with
  | O => 0
  | S n' =>
      if load8 m p =? load8 m q then memcmp_loop m n' (p + 1) (q + 1)
      else load8 m p - load8 m q
  end.
Definition memcmp (a b n : Z) (m : mem) : Z := memcmp_loop m (Z.to_nat n) a b.

(** ** What they compute *)

Lemma memset_loop_at c n p m x :
  memset_loop c n p m x =
    if (p <=? x) && (x <? p + Z.of_nat n) then wrap8 c else m x.
Proof.
  revert p m. induction n as [|n IH]; intros p m; simpl.
  - zcases; (done || lia).
  - rewrite IH. unfold store8.
    zcases; (done || lia).
Qed.

Lemma memset_at dst c n m x :
  0 ≤ n →
  memset dst c n m x = if (dst <=? x) && (x <? dst + n) then wrap8 c else m x.
Proof.
  intros Hn. unfold memset. rewrite memset_loop_at.
  by replace (Z.of_nat (Z.to_nat n)) with n by lia.
Qed.

Lemma memset_in dst c n m x : dst ≤ x < dst + n → memset dst c n m x = wrap8 c.
Proof.
  intros H. rewrite memset_at by lia.
  zcases; (done || lia).
Qed.

Lemma memset_out dst c n m x :
  0 ≤ n → x < dst ∨ dst + n ≤ x → memset dst c n m x = m x.
Proof.
  intros Hn H. rewrite memset_at by lia.
  zcases; (done || lia).
Qed.

Lemma memset_agree dst c n m lo hi :
  0 ≤ n → hi ≤ dst ∨ dst + n ≤ lo → mem_agree m (memset dst c n m) lo hi.
Proof. intros Hn H x Hx. apply memset_out; lia. Qed.
#[export] Hint Resolve memset_agree : mem.

Lemma memset_bytes dst c n m : mem_bytes m → mem_bytes (memset dst c n m).
Proof.
  intros H x. unfold memset. rewrite memset_loop_at.
  destruct (_ && _); [word_lia|apply H].
Qed.

Lemma load64_memset_zero dst n m a :
  dst ≤ a → a + 8 ≤ dst + n → load64 (memset dst 0 n m) a = 0.
Proof.
  intros Hl Hh. unfold load64, load32. rewrite !memset_in by lia. done.
Qed.

(** A forward copy reads only bytes it has not written yet when the source
    starts at or above the destination, a backward copy when it starts below. *)
Lemma copy_up_at n d s m x :
  d < s ∨ s + Z.of_nat n ≤ d → mem_bytes m →
  copy_up n d s m x =
    if (d <=? x) && (x <? d + Z.of_nat n) then m (s + (x - d)) else m x.
Proof.
  revert d s m. induction n as [|n IH]; intros d s m Hds Hm; simpl.
  - zcases; (done || lia).
  - rewrite IH by (lia || by apply store8_bytes).
    unfold store8, load8. rewrite wrap8_byte by apply Hm.
    zcases; (lia || f_equal; lia).
Qed.

Lemma copy_down_at n d s m x :
  s < d ∨ d ≤ s - Z.of_nat n → mem_bytes m →
  copy_down n d s m x =
    if (d - Z.of_nat n <=? x) && (x <? d) then m (s + (x - d)) else m x.
Proof.
  revert d s m. induction n as [|n IH]; intros d s m Hds Hm; simpl.
  - zcases; (done || lia).
  - rewrite IH by (lia || by apply store8_bytes).
    unfold store8, load8. rewrite wrap8_byte by apply Hm.
    zcases; (lia || f_equal; lia).
Qed.

Lemma memcpy_at dst src n m x :
  0 ≤ n → dst < src ∨ src + n ≤ dst → mem_bytes m →
  memcpy dst src n m x =
    if (dst <=? x) && (x <? dst + n) then m (src + (x - dst)) else m x.
Proof.
  intros Hn H Hm. unfold memcpy.
  rewrite copy_up_at; [|lia|done]. by rewrite Z2Nat.id by lia.
Qed.

Lemma memmove_at dst src n m x :
  0 ≤ n → mem_bytes m →
  memmove dst src n m x = if (dst <=? x) && (x <? dst + n) then m (src + (x - dst)) else m x.
Proof.
  intros Hn Hm. unfold memmove.
  destruct (Z.ltb_spec dst src); [|destruct (Z.ltb_spec src dst)].
  - rewrite copy_up_at; [|lia|done]. by rewrite Z2Nat.id by lia.
  - rewrite copy_down_at; [|lia|done]. rewrite Z2Nat.id by lia.
    replace (dst + n - n) with dst by lia.
    by replace (src + n + (x - (dst + n))) with (src + (x - dst)) by lia.
  - replace src with dst by lia. replace (dst + (x - dst)) with x by lia.
    by destruct (_ && _).
Qed.

(** (Property) [memmove] copies correctly for every overlap of the two buffers:
    afterwards each destination byte holds the byte its source cell had before
    the call, and no other byte changes. *)
Theorem memmove_any_overlap (dst src n : Z) (m : mem) (Hn : 0 ≤ n) (Hm : mem_bytes m) :
  ∀ x, memmove dst src n m x =
    if (dst <=? x) && (x <? dst + n) then m (src + (x - dst)) else m x.
Proof. intros x. by apply memmove_at. Qed.
