(* ===== verification/PageAlloc.v ===== *)
(** * The interface of the physical page allocator

    What kernel/mm/pmm.h promises to its callers (the heap, the page tables,
    processes, shared memory): the operations, an abstract view of the set of
    used pages, and the laws.  Pmm.v shows that the bitmap allocator satisfies
    the laws; the clients are modelled and proved against this interface. *)
From S2P Require Import Prelude.

(** 4 GiB of physical memory in 4 KiB pages. *)
Definition PAGE_LIMIT : Z := 1048576.

Class PageAlloc (A : Type) : Type := {
  alloc_page : kop A Z;             (* pmm_alloc_page *)
  alloc_pages : Z → kop A Z;        (* pmm_alloc_pages *)
  free_page : Z → A → A;            (* pmm_free_page *)
  free_pages : Z → Z → A → A;       (* pmm_free_pages *)
  used_page : A → Z → bool;         (* the abstract view: page number to bit *)
  alloc_inv : A → Prop;
}.

(** [a'] is [a] with the [n] pages from [phys] taken, which were all free. *)
Record grabbed `{PageAlloc A} (phys n : Z) (a a' : A) : Prop := mk_grabbed {
  grabbed_aligned : phys mod PAGE_SIZE = 0;
  grabbed_low : 0 ≤ phys;
  grabbed_high : phys / PAGE_SIZE + n ≤ PAGE_LIMIT;
  grabbed_free : ∀ q, phys / PAGE_SIZE ≤ q < phys / PAGE_SIZE + n → used_page a q = false;
  grabbed_used : ∀ q, 0 ≤ q < PAGE_LIMIT → used_page a' q =
    ((phys / PAGE_SIZE <=? q) && (q <? phys / PAGE_SIZE + n)) || used_page a q;
  grabbed_inv : alloc_inv a';
}.

(** [a'] is [a] with the [n] pages from [phys] free. *)
Record dropped `{PageAlloc A} (phys n : Z) (a a' : A) : Prop := mk_dropped {
  dropped_used : ∀ q, 0 ≤ q < PAGE_LIMIT → used_page a' q =
    negb ((phys / PAGE_SIZE <=? q) && (q <? phys / PAGE_SIZE + n)) && used_page a q;
  dropped_inv : alloc_inv a';
}.

Class PageAllocSpec (A : Type) `{PageAlloc A} : Prop := {
  alloc_page_spec : ∀ a, alloc_inv a →
    match alloc_page a with
    | Ok (phys, a') => grabbed phys 1 a a'
    | Panic _ => ∀ q, 0 ≤ q < PAGE_LIMIT → used_page a q = true
    | _ => False
    end;
  alloc_pages_zero : ∀ a, alloc_pages 0 a = Ok (0, a);
  alloc_pages_spec : ∀ n a, alloc_inv a → 1 ≤ n < 18446744073709551616 →
    match alloc_pages n a with
    | Ok (phys, a') => grabbed phys n a a'
    | Panic _ => ∀ p, 0 ≤ p → p + n ≤ PAGE_LIMIT →
        ¬ (∀ q, p ≤ q < p + n → used_page a q = false)
    | _ => False
    end;
  free_page_spec : ∀ phys a, alloc_inv a → phys mod PAGE_SIZE = 0 →
    0 ≤ phys / PAGE_SIZE < PAGE_LIMIT → dropped phys 1 a (free_page phys a);
  free_pages_spec : ∀ phys n a, alloc_inv a → phys mod PAGE_SIZE = 0 →
    0 ≤ phys → 0 ≤ n → phys / PAGE_SIZE + n ≤ PAGE_LIMIT →
    dropped phys n a (free_pages phys n a);
}.

(** A measure of what is left: with [room n] any requests for [n] pages in all are
    granted, one after the other. *)
Class PageAllocRoom (A : Type) `{PageAlloc A} : Type := {
  room : Z → A → Prop;
  room_page : ∀ n a, 0 ≤ n → room (n + 1) a → ∃ phys a', alloc_page a = Ok (phys, a') ∧ room n a';
  room_pages : ∀ n k a, 0 ≤ n → 1 ≤ k → room (n + k) a → ∃ phys a', alloc_pages k a = Ok (phys, a') ∧ room n a';
}.

Section Laws.
Context `{PageAllocSpec A}.
Implicit Types a : A.

(** Every page handed out by one allocation is distinct from every page that
    was in use before it. *)
Lemma grabbed_fresh phys n a a' q :
  grabbed phys n a a' → used_page a q = true →
  q < phys / PAGE_SIZE ∨ phys / PAGE_SIZE + n ≤ q.
Proof.
  intros Hg Hu.
  destruct (Z.lt_ge_cases q (phys / PAGE_SIZE)); [by left|].
  destruct (Z.le_gt_cases (phys / PAGE_SIZE + n) q); [by right|].
  by rewrite (grabbed_free _ _ _ _ Hg) in Hu by lia.
Qed.

Lemma grabbed_keeps phys n a a' q :
  grabbed phys n a a' → 0 ≤ q < PAGE_LIMIT → used_page a q = true →
  used_page a' q = true.
Proof.
  intros Hg Hq Hu. rewrite (grabbed_used _ _ _ _ Hg) by done.
  by rewrite Hu, orb_true_r.
Qed.

Lemma grabbed_takes phys n a a' q :
  grabbed phys n a a' → phys / PAGE_SIZE ≤ q < phys / PAGE_SIZE + n →
  used_page a' q = true.
Proof.
  intros Hg Hq. rewrite (grabbed_used _ _ _ _ Hg).
  - zcases; (done || lia).
  - pose proof (grabbed_low _ _ _ _ Hg). pose proof (grabbed_high _ _ _ _ Hg).
    assert (0 ≤ phys / PAGE_SIZE) by (unfold PAGE_SIZE; Z.div_mod_to_equations; lia).
    lia.
Qed.
End Laws.
