(* ===== verification/Pmm.v ===== *)
(** * kernel/mm/pmm.c: the physical memory manager

    A bitmap with one bit per 4 KiB page (0 = free, 1 = used), a count of the
    free pages and an allocation hint.  The static variables of pmm.c are the
    fields of [pmm]; the bitmap is the list of its 64-bit words. *)
From S2P Require Import Prelude Mem PageAlloc.

Definition PMM_MAX_PAGES : Z := 1048576.
Definition BITMAP_WORDS : Z := PMM_MAX_PAGES / 64.

Record pmm : Type := mk_pmm {
  pmm_bitmap : list Z;
  pmm_total_phys_pages : Z;
  pmm_free_phys_pages : Z;
  pmm_last_free_hint : Z;
}.

Definition set_bitmap (b : list Z) (s : pmm) : pmm :=
  mk_pmm b (pmm_total_phys_pages s) (pmm_free_phys_pages s) (pmm_last_free_hint s).
Definition set_total (t : Z) (s : pmm) : pmm :=
  mk_pmm (pmm_bitmap s) t (pmm_free_phys_pages s) (pmm_last_free_hint s).
Definition set_free (f : Z) (s : pmm) : pmm :=
  mk_pmm (pmm_bitmap s) (pmm_total_phys_pages s) f (pmm_last_free_hint s).
Definition set_hint (h : Z) (s : pmm) : pmm :=
  mk_pmm (pmm_bitmap s) (pmm_total_phys_pages s) (pmm_free_phys_pages s) h.

(** ** Bitmap helpers *)

Definition bitmap_word (b : list Z) (page : Z) : Z := b !!! Z.to_nat (page / 64).

Definition bitmap_set (b : list Z) (page : Z) : list Z :=
  <[Z.to_nat (page / 64) := Z.lor (bitmap_word b page) (BIT (page mod 64))]> b.

Definition bitmap_clear (b : list Z) (page : Z) : list Z :=
  <[Z.to_nat (page / 64) :=
      Z.land (bitmap_word b page) (~₆₄ BIT (page mod 64))]> b.

Definition bitmap_test (b : list Z) (page : Z) : bool :=
  negb (Z.land (bitmap_word b page) (BIT (page mod 64)) =? 0).

(** ** Allocation and release *)

(** The step all allocators share: [bitmap_set(i); pmm_free_phys_pages--]. *)
Definition take_page (i : Z) (s : pmm) : pmm :=
  set_free (pmm_free_phys_pages s -₆₄ 1) (set_bitmap (bitmap_set (pmm_bitmap s) i) s).

(** The step all releases share: [bitmap_clear(i); pmm_free_phys_pages++]. *)
Definition give_page (i : Z) (s : pmm) : pmm :=
  set_free (pmm_free_phys_pages s +₆₄ 1) (set_bitmap (bitmap_clear (pmm_bitmap s) i) s).

(** One of the two scans of [pmm_alloc_page]: the body of the [for] loop. *)
Definition alloc_page_body (i : Z) (s : pmm) : pmm + (Z * pmm) :=
  if bitmap_test (pmm_bitmap s) i then inl s
  else inr (i *₆₄ PAGE_SIZE, set_hint (i +₆₄ 1) (take_page i s)).

Definition pmm_alloc_page : kop pmm Z := fun s =>
  match c_for_ret (pmm_last_free_hint s) PMM_MAX_PAGES alloc_page_body s with
  | inr r => Ok r
  | inl s1 =>
      match c_for_ret 0 (pmm_last_free_hint s1) alloc_page_body s1 with
      | inr r => Ok r
      | inl _ => Panic "PMM: out of physical memory!"
      end
  end.

(** The loop state of [pmm_alloc_pages]: the start and the length of the run
    of free pages that ends just below [i]. *)
Definition alloc_pages_body (count i : Z) (st : pmm * (Z * Z))
    : pmm * (Z * Z) + (Z * pmm) :=
  let '(s, (start, run)) := st in
  if bitmap_test (pmm_bitmap s) i then inl (s, (start, 0))
  else
    let start := if run =? 0 then i else start in
    let run := run +₆₄ 1 in
    if run =? count
    then inr (start *₆₄ PAGE_SIZE, c_for start (start +₆₄ count) take_page s)
    else inl (s, (start, run)).

Definition pmm_alloc_pages (count : Z) : kop pmm Z := fun s =>
  if count =? 0 then Ok (0, s)
  else if count =? 1 then pmm_alloc_page s
  else
    match c_for_ret 0 PMM_MAX_PAGES (alloc_pages_body count) (s, (0, 0)) with
    | inr r => Ok r
    | inl _ => Panic "PMM: cannot allocate contiguous pages"
    end.

Definition pmm_free_page (phys : Z) (s : pmm) : pmm :=
  let page := phys / PAGE_SIZE in
  if PMM_MAX_PAGES <=? page then s
  else if negb (bitmap_test (pmm_bitmap s) page) then s
  else
    let s1 := give_page page s in
    if page <? pmm_last_free_hint s1 then set_hint page s1 else s1.

Definition pmm_free_pages (phys count : Z) (s : pmm) : pmm :=
  c_for 0 count (fun i => pmm_free_page (phys +₆₄ (i *₆₄ PAGE_SIZE))) s.

Definition mark_used_body (i : Z) (s : pmm) : pmm :=
  if bitmap_test (pmm_bitmap s) i then s
  else
    let s1 := set_bitmap (bitmap_set (pmm_bitmap s) i) s in
    if 0 <? pmm_free_phys_pages s1
    then set_free (pmm_free_phys_pages s1 -₆₄ 1) s1 else s1.

(** [i < start + count && i < PMM_MAX_PAGES] is [i < min (start + count) MAX]. *)
Definition pmm_mark_used (phys size : Z) (s : pmm) : pmm :=
  let start := phys / PAGE_SIZE in
  let count := ALIGN_UP64 size PAGE_SIZE / PAGE_SIZE in
  c_for start (Z.min (start +₆₄ count) PMM_MAX_PAGES) mark_used_body s.

Definition mark_free_body (i : Z) (s : pmm) : pmm :=
  if bitmap_test (pmm_bitmap s) i then give_page i s else s.

Definition pmm_mark_free (phys size : Z) (s : pmm) : pmm :=
  let start := phys / PAGE_SIZE in
  let count := size / PAGE_SIZE in
  c_for start (Z.min (start +₆₄ count) PMM_MAX_PAGES) mark_free_body s.

Record pmm_stats : Type := mk_pmm_stats {
  total_pages : Z;
  free_pages : Z;
  used_pages : Z;
  reserved_pages : Z;
}.

Definition pmm_get_stats (s : pmm) : pmm_stats :=
  mk_pmm_stats (pmm_total_phys_pages s) (pmm_free_phys_pages s)
    (pmm_total_phys_pages s -₆₄ pmm_free_phys_pages s) 0.

Definition pmm_total_memory (s : pmm) : Z := pmm_total_phys_pages s *₆₄ PAGE_SIZE.

(** ** Initialisation from the Multiboot2 memory map *)

Definition MB2_TAG_TYPE_MMAP : Z := 6.
Definition MB2_MMAP_TYPE_AVAILABLE : Z := 1.

(** [e = &mmap->entries[i]]: entries start 16 bytes into the tag and are
    [sizeof(mb2_mmap_entry_t)] = 24 bytes apart. *)
Record mmap_entry : Type := mk_mmap_entry {
  base_addr : Z;
  length_ : Z;
  type_ : Z;
}.
Definition mmap_entry_at (m : mem) (tag i : Z) : mmap_entry :=
  let e := tag + 16 + 24 * i in
  mk_mmap_entry (load64 m e) (load64 m (e + 8)) (load32 m (e + 16)).

(** The body of the available-pages loop: clear the bit, count the page twice. *)
Definition avail_page_body (p : Z) (s : pmm) : pmm :=
  let s1 := give_page p s in
  set_total (pmm_total_phys_pages s1 +₆₄ 1) s1.

Definition init_entry (e : mmap_entry) (s : pmm) : pmm :=
  let start_page := base_addr e / PAGE_SIZE in
  let page_count := length_ e / PAGE_SIZE in
  if type_ e =? MB2_MMAP_TYPE_AVAILABLE
  then c_for start_page (Z.min (start_page +₆₄ page_count) PMM_MAX_PAGES)
         avail_page_body s
  else set_total (pmm_total_phys_pages s +₆₄ page_count) s.

(** One memory-map tag.  [mmap->entry_size] = 0 divides by zero. *)
Definition init_mmap_tag (m : mem) (tag : Z) (s : pmm) : outcome pmm :=
  let entry_size := load32 m (tag + 8) in
  if entry_size =? 0 then Undef "division by zero"
  else
    let n := (load32 m (tag + 4) -₃₂ 16) / entry_size in
    Ok (c_for 0 n (fun i => init_entry (mmap_entry_at m tag i)) s).

(** [while (tag_ptr < end_ptr)]: a tag of size 0 makes no progress, so the
    walk takes fuel. *)
Fixpoint init_tags (fuel : nat) (m : mem) (tag_ptr end_ptr : Z) (s : pmm) : outcome pmm :=
  match fuel with
  | O => Diverge
  | S fuel' =>
      if negb (tag_ptr <? end_ptr) then Ok s
      else if load32 m tag_ptr =? 0 then Ok s
      else
        s1 ← (if load32 m tag_ptr =? MB2_TAG_TYPE_MMAP
              then init_mmap_tag m tag_ptr s else Ok s);
        init_tags fuel' m (tag_ptr + ALIGN_UP32 (load32 m (tag_ptr + 4)) 8) end_ptr s1
  end.

(** The low 1 MiB: [for (p = 0; p < 256 && p < PMM_MAX_PAGES; p++)]. *)
Definition low_page_body (p : Z) (s : pmm) : pmm :=
  if bitmap_test (pmm_bitmap s) p then s else take_page p s.

(** [memset(pmm_bitmap, 0xFF, ...)] and the two counters; the hint keeps its
    static initial value (pmm_init runs once, at boot). *)
Definition pmm_reset (s : pmm) : pmm :=
  mk_pmm (replicate (Z.to_nat BITMAP_WORDS) 18446744073709551615) 0 0
    (pmm_last_free_hint s).

Definition pmm_init (fuel : nat) (m : mem) (mb2_info_phys : Z) (s : pmm) : outcome pmm :=
  let s0 := pmm_reset s in
  if mb2_info_phys =? 0 then Ok s0
  else
    let total_size := load32 m mb2_info_phys in
    s1 ← init_tags fuel m (mb2_info_phys + 8) (mb2_info_phys + total_size) s0;
    let s2 := c_for 0 (Z.min 256 PMM_MAX_PAGES) low_page_body s1 in
    Ok (pmm_mark_used KERNEL_PHYS_BASE (3 * 1024 * 1024) s2).

(** The static initial values of the variables of pmm.c. *)
Definition pmm_static : pmm := mk_pmm (replicate (Z.to_nat BITMAP_WORDS) 0) 0 0 0.

(** ** Invariant *)

Definition is_page (p : Z) : Prop := 0 ≤ p < PMM_MAX_PAGES.
Definition page_used (s : pmm) (p : Z) : bool := bitmap_test (pmm_bitmap s) p.
Definition free_count (s : pmm) : Z :=
  count_range (fun p => negb (page_used s p)) 0 PMM_MAX_PAGES.

Definition bitmap_wf (b : list Z) : Prop :=
  length b = Z.to_nat BITMAP_WORDS ∧ Forall is_u64 b.

(** The bitmap is an array of 16384 words, the counter is the number of clear
    bits and the hint stays within the scanned range. *)
Record pmm_inv (s : pmm) : Prop := mk_pmm_inv {
  inv_bitmap : bitmap_wf (pmm_bitmap s);
  inv_free : pmm_free_phys_pages s = free_count s;
  inv_hint : 0 ≤ pmm_last_free_hint s ≤ PMM_MAX_PAGES;
}.

Create HintDb pmm.

Lemma bitmap_test_testbit b q :
  bitmap_test b q = Z.testbit (bitmap_word b q) (q mod 64).
Proof. apply land_bit. word_lia. Qed.

Lemma page_word_bound p : is_page p → (Z.to_nat (p / 64) < Z.to_nat BITMAP_WORDS)%nat.
Proof. unfold is_page, BITMAP_WORDS, PMM_MAX_PAGES. word_lia. Qed.

Lemma same_word p q : is_page p → is_page q →
  Z.to_nat (p / 64) = Z.to_nat (q / 64) → p / 64 = q / 64.
Proof. unfold is_page. word_lia. Qed.

(** Both updates are an update of one word at one bit. *)
Lemma bitmap_word_insert b p q w :
  bitmap_wf b → is_page p → is_page q →
  bitmap_word (<[Z.to_nat (p / 64) := w]> b) q =
    if q / 64 =? p / 64 then w else bitmap_word b q.
Proof.
  intros [Hlen _] Hp Hq. unfold bitmap_word.
  destruct (Z.eqb_spec (q / 64) (p / 64)) as [->|Hne].
  - apply list_lookup_total_insert_eq. rewrite Hlen. by apply page_word_bound.
  - apply list_lookup_total_insert_ne. intros Heq. apply Hne. symmetry.
    by apply same_word.
Qed.

Lemma bitmap_test_set b p q :
  bitmap_wf b → is_page p → is_page q →
  bitmap_test (bitmap_set b p) q = (q =? p) || bitmap_test b q.
Proof.
  intros Hb Hp Hq. rewrite !bitmap_test_testbit. unfold bitmap_set.
  rewrite bitmap_word_insert by done.
  destruct (Z.eqb_spec (q / 64) (p / 64)) as [He|Hne].
  - rewrite Z.lor_spec. unfold BIT. rewrite Z.shiftl_1_l, Z.pow2_bits_eqb by word_lia.
    assert (bitmap_word b p = bitmap_word b q) as -> by (unfold bitmap_word; by rewrite He).
    rewrite orb_comm. f_equal. zcases; word_lia.
  - destruct (Z.eqb_spec q p) as [->|]; [lia|done].
Qed.

Lemma bitmap_test_clear b p q :
  bitmap_wf b → is_page p → is_page q →
  bitmap_test (bitmap_clear b p) q = negb (q =? p) && bitmap_test b q.
Proof.
  intros Hb Hp Hq. rewrite !bitmap_test_testbit. unfold bitmap_clear.
  rewrite bitmap_word_insert by done.
  destruct (Z.eqb_spec (q / 64) (p / 64)) as [He|Hne].
  - rewrite Z.land_spec, wrap64_testbit, Z.lnot_spec by word_lia. unfold BIT.
    rewrite Z.shiftl_1_l, Z.pow2_bits_eqb by word_lia.
    assert (bitmap_word b p = bitmap_word b q) as -> by (unfold bitmap_word; by rewrite He).
    replace (q mod 64 <? 64) with true by (symmetry; apply Z.ltb_lt; word_lia).
    rewrite andb_comm. simpl. f_equal. f_equal. zcases; word_lia.
  - destruct (Z.eqb_spec q p) as [->|]; [lia|done].
Qed.

Lemma bitmap_word_u64 b p : bitmap_wf b → is_page p → is_u64 (bitmap_word b p).
Proof.
  intros [Hlen Hall] Hp. unfold bitmap_word.
  eapply Forall_lookup_total_1; [done|]. rewrite Hlen. by apply page_word_bound.
Qed.

Lemma bitmap_set_wf b p : bitmap_wf b → is_page p → bitmap_wf (bitmap_set b p).
Proof.
  intros Hb Hp. pose proof (bitmap_word_u64 b p Hb Hp). destruct Hb as [Hlen Hall].
  split; unfold bitmap_set; [by rewrite length_insert|].
  apply Forall_insert; [done|]. apply lor_u64; [done|]. apply bit_u64. word_lia.
Qed.

Lemma bitmap_clear_wf b p : bitmap_wf b → is_page p → bitmap_wf (bitmap_clear b p).
Proof.
  intros Hb Hp. pose proof (bitmap_word_u64 b p Hb Hp). destruct Hb as [Hlen Hall].
  split; unfold bitmap_clear; [by rewrite length_insert|].
  apply Forall_insert; [done|]. by apply land_u64.
Qed.
#[export] Hint Resolve bitmap_set_wf bitmap_clear_wf : pmm.

(** ** The elementary steps *)

Lemma page_used_take s p q :
  bitmap_wf (pmm_bitmap s) → is_page p → is_page q →
  page_used (take_page p s) q = (q =? p) || page_used s q.
Proof. intros. unfold page_used. simpl. by apply bitmap_test_set. Qed.

Lemma page_used_give s p q :
  bitmap_wf (pmm_bitmap s) → is_page p → is_page q →
  page_used (give_page p s) q = negb (q =? p) && page_used s q.
Proof. intros. unfold page_used. simpl. by apply bitmap_test_clear. Qed.

Lemma free_count_bounds s : 0 ≤ free_count s ≤ PMM_MAX_PAGES.
Proof.
  unfold free_count. pose proof (count_range_bounds (fun p => negb (page_used s p))
    0 PMM_MAX_PAGES). unfold PMM_MAX_PAGES in *. lia.
Qed.

Lemma free_count_take s p :
  bitmap_wf (pmm_bitmap s) → is_page p → page_used s p = false →
  free_count (take_page p s) = free_count s - 1.
Proof.
  intros Hb Hp Hu. unfold free_count.
  rewrite (count_range_flip (fun q => negb (page_used (take_page p s) q))
    (fun q => negb (page_used s q)) _ _ p); [lia|done| | |].
  - by rewrite page_used_take, Z.eqb_refl.
  - by rewrite Hu.
  - intros q Hq Hne. rewrite page_used_take by done.
    by destruct (Z.eqb_spec q p).
Qed.

Lemma free_count_give s p :
  bitmap_wf (pmm_bitmap s) → is_page p → page_used s p = true →
  free_count (give_page p s) = free_count s + 1.
Proof.
  intros Hb Hp Hu. unfold free_count. apply (count_range_flip _ _ _ _ p).
  - done.
  - by rewrite Hu.
  - by rewrite page_used_give, Z.eqb_refl.
  - intros q Hq Hne. rewrite page_used_give by done.
    by destruct (Z.eqb_spec q p).
Qed.

Lemma free_count_ext s s' :
  (∀ q, is_page q → page_used s' q = page_used s q) → free_count s' = free_count s.
Proof.
  intros H. apply count_range_ext. intros q Hq. by rewrite H.
Qed.

Lemma free_count_pos s p :
  is_page p → page_used s p = false → 0 < free_count s.
Proof.
  intros Hp Hu. eapply count_range_pos; [done|]. by rewrite Hu.
Qed.

Lemma take_page_free s p :
  pmm_inv s → is_page p → page_used s p = false →
  pmm_free_phys_pages (take_page p s) = pmm_free_phys_pages s - 1.
Proof.
  intros [Hb Hf Hh] Hp Hu. simpl. pose proof (free_count_pos s p Hp Hu).
  pose proof (free_count_bounds s). rewrite Hf, wrap64_small; [done|].
  unfold PMM_MAX_PAGES in *. lia.
Qed.

Lemma give_page_free s p :
  pmm_inv s → is_page p →
  pmm_free_phys_pages (give_page p s) = pmm_free_phys_pages s + 1.
Proof.
  intros [Hb Hf Hh] Hp. simpl. pose proof (free_count_bounds s).
  rewrite Hf, wrap64_small; [done|]. unfold PMM_MAX_PAGES in *. lia.
Qed.

Lemma take_page_inv s p :
  pmm_inv s → is_page p → page_used s p = false → pmm_inv (take_page p s).
Proof.
  intros Hi Hp Hu. pose proof (take_page_free s p Hi Hp Hu) as Hfree.
  destruct Hi as [Hb Hf Hh]. split; [simpl; by auto with pmm| |done].
  rewrite Hfree, free_count_take by done. lia.
Qed.

Lemma give_page_inv s p :
  pmm_inv s → is_page p → page_used s p = true → pmm_inv (give_page p s).
Proof.
  intros Hi Hp Hu. pose proof (give_page_free s p Hi Hp) as Hfree.
  destruct Hi as [Hb Hf Hh]. split; [simpl; by auto with pmm| |done].
  rewrite Hfree, free_count_give by done. lia.
Qed.

Lemma set_hint_inv s h : pmm_inv s → 0 ≤ h ≤ PMM_MAX_PAGES → pmm_inv (set_hint h s).
Proof.
  intros [Hb Hf Hh] H. split; [done| |done].
  by rewrite (free_count_ext s (set_hint h s)).
Qed.
#[export] Hint Resolve take_page_inv give_page_inv set_hint_inv : pmm.

Lemma set_hint_used s h q : page_used (set_hint h s) q = page_used s q.
Proof. done. Qed.

(** [s'] is [s] with the pages of [lo, hi) taken. *)
Record taken (lo hi : Z) (s s' : pmm) : Prop := mk_taken {
  taken_inv : pmm_inv s';
  taken_used : ∀ q, is_page q →
    page_used s' q = ((lo <=? q) && (q <? hi)) || page_used s q;
  taken_free : pmm_free_phys_pages s' = pmm_free_phys_pages s - (hi - lo);
  taken_total : pmm_total_phys_pages s' = pmm_total_phys_pages s;
}.

Definition free_run (s : pmm) (start count : Z) : Prop :=
  ∀ q, start ≤ q < start + count → page_used s q = false.

Lemma taken_refl s lo : pmm_inv s → taken lo lo s s.
Proof.
  intros Hi. split; [done| |lia|done].
  intros q _. zcases; (done || lia).
Qed.

Lemma taken_step s s' lo i :
  taken lo i s s' → lo ≤ i → is_page i → page_used s i = false →
  taken lo (i + 1) s (take_page i s').
Proof.
  intros [Hi Hu Hf Ht] Hlo Hp Hfree.
  assert (page_used s' i = false) as Hu'.
  { rewrite Hu, Hfree by done. zcases; (done || lia). }
  split; [by auto with pmm| | |done].
  - intros q Hq. rewrite page_used_take by (done || apply Hi). rewrite Hu by done.
    zcases; (done || lia).
  - rewrite take_page_free by done. lia.
Qed.

Lemma take_run s start count :
  pmm_inv s → 0 ≤ start → 0 ≤ count → start + count ≤ PMM_MAX_PAGES →
  free_run s start count →
  taken start (start + count) s (c_for start (start + count) take_page s).
Proof.
  intros Hi Hs Hc Hmax Hrun.
  apply (c_for_inv (fun i s' => taken start i s s')); [lia|by apply taken_refl|].
  intros i s' Hrange Ht. apply taken_step; [done|lia| |].
  - unfold is_page. lia.
  - apply Hrun. lia.
Qed.

(** ** pmm_alloc_page *)

Lemma alloc_page_scan s lo hi :
  pmm_inv s → 0 ≤ lo ≤ hi → hi ≤ PMM_MAX_PAGES →
  match c_for_ret lo hi alloc_page_body s with
  | inr (phys, s') => ∃ i, lo ≤ i < hi ∧ (∀ j, lo ≤ j < i → page_used s j = true) ∧
      page_used s i = false ∧ phys = i * PAGE_SIZE ∧ s' = set_hint (i + 1) (take_page i s)
  | inl s' => s' = s ∧ ∀ j, lo ≤ j < hi → page_used s j = true
  end.
Proof.
  intros Hi Hlo Hhi.
  pose proof (c_for_ret_inv
    (fun i s' => s' = s ∧ ∀ j, lo ≤ j < i → page_used s j = true)
    (fun r : Z * pmm => ∃ i, lo ≤ i < hi ∧ (∀ j, lo ≤ j < i → page_used s j = true) ∧
      page_used s i = false ∧ r.1 = i * PAGE_SIZE ∧ r.2 = set_hint (i + 1) (take_page i s))
    lo hi alloc_page_body s) as Hloop.
  destruct (c_for_ret lo hi alloc_page_body s) as [s'|[phys s']].
  all: apply Hloop; [lia|split; [done|intros; lia]|].
  all: clear Hloop; intros i ? Hr [-> Hused]; unfold alloc_page_body.
  all: fold (page_used s i); destruct (page_used s i) eqn:Hu.
  1,3: split; [done|]; intros j Hj; destruct (Z.eq_dec j i) as [->|];
       [done|apply Hused; lia].
  all: exists i; simpl; rewrite !wrap64_small
         by (unfold PAGE_SIZE, PMM_MAX_PAGES in *; lia); auto.
Qed.

(** What [pmm_alloc_page] does to the state when it returns the page [p]. *)
Record page_allocated (s : pmm) (p : Z) (s' : pmm) : Prop := mk_page_allocated {
  pa_page : is_page p;
  pa_free : page_used s p = false;
  pa_taken : taken p (p + 1) s s';
  pa_hint : pmm_last_free_hint s' = p + 1;
}.

Lemma page_allocated_take s p :
  pmm_inv s → is_page p → page_used s p = false →
  page_allocated s p (set_hint (p + 1) (take_page p s)).
Proof.
  intros Hi Hp Hu.
  destruct (taken_step s s p p (taken_refl s p Hi) ltac:(lia) Hp Hu) as [Hi' Hus Hf Ht].
  split; [done|done| |done]. split; [|done..].
  apply set_hint_inv; [done|]. unfold is_page in Hp. lia.
Qed.

Lemma alloc_page_cases s :
  pmm_inv s →
  match pmm_alloc_page s with
  | Ok (phys, s') => ∃ p, phys = p * PAGE_SIZE ∧ page_allocated s p s' ∧
      (let h := pmm_last_free_hint s in
       (h ≤ p ∧ (∀ q, h ≤ q < p → page_used s q = true)) ∨
       (p < h ∧ (∀ q, h ≤ q < PMM_MAX_PAGES → page_used s q = true) ∧
        (∀ q, 0 ≤ q < p → page_used s q = true)))
  | Panic _ => pmm_free_phys_pages s = 0 ∧ ∀ q, is_page q → page_used s q = true
  | _ => False
  end.
Proof.
  intros Hi.
  unfold pmm_alloc_page. destruct (inv_hint s Hi) as [Hh0 Hh1].
  pose proof (alloc_page_scan s (pmm_last_free_hint s) PMM_MAX_PAGES Hi) as H1.
  destruct (c_for_ret (pmm_last_free_hint s) _ _ s) as [s1|[phys s1]].
  - destruct H1 as [-> Hhigh]; [lia|lia|].
    pose proof (alloc_page_scan s 0 (pmm_last_free_hint s) Hi) as H2.
    destruct (c_for_ret 0 _ _ s) as [s2|[phys s2]].
    + destruct H2 as [-> Hlow]; [lia|lia|].
      assert (∀ q, is_page q → page_used s q = true) as Hall.
      { intros q Hq. destruct (Z.lt_ge_cases q (pmm_last_free_hint s));
          [apply Hlow|apply Hhigh]; unfold is_page in Hq; lia. }
      split; [|done]. rewrite (inv_free s Hi). apply count_range_false.
      intros q Hq. by rewrite Hall.
    + destruct H2 as (p & Hp & Hlow & Hu & -> & ->); [lia|lia|].
      exists p. split; [done|]. split; [|right; split; [lia|done]].
      apply page_allocated_take; [done| |done]. unfold is_page. lia.
  - destruct H1 as (p & Hp & Hlow & Hu & -> & ->); [lia|lia|].
    exists p. split; [done|]. split; [|left; split; [lia|done]].
    apply page_allocated_take; [done| |done]. unfold is_page. lia.
Qed.

(** (C18) [pmm_alloc_page] on a well-formed allocator: either no page is free and
    it panics, or it returns the address of a page that was free, marks exactly
    that page used, keeps the counter equal to the number of clear bits, and
    picks the page next-fit: the first free page at or above the hint, and only
    when there is none the first free page of all. *)
Theorem pmm_alloc_page_next_fit (s : pmm) (Hi : pmm_inv s) :
  match pmm_alloc_page s with
  | Ok (phys, s') => ∃ p, phys = p * PAGE_SIZE ∧ page_allocated s p s' ∧
      (let h := pmm_last_free_hint s in
       (h ≤ p ∧ (∀ q, h ≤ q < p → page_used s q = true)) ∨
       (p < h ∧ (∀ q, h ≤ q < PMM_MAX_PAGES → page_used s q = true) ∧
        (∀ q, 0 ≤ q < p → page_used s q = true)))
  | Panic _ => pmm_free_phys_pages s = 0 ∧ ∀ q, is_page q → page_used s q = true
  | _ => False
  end.
Proof. by apply alloc_page_cases. Qed.

(** ** pmm_alloc_pages *)

(** The invariant of the run search before page [i] is looked at. *)
Record search_inv (count : Z) (s : pmm) (i : Z) (st : pmm * (Z * Z)) : Prop := {
  si_state : st.1 = s;
  si_run : 0 ≤ st.2.2 < count ∧ st.2.2 ≤ i;
  si_start : st.2.2 ≠ 0 → st.2.1 = i - st.2.2;
  si_free : ∀ q, i - st.2.2 ≤ q < i → page_used s q = false;
  si_used : st.2.2 < i → page_used s (i - st.2.2 - 1) = true;
  si_none : ∀ p, 0 ≤ p → p + count ≤ i → ¬ free_run s p count;
}.

Lemma search_inv_used count s i start run :
  search_inv count s i (s, (start, run)) → page_used s i = true → 0 ≤ i →
  search_inv count s (i + 1) (s, (start, 0)).
Proof.
  intros [_ Hr Hs Hf Hu Hn] Hi H0. simpl in *. split; simpl; try done; try lia.
  - intros _. by replace (i + 1 - 0 - 1) with i by lia.
  - intros p Hp Hle Hrun. destruct (Z.eq_dec (p + count) (i + 1)) as [He|].
    + rewrite (Hrun i) in Hi by lia. done.
    + apply (Hn p); [lia|lia|done].
Qed.

Lemma search_inv_free count s i start run :
  search_inv count s i (s, (start, run)) → page_used s i = false → 0 ≤ i →
  run + 1 < count →
  search_inv count s (i + 1) (s, (if run =? 0 then i else start, run + 1)).
Proof.
  intros [_ Hr Hs Hf Hu Hn] Hi H0 Hlt. simpl in *. split; simpl; try done; try lia.
  - intros _. destruct (Z.eqb_spec run 0) as [->|]; [lia|]. rewrite Hs by lia. lia.
  - intros q Hq. destruct (Z.eq_dec q i) as [->|]; [done|]. apply Hf. lia.
  - intros Hlt'. replace (i + 1 - (run + 1) - 1) with (i - run - 1) by lia.
    apply Hu. lia.
  - intros p Hp Hle Hrun. destruct (Z.eq_dec (p + count) (i + 1)) as [He|].
    + rewrite (Hrun (i - run - 1)) in Hu by lia. discriminate Hu. lia.
    + apply (Hn p); [lia|lia|done].
Qed.

Lemma alloc_pages_taken (s : pmm) (count : Z) :
  pmm_inv s → 2 ≤ count < 18446744073709551616 →
  match pmm_alloc_pages count s with
  | Ok (phys, s') => ∃ p, phys = p * PAGE_SIZE ∧ 0 ≤ p ∧ p + count ≤ PMM_MAX_PAGES ∧
      free_run s p count ∧ (∀ q, 0 ≤ q < p → ¬ free_run s q count) ∧
      taken p (p + count) s s'
  | Panic _ => ∀ p, 0 ≤ p → p + count ≤ PMM_MAX_PAGES → ¬ free_run s p count
  | _ => False
  end.
Proof.
  intros Hi Hc.
  unfold pmm_alloc_pages.
  destruct (Z.eqb_spec count 0); [lia|]. destruct (Z.eqb_spec count 1); [lia|].
  pose proof (c_for_ret_inv (search_inv count s)
    (fun r : Z * pmm => ∃ p, r.1 = p * PAGE_SIZE ∧ 0 ≤ p ∧ p + count ≤ PMM_MAX_PAGES ∧
      free_run s p count ∧ (∀ q, 0 ≤ q < p → ¬ free_run s q count) ∧
      taken p (p + count) s r.2)
    0 PMM_MAX_PAGES (alloc_pages_body count) (s, (0, 0))) as Hloop.
  destruct (c_for_ret 0 _ _ _) as [[s' [start run]]|[phys s']].
  all: cbv zeta in Hloop; apply Hloop; clear Hloop; [unfold PMM_MAX_PAGES; lia| |].
  1,3: split; simpl; try done; try lia; intros p Hp Hle; lia.
  all: intros i [s1 [start1 run1]] Hrange Hinv.
  all: destruct (si_state _ _ _ _ Hinv); unfold alloc_pages_body; simpl fst in *.
  all: fold (page_used s1 i); destruct (page_used s1 i) eqn:Hu.
  1,3: eapply search_inv_used; [done|done|lia].
  all: destruct (si_run _ _ _ _ Hinv) as [Hr1 Hr2]; simpl in Hr1, Hr2.
  all: rewrite (wrap64_small (run1 + 1)) by lia.
  all: destruct (Z.eqb_spec (run1 + 1) count) as [He|];
    [|apply search_inv_free; [done|done|lia|lia]].
  all: assert ((if run1 =? 0 then i else start1) = i - run1) as ->
    by (destruct (Z.eqb_spec run1 0) as [->|];
        [lia|pose proof (si_start _ _ _ _ Hinv) as Hst; simpl in Hst; lia]).
  all: exists (i - run1); simpl.
  all: rewrite !wrap64_small by (unfold PAGE_SIZE, PMM_MAX_PAGES in *; lia).
  all: assert (free_run s1 (i - run1) count)
    by (intros q Hq; destruct (Z.eq_dec q i) as [->|];
        [done|apply (si_free _ _ _ _ Hinv); simpl; lia]).
  all: split; [done|]; split; [lia|]; split; [lia|]; split; [done|]; split.
  1,3: intros q Hq; apply (si_none _ _ _ _ Hinv); lia.
  all: apply take_run; (done || lia).
Qed.

(** (C29) [pmm_alloc_pages(count)] for at least two pages on a well-formed allocator:
    it returns the lowest run of [count] contiguous free pages and marks exactly
    these pages used, or it panics, and then no such run exists.  For one page it is
    [pmm_alloc_page], which takes the next free page from the hint and not the lowest
    one ([pmm_alloc_page_next_fit]); for no page it returns 0. *)
Theorem pmm_alloc_pages_first_fit (s : pmm) (count : Z) (Hi : pmm_inv s)
    (Hc : 2 ≤ count < 18446744073709551616) :
  match pmm_alloc_pages count s with
  | Ok (phys, s') => ∃ p, phys = p * PAGE_SIZE ∧ 0 ≤ p ∧ p + count ≤ PMM_MAX_PAGES ∧
      free_run s p count ∧ (∀ q, 0 ≤ q < p → ¬ free_run s q count) ∧
      taken p (p + count) s s'
  | Panic _ => ∀ p, 0 ≤ p → p + count ≤ PMM_MAX_PAGES → ¬ free_run s p count
  | _ => False
  end.
Proof. by apply alloc_pages_taken. Qed.

(** ** Release and marking *)

(** [s'] is [s] with the pages of [lo, hi) free. *)
Record released (lo hi : Z) (s s' : pmm) : Prop := mk_released {
  released_inv : pmm_inv s';
  released_used : ∀ q, is_page q →
    page_used s' q = negb ((lo <=? q) && (q <? hi)) && page_used s q;
  released_total : pmm_total_phys_pages s' = pmm_total_phys_pages s;
}.

Lemma released_refl s lo : pmm_inv s → released lo lo s s.
Proof. intros Hi. split; [done| |done]. intros q _. zcases; (done || lia). Qed.

(** A step that frees page [i] and nothing else extends the released range. *)
Lemma released_step s s1 s2 lo i :
  released lo i s s1 → lo ≤ i → released i (i + 1) s1 s2 → released lo (i + 1) s s2.
Proof.
  intros [Hi1 Hu1 Ht1] Hlo [Hi2 Hu2 Ht2]. split; [done| |congruence].
  intros q Hq. rewrite Hu2, Hu1 by done. zcases; (done || lia).
Qed.

Lemma give_page_released s i :
  pmm_inv s → is_page i → page_used s i = true → released i (i + 1) s (give_page i s).
Proof.
  intros Hi Hp Hu. split; [by auto with pmm| |done].
  intros q Hq. rewrite page_used_give by (done || apply Hi). zcases; (done || lia).
Qed.

Lemma free_already_released s i :
  pmm_inv s → page_used s i = false → released i (i + 1) s s.
Proof.
  intros Hi Hu. split; [done| |done]. intros q Hq.
  destruct (Z.eq_dec q i) as [->|]; [by rewrite Hu, andb_false_r|].
  zcases; (done || lia).
Qed.

Lemma free_page_released s p r :
  pmm_inv s → is_page p → 0 ≤ r < PAGE_SIZE →
  released p (p + 1) s (pmm_free_page (p * PAGE_SIZE + r) s) ∧
  pmm_last_free_hint (pmm_free_page (p * PAGE_SIZE + r) s) =
    if page_used s p then Z.min p (pmm_last_free_hint s) else pmm_last_free_hint s.
Proof.
  intros Hi Hp Hr. unfold pmm_free_page.
  replace ((p * PAGE_SIZE + r) / PAGE_SIZE) with p
    by (unfold PAGE_SIZE in *; Z.div_mod_to_equations; lia).
  pose proof Hp as [Hp0 Hp1].
  destruct (Z.leb_spec PMM_MAX_PAGES p); [lia|]. fold (page_used s p).
  destruct (page_used s p) eqn:Hu; simpl negb; cbv iota;
    [|by split; [apply free_already_released|]].
  destruct (give_page_released s p Hi Hp Hu) as [Hi' Hu' Ht'].
  change (pmm_last_free_hint (give_page p s)) with (pmm_last_free_hint s).
  destruct (Z.ltb_spec p (pmm_last_free_hint s)).
  - split; [|simpl; lia]. split; [|done..]. apply set_hint_inv; [done|lia].
  - split; [done|simpl; lia].
Qed.

(** (Property) [pmm_free_page] guards against a double free and a foreign address: an
    address past 4 GiB or of a page that is already free changes nothing;
    otherwise exactly that page becomes free, the invariant is kept and the
    hint drops to the page if it was above it. *)
Theorem pmm_free_page_guarded (s : pmm) (phys : Z) (Hi : pmm_inv s) (Hphys : 0 ≤ phys) :
  let p := phys / PAGE_SIZE in
  let s' := pmm_free_page phys s in
  (PMM_MAX_PAGES ≤ p → s' = s) ∧
  (is_page p → page_used s p = false → s' = s) ∧
  (is_page p → page_used s p = true →
    released p (p + 1) s s' ∧
    pmm_free_phys_pages s' = pmm_free_phys_pages s + 1 ∧
    pmm_last_free_hint s' = Z.min p (pmm_last_free_hint s)).
Proof.
  intros p s'.
  assert (phys = p * PAGE_SIZE + phys mod PAGE_SIZE) as Hdiv
    by (unfold p, PAGE_SIZE; Z.div_mod_to_equations; lia).
  assert (0 ≤ phys mod PAGE_SIZE < PAGE_SIZE) as Hmod
    by (unfold PAGE_SIZE; Z.div_mod_to_equations; lia).
  split; [|split].
  - intros Hge. unfold s', pmm_free_page. fold p. by destruct (Z.leb_spec PMM_MAX_PAGES p); [|lia].
  - intros Hp Hu. unfold s', pmm_free_page. fold p. fold (page_used s p). rewrite Hu.
    by destruct (PMM_MAX_PAGES <=? p).
  - intros Hp Hu. unfold s'. rewrite Hdiv.
    destruct (free_page_released s p _ Hi Hp Hmod) as [Hrel Hhint].
    split; [done|]. split; [|by rewrite Hhint, Hu].
    rewrite (inv_free _ (released_inv _ _ _ _ Hrel)), (inv_free s Hi).
    unfold free_count. apply (count_range_flip _ _ _ _ p); [done|by rewrite Hu| |].
    + rewrite (released_used _ _ _ _ Hrel) by done. zcases; (done || lia).
    + intros q Hq Hne. rewrite (released_used _ _ _ _ Hrel) by done. zcases; (done || lia).
Qed.

Lemma free_pages_released s p count :
  pmm_inv s → 0 ≤ p → 0 ≤ count → p + count ≤ PMM_MAX_PAGES →
  released p (p + count) s (pmm_free_pages (p * PAGE_SIZE) count s).
Proof.
  intros Hi Hp Hc Hmax. unfold pmm_free_pages.
  apply (c_for_inv (fun i s' => released p (p + i) s s')); [lia| |].
  - rewrite Z.add_0_r. by apply released_refl.
  - intros i s' Hr Hrel. rewrite Z.add_assoc.
    eapply released_step; [done|lia|].
    rewrite (wrap64_small (i * PAGE_SIZE)), wrap64_small
      by (unfold PAGE_SIZE, PMM_MAX_PAGES in *; lia).
    replace (p * PAGE_SIZE + i * PAGE_SIZE) with ((p + i) * PAGE_SIZE + 0) by lia.
    apply free_page_released; [apply Hrel| |unfold PAGE_SIZE; lia].
    unfold is_page. lia.
Qed.

(** (Property) Freeing what [pmm_alloc_pages] returned undoes the allocation: the same
    pages are in use as before it, and the counters agree. *)
Theorem pmm_alloc_free_roundtrip (s s' : pmm) (count phys : Z) (Hi : pmm_inv s)
    (Hc : 2 ≤ count < 18446744073709551616)
    (Halloc : pmm_alloc_pages count s = Ok (phys, s')) :
  let s'' := pmm_free_pages phys count s' in
  pmm_inv s'' ∧ (∀ q, is_page q → page_used s'' q = page_used s q) ∧
  pmm_free_phys_pages s'' = pmm_free_phys_pages s.
Proof.
  intros s''. pose proof (alloc_pages_taken s count Hi Hc) as H. rewrite Halloc in H.
  destruct H as (p & -> & Hp & Hmax & Hrun & _ & Ht).
  pose proof (free_pages_released s' p count (taken_inv _ _ _ _ Ht) Hp ltac:(lia) Hmax)
    as [Hi' Hu' _]. fold s'' in Hi', Hu'.
  assert (∀ q, is_page q → page_used s'' q = page_used s q) as Hsame.
  { intros q Hq. rewrite Hu', (taken_used _ _ _ _ Ht) by done.
    destruct ((p <=? q) && (q <? p + count)) eqn:Hin; [|done].
    rewrite Hrun; [done|]. revert Hin. zcases; (done || lia). }
  split; [done|]. split; [done|].
  rewrite (inv_free _ Hi'), (inv_free _ Hi). by apply free_count_ext.
Qed.

Lemma mark_used_step s s' lo i :
  pmm_inv s' → is_page i →
  (∀ q, is_page q → page_used s' q = ((lo <=? q) && (q <? i)) || page_used s q) →
  lo ≤ i →
  pmm_inv (mark_used_body i s') ∧
  (∀ q, is_page q → page_used (mark_used_body i s') q =
     ((lo <=? q) && (q <? i + 1)) || page_used s q).
Proof.
  intros Hi Hp Hu Hlo. unfold mark_used_body. fold (page_used s' i).
  destruct (page_used s' i) eqn:Hui.
  - split; [done|]. intros q Hq. rewrite Hu by done.
    destruct (Z.eq_dec q i) as [->|]; [|zcases; (done || lia)].
    rewrite Hu in Hui by done. destruct (page_used s i); [by rewrite !orb_true_r|].
    revert Hui. zcases; (done || lia).
  - simpl. rewrite (inv_free _ Hi). pose proof (free_count_pos s' i Hp Hui).
    destruct (Z.ltb_spec 0 (free_count s')); [|lia].
    rewrite <- (inv_free _ Hi).
    change (set_free _ _) with (take_page i s').
    split; [by auto with pmm|].
    intros q Hq. rewrite page_used_take by (done || apply Hi). rewrite Hu by done.
    zcases; (done || lia).
Qed.

Lemma mark_used_spec s phys size :
  pmm_inv s → 0 ≤ phys → phys < 18446744073709551616 →
  0 ≤ size → size + PAGE_SIZE < 18446744073709551616 →
  let start := phys / PAGE_SIZE in
  let stop := start + (size + 4095) / PAGE_SIZE in
  pmm_inv (pmm_mark_used phys size s) ∧
  ∀ q, is_page q → page_used (pmm_mark_used phys size s) q =
    ((start <=? q) && (q <? stop)) || page_used s q.
Proof.
  intros Hi Hphys Hphys2 Hs0 Hs start stop. unfold pmm_mark_used.
  assert (ALIGN_UP64 size PAGE_SIZE / PAGE_SIZE = (size + 4095) / PAGE_SIZE) as ->.
  { rewrite align_up64_page, wrap64_small by (unfold PAGE_SIZE in *; lia).
    unfold PAGE_SIZE. apply Z.div_mul. lia. }
  fold start. rewrite wrap64_small
    by (unfold start, PAGE_SIZE in *; Z.div_mod_to_equations; lia). fold stop.
  assert (0 ≤ start ≤ stop) by (unfold stop, start, PAGE_SIZE in *; Z.div_mod_to_equations; lia).
  destruct (Z.le_gt_cases start PMM_MAX_PAGES) as [Hle|Hgt].
  - pose proof (c_for_inv (fun i s' => pmm_inv s' ∧
      ∀ q, is_page q → page_used s' q = ((start <=? q) && (q <? i)) || page_used s q)
      start (Z.min stop PMM_MAX_PAGES) mark_used_body s) as Hloop.
    destruct Hloop as [Hi' Hu']; [lia| | |].
    + split; [done|]. intros q Hq. zcases; (done || lia).
    + intros i s' Hr [Hi' Hu']. apply mark_used_step; [done| |done|lia].
      unfold is_page. lia.
    + split; [done|]. intros q Hq. rewrite Hu' by done. destruct Hq.
      zcases; (done || lia).
  - rewrite c_for_empty by lia. split; [done|]. intros q [Hq0 Hq1]. zcases; (done || lia).
Qed.

Lemma mark_free_spec s phys size :
  pmm_inv s → 0 ≤ phys → phys < 18446744073709551616 → is_u64 size →
  let start := phys / PAGE_SIZE in
  let stop := start + size / PAGE_SIZE in
  pmm_inv (pmm_mark_free phys size s) ∧
  ∀ q, is_page q → page_used (pmm_mark_free phys size s) q =
    negb ((start <=? q) && (q <? stop)) && page_used s q.
Proof.
  intros Hi Hphys Hphys2 Hs start stop. unfold pmm_mark_free. fold start.
  rewrite wrap64_small
    by (unfold start, is_u64, PAGE_SIZE in *; Z.div_mod_to_equations; lia). fold stop.
  assert (0 ≤ start ≤ stop)
    by (unfold stop, start, is_u64, PAGE_SIZE in *; Z.div_mod_to_equations; lia).
  destruct (Z.le_gt_cases start PMM_MAX_PAGES) as [Hle|Hgt].
  - pose proof (c_for_inv (fun i s' => released start i s s')
      start (Z.min stop PMM_MAX_PAGES) mark_free_body s) as Hloop.
    destruct Hloop as [Hi' Hu' _]; [lia|by apply released_refl| |].
    + intros i s' Hr Hrel. eapply released_step; [done|lia|].
      unfold mark_free_body. fold (page_used s' i).
      assert (is_page i) by (unfold is_page; lia).
      destruct (page_used s' i) eqn:Hu;
        [apply give_page_released|apply free_already_released]; (done || apply Hrel).
    + split; [done|]. intros q Hq. rewrite Hu' by done. destruct Hq.
      zcases; (done || lia).
  - rewrite c_for_empty by lia. split; [done|]. intros q [Hq0 Hq1]. zcases; (done || lia).
Qed.

(** ** Boot: pmm_init *)

(** The available-page entries as a specification sees them. *)
Definition avail_covers (e : mmap_entry) (p : Z) : bool :=
  (type_ e =? MB2_MMAP_TYPE_AVAILABLE) && (base_addr e / PAGE_SIZE <=? p) &&
  (p <? base_addr e / PAGE_SIZE + length_ e / PAGE_SIZE).
Definition reported_available (es : list mmap_entry) (p : Z) : bool :=
  existsb (fun e => avail_covers e p) es.

Definition tag_entries (m : mem) (tag : Z) : list mmap_entry :=
  mmap_entry_at m tag <$>
    seqZ 0 ((load32 m (tag + 4) -₃₂ 16) / load32 m (tag + 8)).

(** All entries of the memory-map tags the walk visits, in order. *)
Fixpoint boot_entries (fuel : nat) (m : mem) (tag stop : Z) : list mmap_entry :=
  match fuel with
  | O => []
  | S fuel' =>
      if negb (tag <? stop) then []
      else if load32 m tag =? 0 then []
      else (if load32 m tag =? MB2_TAG_TYPE_MMAP then tag_entries m tag else []) ++
           boot_entries fuel' m (tag + ALIGN_UP32 (load32 m (tag + 4)) 8) stop
  end.

Definition entry_u64 (e : mmap_entry) : Prop := is_u64 (base_addr e) ∧ is_u64 (length_ e).

Lemma mmap_entry_u64 m tag i : mem_bytes m → entry_u64 (mmap_entry_at m tag i).
Proof. intros Hm. split; by apply load64_range. Qed.

Lemma boot_entries_u64 fuel m tag stop :
  mem_bytes m → Forall entry_u64 (boot_entries fuel m tag stop).
Proof.
  intros Hm. revert tag. induction fuel as [|fuel IH]; intros tag; simpl; [done|].
  repeat case_match; try apply Forall_nil_2; apply Forall_app_2; auto.
  unfold tag_entries. apply Forall_fmap, Forall_true. intros i. by apply mmap_entry_u64.
Qed.

(** The state only matters through its bits, its hint and its counters: what a
    loop that sets each visited bit to [v] does to them. *)
Record bits_set (v : bool) (lo hi : Z) (s s' : pmm) : Prop := {
  bs_wf : bitmap_wf (pmm_bitmap s');
  bs_used : ∀ q, is_page q →
    page_used s' q = if (lo <=? q) && (q <? hi) then v else page_used s q;
  bs_hint : pmm_last_free_hint s' = pmm_last_free_hint s;
}.

Lemma bits_set_loop v body lo hi s :
  (∀ i s, is_page i → bitmap_wf (pmm_bitmap s) → bits_set v i (i + 1) s (body i s)) →
  bitmap_wf (pmm_bitmap s) → 0 ≤ lo → hi ≤ PMM_MAX_PAGES →
  bits_set v lo hi s (c_for lo hi body s).
Proof.
  intros Hbody Hb Hlo Hhi.
  assert (∀ h, h ≤ lo → bits_set v lo h s s) as Hrefl.
  { intros h Hh. split; [done| |done]. intros q Hq. zcases; (done || lia). }
  destruct (Z.le_gt_cases lo hi) as [Hle|]; [|rewrite c_for_empty by lia; apply Hrefl; lia].
  apply (c_for_inv (fun i s' => bits_set v lo i s s')); [done|apply Hrefl; lia|].
  intros i s1 Hr [Hb1 Hu1 Hh1].
  destruct (Hbody i s1) as [Hb2 Hu2 Hh2]; [unfold is_page; lia|done|].
  split; [done| |congruence].
  intros q Hq. rewrite Hu2, Hu1 by done. zcases; (done || lia).
Qed.

Lemma give_bits i s :
  is_page i → bitmap_wf (pmm_bitmap s) → bits_set false i (i + 1) s (give_page i s).
Proof.
  intros Hp Hb. split; [simpl; by auto with pmm| |done].
  intros q Hq. rewrite page_used_give by done. zcases; (done || lia).
Qed.

Lemma take_bits i s :
  is_page i → bitmap_wf (pmm_bitmap s) → bits_set true i (i + 1) s (take_page i s).
Proof.
  intros Hp Hb. split; [simpl; by auto with pmm| |done].
  intros q Hq. rewrite page_used_take by done. zcases; (done || lia).
Qed.

Lemma used_bits i s :
  page_used s i = true → bitmap_wf (pmm_bitmap s) → bits_set true i (i + 1) s s.
Proof.
  intros Hu Hb. split; [done| |done]. intros q Hq.
  destruct (Z.eq_dec q i) as [->|]; [rewrite Hu; zcases; done|zcases; (done || lia)].
Qed.

Lemma avail_page_bits i s :
  is_page i → bitmap_wf (pmm_bitmap s) → bits_set false i (i + 1) s (avail_page_body i s).
Proof. intros Hp Hb. by destruct (give_bits i s Hp Hb). Qed.

Lemma low_page_bits i s :
  is_page i → bitmap_wf (pmm_bitmap s) → bits_set true i (i + 1) s (low_page_body i s).
Proof.
  intros Hp Hb. unfold low_page_body. fold (page_used s i).
  destruct (page_used s i) eqn:Hu; [by apply used_bits|by apply take_bits].
Qed.

Lemma mark_used_bits i s :
  is_page i → bitmap_wf (pmm_bitmap s) → bits_set true i (i + 1) s (mark_used_body i s).
Proof.
  intros Hp Hb. unfold mark_used_body. fold (page_used s i).
  destruct (page_used s i) eqn:Hu; [by apply used_bits|].
  destruct (take_bits i s Hp Hb) as [H1 H2 H3].
  destruct (0 <? _); by split.
Qed.

Lemma init_entry_bits e s :
  entry_u64 e → bitmap_wf (pmm_bitmap s) →
  bitmap_wf (pmm_bitmap (init_entry e s)) ∧
  (∀ q, is_page q → page_used (init_entry e s) q =
     if avail_covers e q then false else page_used s q) ∧
  pmm_last_free_hint (init_entry e s) = pmm_last_free_hint s.
Proof.
  intros [Hbase Hlen] Hb. unfold init_entry, avail_covers.
  destruct (type_ e =? MB2_MMAP_TYPE_AVAILABLE); [|by simpl].
  rewrite wrap64_small
    by (unfold is_u64, PAGE_SIZE in *; Z.div_mod_to_equations; lia).
  destruct (bits_set_loop false avail_page_body (base_addr e / PAGE_SIZE)
    (Z.min (base_addr e / PAGE_SIZE + length_ e / PAGE_SIZE) PMM_MAX_PAGES) s)
    as [H1 H2 H3]; [apply avail_page_bits|done| |lia|].
  { unfold is_u64, PAGE_SIZE in *. Z.div_mod_to_equations. lia. }
  split; [done|]. split; [|done]. intros q Hq. rewrite H2 by done. destruct Hq.
  simpl andb. zcases; (done || lia).
Qed.

Lemma init_entries_bits es s :
  Forall entry_u64 es → bitmap_wf (pmm_bitmap s) →
  let s' := foldl (fun s e => init_entry e s) s es in
  bitmap_wf (pmm_bitmap s') ∧
  (∀ q, is_page q → page_used s' q =
     if reported_available es q then false else page_used s q) ∧
  pmm_last_free_hint s' = pmm_last_free_hint s.
Proof.
  intros Hes. revert s. induction Hes as [|e es He _ IH]; intros s Hb; simpl; [done|].
  destruct (init_entry_bits e s He Hb) as (Hb1 & Hu1 & Hh1).
  destruct (IH _ Hb1) as (Hb2 & Hu2 & Hh2).
  split; [done|]. split; [|congruence]. intros q Hq. rewrite Hu2, Hu1 by done.
  by destruct (avail_covers e q), (reported_available es q).
Qed.

Lemma c_for_foldl {S} (body : Z → S → S) n s :
  c_for 0 n body s = foldl (fun s i => body i s) s (seqZ 0 n).
Proof.
  unfold c_for. rewrite Z.sub_0_r. unfold seqZ.
  replace (iter_up body (Z.to_nat n) 0 s)
    with (iter_up body (Z.to_nat n) (Z.of_nat 0) s) by done.
  generalize 0%nat. revert s. induction (Z.to_nat n) as [|k IH]; intros s j; simpl; [done|].
  replace (Z.of_nat j + 1) with (Z.of_nat (Datatypes.S j)) by lia.
  rewrite IH. by rewrite Z.add_0_r.
Qed.

(** The walk is a fold of the entry handler over the entries it visits. *)
Lemma init_tags_fold fuel m tag stop s s' :
  init_tags fuel m tag stop s = Ok s' →
  s' = foldl (fun s e => init_entry e s) s (boot_entries fuel m tag stop).
Proof.
  revert tag s. induction fuel as [|fuel IH]; intros tag s; simpl; [done|].
  destruct (negb (tag <? stop)); [by intros [= ->]|].
  destruct (load32 m tag =? 0); [by intros [= ->]|].
  destruct (load32 m tag =? MB2_TAG_TYPE_MMAP); simpl; [|by intros ->%IH].
  unfold init_mmap_tag. destruct (_ =? 0); simpl; [done|].
  intros ->%IH. rewrite foldl_app. f_equal.
  rewrite c_for_foldl. unfold tag_entries. by rewrite foldl_fmap.
Qed.

Lemma reset_wf s : bitmap_wf (pmm_bitmap (pmm_reset s)).
Proof.
  unfold pmm_reset. split; cbn [pmm_bitmap]; [by rewrite length_replicate|].
  apply Forall_replicate. unfold is_u64. lia.
Qed.

Lemma reset_used s q : is_page q → page_used (pmm_reset s) q = true.
Proof.
  intros Hq. unfold page_used. rewrite bitmap_test_testbit. unfold bitmap_word.
  cbn [pmm_reset pmm_bitmap].
  rewrite lookup_total_replicate_2 by (by apply page_word_bound).
  change 18446744073709551615 with (2 ^ 64 - 1). rewrite ones_testbit by word_lia.
  apply Z.ltb_lt. word_lia.
Qed.

Lemma reset_inv s : 0 ≤ pmm_last_free_hint s ≤ PMM_MAX_PAGES → pmm_inv (pmm_reset s).
Proof.
  intros Hh. split; [apply reset_wf| |done].
  symmetry. apply count_range_false. intros q Hq. by rewrite reset_used.
Qed.

(** What the whole of pmm_init leaves used, given the entries the walk visited. *)
Definition boot_used (es : list mmap_entry) (q : Z) : bool :=
  ((4096 <=? q) && (q <? 4096 + 768)) || (q <? 256) || negb (reported_available es q).

Lemma pmm_init_bits (fuel : nat) (m : mem) (mb2 : Z) (s s' : pmm)
    (Hm : mem_bytes m) (Hmb : mb2 ≠ 0) (Hinit : pmm_init fuel m mb2 s = Ok s') :
  (∀ q, is_page q → page_used s' q =
    boot_used (boot_entries fuel m (mb2 + 8) (mb2 + load32 m mb2)) q) ∧
  pmm_last_free_hint s' = pmm_last_free_hint s.
Proof.
  unfold pmm_init in Hinit. rewrite (proj2 (Z.eqb_neq mb2 0) Hmb) in Hinit.
  apply outcome_bind_ok in Hinit as (s1 & Ht & Hinit).
  apply Ok_inj in Hinit as <-. apply init_tags_fold in Ht.
  destruct (init_entries_bits (boot_entries fuel m (mb2 + 8) (mb2 + load32 m mb2))
    (pmm_reset s)) as (Hb1 & Hu1 & Hh1); [by apply boot_entries_u64|apply reset_wf|].
  rewrite <- Ht in Hb1, Hu1, Hh1.
  destruct (bits_set_loop true low_page_body 0 (Z.min 256 PMM_MAX_PAGES) s1)
    as [Hb2 Hu2 Hh2]; [apply low_page_bits|done|lia|unfold PMM_MAX_PAGES; lia|].
  destruct (bits_set_loop true mark_used_body 4096 (Z.min 4864 PMM_MAX_PAGES)
    (c_for 0 (Z.min 256 PMM_MAX_PAGES) low_page_body s1))
    as [Hb3 Hu3 Hh3]; [apply mark_used_bits|done|lia|unfold PMM_MAX_PAGES; lia|].
  change (pmm_mark_used _ _ _) with
    (c_for 4096 (Z.min 4864 PMM_MAX_PAGES) mark_used_body
      (c_for 0 (Z.min 256 PMM_MAX_PAGES) low_page_body s1)).
  split; [|exact (eq_trans Hh3 (eq_trans Hh2 Hh1))]. clear Hh1 Hh2 Hh3. intros q Hq. rewrite Hu3, Hu2, Hu1, reset_used by done. unfold boot_used. destruct Hq.
  unfold PMM_MAX_PAGES in *.
  destruct (reported_available _ q); zcases; (done || lia).
Qed.

Lemma pmm_init_pages_spec (fuel : nat) (m : mem) (mb2 : Z) (s s' : pmm)
    (Hm : mem_bytes m) (Hmb : mb2 ≠ 0) (Hinit : pmm_init fuel m mb2 s = Ok s') :
  ∀ q, is_page q → page_used s' q =
    boot_used (boot_entries fuel m (mb2 + 8) (mb2 + load32 m mb2)) q.
Proof. exact (proj1 (pmm_init_bits fuel m mb2 s s' Hm Hmb Hinit)). Qed.

(** (Property) After [pmm_init] a page is free exactly when an AVAILABLE entry of the
    boot loader's memory map covers it and it is neither in the low 1 MiB nor
    in the 3 MiB reserved from [KERNEL_PHYS_BASE] (pages 4096 to 4863): the
    allocator never owns memory that was not reported to it. *)
Theorem pmm_init_pages (fuel : nat) (m : mem) (mb2 : Z) (s s' : pmm)
    (Hm : mem_bytes m) (Hmb : mb2 ≠ 0) (Hinit : pmm_init fuel m mb2 s = Ok s') :
  ∀ q, is_page q → page_used s' q =
    boot_used (boot_entries fuel m (mb2 + 8) (mb2 + load32 m mb2)) q.
Proof. by eapply pmm_init_pages_spec. Qed.

Lemma init_entry_inv e s :
  pmm_inv s → entry_u64 e →
  (∀ q, is_page q → avail_covers e q = true → page_used s q = true) →
  pmm_inv (init_entry e s).
Proof.
  intros Hi [Hbase Hlen] Hused. unfold init_entry.
  destruct (Z.eqb_spec (type_ e) MB2_MMAP_TYPE_AVAILABLE) as [Hty|]; [|by destruct Hi].
  rewrite wrap64_small
    by (unfold is_u64, PAGE_SIZE in *; Z.div_mod_to_equations; lia).
  set (lo := base_addr e / PAGE_SIZE) in *. set (n := length_ e / PAGE_SIZE) in *.
  assert (0 ≤ lo ∧ 0 ≤ n) as [Hlo Hn]
    by (unfold lo, n, is_u64, PAGE_SIZE in *; Z.div_mod_to_equations; lia).
  set (hi := Z.min (lo + n) PMM_MAX_PAGES).
  destruct (Z.le_gt_cases lo hi) as [Hle|]; [|by rewrite c_for_empty by lia].
  apply (c_for_inv (fun i s' => pmm_inv s' ∧
    ∀ q, i ≤ q < hi → page_used s' q = true)); [done| |].
  - split; [done|]. intros q Hq. apply Hused; [unfold is_page; lia|].
    unfold avail_covers. rewrite Hty. fold lo n. zcases; (done || lia).
  - intros i s1 Hr [Hi1 Hu1]. assert (is_page i) by (unfold is_page; lia).
    destruct (give_page_inv s1 i Hi1 ltac:(done) (Hu1 i ltac:(lia))) as [H1 H2 H3].
    split; [by split|]. intros q Hq.
    change (page_used (avail_page_body i s1) q) with (page_used (give_page i s1) q).
    rewrite page_used_give by (unfold is_page in *; (apply Hi1 || lia)).
    rewrite Hu1 by lia. zcases; (done || lia).
Qed.

(** No page is covered by two AVAILABLE entries. *)
Definition entries_disjoint (es : list mmap_entry) : Prop :=
  ForallOrdPairs (fun e e' => ∀ q, avail_covers e q = true → avail_covers e' q = false) es.

Lemma init_entries_inv es s :
  pmm_inv s → Forall entry_u64 es → entries_disjoint es →
  (∀ q, is_page q → reported_available es q = true → page_used s q = true) →
  pmm_inv (foldl (fun s e => init_entry e s) s es).
Proof.
  intros Hi Hes. revert s Hi. induction Hes as [|e es He Hes IH]; intros s Hi Hd Hu; [done|].
  inversion Hd as [|? ? Hhd Htl]; simplify_eq. simpl. apply IH; [|done|].
  - apply init_entry_inv; [done|done|]. intros q Hq Hc. apply Hu; [done|].
    simpl. by rewrite Hc.
  - intros q Hq Hr. destruct (init_entry_bits e s He (inv_bitmap s Hi)) as (_ & Hu1 & _).
    rewrite Hu1 by done. destruct (avail_covers e q) eqn:Hc.
    + apply existsb_exists in Hr as (e' & Hin & Hc').
      rewrite List.Forall_forall in Hhd. by rewrite (Hhd e' Hin q Hc) in Hc'.
    + apply Hu; [done|]. simpl. by rewrite Hc.
Qed.

Lemma low_pages_inv s :
  pmm_inv s → pmm_inv (c_for 0 (Z.min 256 PMM_MAX_PAGES) low_page_body s).
Proof.
  intros Hi. apply (c_for_inv (fun _ s' => pmm_inv s')); [unfold PMM_MAX_PAGES; lia|done|].
  intros i s1 Hr Hi1. unfold low_page_body. fold (page_used s1 i).
  destruct (page_used s1 i) eqn:Hu; [done|].
  apply take_page_inv; [done|unfold is_page; lia|done].
Qed.

Lemma pmm_init_establishes_inv_spec (fuel : nat) (m : mem) (mb2 : Z) (s s' : pmm)
    (Hm : mem_bytes m) (Hh : 0 ≤ pmm_last_free_hint s ≤ PMM_MAX_PAGES)
    (Hinit : pmm_init fuel m mb2 s = Ok s')
    (Hd : entries_disjoint (boot_entries fuel m (mb2 + 8) (mb2 + load32 m mb2))) :
  pmm_inv s'.
Proof.
  unfold pmm_init in Hinit.
  destruct (mb2 =? 0); [apply Ok_inj in Hinit as <-; by apply reset_inv|].
  apply outcome_bind_ok in Hinit as (s1 & Ht & Hinit).
  apply Ok_inj in Hinit as <-. apply init_tags_fold in Ht.
  apply mark_used_spec; [|unfold KERNEL_PHYS_BASE, PAGE_SIZE; lia..].
  apply low_pages_inv. rewrite Ht. apply init_entries_inv.
  - by apply reset_inv.
  - by apply boot_entries_u64.
  - done.
  - intros q Hq _. by apply reset_used.
Qed.

(** (Property) When the AVAILABLE entries of the memory map do not overlap, pmm_init
    establishes the invariant of the allocator (well-formed bitmap, counter
    equal to the number of free pages, hint in range). *)
Theorem pmm_init_establishes_inv (fuel : nat) (m : mem) (mb2 : Z) (s s' : pmm)
    (Hm : mem_bytes m) (Hh : 0 ≤ pmm_last_free_hint s ≤ PMM_MAX_PAGES)
    (Hinit : pmm_init fuel m mb2 s = Ok s')
    (Hd : entries_disjoint (boot_entries fuel m (mb2 + 8) (mb2 + load32 m mb2))) :
  pmm_inv s'.
Proof. by eapply pmm_init_establishes_inv_spec. Qed.

(** The chain of tags the boot loader hands over: every tag before the end tag
    (type 0) or the end of the structure has a size that advances the walk, and
    a memory-map tag states its entry size. *)
Inductive tags_wf (m : mem) (stop : Z) : Z → Prop :=
  | tags_stop tag : stop ≤ tag → tags_wf m stop tag
  | tags_end tag : load32 m tag = 0 → tags_wf m stop tag
  | tags_next tag :
      1 ≤ load32 m (tag + 4) ≤ 4294967288 →
      (load32 m tag = MB2_TAG_TYPE_MMAP → load32 m (tag + 8) ≠ 0) →
      tags_wf m stop (tag + ALIGN_UP32 (load32 m (tag + 4)) 8) →
      tags_wf m stop tag.

Lemma align_up32_8_grows x : 1 ≤ x ≤ 4294967288 → 8 ≤ ALIGN_UP32 x 8.
Proof.
  intros Hx. rewrite align_up32_8, wrap32_small by lia.
  Z.div_mod_to_equations. lia.
Qed.

Lemma init_tags_returns fuel m stop tag s :
  tags_wf m stop tag → stop - tag < 8 * Z.of_nat fuel →
  ∃ s', init_tags (S fuel) m tag stop s = Ok s'.
Proof.
  intros Hwf. revert fuel s.
  induction Hwf as [tag Hle|tag H0|tag Hsz Hes Hrest IH]; intros fuel s Hfuel.
  - simpl. destruct (Z.ltb_spec tag stop); [lia|]. by eexists.
  - cbn [init_tags]. rewrite H0. destruct (negb (tag <? stop)); by eexists.
  - cbn [init_tags]. destruct (negb (tag <? stop)) eqn:Hlt; [by eexists|].
    destruct (load32 m tag =? 0); [by eexists|].
    assert (stop - tag > 0) by (apply negb_false_iff, Z.ltb_lt in Hlt; lia).
    destruct fuel as [|fuel]; [lia|].
    pose proof (align_up32_8_grows _ Hsz).
    destruct (Z.eqb_spec (load32 m tag) MB2_TAG_TYPE_MMAP) as [Hty|].
    + unfold init_mmap_tag.
      rewrite (proj2 (Z.eqb_neq _ _) (Hes Hty)). apply IH. lia.
    + apply IH. lia.
Qed.

Lemma pmm_init_terminates_spec (m : mem) (mb2 : Z) (s : pmm) (fuel : nat)
    (Hwf : tags_wf m (mb2 + load32 m mb2) (mb2 + 8))
    (Hfuel : load32 m mb2 < 8 * Z.of_nat fuel) :
  ∃ s', pmm_init (S fuel) m mb2 s = Ok s'.
Proof.
  unfold pmm_init. destruct (mb2 =? 0); [by eexists|].
  destruct (init_tags_returns fuel m _ _ (pmm_reset s) Hwf) as [s1 ->]; [lia|].
  by eexists.
Qed.

(** (Property) [pmm_init] returns on every well-formed tag chain: with fuel for one
    tag per 8 bytes of the structure the walk finishes, neither looping nor
    dividing by a zero entry size. *)
Theorem pmm_init_terminates (m : mem) (mb2 : Z) (s : pmm) (fuel : nat)
    (Hwf : tags_wf m (mb2 + load32 m mb2) (mb2 + 8))
    (Hfuel : load32 m mb2 < 8 * Z.of_nat fuel) :
  ∃ s', pmm_init (S fuel) m mb2 s = Ok s'.
Proof. by eapply pmm_init_terminates_spec. Qed.


(** ** Every operation keeps the invariant *)

Lemma pmm_inv_set_hint_total s s' :
  pmm_inv s → pmm_bitmap s' = pmm_bitmap s →
  pmm_free_phys_pages s' = pmm_free_phys_pages s →
  0 ≤ pmm_last_free_hint s' ≤ PMM_MAX_PAGES → pmm_inv s'.
Proof.
  intros [Hb Hf _] Hbm Hfree Hh. split; [by rewrite Hbm| |done].
  rewrite Hfree, Hf. apply free_count_ext. intros q _. unfold page_used. by rewrite Hbm.
Qed.

Lemma free_page_inv s phys : pmm_inv s → 0 ≤ phys → pmm_inv (pmm_free_page phys s).
Proof.
  intros Hi Hphys. destruct (Z.le_gt_cases PMM_MAX_PAGES (phys / PAGE_SIZE)) as [Hle|Hgt].
  - unfold pmm_free_page. by destruct (Z.leb_spec PMM_MAX_PAGES (phys / PAGE_SIZE)); [|lia].
  - replace phys with (phys / PAGE_SIZE * PAGE_SIZE + phys mod PAGE_SIZE)
      by (unfold PAGE_SIZE; Z.div_mod_to_equations; lia).
    eapply released_inv, free_page_released; [done|split; [|done]|];
      unfold PAGE_SIZE; Z.div_mod_to_equations; lia.
Qed.

Lemma mark_used_body_inv i s : pmm_inv s → is_page i → pmm_inv (mark_used_body i s).
Proof.
  intros Hi Hp. unfold mark_used_body. fold (page_used s i).
  destruct (page_used s i) eqn:Hu; [done|].
  simpl. rewrite (inv_free _ Hi). pose proof (free_count_pos s i Hp Hu).
  destruct (Z.ltb_spec 0 (free_count s)); [|lia]. rewrite <- (inv_free _ Hi).
  change (set_free _ _) with (take_page i s). by auto with pmm.
Qed.

Lemma mark_free_body_inv i s : pmm_inv s → is_page i → pmm_inv (mark_free_body i s).
Proof.
  intros Hi Hp. unfold mark_free_body. fold (page_used s i).
  destruct (page_used s i) eqn:Hu; [by auto with pmm|done].
Qed.

Lemma page_loop_inv body lo hi s :
  (∀ i s, pmm_inv s → is_page i → pmm_inv (body i s)) →
  pmm_inv s → 0 ≤ lo → pmm_inv (c_for lo (Z.min hi PMM_MAX_PAGES) body s).
Proof.
  intros Hbody Hi Hlo. destruct (Z.le_gt_cases lo (Z.min hi PMM_MAX_PAGES)) as [Hle|];
    [|by rewrite c_for_empty by lia].
  apply (c_for_inv (fun _ s' => pmm_inv s')); [done|done|].
  intros i s' Hr Hi'. apply Hbody; [done|]. unfold is_page. lia.
Qed.

(** One call of the public API on 64-bit arguments. *)
Inductive pmm_step (s : pmm) : pmm → Prop :=
  | step_alloc_page phys s' : pmm_alloc_page s = Ok (phys, s') → pmm_step s s'
  | step_alloc_pages count phys s' :
      is_u64 count → pmm_alloc_pages count s = Ok (phys, s') → pmm_step s s'
  | step_free_page phys : is_u64 phys → pmm_step s (pmm_free_page phys s)
  | step_free_pages phys count :
      is_u64 phys → is_u64 count → pmm_step s (pmm_free_pages phys count s)
  | step_mark_used phys size : is_u64 phys → is_u64 size → pmm_step s (pmm_mark_used phys size s)
  | step_mark_free phys size : is_u64 phys → is_u64 size → pmm_step s (pmm_mark_free phys size s).

Lemma pmm_step_inv s s' : pmm_inv s → pmm_step s s' → pmm_inv s'.
Proof.
  intros Hi Hstep.
  destruct Hstep as [phys s' Ha|count phys s' Hc Ha|phys Hp|phys count Hp Hc
    |phys size Hp Hs|phys size Hp Hs].
  - pose proof (alloc_page_cases s Hi) as H. rewrite Ha in H.
    destruct H as (p & _ & [_ _ Ht _] & _). by apply Ht.
  - unfold is_u64 in Hc. destruct (Z.eq_dec count 0) as [->|];
      [by apply Ok_inj in Ha as [= _ <-]|].
    destruct (Z.eq_dec count 1) as [->|].
    + pose proof (alloc_page_cases s Hi) as H. unfold pmm_alloc_pages in Ha. simpl in Ha.
      rewrite Ha in H. destruct H as (p & _ & [_ _ Ht _] & _). by apply Ht.
    + pose proof (alloc_pages_taken s count Hi ltac:(lia)) as H. rewrite Ha in H.
      destruct H as (p & _ & _ & _ & _ & _ & Ht). by apply Ht.
  - apply free_page_inv; [done|]. unfold is_u64 in Hp. lia.
  - unfold is_u64 in Hc. apply (c_for_inv (fun _ s' => pmm_inv s')); [lia|done|].
    intros i s' _ Hi'. apply free_page_inv; [done|]. apply wrap64_range.
  - apply page_loop_inv; [intros; by apply mark_used_body_inv|done|].
    unfold is_u64, PAGE_SIZE in *. Z.div_mod_to_equations. lia.
  - apply page_loop_inv; [intros; by apply mark_free_body_inv|done|].
    unfold is_u64, PAGE_SIZE in *. Z.div_mod_to_equations. lia.
Qed.

(** (C30) Whatever sequence of public calls follows, with any 64-bit arguments
    (double frees, foreign addresses and wrapping sizes included), the bitmap
    stays well formed, the free counter stays equal to the number of clear bits
    and the hint stays in range. *)
Theorem pmm_inv_reachable (s s' : pmm) (Hi : pmm_inv s) (Hreach : rtc pmm_step s s') :
  pmm_inv s'.
Proof. induction Hreach; eauto using pmm_step_inv. Qed.

(** ** The allocator implements the interface *)

#[export] Instance pmm_page_alloc : PageAlloc pmm := {
  alloc_page := pmm_alloc_page;
  alloc_pages := pmm_alloc_pages;
  free_page := pmm_free_page;
  free_pages := pmm_free_pages;
  used_page := page_used;
  alloc_inv := pmm_inv;
}.

Lemma page_addr_div p : p * PAGE_SIZE / PAGE_SIZE = p.
Proof. unfold PAGE_SIZE. apply Z.div_mul. lia. Qed.

Lemma taken_grabbed s s' p n :
  0 ≤ p → p + n ≤ PMM_MAX_PAGES → free_run s p n → taken p (p + n) s s' →
  grabbed (p * PAGE_SIZE) n s s'.
Proof.
  intros Hp Hn Hrun [Hi Hu _ _]. split; rewrite ?page_addr_div; try done.
  - unfold PAGE_SIZE. apply Z.mod_mul. lia.
  - unfold PAGE_SIZE. lia.
Qed.

Lemma pmm_alloc_page_grabbed s :
  pmm_inv s →
  match pmm_alloc_page s with
  | Ok (phys, s') => grabbed phys 1 s s'
  | Panic _ => ∀ q, is_page q → page_used s q = true
  | _ => False
  end.
Proof.
  intros Hi. pose proof (alloc_page_cases s Hi) as H.
  destruct (pmm_alloc_page s) as [[phys s']| | |]; [|by destruct H|done..].
  destruct H as (p & -> & [Hp Hfree Ht _] & _).
  apply taken_grabbed; [apply Hp|unfold is_page in Hp; lia| |done].
  intros q Hq. by replace q with p by lia.
Qed.

#[export] Instance pmm_page_alloc_spec : PageAllocSpec pmm.
Proof.
  split; cbn [alloc_page alloc_pages free_page free_pages used_page alloc_inv pmm_page_alloc].
  - apply pmm_alloc_page_grabbed.
  - done.
  - intros n s Hi Hn. destruct (Z.eq_dec n 1) as [->|].
    + pose proof (pmm_alloc_page_grabbed s Hi) as H. unfold pmm_alloc_pages. simpl.
      destruct (pmm_alloc_page s) as [[phys s']| | |]; [done| |done..].
      intros p Hp Hle Hrun. specialize (Hrun p ltac:(lia)).
      rewrite H in Hrun; [done|]. unfold is_page, PMM_MAX_PAGES, PAGE_LIMIT in *. lia.
    + pose proof (alloc_pages_taken s n Hi ltac:(lia)) as H.
      destruct (pmm_alloc_pages n s) as [[phys s']| | |]; [|done..].
      destruct H as (p & -> & Hp & Hmax & Hrun & _ & Ht). by apply taken_grabbed.
  - intros phys s Hi Hal Hp.
    replace phys with (phys / PAGE_SIZE * PAGE_SIZE + 0) at 2
      by (unfold PAGE_SIZE in *; Z.div_mod_to_equations; lia).
    destruct (free_page_released s (phys / PAGE_SIZE) 0 Hi Hp) as [[Hi' Hu _] _];
      [unfold PAGE_SIZE; lia|]. by split.
  - intros phys n s Hi Hal Hp Hn Hmax.
    replace phys with (phys / PAGE_SIZE * PAGE_SIZE) at 2
      by (unfold PAGE_SIZE in *; Z.div_mod_to_equations; lia).
    destruct (free_pages_released s (phys / PAGE_SIZE) n Hi) as [Hi' Hu _]; [|done..|].
    + unfold PAGE_SIZE. Z.div_mod_to_equations. lia.
    + by split.
Qed.

(** ** Room

    A run of [n] free pages at or above the hint: the hint never passes it, single
    pages are taken from its start at the latest, and so are runs, which are taken
    as low as possible. *)
Definition page_room (n : Z) (s : pmm) : Prop :=
  pmm_inv s ∧ ∃ p, pmm_last_free_hint s ≤ p ∧ p + n ≤ PMM_MAX_PAGES ∧ free_run s p n.

Lemma alloc_pages_hint count s phys s' :
  2 ≤ count → pmm_alloc_pages count s = Ok (phys, s') → pmm_last_free_hint s' = pmm_last_free_hint s.
Proof.
  intros Hc. unfold pmm_alloc_pages. destruct (Z.eqb_spec count 0); [lia|]. destruct (Z.eqb_spec count 1); [lia|].
  pose proof (c_for_ret_inv (fun _ st => st.1 = s)
    (fun r : Z * pmm => pmm_last_free_hint r.2 = pmm_last_free_hint s)
    0 PMM_MAX_PAGES (alloc_pages_body count) (s, (0, 0))) as Hloop.
  destruct (c_for_ret 0 _ _ _) as [[s1 [start run]]|[phys1 s1]]; [done|].
  intros [= <- <-]. apply Hloop; [unfold PMM_MAX_PAGES; lia|done|].
  intros i [s2 [start run]] _ E. cbn [fst] in E. subst s2. unfold alloc_pages_body.
  destruct (bitmap_test _ _); [done|]. destruct (_ =? count); [|done]. cbn [snd fst].
  by apply (c_for_keeps pmm_last_free_hint).
Qed.

Lemma page_room_page n s :
  0 ≤ n → page_room (n + 1) s → ∃ phys s', pmm_alloc_page s = Ok (phys, s') ∧ page_room n s'.
Proof.
  intros Hn (Hi & p & Hh & Hmax & Hrun). pose proof (inv_hint s Hi) as [Hh0 _].
  pose proof (alloc_page_cases s Hi) as H. assert (page_used s p = false) as Hp by (apply Hrun; lia).
  destruct (pmm_alloc_page s) as [[phys s']| | |]; [| |done..].
  2: { destruct H as [_ H]. rewrite H in Hp; [done|]. unfold is_page. lia. }
  destruct H as (i & -> & [Hi' Hfree [Hinv Hu _ _] Hhint] & Hcase). cbv zeta in Hcase.
  assert (i ≤ p) as Hle.
  { destruct Hcase as [[_ Hall]|[? _]]; [|lia]. destruct (Z.le_gt_cases i p); [done|]. rewrite Hall in Hp; [done|lia]. }
  assert (∀ q, p ≤ q < p + (n + 1) → q ≠ i → page_used s' q = false) as Hrest.
  { intros q Hq Hne. rewrite Hu by (unfold is_page; lia). rewrite Hrun by lia. zcases; (done || lia). }
  eexists _, s'. split; [done|]. split; [done|]. destruct (Z.eq_dec i p) as [->|Hne].
  - exists (p + 1). split_and!; [lia|lia|]. intros q Hq. apply Hrest; lia.
  - exists p. split_and!; [lia|lia|]. intros q Hq. apply Hrest; lia.
Qed.

Lemma page_room_pages n k s :
  0 ≤ n → 1 ≤ k → page_room (n + k) s → ∃ phys s', pmm_alloc_pages k s = Ok (phys, s') ∧ page_room n s'.
Proof.
  intros Hn Hk Hr. destruct (Z.eq_dec k 1) as [->|].
  { unfold pmm_alloc_pages. cbn [Z.eqb]. by apply page_room_page. }
  destruct Hr as (Hi & p & Hh & Hmax & Hrun). pose proof (inv_hint s Hi) as [Hh0 _].
  assert (2 ≤ k < 18446744073709551616) as Hk2 by (unfold PMM_MAX_PAGES in *; lia).
  pose proof (alloc_pages_taken s k Hi Hk2) as H. pose proof (alloc_pages_hint k s) as Hhint.
  destruct (pmm_alloc_pages k s) as [[phys s']| | |]; [| |done..].
  2: { destruct (H p ltac:(lia) ltac:(lia)). intros q Hq. apply Hrun. lia. }
  destruct H as (i & -> & Hi0 & _ & _ & Hlow & [Hinv Hu _ _]).
  assert (i ≤ p) as Hle.
  { destruct (Z.le_gt_cases i p); [done|]. destruct (Hlow p ltac:(lia)). intros q Hq. apply Hrun. lia. }
  eexists _, s'. split; [done|]. split; [done|]. exists (p + k). rewrite (Hhint _ s' ltac:(lia) eq_refl).
  split_and!; [lia|lia|]. intros q Hq. rewrite Hu by (unfold is_page; lia). rewrite Hrun by lia. zcases; (done || lia).
Qed.

#[export] Instance pmm_page_room : PageAllocRoom pmm := {
  room := page_room;
  room_page := page_room_page;
  room_pages := page_room_pages;
}.

(** ** Concrete instances *)

(** An allocator that owns the four pages from 4 MiB. *)
Definition sample_pmm : pmm := pmm_mark_free 4194304 16384 (pmm_reset pmm_static).

Lemma sample_pmm_inv : pmm_inv sample_pmm.
Proof.
  apply mark_free_spec; [|unfold is_u64; lia..].
  apply reset_inv. unfold PMM_MAX_PAGES. cbn. lia.
Qed.

(** A boot information structure at 0x9000: a memory map with the two AVAILABLE
    entries 0 - 0x9F000 and 1 MiB - 17 MiB, then the end tag. *)
Definition sample_boot : mem := mem_image 36864
  [80; 0;  6; 64; 24; 0;
   0; 0; 651264; 0; 1; 0;
   1048576; 0; 16777216; 0; 1; 0;
   0; 8].


Lemma sample_alloc : fst <$> pmm_alloc_page sample_pmm = Ok 4194304.
Proof. vm_compute. reflexivity. Qed.

Lemma sample_alloc3 : fst <$> pmm_alloc_pages 3 sample_pmm = Ok 4194304.
Proof. vm_compute. reflexivity. Qed.

Lemma sample_boot_ok : is_ok (pmm_init 12 sample_boot 36864 pmm_static) = true.
Proof. vm_compute. reflexivity. Qed.

Lemma pmm_alloc_page_next_fit_witness :
  pmm_inv sample_pmm ∧
  ∃ s' p, pmm_alloc_page sample_pmm = Ok (4194304, s') ∧
    4194304 = p * PAGE_SIZE ∧ page_allocated sample_pmm p s'.
Proof.
  split; [apply sample_pmm_inv|].
  pose proof (pmm_alloc_page_next_fit sample_pmm sample_pmm_inv) as H.
  destruct (fst_ok _ _ sample_alloc) as [s' E]. rewrite E in H.
  destruct H as (p & Hp & Ha & _). exists s', p. exact (conj E (conj Hp Ha)).
Defined.

Lemma pmm_alloc_pages_first_fit_witness :
  pmm_inv sample_pmm ∧ 2 ≤ 3 < 18446744073709551616 ∧
  ∃ s' p, pmm_alloc_pages 3 sample_pmm = Ok (4194304, s') ∧
    4194304 = p * PAGE_SIZE ∧ taken p (p + 3) sample_pmm s'.
Proof.
  split; [apply sample_pmm_inv|]. split; [lia|].
  pose proof (pmm_alloc_pages_first_fit sample_pmm 3 sample_pmm_inv ltac:(lia)) as H.
  destruct (fst_ok _ _ sample_alloc3) as [s' E]. rewrite E in H.
  destruct H as (p & Hp & _ & _ & _ & _ & Ht). exists s', p. exact (conj E (conj Hp Ht)).
Defined.

(** Page 5 is in use in the sample; freeing any address inside it frees it. *)
Lemma pmm_free_page_guarded_witness :
  pmm_inv sample_pmm ∧ page_used sample_pmm 5 = true ∧
  released 5 6 sample_pmm (pmm_free_page 20481 sample_pmm).
Proof.
  assert (page_used sample_pmm 5 = true) as Hu by (vm_compute; reflexivity).
  split; [exact sample_pmm_inv|]. split; [exact Hu|].
  destruct (pmm_free_page_guarded sample_pmm 20481 sample_pmm_inv ltac:(lia))
    as (_ & _ & H).
  change (20481 / PAGE_SIZE) with 5 in H.
  apply H; [unfold is_page, PMM_MAX_PAGES; lia|exact Hu].
Defined.

Lemma pmm_alloc_free_roundtrip_witness :
  ∃ s', pmm_alloc_pages 3 sample_pmm = Ok (4194304, s') ∧
    pmm_free_phys_pages (pmm_free_pages 4194304 3 s') = pmm_free_phys_pages sample_pmm.
Proof.
  destruct (fst_ok _ _ sample_alloc3) as [s' E]. exists s'. split; [exact E|].
  apply (pmm_alloc_free_roundtrip sample_pmm s' 3 4194304 sample_pmm_inv); [lia|exact E].
Defined.

(** Page 300 lies in the second AVAILABLE entry, page 4100 in the kernel range. *)
Lemma pmm_init_pages_witness :
  ∃ s', pmm_init 12 sample_boot 36864 pmm_static = Ok s' ∧
    page_used s' 300 = false ∧ page_used s' 4100 = true.
Proof.
  destruct (is_ok_eq _ sample_boot_ok) as [s' E]. exists s'. split; [exact E|].
  pose proof (pmm_init_pages 12 sample_boot 36864 pmm_static s'
    (mem_image_bytes _ _) ltac:(lia) E) as H.
  split; rewrite H by (unfold is_page, PMM_MAX_PAGES; lia); vm_compute; reflexivity.
Defined.

Lemma sample_boot_disjoint :
  entries_disjoint (boot_entries 12 sample_boot (36864 + 8) (36864 + load32 sample_boot 36864)).
Proof.
  replace (boot_entries _ _ _ _) with
    [mk_mmap_entry 0 651264 1; mk_mmap_entry 1048576 16777216 1] by (vm_compute; reflexivity).
  repeat constructor. intros q. unfold avail_covers, PAGE_SIZE, MB2_MMAP_TYPE_AVAILABLE.
  cbn [base_addr length_ type_]. change (1 =? 1) with true.
  change (0 / 4096 + 651264 / 4096) with 159. change (1048576 / 4096) with 256.
  zcases; (done || lia).
Qed.

Lemma pmm_init_establishes_inv_witness :
  ∃ s', pmm_init 12 sample_boot 36864 pmm_static = Ok s' ∧ pmm_inv s'.
Proof.
  destruct (is_ok_eq _ sample_boot_ok) as [s' E]. exists s'. split; [exact E|].
  apply (pmm_init_establishes_inv 12 sample_boot 36864 pmm_static s'
    (mem_image_bytes _ _)); [|exact E|exact sample_boot_disjoint].
  unfold PMM_MAX_PAGES. cbn. lia.
Defined.

Lemma sample_boot_tags :
  tags_wf sample_boot (36864 + load32 sample_boot 36864) (36864 + 8).
Proof.
  apply tags_next; [vm_compute; split; discriminate|intros _; vm_compute; discriminate|].
  apply tags_end. vm_compute. reflexivity.
Qed.

Lemma pmm_init_terminates_witness :
  tags_wf sample_boot (36864 + load32 sample_boot 36864) (36864 + 8) ∧
  ∃ s', pmm_init 12 sample_boot 36864 pmm_static = Ok s'.
Proof.
  split; [exact sample_boot_tags|].
  apply (pmm_init_terminates sample_boot 36864 pmm_static 11 sample_boot_tags).
  vm_compute. reflexivity.
Defined.


(** The memory map of two AVAILABLE entries of two pages each that share page 301:
    three pages are free, and the counter says four. *)
Definition overlap_boot : mem := mem_image 36864
  [80; 0;  6; 64; 24; 0;
   1228800; 0; 8192; 0; 1; 0;
   1232896; 0; 8192; 0; 1; 0;
   0; 8].

Example overlap_counts_twice :
  (fun s => (pmm_free_phys_pages s, filter (fun q => negb (page_used s q)) [299; 300; 301; 302; 303]))
    <$> pmm_init 12 overlap_boot 36864 pmm_static = Ok (4, [300; 301; 302]).
Proof. vm_compute. reflexivity. Qed.

Lemma pmm_inv_reachable_witness :
  pmm_inv (pmm_mark_used 0 18446744073709551615 (pmm_free_page 20481 sample_pmm)).
Proof.
  apply (pmm_inv_reachable sample_pmm _ sample_pmm_inv).
  eapply rtc_l; [apply (step_free_page _ 20481); unfold is_u64; lia|].
  apply rtc_once, step_mark_used; unfold is_u64; lia.
Defined.
