(* ===== verification/Kheap.v ===== *)
(** * kernel/mm/kheap.c: the kernel heap

    A first-fit free list.  Blocks live in memory: a 40-byte header
    (alloc_header_t), the payload, a 16-byte footer (alloc_footer_t), linked in
    both directions through the headers.  The model reads and writes these
    records byte by byte in [Mem.mem]; pages come from the allocator interface
    of PageAlloc.v.

    The list walks take fuel; [kheap_inv] fixes the list of blocks, and the
    theorems ask for more fuel than there are blocks. *)
From S2P Require Import Prelude Mem LibString PageAlloc.

Definition HEAP_MAGIC_FREE : Z := 3735928559.   (* 0xDEADBEEF *)
Definition HEAP_MAGIC_USED : Z := 3405691582.   (* 0xCAFEBABE *)
Definition HEAP_MIN_SIZE : Z := PAGE_SIZE * 16.
Definition HEADER_SIZE : Z := 40.
Definition FOOTER_SIZE : Z := 16.
Definition OVERHEAD : Z := HEADER_SIZE + FOOTER_SIZE.

(** The fields of [alloc_header_t] and [alloc_footer_t]. *)
Definition hdr_magic (m : mem) (h : Z) : Z := load64 m h.
Definition hdr_size (m : mem) (h : Z) : Z := load64 m (h + 8).
Definition hdr_free (m : mem) (h : Z) : bool := negb (load8 m (h + 16) =? 0).
Definition hdr_prev (m : mem) (h : Z) : Z := load64 m (h + 24).
Definition hdr_next (m : mem) (h : Z) : Z := load64 m (h + 32).
Definition set_size (h v : Z) (m : mem) : mem := store64 m (h + 8) v.
Definition set_prev (h v : Z) (m : mem) : mem := store64 m (h + 24) v.
Definition set_next (h v : Z) (m : mem) : mem := store64 m (h + 32) v.

(** The static variables of kheap.c, the memory and the page allocator. *)
Record kheap (A : Type) : Type := mk_kheap {
  kh_mem : mem;
  kh_pages : A;
  heap_head : Z;
  heap_base : Z;
  heap_end : Z;
  heap_max : Z;
}.
Arguments mk_kheap {A}.
Arguments kh_mem {A}.
Arguments kh_pages {A}.
Arguments heap_head {A}.
Arguments heap_base {A}.
Arguments heap_end {A}.
Arguments heap_max {A}.

Definition with_mem {A} (f : mem → mem) (s : kheap A) : kheap A :=
  mk_kheap (f (kh_mem s)) (kh_pages s) (heap_head s) (heap_base s) (heap_end s) (heap_max s).
Definition with_pages {A} (p : A) (s : kheap A) : kheap A :=
  mk_kheap (kh_mem s) p (heap_head s) (heap_base s) (heap_end s) (heap_max s).
Definition with_head {A} (h : Z) (s : kheap A) : kheap A :=
  mk_kheap (kh_mem s) (kh_pages s) h (heap_base s) (heap_end s) (heap_max s).
Definition with_end {A} (e : Z) (s : kheap A) : kheap A :=
  mk_kheap (kh_mem s) (kh_pages s) (heap_head s) (heap_base s) e (heap_max s).

(** ** Internal helpers *)

Definition get_footer (m : mem) (h : Z) : Z := h +₆₄ HEADER_SIZE +₆₄ hdr_size m h.

Definition magic_of (free : bool) : Z := if free then HEAP_MAGIC_FREE else HEAP_MAGIC_USED.

Definition write_block (h size : Z) (free : bool) (m : mem) : mem :=
  let m := store64 m h (magic_of free) in
  let m := set_size h size m in
  let m := store8 m (h + 16) (Z.b2z free) in
  let f := get_footer m h in
  let m := store64 m f (magic_of free) in
  store64 m (f + 8) h.

(** [while (cur->next) cur = cur->next;] *)
Fixpoint last_block (fuel : nat) (m : mem) (cur : Z) : outcome Z :=
  match fuel with
  | O => Diverge
  | S fuel' => if hdr_next m cur =? 0 then Ok cur else last_block fuel' m (hdr_next m cur)
  end.

(** The first-fit loop of [kmalloc]: the first free block with
    [cur->size >= size + OVERHEAD]. *)
Fixpoint find_fit (fuel : nat) (m : mem) (size cur : Z) : outcome (option Z) :=
  match fuel with
  | O => Diverge
  | S fuel' =>
      if cur =? 0 then Ok None
      else if hdr_free m cur && (size +₆₄ OVERHEAD <=? hdr_size m cur) then Ok (Some cur)
      else find_fit fuel' m size (hdr_next m cur)
  end.

(** The body of the [if] in that loop: split the block or take it whole. *)
Definition take_fit (size cur : Z) (m : mem) : mem :=
  if size +₆₄ OVERHEAD +₆₄ 32 <=? hdr_size m cur then
    let old_size := hdr_size m cur in
    let m := write_block cur size false m in
    let next_block := cur +₆₄ HEADER_SIZE +₆₄ size +₆₄ FOOTER_SIZE in
    let m := write_block next_block (old_size -₆₄ size -₆₄ OVERHEAD) true m in
    let m := set_prev next_block cur m in
    let m := set_next next_block (hdr_next m cur) m in
    let m := if hdr_next m cur =? 0 then m else set_prev (hdr_next m cur) next_block m in
    set_next cur next_block m
  else write_block cur (hdr_size m cur) false m.

Section Heap.
Context {A : Type} `{PageAlloc A}.

(** [heap_expand]: 0 on success, -1 when the heap limit is exceeded.  The pages
    are allocated before the limit is checked. *)
Definition heap_expand (fuel : nat) (bytes_needed : Z) : kop (kheap A) Z := fun s =>
  let pages := ALIGN_UP64 bytes_needed PAGE_SIZE / PAGE_SIZE in
  '(new_pages_phys, p) ← alloc_pages pages (kh_pages s);
  let s := with_pages p s in
  let new_end := heap_end s +₆₄ (pages *₆₄ PAGE_SIZE) in
  if heap_max s <? new_end then Ok (-1, s)
  else
    let s := with_end new_end s in
    let block := new_pages_phys in
    let s := with_mem (write_block block ((pages *₆₄ PAGE_SIZE) -₆₄ OVERHEAD) true) s in
    let s := with_mem (set_prev block 0) s in
    let s := with_mem (set_next block 0) s in
    if heap_head s =? 0 then Ok (0, with_head block s)
    else
      cur ← last_block fuel (kh_mem s) (heap_head s);
      Ok (0, with_mem (fun m => set_prev block cur (set_next cur block m)) s).

(** ** Public API *)

(** The recursion [return kmalloc(size)] after a successful expansion runs on
    the same fuel. *)
Fixpoint kmalloc (fuel : nat) (size : Z) (s : kheap A) : outcome (Z * kheap A) :=
  match fuel with
  | O => Diverge
  | S fuel' =>
      if size =? 0 then Ok (0, s)
      else
        let size := ALIGN_UP64 size 16 in
        fit ← find_fit fuel (kh_mem s) size (heap_head s);
        match fit with
        | Some cur => Ok (cur +₆₄ HEADER_SIZE, with_mem (take_fit size cur) s)
        | None =>
            '(r, s1) ← heap_expand fuel (size +₆₄ OVERHEAD +₆₄ PAGE_SIZE) s;
            if r =? 0 then kmalloc fuel' size s1 else Ok (0, s1)
        end
  end.

Definition kcalloc (fuel : nat) (count size : Z) : kop (kheap A) Z := fun s =>
  '(ptr, s1) ← kmalloc fuel (count *₆₄ size) s;
  if ptr =? 0 then Ok (ptr, s1)
  else Ok (ptr, with_mem (memset ptr 0 (count *₆₄ size)) s1).

(** "Coalesce with next block": [h->next && h->next->free]. *)
Definition coalesce_next (h : Z) (m : mem) : mem :=
  let n := hdr_next m h in
  if negb (n =? 0) && hdr_free m n then
    let m := set_size h (hdr_size m h +₆₄ (OVERHEAD +₆₄ hdr_size m n)) m in
    let m := set_next h (hdr_next m n) m in
    let m := if hdr_next m n =? 0 then m else set_prev (hdr_next m n) h m in
    store64 m (get_footer m h + 8) h
  else m.

(** "Coalesce with prev block": [h->prev && h->prev->free]. *)
Definition coalesce_prev (h : Z) (m : mem) : mem :=
  let p := hdr_prev m h in
  if negb (p =? 0) && hdr_free m p then
    let m := set_size p (hdr_size m p +₆₄ (OVERHEAD +₆₄ hdr_size m h)) m in
    let m := set_next p (hdr_next m h) m in
    let m := if hdr_next m h =? 0 then m else set_prev (hdr_next m h) p m in
    store64 m (get_footer m p + 8) p
  else m.

Definition kfree (ptr : Z) (s : kheap A) : kheap A :=
  if ptr =? 0 then s
  else
    let h := ptr -₆₄ HEADER_SIZE in
    if negb (hdr_magic (kh_mem s) h =? HEAP_MAGIC_USED) then s
    else with_mem (fun m =>
           let m := write_block h (hdr_size m h) true m in
           let m := coalesce_next h m in
           coalesce_prev h m) s.

Definition krealloc (fuel : nat) (ptr new_size : Z) : kop (kheap A) Z := fun s =>
  if ptr =? 0 then kmalloc fuel new_size s
  else if new_size =? 0 then Ok (0, kfree ptr s)
  else
    let h := ptr -₆₄ HEADER_SIZE in
    if new_size <=? hdr_size (kh_mem s) h then Ok (ptr, s)
    else
      '(new_ptr, s1) ← kmalloc fuel new_size s;
      if new_ptr =? 0 then Ok (0, s1)
      else
        let s2 := with_mem (fun m => memcpy new_ptr ptr (hdr_size m h) m) s1 in
        Ok (new_ptr, kfree ptr s2).

Definition kmalloc_aligned (fuel : nat) (size align : Z) : kop (kheap A) Z := fun s =>
  '(raw, s1) ← kmalloc fuel (size +₆₄ align +₆₄ 8) s;
  if raw =? 0 then Ok (0, s1)
  else
    let aligned := ALIGN_UP64 (raw +₆₄ 8) align in
    Ok (aligned, with_mem (fun m => store64 m (aligned -₆₄ 8) raw) s1).

(** [kheap_dump_stats]: blocks, used bytes and free bytes, before the division
    by 1024 that the message prints. *)
Fixpoint heap_stats (fuel : nat) (m : mem) (cur blocks used free : Z) : outcome (Z * Z * Z) :=
  match fuel with
  | O => Diverge
  | S fuel' =>
      if cur =? 0 then Ok (blocks, used, free)
      else if hdr_free m cur
      then heap_stats fuel' m (hdr_next m cur) (blocks +₆₄ 1) used (free +₆₄ hdr_size m cur)
      else heap_stats fuel' m (hdr_next m cur) (blocks +₆₄ 1) (used +₆₄ hdr_size m cur) free
  end.
Definition kheap_dump_stats (fuel : nat) (s : kheap A) : outcome (Z * Z * Z) :=
  heap_stats fuel (kh_mem s) (heap_head s) 0 0 0.

Definition kheap_init (fuel : nat) (start size : Z) : kop (kheap A) unit := fun s =>
  let s := mk_kheap (kh_mem s) (kh_pages s) (heap_head s) start start (start +₆₄ size) in
  let init_size := MIN HEAP_MIN_SIZE size in
  '(r, s1) ← heap_expand fuel init_size s;
  if r =? 0 then Ok (tt, s1)
  else Panic "kheap_init: failed to allocate initial heap pages".
End Heap.
