(* ===== verification/KheapInv.v ===== *)
(** * The heap invariant

    [kheap_inv s bs]: the memory of [s] holds exactly the blocks [bs], in list
    order, properly linked, pairwise disjoint and inside pages the heap owns. *)
From S2P Require Import Prelude Mem LibString PageAlloc Kheap.

Record blk : Type := mk_blk { b_addr : Z; b_size : Z; b_free : bool }.

(** The extent of a block is [b_addr, b_end); its payload starts at [b_data]. *)
Definition b_data (b : blk) : Z := b_addr b + 40.
Definition b_end (b : blk) : Z := b_addr b + 56 + b_size b.

(** The header and footer of [b], with the given neighbours. *)
Record block_at (m : mem) (prev next : Z) (b : blk) : Prop := mk_block_at {
  ba_magic : hdr_magic m (b_addr b) = magic_of (b_free b);
  ba_size : hdr_size m (b_addr b) = b_size b;
  ba_free : load8 m (b_addr b + 16) = Z.b2z (b_free b);
  ba_prev : hdr_prev m (b_addr b) = prev;
  ba_next : hdr_next m (b_addr b) = next;
  ba_foot_magic : load64 m (b_addr b + 40 + b_size b) = magic_of (b_free b);
  ba_foot_header : load64 m (b_addr b + 48 + b_size b) = b_addr b;
}.

Definition head_addr (l : list blk) (next : Z) : Z :=
  match l with [] => next | b :: _ => b_addr b end.
Definition last_addr (prev : Z) (l : list blk) : Z := from_option b_addr prev (last l).

(** A doubly linked segment entered from [prev] and left to [next]. *)
Fixpoint chain (m : mem) (prev : Z) (l : list blk) (next : Z) : Prop :=
  match l with
  | [] => True
  | b :: l' => block_at m prev (head_addr l' next) b ∧ chain m (b_addr b) l' next
  end.

(** Physical memory ends at 4 GiB ([PAGE_LIMIT] pages). *)
Record blk_ok (b : blk) : Prop := mk_blk_ok {
  bo_addr : 0 < b_addr b;
  bo_align : b_addr b mod 8 = 0;
  bo_size : 0 ≤ b_size b;
  bo_end : b_end b ≤ 4294967296;
}.

Definition blk_disj (b b' : blk) : Prop := b_end b ≤ b_addr b' ∨ b_end b' ≤ b_addr b.

(** Pairwise disjointness of a list of blocks. *)
Fixpoint blocks_disj (l : list blk) : Prop :=
  match l with
  | [] => True
  | b :: l' => Forall (blk_disj b) l' ∧ blocks_disj l'
  end.

(** A memory whose list of blocks is [bs]. *)
Record heap_list (m : mem) (bs : list blk) : Prop := mk_heap_list {
  hl_chain : chain m 0 bs 0;
  hl_ok : Forall blk_ok bs;
  hl_disj : blocks_disj bs;
}.

(** Every byte of the block lies in a page the allocator has handed out. *)
Definition owned {A} `{PageAlloc A} (a : A) (b : blk) : Prop :=
  ∀ x, b_addr b ≤ x < b_end b → used_page a (x / PAGE_SIZE) = true.

Record kheap_inv {A} `{PageAlloc A} (s : kheap A) (bs : list blk) : Prop := mk_kheap_inv {
  ki_bytes : mem_bytes (kh_mem s);
  ki_head : heap_head s = head_addr bs 0;
  ki_list : heap_list (kh_mem s) bs;
  ki_owned : Forall (owned (kh_pages s)) bs;
  ki_pages : alloc_inv (kh_pages s);
  ki_null : used_page (kh_pages s) 0 = true;
}.

(** ** Lists of disjoint blocks *)

Lemma blk_disj_sym b b' : blk_disj b b' → blk_disj b' b.
Proof. unfold blk_disj. tauto. Qed.

Lemma blocks_disj_app l1 l2 :
  blocks_disj (l1 ++ l2) ↔
  blocks_disj l1 ∧ blocks_disj l2 ∧ Forall (fun b => Forall (blk_disj b) l2) l1.
Proof.
  induction l1 as [|b l1 IH]; simpl; [intuition constructor|].
  rewrite Forall_app, IH, Forall_cons. tauto.
Qed.

Lemma blocks_disj_middle l1 b l2 :
  blocks_disj (l1 ++ b :: l2) ↔ blocks_disj (l1 ++ l2) ∧ Forall (blk_disj b) (l1 ++ l2).
Proof.
  rewrite !blocks_disj_app, Forall_app. simpl.
  assert (Forall (fun c => Forall (blk_disj c) (b :: l2)) l1 ↔
          Forall (blk_disj b) l1 ∧ Forall (fun c => Forall (blk_disj c) l2) l1) as ->.
  { clear. induction l1 as [|c l1 IH]; [split; [by repeat constructor|constructor]|].
    rewrite !Forall_cons, IH. split; intuition auto using blk_disj_sym. }
  tauto.
Qed.

Lemma Forall_middle {X} (P : X → Prop) l1 b l2 :
  Forall P (l1 ++ b :: l2) ↔ P b ∧ Forall P (l1 ++ l2).
Proof. rewrite !Forall_app, Forall_cons. tauto. Qed.

Lemma elem_middle {X} (c b : X) l1 l2 : c ∈ l1 ++ b :: l2 ↔ c = b ∨ c ∈ l1 ++ l2.
Proof. rewrite !elem_of_app, elem_of_cons. tauto. Qed.

(** ** Segments *)

Lemma head_addr_app l1 l2 next : head_addr (l1 ++ l2) next = head_addr l1 (head_addr l2 next).
Proof. by destruct l1. Qed.

Lemma last_addr_cons prev b l : last_addr prev (b :: l) = last_addr (b_addr b) l.
Proof.
  unfold last_addr. revert b. induction l as [|c l IH]; intros b; [done|].
  rewrite !last_cons_cons. destruct (last (c :: l)) eqn:E; [done|].
  by apply last_None in E.
Qed.

Lemma last_addr_snoc prev l b : last_addr prev (l ++ [b]) = b_addr b.
Proof. unfold last_addr. by rewrite last_snoc. Qed.

Lemma chain_app m prev l1 l2 next :
  chain m prev (l1 ++ l2) next ↔
  chain m prev l1 (head_addr l2 next) ∧ chain m (last_addr prev l1) l2 next.
Proof.
  revert prev. induction l1 as [|b l1 IH]; intros prev.
  - simpl. unfold last_addr. simpl. tauto.
  - rewrite <- app_comm_cons, last_addr_cons. simpl. rewrite head_addr_app, IH. tauto.
Qed.

(** ** Frames: bytes outside the header and the footer do not matter *)

Definition blk_same (m m' : mem) (b : blk) : Prop :=
  mem_agree m m' (b_addr b) (b_addr b + 40) ∧
  mem_agree m m' (b_addr b + 40 + b_size b) (b_end b).

Lemma block_at_frame m m' prev next b :
  blk_same m m' b → block_at m prev next b → block_at m' prev next b.
Proof.
  intros [Hh Hf] [H1 H2 H3 H4 H5 H6 H7]. unfold b_end in Hf.
  unfold hdr_magic, hdr_size, hdr_prev, hdr_next, load8 in *.
  split; unfold hdr_magic, hdr_size, hdr_prev, hdr_next, load8;
    first [ rewrite (load64_ext m m') by (apply (mem_agree_sub _ _ _ _ _ _ Hh); lia); assumption
          | rewrite (load64_ext m m') by (apply (mem_agree_sub _ _ _ _ _ _ Hf); lia); assumption
          | rewrite Hh by lia; assumption ].
Qed.

Lemma chain_frame m m' prev l next :
  Forall (blk_same m m') l → chain m prev l next → chain m' prev l next.
Proof.
  revert prev. induction l as [|b l IH]; intros prev Hs Hc; [done|].
  apply Forall_cons in Hs as [Hb Hs]. destruct Hc as [Hb' Hc].
  split; [by eapply block_at_frame|by apply IH].
Qed.

(** A memory change confined to [lo, hi) keeps every block disjoint from it. *)
Lemma blk_same_outside m m' lo hi b :
  (∀ x, x < lo ∨ hi ≤ x → m' x = m x) → 0 ≤ b_size b →
  b_end b ≤ lo ∨ hi ≤ b_addr b → blk_same m m' b.
Proof.
  intros Hout Hs Hd. unfold b_end in Hd.
  split; intros x Hx; apply Hout; unfold b_end in Hx; lia.
Qed.

(** A segment still starts with the right block when the write is to the
    [prev] field of its first block. *)
Lemma chain_set_prev m prev b l next v :
  is_u64 v → blk_ok b → Forall (blk_disj b) l → Forall blk_ok l →
  chain m prev (b :: l) next → chain (set_prev (b_addr b) v m) v (b :: l) next.
Proof.
  intros Hv [Ha _ Hs _] Hd Hok [[H1 H2 H3 H4 H5 H6 H7] Hc].
  unfold set_prev, hdr_magic, hdr_size, hdr_prev, hdr_next in *.
  split.
  - split; unfold hdr_magic, hdr_size, hdr_prev, hdr_next; mem_simpl; try done.
    by apply u64_wrap.
  - eapply chain_frame; [|done]. apply Forall_forall. intros c Hc'.
    rewrite Forall_forall in Hd, Hok. specialize (Hd c Hc'). destruct (Hok c Hc').
    unfold blk_disj, b_end in *.
    eapply (blk_same_outside _ _ (b_addr b + 24) (b_addr b + 32)); [|done|unfold b_end; lia].
    intros x Hx. apply store64_other. lia.
Qed.

Lemma block_at_set_next m prev next b v :
  is_u64 v → blk_ok b → block_at m prev next b →
  block_at (set_next (b_addr b) v m) prev v b.
Proof.
  intros Hv [Ha _ Hs _] [H1 H2 H3 H4 H5 H6 H7].
  unfold set_next, hdr_magic, hdr_size, hdr_prev, hdr_next in *.
  split; unfold hdr_magic, hdr_size, hdr_prev, hdr_next; mem_simpl; try done.
  by apply u64_wrap.
Qed.

(** Linking a new successor behind the last block of a segment. *)
Lemma chain_set_next m prev l b next v :
  is_u64 v → blk_ok b → Forall (blk_disj b) l → Forall blk_ok l →
  chain m prev (l ++ [b]) next → chain (set_next (b_addr b) v m) prev (l ++ [b]) v.
Proof.
  intros Hv Hb Hd Hok [Hl Hc]%chain_app. apply chain_app. split.
  - simpl in *. eapply chain_frame; [|done]. apply Forall_forall. intros c Hc'.
    rewrite Forall_forall in Hd, Hok. specialize (Hd c Hc'). destruct (Hok c Hc'), Hb.
    unfold blk_disj, b_end in *.
    eapply (blk_same_outside _ _ (b_addr b + 32) (b_addr b + 40)); [|done|unfold b_end; lia].
    intros x Hx. apply store64_other. lia.
  - simpl in *. destruct Hc as [Hc _]. split; [|done]. by eapply block_at_set_next.
Qed.

(** ** write_block *)

Lemma get_footer_ok m b :
  blk_ok b → hdr_size m (b_addr b) = b_size b → get_footer m (b_addr b) = b_addr b + 40 + b_size b.
Proof.
  intros [Ha _ Hs He] Hsz. unfold get_footer, HEADER_SIZE, b_end in *. rewrite Hsz.
  rewrite (wrap64_small (b_addr b + 40)) by lia. apply wrap64_small. lia.
Qed.

Lemma magic_u64 f : is_u64 (magic_of f).
Proof. unfold is_u64, magic_of, HEAP_MAGIC_FREE, HEAP_MAGIC_USED. destruct f; lia. Qed.

Lemma write_block_unfold b m :
  blk_ok b →
  write_block (b_addr b) (b_size b) (b_free b) m =
    store64 (store64 (store8 (store64 (store64 m (b_addr b) (magic_of (b_free b)))
      (b_addr b + 8) (b_size b)) (b_addr b + 16) (Z.b2z (b_free b)))
      (b_addr b + 40 + b_size b) (magic_of (b_free b)))
      (b_addr b + 40 + b_size b + 8) (b_addr b).
Proof.
  intros Hok. unfold write_block, set_size. cbv zeta. rewrite get_footer_ok; [done|done|].
  unfold hdr_size. mem_simpl. destruct Hok. unfold b_end in *. apply wrap64_small. lia.
Qed.

(** The block written is there, with the links it had. *)
Lemma write_block_at b m :
  blk_ok b →
  let m' := write_block (b_addr b) (b_size b) (b_free b) m in
  block_at m' (hdr_prev m (b_addr b)) (hdr_next m (b_addr b)) b.
Proof.
  intros Hok m'. unfold m'. rewrite write_block_unfold by done.
  pose proof (magic_u64 (b_free b)) as Hmag. destruct Hok as [Ha Hal Hs He].
  unfold b_end in He.
  split; unfold hdr_magic, hdr_size, hdr_prev, hdr_next.
  - mem_simpl. by apply u64_wrap.
  - mem_simpl. apply wrap64_small. lia.
  - mem_simpl. by destruct (b_free b).
  - by mem_simpl.
  - by mem_simpl.
  - mem_simpl. by apply u64_wrap.
  - replace (b_addr b + 48 + b_size b) with (b_addr b + 40 + b_size b + 8) by lia.
    mem_simpl. apply wrap64_small. lia.
Qed.

Lemma write_block_other b m x :
  blk_ok b → x < b_addr b ∨ (b_addr b + 17 ≤ x < b_addr b + 40 + b_size b) ∨ b_end b ≤ x →
  write_block (b_addr b) (b_size b) (b_free b) m x = m x.
Proof.
  intros Hok Hx. rewrite write_block_unfold by done. destruct Hok. unfold b_end in *.
  rewrite !store64_other by lia. rewrite store8_other by lia.
  by rewrite !store64_other by lia.
Qed.

Lemma write_block_bytes h size free m : mem_bytes m → mem_bytes (write_block h size free m).
Proof. intros Hm. unfold write_block, set_size. by auto 10 with mem. Qed.
#[export] Hint Resolve write_block_bytes : mem.

(** ** The list walks *)

Lemma hdr_free_at m prev next b : block_at m prev next b → hdr_free m (b_addr b) = b_free b.
Proof. intros Hb. unfold hdr_free. rewrite (ba_free _ _ _ _ Hb). by destruct (b_free b). Qed.

(** The block kmalloc looks for: first fit over the list. *)
Definition fits (need : Z) (b : blk) : bool := b_free b && (need <=? b_size b).
Definition first_fit (need : Z) (l : list blk) : option blk := find (fits need) l.

Lemma find_fit_spec fuel m size prev l :
  chain m prev l 0 → Forall blk_ok l → (length l < fuel)%nat →
  find_fit fuel m size (head_addr l 0) = Ok (b_addr <$> first_fit (size +₆₄ OVERHEAD) l).
Proof.
  revert prev l. induction fuel as [|fuel IH]; intros prev l Hc Hok Hf; [lia|].
  destruct l as [|b l]; [done|]. apply Forall_cons in Hok as [Hb Hok].
  destruct Hc as [Hba Hc]. cbn [find_fit head_addr first_fit find].
  pose proof (bo_addr b Hb). destruct (Z.eqb_spec (b_addr b) 0); [lia|].
  rewrite (hdr_free_at _ _ _ _ Hba), (ba_size _ _ _ _ Hba). unfold fits at 1.
  destruct (b_free b && (size +₆₄ OVERHEAD <=? b_size b)); [done|].
  rewrite (ba_next _ _ _ _ Hba). apply (IH (b_addr b)); [done|done|simpl in Hf; lia].
Qed.

Lemma first_fit_split need l b :
  first_fit need l = Some b → ∃ l1 l2, l = l1 ++ b :: l2 ∧ b_free b = true ∧
    need ≤ b_size b ∧ Forall (fun c => fits need c = false) l1.
Proof.
  induction l as [|c l IH]; simpl; [done|]. destruct (fits need c) eqn:Hc.
  - intros [= ->]. exists [], l. unfold fits in Hc. apply andb_prop in Hc as [Hf Hn].
    apply Z.leb_le in Hn. by repeat split.
  - intros (l1 & l2 & -> & Hf & Hn & Hall)%IH. exists (c :: l1), l2.
    repeat split; auto.
Qed.

Lemma last_block_spec fuel m prev l :
  chain m prev l 0 → Forall blk_ok l → l ≠ [] → (length l ≤ fuel)%nat →
  last_block fuel m (head_addr l 0) = Ok (last_addr 0 l).
Proof.
  revert prev l. induction fuel as [|fuel IH]; intros prev l Hc Hok Hne Hf.
  { destruct l; [done|simpl in Hf; lia]. }
  destruct l as [|b l]; [done|]. apply Forall_cons in Hok as [Hb Hok].
  destruct Hc as [Hba Hc]. cbn [last_block head_addr].
  rewrite (ba_next _ _ _ _ Hba). rewrite last_addr_cons.
  destruct l as [|c l]; [done|]. pose proof (Forall_inv Hok) as [Hc0 _ _ _].
  simpl head_addr at 1. destruct (Z.eqb_spec (b_addr c) 0); [lia|].
  rewrite (IH (b_addr b) (c :: l)); [by rewrite !last_addr_cons|done|done|done|simpl in *; lia].
Qed.

(** ** The list is determined by the memory *)

Lemma block_at_unique m p1 n1 p2 n2 b c :
  block_at m p1 n1 b → block_at m p2 n2 c → b_addr b = b_addr c → b = c ∧ n1 = n2.
Proof.
  intros [_ S1 F1 _ N1 _ _] [_ S2 F2 _ N2 _ _] E. rewrite E in *. split; [|congruence].
  destruct b as [a sz f], c as [a' sz' f']. cbn [b_addr b_size b_free] in *. f_equal; [done|congruence|].
  destruct f, f'; cbn in *; congruence.
Qed.

Lemma chain_unique m p1 p2 l1 l2 :
  chain m p1 l1 0 → chain m p2 l2 0 → Forall blk_ok l1 → Forall blk_ok l2 →
  head_addr l1 0 = head_addr l2 0 → l1 = l2.
Proof.
  revert p1 p2 l2. induction l1 as [|b l1 IH]; intros p1 p2 [|c l2] H1 H2 Ok1 Ok2 E; [done| | |].
  - apply Forall_inv in Ok2 as []. cbn in E. lia.
  - apply Forall_inv in Ok1 as []. cbn in E. lia.
  - destruct H1 as [B1 H1], H2 as [B2 H2]. apply Forall_cons in Ok1 as [_ Ok1]. apply Forall_cons in Ok2 as [_ Ok2].
    destruct (block_at_unique _ _ _ _ _ _ _ B1 B2 E) as [-> En]. f_equal. by eapply IH.
Qed.

Lemma kheap_inv_unique {A} `{PageAlloc A} (s : kheap A) l1 l2 : kheap_inv s l1 → kheap_inv s l2 → l1 = l2.
Proof.
  intros [_ H1 [C1 O1 _] _ _ _] [_ H2 [C2 O2 _] _ _ _].
  eapply chain_unique; [exact C1|exact C2|done|done|congruence].
Qed.

Lemma split_unique {X} (b : X) l1 l2 j1 j2 :
  l1 ++ b :: l2 = j1 ++ b :: j2 → (b ∉ j1 ++ j2) → l1 = j1 ∧ l2 = j2.
Proof.
  revert j1. induction l1 as [|c l1 IH]; intros [|d j1] E Hn; cbn [app] in *; simplify_eq; [done| | |].
  - destruct Hn. by left.
  - destruct Hn. apply elem_middle. by left.
  - destruct (IH j1) as [-> ->]; [done| |done]. intros H. apply Hn. by right.
Qed.
