(* ===== verification/KheapSpec.v ===== *)
(** * The contract of the heap, proved of kernel/mm/kheap.c

    Specifications of [heap_expand], [kmalloc], [kcalloc] and [kfree] over the
    list of blocks that [kheap_inv] attaches to a memory. *)
From S2P Require Import Prelude Mem LibString PageAlloc Kheap KheapInv.

(** ** Changes confined to a range *)

Definition mem_outside (m m' : mem) (lo hi : Z) : Prop :=
  ∀ x, x < lo ∨ hi ≤ x → m' x = m x.

Lemma mem_outside_refl m lo hi : mem_outside m m lo hi.
Proof. by intros x _. Qed.

Lemma mem_outside_trans m1 m2 m3 lo hi :
  mem_outside m1 m2 lo hi → mem_outside m2 m3 lo hi → mem_outside m1 m3 lo hi.
Proof. intros H1 H2 x Hx. by rewrite H2, H1. Qed.

Lemma mem_outside_weaken m m' lo hi lo' hi' :
  mem_outside m m' lo hi → lo' ≤ lo → hi ≤ hi' → mem_outside m m' lo' hi'.
Proof. intros H Hl Hh x Hx. apply H. lia. Qed.

Lemma store64_outside m a v : mem_outside m (store64 m a v) a (a + 8).
Proof. intros x Hx. by apply store64_other. Qed.

Lemma mem_outside_agree m m' lo hi a b :
  mem_outside m m' lo hi → b ≤ lo ∨ hi ≤ a → mem_agree m m' a b.
Proof. intros H Hd x Hx. apply H. lia. Qed.

Lemma write_block_outside b m :
  blk_ok b → mem_outside m (write_block (b_addr b) (b_size b) (b_free b) m) (b_addr b) (b_end b).
Proof. intros Hok x Hx. apply write_block_other; [done|lia]. Qed.

(** Blocks and segments apart from the changed range stay as they are. *)
Lemma outside_block_at m m' lo hi prev next b :
  mem_outside m m' lo hi → blk_ok b → b_end b ≤ lo ∨ hi ≤ b_addr b →
  block_at m prev next b → block_at m' prev next b.
Proof.
  intros Hm [_ _ Hs _] Hd. apply block_at_frame. by apply (blk_same_outside _ _ lo hi).
Qed.

Lemma outside_chain m m' lo hi prev l next :
  mem_outside m m' lo hi → Forall blk_ok l →
  Forall (fun b => b_end b ≤ lo ∨ hi ≤ b_addr b) l →
  chain m prev l next → chain m' prev l next.
Proof.
  intros Hm Hok Hd. apply chain_frame. rewrite Forall_forall in *. intros b Hb.
  destruct (Hok b Hb). apply (blk_same_outside _ _ lo hi); auto.
Qed.

Lemma blk_disj_range b l lo hi :
  b_addr b ≤ lo → hi ≤ b_end b → Forall (blk_disj b) l →
  Forall (fun c => b_end c ≤ lo ∨ hi ≤ b_addr c) l.
Proof.
  intros Hl Hh Hd. eapply Forall_impl; [exact Hd|]. unfold blk_disj. lia.
Qed.

Lemma block_at_set_prev m prev next b v :
  is_u64 v → blk_ok b → block_at m prev next b →
  block_at (set_prev (b_addr b) v m) v next b.
Proof.
  intros Hv [Ha _ Hs _] [H1 H2 H3 H4 H5 H6 H7].
  unfold set_prev, hdr_magic, hdr_size, hdr_prev, hdr_next in *.
  split; unfold hdr_magic, hdr_size, hdr_prev, hdr_next; mem_simpl; try done.
  by apply u64_wrap.
Qed.

Lemma blk_ok_u64 b : blk_ok b → is_u64 (b_addr b).
Proof. intros [Ha _ Hs He]. unfold b_end, is_u64 in *. lia. Qed.

Lemma head_addr_u64 l : Forall blk_ok l → is_u64 (head_addr l 0).
Proof. intros [|b l' Hb _]; simpl; [unfold is_u64; lia|by apply blk_ok_u64]. Qed.

Lemma head_addr_zero l : Forall blk_ok l → (head_addr l 0 =? 0) = bool_decide (l = []).
Proof.
  intros [|b l' [Ha _ _ _] _]; simpl; [done|]. apply Z.eqb_neq. lia.
Qed.

Lemma blocks_disj_middle_chain (l1 l2 : list blk) b :
  blocks_disj (l1 ++ b :: l2) → Forall (blk_disj b) l1 ∧ Forall (blk_disj b) l2 ∧ blocks_disj l2.
Proof.
  intros H. pose proof H as [_ [H1 H2]%Forall_app]%blocks_disj_middle.
  apply blocks_disj_app in H as (_ & [_ H3] & _). auto.
Qed.

(** The common tail of linking: "if (n) n->prev = h". *)
Definition relink (n h : Z) (m : mem) : mem := if n =? 0 then m else set_prev n h m.

Lemma relink_chain m prev l h :
  is_u64 h → Forall blk_ok l → blocks_disj l →
  chain m prev l 0 → chain (relink (head_addr l 0) h m) h l 0.
Proof.
  intros Hh Hok Hd Hc. unfold relink. rewrite head_addr_zero by done.
  destruct l as [|b l]; [done|]. simpl head_addr. cbn [bool_decide].
  destruct (bool_decide_reflect (b :: l = [])) as [|_]; [done|].
  apply Forall_cons in Hok as [Hb Hok]. destruct Hd as [Hd _].
  by apply (chain_set_prev m prev).
Qed.

(** [relink] writes inside the header of the first block of [l]. *)
Lemma relink_block_at m l h prev next b :
  Forall blk_ok l → blk_ok b → Forall (blk_disj b) l →
  block_at m prev next b → block_at (relink (head_addr l 0) h m) prev next b.
Proof.
  intros Hok Hb Hd. unfold relink. destruct l as [|c l]; [done|].
  simpl head_addr. pose proof (Forall_inv Hok) as [Hc _ Hs _].
  destruct (Z.eqb_spec (b_addr c) 0); [lia|].
  apply (outside_block_at _ _ (b_addr c + 24) (b_addr c + 32)); [|done|].
  - intros x Hx. apply store64_other. lia.
  - apply Forall_inv in Hd. unfold blk_disj, b_end in *. lia.
Qed.

Lemma relink_chain_other m l h prev l1 next :
  Forall blk_ok l → Forall blk_ok l1 → Forall (fun b => Forall (blk_disj b) l) l1 →
  chain m prev l1 next → chain (relink (head_addr l 0) h m) prev l1 next.
Proof.
  intros Hok Hok1 Hd. unfold relink. destruct l as [|c l]; [done|].
  simpl head_addr. pose proof (Forall_inv Hok) as [Hc _ Hs _].
  destruct (Z.eqb_spec (b_addr c) 0); [lia|].
  apply (outside_chain _ _ (b_addr c + 24) (b_addr c + 32)); [|done|].
  - intros x Hx. apply store64_other. lia.
  - eapply Forall_impl; [done|]. intros b Hb%Forall_inv.
    unfold blk_disj, b_end in *. lia.
Qed.

(** Payload bytes are outside every header. *)
Definition payload_kept (m m' : mem) (b : blk) : Prop :=
  mem_agree m m' (b_data b) (b_data b + b_size b).

Definition clear_of_head (l : list blk) (c : blk) : Prop :=
  match l with [] => True | n :: _ => c = n ∨ blk_disj c n end.

Lemma relink_payload m l h c :
  Forall blk_ok l → blk_ok c → clear_of_head l c →
  payload_kept m (relink (head_addr l 0) h m) c.
Proof.
  intros Hok [_ _ Hcs _] Hd. unfold relink, payload_kept. destruct l as [|n l]; [done|].
  simpl head_addr. pose proof (Forall_inv Hok) as [Hn _ Hs _].
  destruct (Z.eqb_spec (b_addr n) 0); [lia|].
  apply store64_agree. unfold b_data. destruct Hd as [->|Hd]; [lia|].
  unfold blk_disj, b_end in Hd. lia.
Qed.

Lemma payload_kept_trans m1 m2 m3 b :
  payload_kept m1 m2 b → payload_kept m2 m3 b → payload_kept m1 m3 b.
Proof. apply mem_agree_trans. Qed.

Lemma outside_payload m m' lo hi c :
  mem_outside m m' lo hi → 0 ≤ b_size c → b_end c ≤ lo ∨ hi ≤ b_addr c → payload_kept m m' c.
Proof.
  intros Hm Hs Hd. apply (mem_outside_agree _ _ lo hi); [done|].
  unfold b_data, b_end in *. lia.
Qed.

Lemma clear_of_head_middle l1 l2 b c :
  blocks_disj (l1 ++ b :: l2) → c ∈ l1 ++ l2 → clear_of_head l2 c ∧ blk_disj b c.
Proof.
  intros Hd Hc. pose proof (blocks_disj_middle l1 b l2) as [[Hd' Hb] _]; [done|].
  rewrite Forall_forall in Hb. split; [|by apply Hb].
  destruct l2 as [|n l2]; [done|]. simpl.
  apply blocks_disj_middle in Hd' as [_ Hn]. rewrite Forall_forall in Hn.
  apply elem_of_app in Hc as [Hc|Hc].
  - right. apply blk_disj_sym, Hn, elem_of_app. by left.
  - apply elem_of_cons in Hc as [->|Hc]; [by left|].
    right. apply blk_disj_sym, Hn, elem_of_app. by right.
Qed.

(** ** Replacing the middle of the list *)

Definition apart (lo hi : Z) (b : blk) : Prop := b_end b ≤ lo ∨ hi ≤ b_addr b.

(** The blocks [b :: o] become [b' :: mid] at the same place: the bytes change
    in [lo, hi) and, through [relink], in the header of the block that follows. *)
Lemma middle_replaced m m1 m' l1 b o b' mid l2 lo hi :
  chain m 0 (l1 ++ (b :: o) ++ l2) 0 → Forall blk_ok (l1 ++ l2) → blocks_disj (l1 ++ l2) →
  Forall (apart lo hi) (l1 ++ l2) → b_addr b' = b_addr b → is_u64 (last_addr 0 (b' :: mid)) →
  mem_outside m m1 lo hi →
  mem_outside (relink (head_addr l2 0) (last_addr 0 (b' :: mid)) m1) m' lo hi →
  chain m' (last_addr 0 l1) (b' :: mid) (head_addr l2 0) →
  chain m' 0 (l1 ++ (b' :: mid) ++ l2) 0.
Proof.
  intros Hc Hok Hd Hap Ha Hh H1 H2 Hmid.
  apply chain_app in Hc as [Hc1 [_ Hc2]%chain_app].
  apply Forall_app in Hok as [Hok1 Hok2]. apply Forall_app in Hap as [Hap1 Hap2].
  apply blocks_disj_app in Hd as (_ & Hd2 & Hd12).
  apply chain_app. split; [|apply chain_app; split; [exact Hmid|]].
  - simpl in *. rewrite Ha. eapply outside_chain; [exact H2|done|done|].
    apply relink_chain_other; [done..|]. by eapply outside_chain.
  - replace (last_addr (last_addr 0 l1) (b' :: mid)) with (last_addr 0 (b' :: mid))
      by (by rewrite !last_addr_cons).
    eapply outside_chain; [exact H2|done|done|].
    eapply relink_chain; [done..|]. by eapply outside_chain.
Qed.

Lemma middle_replaced_payload m m1 m' l1 b l2 lo hi h c :
  Forall blk_ok (l1 ++ l2) → blocks_disj (l1 ++ b :: l2) → Forall (apart lo hi) (l1 ++ l2) →
  mem_outside m m1 lo hi → mem_outside (relink (head_addr l2 0) h m1) m' lo hi →
  c ∈ l1 ++ l2 → payload_kept m m' c.
Proof.
  intros Hok Hd Hap H1 H2 Hc. rewrite Forall_forall in Hap.
  pose proof (Hap c Hc) as Hac. pose proof (clear_of_head_middle _ _ _ _ Hd Hc) as [Hcl _].
  assert (blk_ok c) as Hokc by (rewrite Forall_forall in Hok; by apply Hok).
  assert (0 ≤ b_size c) as Hs by (by destruct Hokc).
  eapply payload_kept_trans; [by eapply outside_payload|].
  eapply payload_kept_trans; [|by eapply outside_payload].
  apply relink_payload; [|done|done]. by apply Forall_app in Hok as [_ ?].
Qed.

(** ** Merging two adjacent free blocks *)

Definition join (b n : blk) : blk := mk_blk (b_addr b) (b_size b + 56 + b_size n) true.

(** The body shared by the two coalescing steps of [kfree]. *)
Definition merge_next (h n : Z) (m : mem) : mem :=
  let m := set_size h (hdr_size m h +₆₄ (OVERHEAD +₆₄ hdr_size m n)) m in
  let m := set_next h (hdr_next m n) m in
  let m := relink (hdr_next m n) h m in
  store64 m (get_footer m h + 8) h.

Lemma coalesce_next_merge h m :
  coalesce_next h m =
    if negb (hdr_next m h =? 0) && hdr_free m (hdr_next m h)
    then merge_next h (hdr_next m h) m else m.
Proof. done. Qed.

Lemma coalesce_prev_merge h m :
  coalesce_prev h m =
    if negb (hdr_prev m h =? 0) && hdr_free m (hdr_prev m h)
    then merge_next (hdr_prev m h) h m else m.
Proof. done. Qed.

Lemma set_prev_bytes h v m : mem_bytes m → mem_bytes (set_prev h v m).
Proof. apply store64_bytes. Qed.
Lemma set_next_bytes h v m : mem_bytes m → mem_bytes (set_next h v m).
Proof. apply store64_bytes. Qed.
Lemma relink_bytes n h m : mem_bytes m → mem_bytes (relink n h m).
Proof. intros Hm. unfold relink. destruct (n =? 0); [done|by apply set_prev_bytes]. Qed.

Lemma merge_next_bytes h n m : mem_bytes m → mem_bytes (merge_next h n m).
Proof.
  intros Hm. unfold merge_next.
  by apply store64_bytes, relink_bytes, set_next_bytes, store64_bytes.
Qed.

Lemma coalesce_next_bytes h m : mem_bytes m → mem_bytes (coalesce_next h m).
Proof.
  intros Hm. rewrite coalesce_next_merge.
  destruct (negb _ && _); auto using merge_next_bytes.
Qed.

Lemma coalesce_prev_bytes h m : mem_bytes m → mem_bytes (coalesce_prev h m).
Proof.
  intros Hm. rewrite coalesce_prev_merge.
  destruct (negb _ && _); auto using merge_next_bytes.
Qed.

Lemma join_ok b n : blk_ok b → blk_ok n → b_end b = b_addr n → blk_ok (join b n).
Proof.
  intros [Ha Hal Hs He] [Ha' Hal' Hs' He'] Hadj. unfold b_end in *.
  split; unfold b_end; simpl; lia.
Qed.

Lemma join_apart b n c :
  blk_ok b → blk_ok n → blk_ok c → b_end b = b_addr n → blk_disj b c → blk_disj n c →
  apart (b_addr b) (b_end n) c.
Proof.
  intros [] [] [] Hadj. unfold blk_disj, apart, b_end in *. lia.
Qed.

Lemma relink_agree m l h lo hi :
  Forall blk_ok l → Forall (apart lo hi) l → mem_agree m (relink (head_addr l 0) h m) lo hi.
Proof.
  intros Hok Hap. unfold relink. destruct l as [|n l]; [by apply mem_agree_refl|].
  simpl head_addr. pose proof (Forall_inv Hok) as [Hn _ Hs _]. apply Forall_inv in Hap.
  destruct (Z.eqb_spec (b_addr n) 0); [lia|].
  apply store64_agree. unfold apart, b_end in Hap. lia.
Qed.

(** The memory before the last store of [merge_next]: the fields of the joined
    block are in place except the back pointer of its footer. *)
Lemma merge_next_block m prev b n l2 next :
  blk_ok b → blk_ok n → b_end b = b_addr n → b_free b = true → b_free n = true →
  Forall blk_ok l2 → Forall (apart (b_addr b) (b_end n)) l2 → is_u64 next →
  next = head_addr l2 0 →
  block_at m prev (b_addr n) b → block_at m (b_addr b) next n →
  ∃ m1, mem_outside m m1 (b_addr b) (b_end n) ∧
    merge_next (b_addr b) (b_addr n) m =
      store64 (relink next (b_addr b) m1) (b_addr n + 48 + b_size n) (b_addr b) ∧
    block_at (merge_next (b_addr b) (b_addr n) m) prev next (join b n).
Proof.
  intros Hb Hn Hadj Hfb Hfn Hok2 Hap Hnext Heq Hbb Hbn.
  pose proof (join_ok _ _ Hb Hn Hadj) as [_ _ Hjs Hje]. cbn [join b_size b_addr] in Hjs.
  unfold b_end in Hje. cbn [join b_size b_addr] in Hje.
  destruct Hb as [Ha _ Hs _], Hn as [Ha' _ Hs' He']. unfold b_end in Hadj, He'.
  unfold merge_next.
  rewrite (ba_size _ _ _ _ Hbb), (ba_size _ _ _ _ Hbn).
  replace (b_size b +₆₄ (OVERHEAD +₆₄ b_size n)) with (b_size b + 56 + b_size n).
  2: { unfold OVERHEAD, HEADER_SIZE, FOOTER_SIZE.
       rewrite (wrap64_small (40 + 16 + b_size n)), wrap64_small by lia. lia. }
  set (m0 := set_size (b_addr b) (b_size b + 56 + b_size n) m).
  assert (hdr_next m0 (b_addr n) = next) as Hnx.
  { rewrite <- (ba_next _ _ _ _ Hbn). unfold hdr_next, m0, set_size. by mem_simpl. }
  rewrite Hnx. set (m1 := set_next (b_addr b) next m0).
  assert (hdr_next m1 (b_addr n) = next) as ->.
  { rewrite <- Hnx. unfold hdr_next, m1, set_next. by mem_simpl. }
  assert (mem_agree m1 (relink next (b_addr b) m1) (b_addr b) (b_end n)) as Hrel
    by (subst next; by apply relink_agree).
  unfold b_end in Hrel. set (m2 := relink next (b_addr b) m1) in *.
  assert (∀ a, b_addr b ≤ a → a + 8 ≤ b_addr n + 56 + b_size n →
    load64 m2 a = load64 m1 a) as Hload.
  { intros a Hl Hh. apply load64_ext. by apply (mem_agree_sub _ _ _ _ _ _ Hrel). }
  assert (get_footer m2 (b_addr b) + 8 = b_addr n + 48 + b_size n) as ->.
  { unfold get_footer, hdr_size, HEADER_SIZE. rewrite Hload by lia.
    unfold m1, m0, set_next, set_size. mem_simpl.
    rewrite (wrap64_small (b_size b + 56 + b_size n)) by lia.
    rewrite (wrap64_small (b_addr b + 40)), wrap64_small by lia. lia. }
  exists m1. split; [|split; [done|]].
  { intros x Hx. unfold m1, m0, set_next, set_size, b_end in *.
    by rewrite !store64_other by lia. }
  split; cbn [join b_size b_addr b_free];
    unfold hdr_magic, hdr_size, hdr_prev, hdr_next; mem_simpl.
  - rewrite Hload by lia. unfold m1, m0, set_next, set_size. mem_simpl.
    rewrite <- Hfb. apply Hbb.
  - rewrite Hload by lia. unfold m1, m0, set_next, set_size. mem_simpl.
    apply wrap64_small. lia.
  - unfold load8. rewrite Hrel by lia. unfold m1, m0, set_next, set_size.
    rewrite !store64_other by lia. rewrite <- Hfb. apply Hbb.
  - rewrite Hload by lia. unfold m1, m0, set_next, set_size. mem_simpl. apply Hbb.
  - rewrite Hload by lia. unfold m1, m0, set_next, set_size. mem_simpl. by apply u64_wrap.
  - rewrite Hload by lia. unfold m1, m0, set_next, set_size. mem_simpl.
    replace (b_addr b + 40 + (b_size b + 56 + b_size n)) with (b_addr n + 40 + b_size n) by lia.
    rewrite <- Hfn. apply Hbn.
  - replace (b_addr b + 48 + (b_size b + 56 + b_size n)) with (b_addr n + 48 + b_size n) by lia.
    mem_simpl. apply wrap64_small. lia.
Qed.

Lemma merge_next_spec m l1 b n l2 :
  heap_list m (l1 ++ b :: n :: l2) → b_end b = b_addr n → b_free b = true → b_free n = true →
  heap_list (merge_next (b_addr b) (b_addr n) m) (l1 ++ join b n :: l2) ∧
  ∀ c, c ∈ l1 ++ l2 → payload_kept m (merge_next (b_addr b) (b_addr n) m) c.
Proof.
  intros [Hc Hok Hd] Hadj Hfb Hfn.
  pose proof Hok as [Hb Hok']%Forall_middle.
  pose proof Hok' as [Hn Hok'']%Forall_middle.
  pose proof Hd as [Hd' Hdb]%blocks_disj_middle.
  pose proof Hd' as [Hd'' Hdn]%blocks_disj_middle.
  assert (Forall (apart (b_addr b) (b_end n)) (l1 ++ l2)) as Hap.
  { apply Forall_middle in Hdb as [_ Hdb]. rewrite Forall_forall in *.
    intros c Hcc. apply join_apart; auto. }
  pose proof Hok'' as [Hok1 Hok2]%Forall_app. pose proof Hap as [_ Hap2]%Forall_app.
  pose proof Hc as [_ Hcm]%chain_app. destruct Hcm as [Hbb [Hbn _]].
  destruct (merge_next_block m (last_addr 0 l1) b n l2 (head_addr l2 0))
    as (m1 & Hout & Heq & Hblk); [done..|by apply head_addr_u64|done|done|done|].
  assert (mem_outside (relink (head_addr l2 0) (b_addr b) m1)
    (merge_next (b_addr b) (b_addr n) m) (b_addr b) (b_end n)) as Hout2.
  { rewrite Heq. eapply mem_outside_weaken; [apply store64_outside|unfold b_end|unfold b_end];
      destruct Hb, Hn; unfold b_end in *; lia. }
  split.
  - split.
    + apply (middle_replaced m m1 _ l1 b [n] (join b n) [] l2 (b_addr b) (b_end n));
        try done. exact (blk_ok_u64 b Hb).
    + apply Forall_middle. split; [by apply join_ok|done].
    + apply blocks_disj_middle. split; [done|].
      apply Forall_middle in Hdb as [_ Hdb]. rewrite Forall_forall in *. intros c Hcc.
      specialize (Hap c Hcc). unfold blk_disj, apart, b_end in *. cbn [join b_addr b_size]. lia.
  - intros c Hcc. eapply (middle_replaced_payload m m1 _ l1 n l2); try done.
Qed.

(** One block rewritten in place, keeping its address and its size. *)
Definition set_free (f : bool) (b : blk) : blk := mk_blk (b_addr b) (b_size b) f.

Lemma rewrite_block_spec m l1 b l2 f :
  heap_list m (l1 ++ b :: l2) →
  let m' := write_block (b_addr b) (b_size b) f m in
  heap_list m' (l1 ++ set_free f b :: l2) ∧
  (∀ c, c ∈ l1 ++ b :: l2 → payload_kept m m' c).
Proof.
  intros [Hc Hok Hd] m'.
  pose proof Hok as [Hb Hok']%Forall_middle. pose proof Hd as [Hd' Hdb]%blocks_disj_middle.
  assert (blk_ok (set_free f b)) as Hb' by (by destruct Hb).
  assert (mem_outside m m' (b_addr b) (b_end b)) as Hout
    by (exact (write_block_outside (set_free f b) m Hb')).
  assert (Forall (apart (b_addr b) (b_end b)) (l1 ++ l2)) as Hap
    by (eapply Forall_impl; [exact Hdb|]; unfold blk_disj, apart; lia).
  split; [split|].
  - apply chain_app in Hc as [Hc1 [Hbb Hc2]].
    apply Forall_app in Hap as [Hap1 Hap2]. apply Forall_app in Hok' as [Hok1 Hok2].
    apply chain_app. split; [by eapply outside_chain|].
    split; [|by eapply outside_chain].
    pose proof (write_block_at (set_free f b) m Hb') as Hw. cbn [set_free b_addr b_size b_free] in Hw.
    by rewrite (ba_prev _ _ _ _ Hbb), (ba_next _ _ _ _ Hbb) in Hw.
  - apply Forall_middle. by split.
  - apply blocks_disj_middle. by split.
  - intros c [->|Hcc]%elem_middle.
    + destruct Hb. intros x Hx. unfold b_data in Hx.
      by apply (write_block_other (set_free f b)); [|right; left; cbn; lia].
    + rewrite Forall_forall in Hap, Hok'.
      eapply outside_payload; [done| |by apply Hap]. by destruct (Hok' c Hcc).
Qed.

(** ** kfree

    The block list after freeing [b] between [l1] and [l2]: merged with the
    free block that follows it and with the free block before it. *)
Definition freed_right (b : blk) (l2 : list blk) : blk * list blk :=
  match l2 with
  | n :: t => if b_free n then (join b n, t) else (set_free true b, l2)
  | [] => (set_free true b, [])
  end.
Definition freed_list (l1 : list blk) (b : blk) (l2 : list blk) : list blk :=
  let '(x, t) := freed_right b l2 in
  match rev l1 with
  | p :: r => if b_free p then rev r ++ join p x :: t else l1 ++ x :: t
  | [] => x :: t
  end.

(** The free blocks next to [b] in the list also touch it in memory. *)
Definition touching (l1 : list blk) (b : blk) (l2 : list blk) : Prop :=
  (∀ n t, l2 = n :: t → b_free n = true → b_end b = b_addr n) ∧
  (∀ p r, rev l1 = p :: r → b_free p = true → b_end p = b_addr b).

Lemma coalesce_next_spec m l1 b l2 :
  heap_list m (l1 ++ set_free true b :: l2) →
  (∀ n t, l2 = n :: t → b_free n = true → b_end b = b_addr n) →
  let m' := coalesce_next (b_addr b) m in
  let '(x, t) := freed_right b l2 in
  heap_list m' (l1 ++ x :: t) ∧ b_addr x = b_addr b ∧ b_free x = true ∧
  (∀ c, c ∈ l1 ++ l2 → b_free c = false → payload_kept m m' c).
Proof.
  intros Hl Hadj. rewrite coalesce_next_merge.
  pose proof (hl_chain _ _ Hl) as [_ [Hbb Hc2]]%chain_app.
  pose proof (hl_ok _ _ Hl) as [_ Hok]%Forall_middle.
  apply Forall_app in Hok as [_ Hok2].
  pose proof (ba_next _ _ _ _ Hbb) as Hnx. cbn [set_free b_addr] in Hnx. rewrite Hnx.
  rewrite head_addr_zero by done.
  destruct l2 as [|n t]; cbn [freed_right].
  { rewrite bool_decide_eq_true_2 by done. cbn [negb andb]. split_and!; try done. }
  rewrite bool_decide_eq_false_2 by done. cbn [negb andb head_addr].
  destruct Hc2 as [Hbn _]. rewrite (hdr_free_at _ _ _ _ Hbn).
  destruct (b_free n) eqn:Hfn; [|split_and!; done].
  destruct (merge_next_spec m l1 (set_free true b) n t Hl) as [Hl' Hp]; [by apply (Hadj n t)|done..|].
  split_and!; [done..|]. intros c Hcc Hfc. apply Hp.
  apply elem_middle in Hcc as [->|Hcc]; [congruence|done].
Qed.

Lemma coalesce_prev_spec m l1 x t :
  heap_list m (l1 ++ x :: t) → b_free x = true →
  (∀ p r, rev l1 = p :: r → b_free p = true → b_end p = b_addr x) →
  let m' := coalesce_prev (b_addr x) m in
  heap_list m' (match rev l1 with
                | p :: r => if b_free p then rev r ++ join p x :: t else l1 ++ x :: t
                | [] => x :: t
                end) ∧
  (∀ c, c ∈ l1 ++ t → b_free c = false → payload_kept m m' c).
Proof.
  intros Hl Hfx Hadj. rewrite coalesce_prev_merge.
  pose proof (hl_chain _ _ Hl) as [Hc1 [Hbx _]]%chain_app. rewrite (ba_prev _ _ _ _ Hbx).
  induction l1 as [|p l1 _] using rev_ind; [done|].
  rewrite rev_app_distr in *. cbn [rev app] in *. rewrite last_addr_snoc.
  pose proof (hl_ok _ _ Hl) as Hok. rewrite <- app_assoc in Hl, Hok. simpl in Hl, Hok.
  pose proof Hok as [[Hp0 _ _ _] _]%Forall_middle.
  destruct (Z.eqb_spec (b_addr p) 0); [lia|]. cbn [negb andb].
  apply chain_app in Hc1 as [_ [Hbp _]]. rewrite (hdr_free_at _ _ _ _ Hbp).
  destruct (b_free p) eqn:Hfp.
  2: { rewrite <- app_assoc. by split. }
  rewrite rev_involutive.
  destruct (merge_next_spec m l1 p x t Hl) as [Hl' Hpay]; [by apply (Hadj p (rev l1))|done..|].
  split; [done|]. intros c Hcc Hfc. apply Hpay. rewrite <- app_assoc in Hcc. simpl in Hcc.
  apply elem_middle in Hcc as [->|Hcc]; [congruence|done].
Qed.

(** The blocks in use, in list order. *)
Definition used_blocks (bs : list blk) : list blk := filter (fun b => b_free b = false) bs.

Lemma used_blocks_middle l1 b l2 :
  used_blocks (l1 ++ b :: l2) =
    used_blocks l1 ++ (if b_free b then [] else [b]) ++ used_blocks l2.
Proof.
  unfold used_blocks. rewrite filter_app, filter_cons.
  destruct (b_free b); [by rewrite decide_False|by rewrite decide_True].
Qed.

Lemma freed_list_used l1 b l2 :
  used_blocks (freed_list l1 b l2) = used_blocks (l1 ++ l2).
Proof.
  unfold freed_list. destruct (freed_right b l2) as [x t] eqn:E.
  assert (b_free x = true ∧ used_blocks t = used_blocks l2) as [Hx Ht].
  { unfold freed_right in E. destruct l2 as [|n l2]; [by injection E as <- <-|].
    destruct (b_free n) eqn:Hn; injection E as <- <-; [|done]. split; [done|].
    pose proof (used_blocks_middle [] n l2) as H. rewrite Hn in H. symmetry. exact H. }
  assert (∀ l, used_blocks (l ++ x :: t) = used_blocks (l ++ l2)) as Hgen.
  { intros l. rewrite used_blocks_middle, Hx, Ht. unfold used_blocks. by rewrite filter_app. }
  induction l1 as [|p l1 _] using rev_ind; [apply (Hgen [])|].
  rewrite rev_app_distr. cbn [rev app]. destruct (b_free p) eqn:Hp; [|apply Hgen].
  rewrite rev_involutive, used_blocks_middle, <- app_assoc. simpl.
  rewrite (used_blocks_middle l1 p l2), Hp, Ht. done.
Qed.

Lemma freed_right_rest b l2 x t c :
  freed_right b l2 = (x, t) → c ∈ l2 → b_free c = false → c ∈ t.
Proof.
  unfold freed_right. destruct l2 as [|n l2]; [by intros [= <- <-]|].
  destruct (b_free n) eqn:Hn; intros [= <- <-] Hc Hf; [|done].
  apply elem_of_cons in Hc as [->|Hc]; [congruence|done].
Qed.

Lemma freed_list_head l1 b l2 :
  head_addr (freed_list l1 b l2) 0 = head_addr (l1 ++ b :: l2) 0.
Proof.
  unfold freed_list. destruct (freed_right b l2) as [x t] eqn:E.
  assert (b_addr x = b_addr b) as Hx.
  { unfold freed_right in E. destruct l2 as [|n l2]; [by injection E as <- _|].
    by destruct (b_free n); injection E as <- _. }
  induction l1 as [|p l1 _] using rev_ind; [done|].
  rewrite rev_app_distr. cbn [rev app]. rewrite rev_involutive.
  by destruct (b_free p); rewrite !head_addr_app.
Qed.

Lemma join_owned {A} `{PageAlloc A} (a : A) b n :
  b_end b = b_addr n → owned a b → owned a n → owned a (join b n).
Proof.
  intros Hadj Hb Hn x Hx. unfold b_end in *. cbn [join b_addr b_size] in Hx.
  destruct (Z.lt_ge_cases x (b_addr n)); [apply Hb|apply Hn]; unfold b_end; lia.
Qed.

Lemma freed_list_owned {A} `{PageAlloc A} (a : A) l1 b l2 :
  touching l1 b l2 → Forall (owned a) (l1 ++ b :: l2) → Forall (owned a) (freed_list l1 b l2).
Proof.
  intros [Hn Hp] [Hb Hall]%Forall_middle. unfold freed_list.
  destruct (freed_right b l2) as [x t] eqn:E.
  pose proof Hall as [Hall1 Hall2]%Forall_app.
  assert (owned a x ∧ Forall (owned a) t ∧ b_addr x = b_addr b) as (Hx & Ht & Hxa).
  { unfold freed_right in E. destruct l2 as [|n l2]; [by injection E as <- <-|].
    apply Forall_cons in Hall2 as [Hon Hall2].
    destruct (b_free n) eqn:Hfn; injection E as <- <-; [|by split_and!; [|constructor|]].
    split_and!; [|done..]. apply join_owned; [by eapply Hn|done..]. }
  induction l1 as [|p l1 _] using rev_ind; [by constructor|].
  rewrite rev_app_distr in *. cbn [rev app] in *. rewrite rev_involutive.
  apply Forall_app in Hall1 as [Hall1 Hop%Forall_inv].
  destruct (b_free p) eqn:Hfp; apply Forall_middle; split.
  - apply join_owned; [rewrite Hxa; by apply (Hp p (rev l1))|done..].
  - by apply Forall_app.
  - done.
  - apply Forall_app; split; [apply Forall_app; split; [done|by constructor]|done].
Qed.

Lemma heap_list_payload_ptr b : blk_ok b → b_data b -₆₄ HEADER_SIZE = b_addr b ∧ b_data b ≠ 0.
Proof.
  intros [Ha _ Hs He]. unfold b_data, b_end, HEADER_SIZE in *.
  split; [rewrite wrap64_small; lia|lia].
Qed.

Lemma kfree_spec {A} `{PageAlloc A} (s : kheap A) (l1 l2 : list blk) (b : blk)
    (Hinv : kheap_inv s (l1 ++ b :: l2)) (Hused : b_free b = false)
    (Htouch : touching l1 b l2) :
  let s' := kfree (b_data b) s in
  kheap_inv s' (freed_list l1 b l2) ∧
  used_blocks (freed_list l1 b l2) = used_blocks (l1 ++ l2) ∧
  ∀ c, c ∈ used_blocks (l1 ++ l2) → payload_kept (kh_mem s) (kh_mem s') c.
Proof.
  destruct Hinv as [Hby Hhd Hl Hown Hpg Hnull]. destruct Htouch as [Hn Hp].
  pose proof (hl_ok _ _ Hl) as [Hb _]%Forall_middle.
  pose proof (hl_chain _ _ Hl) as [_ [Hbb _]]%chain_app.
  destruct (heap_list_payload_ptr b Hb) as [Hptr Hnz].
  intros s'. unfold s', kfree. rewrite Hptr. rewrite (proj2 (Z.eqb_neq _ _) Hnz).
  rewrite (ba_magic _ _ _ _ Hbb), Hused. cbn [magic_of].
  rewrite Z.eqb_refl. cbn [negb]. unfold with_mem. cbn [kh_mem kh_pages heap_head].
  rewrite (ba_size _ _ _ _ Hbb).
  destruct (rewrite_block_spec _ l1 b l2 true Hl) as [Hl1 Hp1].
  pose proof (coalesce_next_spec _ l1 b l2 Hl1 Hn) as Hnext.
  set (m2 := coalesce_next (b_addr b) _) in *.
  pose proof (freed_list_owned (kh_pages s) l1 b l2 (conj Hn Hp) Hown) as Hown'.
  pose proof (freed_list_used l1 b l2) as Hus.
  unfold freed_list in *. destruct (freed_right b l2) as [x t] eqn:E.
  destruct Hnext as (Hl2 & Hxa & Hxf & Hp2).
  destruct (coalesce_prev_spec m2 l1 x t Hl2 Hxf) as [Hl3 Hp3];
    [intros p r Hr Hf; rewrite Hxa; by apply (Hp p r)|].
  rewrite Hxa in Hl3, Hp3.
  split; [split; cbn [kh_mem kh_pages heap_head]; try done|split; [done|]].
  - apply coalesce_prev_bytes. unfold m2. apply coalesce_next_bytes, write_block_bytes, Hby.
  - by rewrite Hhd, <- (freed_list_head l1 b l2); unfold freed_list; rewrite E.
  - intros c [Hcf Hc]%list_elem_of_filter.
    eapply payload_kept_trans; [apply Hp1, elem_middle; by right|].
    eapply payload_kept_trans; [by apply Hp2|]. apply Hp3; [|done].
    apply elem_of_app. apply elem_of_app in Hc as [Hc|Hc]; [by left|right].
    by eapply freed_right_rest.
Qed.

(** (C15) Freeing a block in use, when each neighbour in the list that is free also
    touches the block in memory ([touching]): the heap stays well-formed, its list is
    the old one with the block merged into its free neighbours on either side, the
    blocks still in use are the same ones in the same order, and no byte of their
    payloads changes.

    [touching] is needed.  When [heap_expand] gets pages that do not follow the last
    region, list neighbours have a gap between them; [kfree] does not compare
    addresses, merges them all the same, and the heap then hands out memory between
    the regions ([kfree_merges_across_gap] in KmallocSpec.v; kheap.c:157). *)
Theorem kfree_coalesces {A} `{PageAlloc A} (s : kheap A) (l1 l2 : list blk) (b : blk)
    (Hinv : kheap_inv s (l1 ++ b :: l2)) (Hused : b_free b = false)
    (Htouch : touching l1 b l2) :
  let s' := kfree (b_data b) s in
  kheap_inv s' (freed_list l1 b l2) ∧
  used_blocks (freed_list l1 b l2) = used_blocks (l1 ++ l2) ∧
  ∀ c, c ∈ used_blocks (l1 ++ l2) → payload_kept (kh_mem s) (kh_mem s') c.
Proof. by apply kfree_spec. Qed.
