(* ===== verification/KmallocSpec.v ===== *)
(** * Allocation: [take_fit], [heap_expand], [kmalloc], [kcalloc], [krealloc]

    The contract of the allocating half of kernel/mm/kheap.c, against the page
    allocator interface of PageAlloc.v. *)
From S2P Require Import Prelude Mem LibString PageAlloc Pmm Kheap KheapInv KheapSpec.

(** ** Splitting a block *)

Definition head_part (sz : Z) (b : blk) : blk := mk_blk (b_addr b) sz false.
Definition tail_part (sz : Z) (b : blk) : blk :=
  mk_blk (b_addr b + 56 + sz) (b_size b - sz - 56) true.

(** The blocks that replace a free block [b] of which [sz] bytes are taken, as
    the block in use and the rest. *)
Definition fit_used (sz : Z) (b : blk) : blk :=
  if sz + 88 <=? b_size b then head_part sz b else set_free false b.
Definition fit_rest (sz : Z) (b : blk) : list blk :=
  if sz + 88 <=? b_size b then [tail_part sz b] else [].

(** What a size must satisfy to be taken from a block: the rounding of
    [kmalloc] gives a positive multiple of 16. *)
Definition good_size (sz : Z) : Prop := 0 < sz ∧ sz mod 16 = 0.

Lemma parts_ok sz b :
  good_size sz → blk_ok b → sz + 88 ≤ b_size b →
  blk_ok (head_part sz b) ∧ blk_ok (tail_part sz b) ∧
  b_end (head_part sz b) = b_addr (tail_part sz b) ∧ b_end (tail_part sz b) = b_end b.
Proof.
  intros [Hs Hm] [Ha Hal Hbs He] Hle. unfold b_end in *. cbn [head_part tail_part b_addr b_size].
  split_and!; [split..| |]; unfold b_end; cbn [head_part tail_part b_addr b_size]; try lia.
  Z.div_mod_to_equations; lia.
Qed.

Lemma parts_apart l b lo hi :
  b_addr b = lo → b_end b = hi → Forall (blk_disj b) l → Forall (apart lo hi) l.
Proof. intros <- <- H. eapply Forall_impl; [exact H|]. unfold blk_disj, apart. lia. Qed.

Lemma set_prev_outside b v m :
  blk_ok b → mem_outside m (set_prev (b_addr b) v m) (b_addr b) (b_end b).
Proof. intros [_ _ Hs _] x Hx. unfold b_end in Hx. apply store64_other. lia. Qed.

Lemma set_next_outside b v m :
  blk_ok b → mem_outside m (set_next (b_addr b) v m) (b_addr b) (b_end b).
Proof. intros [_ _ Hs _] x Hx. unfold b_end in Hx. apply store64_other. lia. Qed.

(** Addresses in no block of the heap. *)
Definition outside_blocks (bs : list blk) (x : Z) : Prop := ∀ b, b ∈ bs → x < b_addr b ∨ b_end b ≤ x.

Lemma relink_frame m l h x :
  Forall blk_ok l → outside_blocks l x → relink (head_addr l 0) h m x = m x.
Proof.
  intros Hok Hx. unfold relink. destruct l as [|c l]; [done|]. change (head_addr (c :: l) 0) with (b_addr c).
  pose proof (Forall_inv Hok) as [Hc _ Hs _]. destruct (Z.eqb_spec (b_addr c) 0); [lia|].
  apply store64_other. pose proof (Hx c ltac:(by left)). unfold b_end in *. lia.
Qed.

(** The memory that [take_fit] leaves when it splits [b]. *)
Lemma split_block m prev b sz next :
  good_size sz → blk_ok b → sz + 88 ≤ b_size b → is_u64 next →
  block_at m prev next b →
  let h := b_addr b in let t := b_addr (tail_part sz b) in
  let m2 := write_block t (b_size b - sz - 56) true (write_block h sz false m) in
  let m4 := set_next t (hdr_next (set_prev t h m2) h) (set_prev t h m2) in
  mem_outside m m4 h (b_end b) ∧ hdr_next m4 h = next ∧
  block_at m4 prev next (head_part sz b) ∧ block_at m4 h next (tail_part sz b).
Proof.
  intros Hsz Hb Hle Hnx Hbb h t m2 m4.
  destruct (parts_ok sz b Hsz Hb Hle) as (Hh & Ht & Hadj & Hend).
  pose proof (blk_ok_u64 _ Hb) as Hu.
  pose proof (write_block_at _ m Hh) as Hw1. pose proof (write_block_outside _ m Hh) as Ho1.
  cbn [head_part b_addr b_size b_free] in Hw1, Ho1. fold h in Hw1, Ho1.
  unfold h in Hw1 at 2 3. rewrite (ba_prev _ _ _ _ Hbb), (ba_next _ _ _ _ Hbb) in Hw1.
  set (m1 := write_block h sz false m) in *.
  pose proof (write_block_at _ m1 Ht) as Hw2. pose proof (write_block_outside _ m1 Ht) as Ho2.
  cbn [tail_part b_size b_free] in Hw2, Ho2. fold t in Hw2, Ho2. fold m2 in Hw2, Ho2.
  assert (block_at m2 prev next (head_part sz b)) as Hw1'.
  { eapply outside_block_at; [exact Ho2|done| |exact Hw1]. unfold t. lia. }
  set (m3 := set_prev t h m2) in *.
  pose proof (set_prev_outside _ h m2 Ht) as Ho3. fold t m3 in Ho3.
  assert (block_at m3 prev next (head_part sz b)) as Hw3.
  { eapply outside_block_at; [exact Ho3|done| |exact Hw1']. unfold t. lia. }
  assert (hdr_next m3 h = next) as Hn3 by apply Hw3.
  unfold m4. rewrite Hn3.
  pose proof (set_next_outside _ next m3 Ht) as Ho4. fold t in Ho4.
  assert (block_at (set_next t next m3) prev next (head_part sz b)) as Hw4.
  { eapply outside_block_at; [exact Ho4|done| |exact Hw3]. unfold t. lia. }
  split_and!; [|apply Hw4|done|].
  - pose proof Hb as [_ _ Hs0 _]. pose proof Hh as [_ _ Hs1 _]. pose proof Ht as [_ _ Hs2 _].
    assert (b_end (head_part sz b) ≤ b_end b ∧ h ≤ t)
      by (unfold b_end, h, t in *; cbn [head_part tail_part b_addr b_size] in *; lia).
    apply (mem_outside_trans _ m1); [|apply (mem_outside_trans _ m2);
      [|apply (mem_outside_trans _ m3)]];
      (eapply mem_outside_weaken; [eassumption|lia|lia]).
  - eapply block_at_set_next; [done|done|].
    eapply block_at_set_prev; [done|done|exact Hw2].
Qed.

(** The whole block is taken. *)
Lemma take_whole_spec m l1 b l2 :
  heap_list m (l1 ++ b :: l2) →
  let m' := write_block (b_addr b) (b_size b) false m in
  heap_list m' (l1 ++ (set_free false b :: []) ++ l2) ∧
  (∀ c, c ∈ l1 ++ l2 → payload_kept m m' c) ∧
  ∀ x, outside_blocks (l1 ++ b :: l2) x → m' x = m x.
Proof.
  intros Hl m'. pose proof Hl as [_ [Hb _]%Forall_middle _].
  destruct (rewrite_block_spec m l1 b l2 false Hl) as [Hl' Hp].
  split; [done|]. split; [intros c Hcc; apply Hp, elem_middle; by right|].
  intros x Hx. apply (write_block_outside (set_free false b) m ltac:(by destruct Hb)).
  apply (Hx b). apply elem_middle. by left.
Qed.

(** The second part of a split block, as the code computes it. *)
Lemma tail_part_words sz b :
  0 ≤ sz → blk_ok b → sz + 88 ≤ b_size b →
  b_addr b +₆₄ 40 +₆₄ sz +₆₄ 16 = b_addr (tail_part sz b) ∧ b_size b -₆₄ sz -₆₄ (40 + 16) = b_size b - sz - 56.
Proof.
  intros Hsz [Ha _ Hbs He] Hsplit. unfold b_end in He. cbn [tail_part b_addr].
  rewrite (wrap64_small (b_addr b + 40)), (wrap64_small (b_addr b + 40 + sz)), wrap64_small by lia.
  rewrite (wrap64_small (b_size b - sz)), wrap64_small by lia. lia.
Qed.

(** The two parts are apart from the rest of the list. *)
Lemma parts_disj sz b l :
  Forall (blk_disj b) l → 0 ≤ sz → sz + 88 ≤ b_size b →
  Forall (blk_disj (head_part sz b)) l ∧ Forall (blk_disj (tail_part sz b)) l.
Proof.
  intros Hdb Hsz Hsplit. pose proof (parts_apart _ _ _ _ eq_refl eq_refl Hdb) as Hap.
  split; (eapply Forall_impl; [exact Hap|]); unfold apart, blk_disj, b_end in *;
    cbn [head_part tail_part b_addr b_size] in *; intros; lia.
Qed.

Lemma take_fit_spec m l1 b l2 sz :
  heap_list m (l1 ++ b :: l2) → b_free b = true → good_size sz → sz + 56 ≤ b_size b →
  let m' := take_fit sz (b_addr b) m in
  heap_list m' (l1 ++ (fit_used sz b :: fit_rest sz b) ++ l2) ∧
  (∀ c, c ∈ l1 ++ l2 → payload_kept m m' c) ∧
  ∀ x, outside_blocks (l1 ++ b :: l2) x → m' x = m x.
Proof.
  intros Hl Hf Hsz Hle. pose proof Hl as [Hc Hok Hd].
  pose proof Hok as [Hb Hok']%Forall_middle. pose proof Hd as [Hd' Hdb]%blocks_disj_middle.
  pose proof Hb as [Ha _ Hbs He]. unfold b_end in He. destruct Hsz as [Hsz Hmod].
  pose proof Hc as [_ [Hbb _]]%chain_app.
  unfold take_fit, fit_used, fit_rest. rewrite (ba_size _ _ _ _ Hbb).
  unfold OVERHEAD, HEADER_SIZE, FOOTER_SIZE.
  rewrite (wrap64_small (sz + (40 + 16))), wrap64_small by lia.
  replace (sz + (40 + 16) + 32) with (sz + 88) by lia.
  destruct (Z.leb_spec (sz + 88) (b_size b)) as [Hsplit|Hwhole].
  2: exact (take_whole_spec m l1 b l2 Hl).
  destruct (parts_ok sz b (conj Hsz Hmod) Hb Hsplit) as (Hh & Ht & Hadj & Hend).
  assert (is_u64 (head_addr l2 0)) as Hnx
    by (apply head_addr_u64; by apply Forall_app in Hok' as [_ ?]).
  destruct (tail_part_words sz b ltac:(lia) Hb Hsplit) as [-> ->].
  destruct (split_block m _ b sz (head_addr l2 0) (conj Hsz Hmod) Hb Hsplit Hnx Hbb)
    as (Hout & Hn4 & Hbh & Hbt).
  cbv zeta in Hout, Hn4, Hbh, Hbt. set (m4 := set_next _ _ _) in *.
  rewrite Hn4. fold (relink (head_addr l2 0) (b_addr (tail_part sz b)) m4).
  set (m5 := relink (head_addr l2 0) (b_addr (tail_part sz b)) m4).
  pose proof (set_next_outside _ (b_addr (tail_part sz b)) m5 Hh) as Hout6.
  cbn [head_part b_addr] in Hout6.
  assert (mem_outside m5 (set_next (b_addr b) (b_addr (tail_part sz b)) m5)
    (b_addr b) (b_end b)) as Hout6'.
  { eapply mem_outside_weaken; [exact Hout6|done|].
    destruct Ht. unfold b_end in *. cbn [head_part tail_part b_addr b_size] in *. lia. }
  pose proof (parts_apart _ _ _ _ eq_refl eq_refl Hdb) as Hap.
  destruct (parts_disj sz b (l1 ++ l2) Hdb ltac:(lia) Hsplit) as [Hdh Hdt].
  pose proof Hdh as [_ Hdh2]%Forall_app. pose proof Hdt as [_ Hdt2]%Forall_app.
  split; [split|split].
  - eapply (middle_replaced m m4 _ l1 b [] (head_part sz b) [tail_part sz b] l2
      (b_addr b) (b_end b)); try done; [exact (blk_ok_u64 _ Ht)|].
    assert (∀ p n b', blk_ok b' → Forall (blk_disj b') l2 → block_at m4 p n b' →
      block_at m5 p n b') as Hrel.
    { intros p n b' Hok'' Hd''. apply relink_block_at; [|done|done].
      by apply Forall_app in Hok' as [_ ?]. }
    split; [|split; [|done]].
    + apply (block_at_set_next _ _ (head_addr l2 0) (head_part sz b));
        [by apply blk_ok_u64|done|by apply Hrel].
    + eapply outside_block_at; [exact Hout6|done|rewrite Hadj; by right|]. by apply Hrel.
  - apply Forall_middle. split; [done|]. by apply Forall_middle.
  - apply blocks_disj_middle. split; [by apply blocks_disj_middle|].
    apply Forall_middle. split; [|done]. left. by rewrite Hadj.
  - intros c Hcc. by eapply (middle_replaced_payload m m4 _ l1 b l2).
  - intros x Hx. pose proof (Hx b ltac:(apply elem_middle; by left)).
    rewrite Hout6' by done. unfold m5. rewrite relink_frame; [by apply Hout|by apply Forall_app in Hok' as [_ ?]|].
    intros c Hcc. apply Hx, elem_middle. right. apply elem_of_app. by right.
Qed.

(** ** heap_expand *)

(** A fresh block linked behind the last block of the list. *)
Lemma append_block_spec fuel m bs nb :
  heap_list m bs → blk_ok nb → Forall (blk_disj nb) bs → b_free nb = true →
  (length bs ≤ fuel)%nat → bs ≠ [] →
  let h := b_addr nb in
  let m3 := set_next h 0 (set_prev h 0 (write_block h (b_size nb) true m)) in
  ∃ cur, last_block fuel m3 (head_addr bs 0) = Ok cur ∧
    heap_list (set_prev h cur (set_next cur h m3)) (bs ++ [nb]) ∧
    (∀ c, c ∈ bs → payload_kept m (set_prev h cur (set_next cur h m3)) c) ∧
    ∀ x, outside_blocks (bs ++ [nb]) x → set_prev h cur (set_next cur h m3) x = m x.
Proof.
  intros [Hc Hok Hd] Hnb Hdn Hf Hfuel Hne h m3.
  pose proof (parts_apart _ _ _ _ eq_refl eq_refl Hdn) as Hap.
  assert (mem_outside m m3 h (b_end nb)) as Hout.
  { unfold m3. eapply mem_outside_trans; [|apply set_next_outside, Hnb].
    eapply mem_outside_trans; [|apply set_prev_outside, Hnb].
    pose proof (write_block_outside nb m Hnb) as Hw. by rewrite Hf in Hw. }
  assert (chain m3 0 bs 0) as Hc3 by (by eapply outside_chain).
  assert (block_at m3 0 0 nb) as Hb3.
  { unfold m3. eapply block_at_set_next; [unfold is_u64; lia|done|].
    eapply block_at_set_prev; [unfold is_u64; lia|done|].
    pose proof (write_block_at nb m Hnb) as Hw. rewrite Hf in Hw. exact Hw. }
  destruct bs as [|lb l _] using rev_ind; [done|].
  exists (b_addr lb).
  split; [by rewrite (last_block_spec fuel m3 0 (l ++ [lb])), last_addr_snoc|].
  pose proof (blk_ok_u64 _ Hnb) as Hu.
  pose proof Hok as [Hlb Hokl]%Forall_middle. rewrite app_nil_r in Hokl.
  pose proof Hd as [Hdl Hdlb]%blocks_disj_middle. rewrite app_nil_r in Hdlb.
  pose proof (blk_ok_u64 _ Hlb) as Hul.
  assert (blk_disj nb lb) as Hdisj
    by (apply Forall_app in Hdn as [_ Hdn]; by apply Forall_inv in Hdn).
  split; [split|split].
  - apply chain_app. rewrite last_addr_snoc. cbn [head_addr].
    pose proof (chain_set_next m3 0 l lb 0 h Hu Hlb Hdlb Hokl Hc3) as Hc4.
    split; [by eapply (outside_chain _ _ h (b_end nb)); [apply set_prev_outside| | |]|].
    split; [|done]. eapply block_at_set_prev; [done|done|].
    eapply outside_block_at; [by apply set_next_outside|done| |exact Hb3].
    unfold blk_disj in Hdisj. lia.
  - apply Forall_app. split; [done|by constructor].
  - apply blocks_disj_middle. rewrite app_nil_r. by split.
  - intros c Hcc. rewrite Forall_forall in Hap, Hok.
    pose proof (Hok c Hcc) as [_ _ Hcs _].
    eapply payload_kept_trans; [eapply outside_payload; [exact Hout|done|by apply Hap]|].
    eapply payload_kept_trans;
      [|eapply outside_payload; [by apply set_prev_outside|done|by apply Hap]].
    apply store64_agree. unfold b_data. rewrite elem_of_app, list_elem_of_singleton in Hcc.
    destruct Hcc as [Hcl| ->]; [|lia]. rewrite Forall_forall in Hdlb.
    specialize (Hdlb c Hcl). destruct Hlb. unfold blk_disj, b_end in Hdlb. lia.
  - intros x Hx. pose proof (Hx nb ltac:(apply elem_of_app; right; by left)).
    pose proof (Hx lb ltac:(rewrite !elem_of_app; left; right; by left)).
    rewrite (set_prev_outside _ _ _ Hnb) by done. rewrite (set_next_outside _ _ _ Hlb); [by apply Hout|].
    destruct Hlb. unfold b_end in *. lia.
Qed.

Lemma single_block_spec m nb :
  blk_ok nb → b_free nb = true →
  let h := b_addr nb in
  let m' := set_next h 0 (set_prev h 0 (write_block h (b_size nb) true m)) in
  heap_list m' [nb] ∧ ∀ x, outside_blocks [nb] x → m' x = m x.
Proof.
  intros Hnb Hf h m'. split; [split; [split; [|done]|by constructor|by repeat constructor]|].
  - cbn [head_addr]. eapply block_at_set_next; [unfold is_u64; lia|done|].
    eapply block_at_set_prev; [unfold is_u64; lia|done|].
    pose proof (write_block_at nb m Hnb) as Hw. rewrite Hf in Hw. exact Hw.
  - intros x Hx. pose proof (Hx nb ltac:(by left)). unfold m', h.
    rewrite (set_next_outside _ _ _ Hnb), (set_prev_outside _ _ _ Hnb) by done.
    pose proof (write_block_outside nb m Hnb) as Hw. rewrite Hf in Hw. by apply Hw.
Qed.

Lemma blk_page_range b x : blk_ok b → b_addr b ≤ x < b_end b → 0 ≤ x / PAGE_SIZE < PAGE_LIMIT.
Proof.
  intros [Ha _ _ He] Hx. unfold PAGE_SIZE, PAGE_LIMIT. Z.div_mod_to_equations. lia.
Qed.

Section Expand.
Context {A : Type} `{PageAllocSpec A}.

Lemma grabbed_owned phys n (a a' : A) b :
  grabbed phys n a a' → blk_ok b → owned a b → owned a' b.
Proof.
  intros Hg Hb Ho x Hx. eapply grabbed_keeps; [done|by eapply blk_page_range|by apply Ho].
Qed.

(** The block made of the [n] pages at [phys]. *)
Definition page_block (phys n : Z) : blk := mk_blk phys (n * 4096 - 56) true.

Lemma page_block_ok phys n (a a' : A) :
  grabbed phys n a a' → 1 ≤ n → used_page a 0 = true →
  blk_ok (page_block phys n) ∧ owned a' (page_block phys n) ∧
  b_end (page_block phys n) = phys + n * 4096 ∧ n ≤ PAGE_LIMIT.
Proof.
  intros Hg Hn Hz. pose proof (grabbed_aligned _ _ _ _ Hg) as Hal.
  pose proof (grabbed_low _ _ _ _ Hg) as Hlo. pose proof (grabbed_high _ _ _ _ Hg) as Hhi.
  assert (phys ≠ 0) as Hnz.
  { intros ->. pose proof (grabbed_free _ _ _ _ Hg 0) as Hf.
    change (0 / PAGE_SIZE) with 0 in Hf. rewrite Hf in Hz by lia. done. }
  unfold PAGE_SIZE, PAGE_LIMIT in *. unfold page_block, b_end. cbn [b_addr b_size].
  split_and!; try (Z.div_mod_to_equations; lia).
  - split; unfold b_end; cbn [b_addr b_size]; Z.div_mod_to_equations; lia.
  - intros x Hx. eapply grabbed_takes; [exact Hg|].
    unfold PAGE_SIZE, b_end in *. cbn [b_addr b_size] in Hx. Z.div_mod_to_equations; lia.
Qed.

(** The new pages are disjoint from every block of the heap. *)
Lemma page_block_fresh phys n (a a' : A) b :
  grabbed phys n a a' → blk_ok b → owned a b → 1 ≤ n → used_page a 0 = true →
  blk_disj (page_block phys n) b.
Proof.
  intros Hg Hb Ho Hn Hz.
  destruct (page_block_ok _ _ _ _ Hg Hn Hz) as (Hok & _ & Hend & _).
  unfold blk_disj. rewrite Hend. cbn [page_block b_addr].
  pose proof (grabbed_aligned _ _ _ _ Hg) as Hal.
  pose proof Hb as [Hba _ Hbs _].
  assert (∀ x, b_addr b ≤ x < b_end b → x < phys ∨ phys + n * 4096 ≤ x) as Hx.
  { intros x Hx. pose proof (grabbed_fresh _ _ _ _ _ Hg (Ho x Hx)).
    unfold PAGE_SIZE in *. Z.div_mod_to_equations; lia. }
  unfold b_end in *.
  pose proof (Hx (b_addr b) ltac:(lia)).
  destruct (Z.lt_ge_cases (b_addr b) phys); [|lia].
  pose proof (Hx phys). lia.
Qed.

(** Bytes of somebody else: in no block of the heap and in no page the allocator
    could hand out. *)
Definition foreign (a : A) (bs : list blk) (x : Z) : Prop :=
  outside_blocks bs x ∧ (0 ≤ x / PAGE_SIZE < PAGE_LIMIT → used_page a (x / PAGE_SIZE) = true).

(** The heap operation from [s] to [s'] left every such byte alone, and they are
    still somebody else's. *)
Definition leaves_foreign (s : kheap A) (bs : list blk) (s' : kheap A) (bs' : list blk) : Prop :=
  ∀ x, foreign (kh_pages s) bs x → foreign (kh_pages s') bs' x ∧ kh_mem s' x = kh_mem s x.

Lemma leaves_foreign_trans s1 b1 s2 b2 s3 b3 :
  leaves_foreign s1 b1 s2 b2 → leaves_foreign s2 b2 s3 b3 → leaves_foreign s1 b1 s3 b3.
Proof. intros H1 H2 x [Hx E]%H1. apply H2 in Hx as [Hx E']. split; [done|congruence]. Qed.

Lemma foreign_grabbed phys n (a a' : A) bs x :
  grabbed phys n a a' → foreign a bs x → foreign a' bs x.
Proof. intros Hg [Hx Hp]. split; [done|]. intros Hr. eapply grabbed_keeps; [done..|by apply Hp]. Qed.

Lemma foreign_page_block phys n (a a' : A) bs x :
  grabbed phys n a a' → 1 ≤ n → used_page a 0 = true → foreign a bs x → foreign a' (bs ++ [page_block phys n]) x.
Proof.
  intros Hg Hn Hz Hx. destruct (foreign_grabbed _ _ _ _ _ _ Hg Hx) as [_ Hp]. destruct Hx as [Hx Hu].
  split; [|done]. intros b [Hb|Hb]%elem_of_app; [by apply Hx|].
  apply list_elem_of_singleton in Hb as ->. destruct (page_block_ok _ _ _ _ Hg Hn Hz) as (_ & _ & -> & _).
  cbn [page_block b_addr]. pose proof (grabbed_aligned _ _ _ _ Hg). pose proof (grabbed_low _ _ _ _ Hg).
  pose proof (grabbed_high _ _ _ _ Hg). destruct (decide (phys ≤ x < phys + n * 4096)) as [Hin|]; [|lia].
  assert (phys / PAGE_SIZE ≤ x / PAGE_SIZE < phys / PAGE_SIZE + n) as Hq
    by (unfold PAGE_SIZE in *; Z.div_mod_to_equations; lia).
  rewrite (grabbed_free _ _ _ _ Hg _ Hq) in Hu. discriminate Hu.
  unfold PAGE_SIZE in *. Z.div_mod_to_equations; lia.
Qed.

(** There are no [n] free pages in a row. *)
Definition no_run (n : Z) (a : A) : Prop :=
  ∀ p, 0 ≤ p → p + n ≤ PAGE_LIMIT → ¬ (∀ q, p ≤ q < p + n → used_page a q = false).

(** The pages [need] bytes take. *)
Definition pages_for (need : Z) : Z := (need + 4095) / 4096.

(** The heap can get these pages, and they take it past its limit or not. *)
Definition past_limit (need : Z) (s : kheap A) : Prop :=
  ¬ no_run (pages_for need) (kh_pages s) ∧ heap_max s < (heap_end s +₆₄ pages_for need * 4096).
Definition within_limit (need : Z) (s : kheap A) : Prop :=
  ¬ no_run (pages_for need) (kh_pages s) ∧ (heap_end s +₆₄ pages_for need * 4096) ≤ heap_max s.

Lemma grabbed_run phys n (a a' : A) : grabbed phys n a a' → ¬ no_run n a.
Proof.
  intros Hg Hno. pose proof (grabbed_low _ _ _ _ Hg). apply (Hno (phys / PAGE_SIZE)).
  - unfold PAGE_SIZE. Z.div_mod_to_equations; lia.
  - apply (grabbed_high _ _ _ _ Hg).
  - apply (grabbed_free _ _ _ _ Hg).
Qed.

(** The outcome of [heap_expand]. *)
Lemma heap_expand_spec fuel need (s : kheap A) bs :
  kheap_inv s bs → 0 < need ≤ 18446744073709547520 → (length bs ≤ fuel)%nat →
  match heap_expand fuel need s with
  | Ok (r, s') =>
      (r = -1 ∧ past_limit need s ∧ kh_mem s' = kh_mem s ∧ kheap_inv s' bs ∧ leaves_foreign s bs s' bs) ∨
      (r = 0 ∧ within_limit need s ∧ ∃ nb, kheap_inv s' (bs ++ [nb]) ∧ b_free nb = true ∧ need ≤ b_size nb + 56 ∧
         (∀ c, c ∈ bs → payload_kept (kh_mem s) (kh_mem s') c) ∧ leaves_foreign s bs s' (bs ++ [nb]))
  | Panic _ => no_run (pages_for need) (kh_pages s)
  | _ => False
  end.
Proof.
  intros [Hby Hhd Hl Hown Hpg Hnull] Hneed Hfuel. unfold heap_expand.
  rewrite align_up64_page, (wrap64_small (need + 4095)) by lia.
  change PAGE_SIZE with 4096. rewrite Z.div_mul by lia.
  fold (pages_for need). unfold past_limit, within_limit. set (n := pages_for need).
  assert (1 ≤ n < 18446744073709551616 ∧ need ≤ n * 4096) as (Hn & Hnn)
    by (unfold n, pages_for; Z.div_mod_to_equations; lia).
  pose proof (alloc_pages_spec n (kh_pages s) Hpg Hn) as Hspec.
  destruct (alloc_pages n (kh_pages s)) as [[phys a']|msg| |]; try done.
  rename Hspec into Hg. pose proof (grabbed_run _ _ _ _ Hg) as Hrun. cbn [mbind outcome_bind].
  destruct (page_block_ok _ _ _ _ Hg (proj1 Hn) Hnull) as (Hok & Howned & Hend & Hlim).
  unfold PAGE_LIMIT in Hlim. rewrite (wrap64_small (n * 4096)) by lia.
  pose proof (grabbed_inv _ _ _ _ Hg) as Hpg'.
  assert (Forall (owned a') bs) as Hown'.
  { rewrite Forall_forall in *. intros b Hb. destruct Hl as [_ Hokl _].
    rewrite Forall_forall in Hokl. eapply grabbed_owned; [done|by apply Hokl|exact (Hown b Hb)]. }
  assert (used_page a' 0 = true) as Hnull'
    by (eapply grabbed_keeps; [done|unfold PAGE_LIMIT; lia|done]).
  cbn [with_pages with_end heap_max heap_end kh_mem kh_pages heap_head].
  destruct (Z.ltb_spec (heap_max s) (heap_end s +₆₄ n * 4096)).
  { left. split_and!; [done|done|lia|done|by split|]. intros x Hx. split; [by eapply foreign_grabbed|done]. }
  unfold OVERHEAD, HEADER_SIZE, FOOTER_SIZE.
  change (40 + 16) with 56. rewrite (wrap64_small (n * 4096 - 56)) by lia.
  unfold with_mem, with_end, with_pages.
  cbn [kh_mem kh_pages heap_head heap_base heap_end heap_max].
  assert (Forall (blk_disj (page_block phys n)) bs) as Hdisj.
  { rewrite Forall_forall in *. intros b Hb. destruct Hl as [_ Hokl _].
    rewrite Forall_forall in Hokl. exact (page_block_fresh _ _ _ _ b Hg (Hokl b Hb) (Hown b Hb) (proj1 Hn) Hnull). }
  rewrite Hhd, head_addr_zero by apply Hl.
  destruct (bool_decide_reflect (bs = [])) as [->|Hne].
  - right. split; [done|]. split; [split; [done|lia]|]. exists (page_block phys n).
    destruct (single_block_spec (kh_mem s) (page_block phys n) Hok eq_refl) as [Hl1 Hfr].
    split_and!; [|done|cbn [page_block b_size]; lia|by intros c Hc%elem_of_nil|].
    + split; cbn [kh_mem kh_pages heap_head app]; try done.
      * by apply set_next_bytes, set_prev_bytes, write_block_bytes.
      * by constructor.
    + intros x Hx. pose proof (foreign_page_block _ _ _ _ _ _ Hg (proj1 Hn) Hnull Hx) as Hx'.
      split; [exact Hx'|]. apply Hfr, Hx'.
  - destruct (append_block_spec fuel _ bs _ Hl Hok Hdisj eq_refl Hfuel Hne) as (cur & E & Hl' & Hp & Hfr).
    cbn [page_block b_addr b_size] in E, Hl', Hp.
    rewrite E. cbn [mbind outcome_bind].
    right. split; [done|]. split; [split; [done|lia]|]. exists (page_block phys n).
    split_and!; [|done|cbn [page_block b_size]; lia|exact Hp|].
    + split; cbn [kh_mem kh_pages heap_head]; try done.
      * by apply set_prev_bytes, set_next_bytes, set_next_bytes, set_prev_bytes, write_block_bytes.
      * by destruct bs.
      * apply Forall_app. split; [done|by constructor].
    + intros x Hx. pose proof (foreign_page_block _ _ _ _ _ _ Hg (proj1 Hn) Hnull Hx) as Hx'.
      split; [exact Hx'|]. apply Hfr, Hx'.
Qed.

Lemma heap_expand_base fuel need (s : kheap A) :
  match heap_expand fuel need s with Ok (_, s') => heap_base s' = heap_base s | _ => True end.
Proof.
  unfold heap_expand. destruct (alloc_pages _ _) as [[phys a']| | |]; try done.
  cbn [mbind outcome_bind]. destruct (_ <? _); [done|].
  destruct (_ =? 0); [done|]. by destruct (last_block _ _ _).
Qed.

(** ** kmalloc *)

Lemma round16 size :
  0 < size ≤ 18446744073709539328 →
  good_size (ALIGN_UP64 size 16) ∧ size ≤ ALIGN_UP64 size 16 ≤ 18446744073709539328 ∧
  ALIGN_UP64 (ALIGN_UP64 size 16) 16 = ALIGN_UP64 size 16.
Proof.
  intros Hs. unfold good_size. rewrite !align_up64_16, (wrap64_small (size + 15)) by lia.
  rewrite wrap64_small by (Z.div_mod_to_equations; lia).
  split_and!; Z.div_mod_to_equations; lia.
Qed.

(** The state after allocating [b] out of a heap with the blocks [bs], whose
    list has grown by at most [k] blocks. *)
Record allocated (k : nat) (size : Z) (bs : list blk) (s s' : kheap A) (b : blk) : Prop := mk_allocated {
  al_blocks : ∃ l1 l2, kheap_inv s' (l1 ++ b :: l2) ∧ used_blocks (l1 ++ l2) = used_blocks bs ∧
    (length (l1 ++ b :: l2) ≤ length bs + k)%nat ∧ leaves_foreign s bs s' (l1 ++ b :: l2);
  al_used : b_free b = false;
  al_size : size ≤ b_size b;
  al_kept : ∀ c, c ∈ used_blocks bs → payload_kept (kh_mem s) (kh_mem s') c;
}.

Lemma allocated_weaken size bs s s' b : allocated 1 size bs s s' b → allocated 2 size bs s s' b.
Proof.
  intros [(l1 & l2 & H1 & H2 & H3 & Hfr) H4 H5 H6]. split; [|done..]. exists l1, l2. split_and!; [done|done|lia|done].
Qed.

Lemma take_fit_bytes sz cur m : mem_bytes m → mem_bytes (take_fit sz cur m).
Proof.
  intros Hm. unfold take_fit. destruct (_ <=? _); [|by apply write_block_bytes].
  apply set_next_bytes, relink_bytes, set_next_bytes, set_prev_bytes, write_block_bytes,
    write_block_bytes, Hm.
Qed.

Lemma fit_used_facts sz b :
  good_size sz → sz + 56 ≤ b_size b →
  b_free (fit_used sz b) = false ∧ b_data (fit_used sz b) = b_data b ∧
  sz ≤ b_size (fit_used sz b) ∧ used_blocks (fit_rest sz b) = [].
Proof.
  intros [Hs _] Hle. unfold fit_used, fit_rest.
  destruct (Z.leb_spec (sz + 88) (b_size b)); split_and!; cbn; try done; lia.
Qed.

Lemma fit_outside sz c l1 l2 x :
  good_size sz → blk_ok c → outside_blocks (l1 ++ c :: l2) x →
  outside_blocks (l1 ++ fit_used sz c :: fit_rest sz c ++ l2) x.
Proof.
  intros Hsz Hc Hx b Hb. pose proof (Hx c ltac:(apply elem_middle; by left)) as Hxc.
  rewrite elem_of_app, elem_of_cons, elem_of_app in Hb.
  destruct Hb as [Hb|[Hb|[Hb|Hb]]]; [by apply Hx, elem_of_app; left| | |by apply Hx, elem_middle; right; apply elem_of_app; right].
  - destruct Hsz as [? _], Hc. subst b. unfold fit_used, b_end in *.
    destruct (Z.leb_spec (sz + 88) (b_size c)); cbn [head_part set_free b_addr b_size] in *; lia.
  - unfold fit_rest in Hb. destruct (Z.leb_spec (sz + 88) (b_size c)); [|by apply elem_of_nil in Hb].
    apply list_elem_of_singleton in Hb as ->. destruct Hsz as [? _], Hc. unfold b_end in *. cbn [tail_part b_addr b_size] in *. lia.
Qed.

Lemma fit_owned sz b (a : A) :
  good_size sz → blk_ok b → owned a b → Forall (owned a) (fit_used sz b :: fit_rest sz b).
Proof.
  intros Hsz Hb Ho. unfold fit_used, fit_rest.
  destruct (Z.leb_spec (sz + 88) (b_size b)) as [Hle|Hle]; [|by repeat constructor].
  destruct (parts_ok sz b Hsz Hb Hle) as (Hh & Ht & Hadj & Hend).
  destruct Hsz as [Hsz _]. destruct Hh, Ht, Hb.
  repeat constructor; intros x Hx; apply Ho; unfold b_end in *;
    cbn [head_part tail_part b_addr b_size] in *; lia.
Qed.

(** A fitting block in the list is taken at once. *)
Lemma kmalloc_fit fuel size (s : kheap A) bs c :
  kheap_inv s bs → 0 < size ≤ 18446744073709539328 → (length bs < fuel)%nat →
  first_fit (ALIGN_UP64 size 16 + 56) bs = Some c →
  ∃ s' b, kmalloc fuel size s = Ok (b_data b, s') ∧ allocated 1 size bs s s' b ∧
    b_addr b = b_addr c ∧ kh_pages s' = kh_pages s ∧ ∃ l1 l2, bs = l1 ++ c :: l2 ∧ b_free c = true ∧
    kheap_inv s' (l1 ++ fit_used (ALIGN_UP64 size 16) c :: fit_rest (ALIGN_UP64 size 16) c ++ l2).
Proof.
  intros [Hby Hhd Hl Hown Hpg Hnull] Hs Hf Hfit.
  destruct (round16 size Hs) as (Hgood & Hle & _). set (sz := ALIGN_UP64 size 16) in *.
  destruct fuel as [|fuel]; [lia|]. cbn [kmalloc]. destruct (Z.eqb_spec size 0); [lia|].
  fold sz. rewrite Hhd.
  assert (find_fit (S fuel) (kh_mem s) sz (head_addr bs 0) = Ok (Some (b_addr c))) as ->.
  { rewrite (find_fit_spec _ _ sz 0 bs); [|apply Hl|apply Hl|lia].
    unfold OVERHEAD, HEADER_SIZE, FOOTER_SIZE. rewrite wrap64_small by lia.
    replace (sz + (40 + 16)) with (sz + 56) by lia. by rewrite Hfit. }
  cbn [mbind outcome_bind].
  destruct (first_fit_split _ _ _ Hfit) as (l1 & l2 & -> & Hcf & Hn & _).
  pose proof (hl_ok _ _ Hl) as [Hc _]%Forall_middle.
  destruct (take_fit_spec (kh_mem s) l1 c l2 sz Hl Hcf Hgood) as (Hl' & Hp & Hframe); [lia|].
  destruct (fit_used_facts sz c Hgood) as (Hu1 & Hu2 & Hu3 & Hu4); [lia|].
  set (s' := with_mem (take_fit sz (b_addr c)) s).
  assert (kheap_inv s' (l1 ++ fit_used sz c :: fit_rest sz c ++ l2)) as Hinv'.
  { split; cbn [s' with_mem kh_mem kh_pages heap_head]; try done.
    - by apply take_fit_bytes.
    - rewrite Hhd, !head_addr_app. destruct l1; [|done]. simpl.
      unfold fit_used. by destruct (_ <=? _).
    - apply Forall_middle in Hown as [Ho Hown]. apply Forall_app in Hown as [Ho1 Ho2].
      pose proof (fit_owned sz c (kh_pages s) Hgood Hc Ho) as [Hfu Hfr]%Forall_cons.
      apply Forall_app; split; [done|]. constructor; [done|]. by apply Forall_app. }
  exists s', (fit_used sz c). split; [|split; [split|split; [|split]]].
  - do 2 f_equal. rewrite Hu2. unfold b_data. destruct Hc. unfold HEADER_SIZE, b_end in *.
    apply wrap64_small. lia.
  - exists l1, (fit_rest sz c ++ l2). split; [exact Hinv'|]. split.
    + rewrite used_blocks_middle, Hcf. unfold used_blocks in *. rewrite !filter_app.
      by rewrite Hu4.
    + split; [rewrite !length_app; cbn [length]; rewrite length_app; unfold fit_rest;
        destruct (_ <=? _); simpl; lia|].
      intros x [Hx Hu]. split; [|by apply Hframe]. split; [|exact Hu].
      by apply (fit_outside sz c l1 l2).
  - done.
  - lia.
  - intros b [Hbf Hb]%list_elem_of_filter. apply Hp.
    apply elem_middle in Hb as [->|Hb]; [congruence|done].
  - unfold fit_used. by destruct (_ <=? _).
  - done.
  - by exists l1, l2.
Qed.

Lemma first_fit_app_free need l nb :
  b_free nb = true → need ≤ b_size nb → ∃ c, first_fit need (l ++ [nb]) = Some c.
Proof.
  intros Hf Hn. induction l as [|b l [c IH]]; simpl.
  - exists nb. unfold fits. rewrite Hf. by destruct (Z.leb_spec need (b_size nb)); [|lia].
  - destruct (fits need b); eauto.
Qed.

(** What [kmalloc] asks [heap_expand] for when no block fits. *)
Definition grow_need (size : Z) : Z := ALIGN_UP64 size 16 + 56 + 4096.

Lemma kmalloc_spec (fuel : nat) (size : Z) (s : kheap A) (bs : list blk)
    (Hinv : kheap_inv s bs) (Hsize : 0 < size ≤ 18446744073709539328)
    (Hfuel : (length bs + 3 ≤ fuel)%nat) :
  match kmalloc fuel size s with
  | Ok (ptr, s') =>
      (ptr = 0 ∧ (first_fit (ALIGN_UP64 size 16 + 56) bs = None ∧ past_limit (grow_need size) s) ∧
       kh_mem s' = kh_mem s ∧ kheap_inv s' bs ∧ leaves_foreign s bs s' bs) ∨
      ∃ b, ptr = b_data b ∧ allocated 2 size bs s s' b ∧
        match first_fit (ALIGN_UP64 size 16 + 56) bs with
        | Some c => b_addr b = b_addr c
        | None => within_limit (grow_need size) s
        end
  | Panic _ => first_fit (ALIGN_UP64 size 16 + 56) bs = None ∧ no_run (pages_for (grow_need size)) (kh_pages s)
  | _ => False
  end.
Proof.
  destruct (first_fit (ALIGN_UP64 size 16 + 56) bs) as [c|] eqn:Hfit.
  { destruct (kmalloc_fit fuel size s bs c Hinv Hsize ltac:(lia) Hfit)
      as (s' & b & -> & Hal & Ha & _).
    right. exists b. split_and!; [done|by apply allocated_weaken|done]. }
  destruct (round16 size Hsize) as (Hgood & Hle & Hidem).
  destruct fuel as [|fuel]; [lia|]. cbn [kmalloc]. destruct (Z.eqb_spec size 0); [lia|].
  set (sz := ALIGN_UP64 size 16) in *.
  pose proof (ki_list _ _ Hinv) as Hl. rewrite (ki_head _ _ Hinv).
  rewrite (find_fit_spec _ _ sz 0 bs); [|apply Hl|apply Hl|lia].
  unfold OVERHEAD, HEADER_SIZE, FOOTER_SIZE, PAGE_SIZE.
  rewrite (wrap64_small (sz + (40 + 16))) by lia.
  replace (sz + (40 + 16)) with (sz + 56) by lia. rewrite Hfit.
  cbn [mbind outcome_bind fmap option_fmap option_map].
  rewrite wrap64_small by lia.
  destruct Hgood as [Hpos Hmod].
  pose proof (heap_expand_spec (S fuel) (sz + 56 + 4096) s bs Hinv ltac:(lia) ltac:(lia)) as Hex.
  destruct (heap_expand _ _ _) as [[r s1]|msg| |]; try done.
  destruct Hex as [(-> & Hlim & Hm & Hinv1 & Hfr)|(-> & Hlim & nb & Hinv1 & Hnf & Hns & Hp & Hfr)].
  { left. by split_and!. }
  destruct (first_fit_app_free (sz + 56) bs nb Hnf ltac:(lia)) as [c Hc].
  rewrite <- Hidem in Hc.
  destruct (kmalloc_fit fuel sz s1 (bs ++ [nb]) c Hinv1 ltac:(lia)) as (s' & b & E & Hal & _);
    [rewrite length_app; simpl; lia|done|].
  cbn [mbind outcome_bind]. rewrite Z.eqb_refl, E. right. exists b. split; [done|]. split; [|done].
  destruct Hal as [(l1 & l2 & Hi' & Hu' & Hlen & Hfr') Huse Hsz' Hk].
  assert (used_blocks (bs ++ [nb]) = used_blocks bs) as Heq.
  { rewrite used_blocks_middle, Hnf. by rewrite app_nil_r. }
  rewrite !length_app in Hlen. cbn [length] in Hlen.
  rewrite Heq in *. split; [exists l1, l2; rewrite length_app; cbn [length];
    split_and!; [done|done|lia|by eapply leaves_foreign_trans]|done|lia|].
  intros b' Hb'. eapply payload_kept_trans; [|by apply Hk].
  apply Hp. by apply list_elem_of_filter in Hb' as [_ ?].
Qed.

(** (C4) [kmalloc] of a size that does not wrap, on a well-formed heap, with every
    outcome and its cause.  If a free block fits it returns the payload of the first
    one that does, and cannot fail.  If none fits it asks for the pages by which the
    heap has to grow: it panics exactly when the page allocator has no such run of free
    pages, returns NULL with memory and blocks untouched exactly when the heap would
    grow past its limit, and otherwise it returns a block.
    The block it returns is in use and at least as large as requested; the blocks that
    were in use stay in use, in the same order and with the same payload bytes, and the
    new list is well formed, so that the new payload overlaps none of them; memory that
    belongs to others is not touched. *)
Theorem kmalloc_correct (fuel : nat) (size : Z) (s : kheap A) (bs : list blk)
    (Hinv : kheap_inv s bs) (Hsize : 0 < size ≤ 18446744073709539328)
    (Hfuel : (length bs + 3 ≤ fuel)%nat) :
  match kmalloc fuel size s with
  | Ok (ptr, s') =>
      (ptr = 0 ∧ (first_fit (ALIGN_UP64 size 16 + 56) bs = None ∧ past_limit (grow_need size) s) ∧
       kh_mem s' = kh_mem s ∧ kheap_inv s' bs ∧ leaves_foreign s bs s' bs) ∨
      ∃ b, ptr = b_data b ∧ allocated 2 size bs s s' b ∧
        match first_fit (ALIGN_UP64 size 16 + 56) bs with
        | Some c => b_addr b = b_addr c
        | None => within_limit (grow_need size) s
        end
  | Panic _ => first_fit (ALIGN_UP64 size 16 + 56) bs = None ∧ no_run (pages_for (grow_need size)) (kh_pages s)
  | _ => False
  end.
Proof. by apply kmalloc_spec. Qed.
End Expand.

Section Clients.
Context {A : Type} `{PageAllocSpec A}.

(** Writing inside the payload of a block keeps the heap well-formed. *)
Lemma payload_write_inv (s : kheap A) (m' : mem) l1 b l2 :
  kheap_inv s (l1 ++ b :: l2) → mem_bytes m' →
  mem_outside (kh_mem s) m' (b_data b) (b_data b + b_size b) →
  kheap_inv (with_mem (fun _ => m') s) (l1 ++ b :: l2) ∧
  ∀ c, c ∈ l1 ++ l2 → payload_kept (kh_mem s) m' c.
Proof.
  intros [Hby Hhd [Hc Hok Hd] Hown Hpg Hnull] Hby' Hout.
  pose proof Hok as [Hb Hok']%Forall_middle. pose proof Hd as [_ Hdb]%blocks_disj_middle.
  pose proof Hb as [_ _ Hs _]. unfold b_data in Hout. split.
  - split; cbn [with_mem kh_mem kh_pages heap_head]; try done.
    split; [|done|done]. eapply chain_frame; [|exact Hc].
    apply Forall_middle. split.
    + split; intros x Hx; apply Hout; unfold b_end in *; lia.
    + rewrite Forall_forall in *. intros c Hcc. pose proof (Hok' c Hcc) as [_ _ Hcs _].
      pose proof (Hdb c Hcc). unfold blk_disj, b_end in *.
      split; intros x Hx; apply Hout; unfold b_end in *; lia.
  - intros c Hcc. rewrite Forall_forall in Hdb, Hok'. pose proof (Hok' c Hcc) as [_ _ Hcs _].
    pose proof (Hdb c Hcc). unfold blk_disj in *. eapply outside_payload; [exact Hout|done|].
    unfold b_end in *. lia.
Qed.

(** What allocation does to a heap, as its clients see it: the new heap is well
    formed with at most [k] more blocks, blocks in use stay in use, and the memory
    of others is left alone. *)
Record heap_grows (k : nat) (s : kheap A) (bs : list blk) (s' : kheap A) (bs' : list blk) : Prop := mk_heap_grows {
  hg_inv : kheap_inv s' bs';
  hg_len : (length bs' ≤ length bs + k)%nat;
  hg_used : ∀ c, c ∈ used_blocks bs → c ∈ used_blocks bs';
  hg_foreign : leaves_foreign s bs s' bs';
}.

Lemma heap_grows_refl k s bs : kheap_inv s bs → heap_grows k s bs s bs.
Proof. intros Hi. split; [done|lia|done|]. by intros x Hx. Qed.

Lemma heap_grows_trans k1 k2 k s1 b1 s2 b2 s3 b3 :
  heap_grows k1 s1 b1 s2 b2 → heap_grows k2 s2 b2 s3 b3 → (k1 + k2 ≤ k)%nat → heap_grows k s1 b1 s3 b3.
Proof.
  intros [H1 H2 H3 H4] [H5 H6 H7 H8] Hk. split; [done|lia|auto|by eapply leaves_foreign_trans].
Qed.

Lemma allocated_grows k size bs s s' b :
  allocated k size bs s s' b →
  ∃ bs', heap_grows k s bs s' bs' ∧ b ∈ used_blocks bs' ∧ size ≤ b_size b ∧ b_data b ≠ 0 ∧
    ∀ c, c ∈ used_blocks bs → blk_disj b c ∧ b_data c ≠ b_data b.
Proof.
  intros [(l1 & l2 & Hi & Hu & Hlen & Hfr) Hf Hs Hk]. exists (l1 ++ b :: l2).
  pose proof (hl_ok _ _ (ki_list _ _ Hi)) as [Hb Hok]%Forall_middle.
  pose proof (hl_disj _ _ (ki_list _ _ Hi)) as [_ Hd]%blocks_disj_middle. rewrite Forall_forall in Hok, Hd.
  split_and!; [split; try done| |done|by apply heap_list_payload_ptr|].
  - intros c Hc. rewrite <- Hu in Hc. rewrite used_blocks_middle, Hf, !elem_of_app.
    unfold used_blocks in Hc |- *. rewrite filter_app, elem_of_app in Hc. tauto.
  - rewrite used_blocks_middle, Hf, !elem_of_app. cbn. rewrite list_elem_of_singleton. tauto.
  - intros c Hc. rewrite <- Hu in Hc. apply list_elem_of_filter in Hc as [_ Hin].
    pose proof (Hd _ Hin) as Hdc. destruct (Hok _ Hin) as [_ _ Hc' _], Hb as [_ _ Hb _].
    split; [done|]. unfold blk_disj, b_data, b_end in *. lia.
Qed.

(** [a] is the payload of a block in use of at least [n] bytes. *)
Definition in_use (bs : list blk) (a n : Z) : Prop :=
  ∃ b, b ∈ used_blocks bs ∧ b_data b = a ∧ n ≤ b_size b.

Lemma in_use_mono bs bs' a n :
  (∀ c, c ∈ used_blocks bs → c ∈ used_blocks bs') → in_use bs a n → in_use bs' a n.
Proof. intros H1 (b & Hb & ?). exists b. auto. Qed.

(** Handing pages to somebody else does not disturb the heap. *)
Lemma grabbed_grows s bs phys n a' :
  kheap_inv s bs → grabbed phys n (kh_pages s) a' → heap_grows 0 s bs (with_pages a' s) bs.
Proof.
  intros [H1 H2 H3 H4 H5 H6] Hg. split; [|lia|done|].
  - split; cbn [with_pages kh_mem kh_pages heap_head]; try done.
    + rewrite Forall_forall in *. intros b Hb. destruct H3 as [_ Hok _]. rewrite Forall_forall in Hok.
      exact (grabbed_owned _ _ _ _ b Hg (Hok b Hb) (H4 b Hb)).
    + apply Hg.
    + eapply grabbed_keeps; [exact Hg|unfold PAGE_LIMIT; lia|done].
  - intros x Hx. split; [by eapply foreign_grabbed|done].
Qed.

(** Memory outside the blocks may change freely. *)
Lemma outside_write_inv (s : kheap A) bs m' :
  kheap_inv s bs → mem_bytes m' → (∀ x, kh_mem s x ≠ m' x → outside_blocks bs x) →
  kheap_inv (with_mem (fun _ => m') s) bs.
Proof.
  intros [Hby Hhd [Hc Hok Hd] Hown Hpg Hnull] Hm Hx.
  split; cbn [with_mem kh_mem kh_pages heap_head]; try done. split; [|done|done].
  eapply chain_frame; [|exact Hc]. rewrite Forall_forall in *. intros b Hb.
  pose proof (Hok b Hb) as [_ _ Hs _].
  assert (∀ x, b_addr b ≤ x < b_end b → m' x = kh_mem s x) as Hin.
  { intros x Hr. destruct (decide (kh_mem s x = m' x)) as [|Hne]; [done|]. pose proof (Hx x Hne b Hb). lia. }
  split; intros x Hr; apply Hin; unfold b_end in *; lia.
Qed.

(** Writing pages just handed out to somebody else. *)
Lemma fresh_write_grows s bs phys n a' m' :
  kheap_inv s bs → grabbed phys n (kh_pages s) a' → 1 ≤ n → mem_bytes m' →
  mem_outside (kh_mem s) m' phys (phys + n * 4096) →
  heap_grows 0 s bs (with_mem (fun _ => m') (with_pages a' s)) bs.
Proof.
  intros Hi Hg Hn Hm Hout. destruct (grabbed_grows _ _ _ _ _ Hi Hg) as [Hi1 _ _ Hfr].
  assert (∀ x, phys ≤ x < phys + n * 4096 → outside_blocks bs x) as Hpage.
  { intros x Hx b Hb. pose proof (page_block_fresh _ _ _ _ b Hg) as Hd.
    destruct (page_block_ok _ _ _ _ Hg Hn (ki_null _ _ Hi)) as (_ & _ & He & _).
    pose proof (ki_list _ _ Hi) as [_ Hok _]. pose proof (ki_owned _ _ Hi) as Ho. rewrite Forall_forall in Hok, Ho.
    specialize (Hd (Hok b Hb) (Ho b Hb) Hn (ki_null _ _ Hi)). unfold blk_disj in Hd. rewrite He in Hd.
    cbn [page_block b_addr] in Hd. lia. }
  split; [|lia|done|].
  - apply outside_write_inv; [done|done|]. intros x Hx. apply Hpage.
    destruct (decide (phys ≤ x < phys + n * 4096)) as [|Hno]; [done|]. exfalso. apply Hx.
    cbn [with_pages kh_mem]. symmetry. apply Hout. lia.
  - intros x Hx. split; [by apply Hfr|]. cbn [with_mem with_pages kh_mem]. apply Hout.
    pose proof (foreign_page_block _ _ _ _ _ _ Hg Hn (ki_null _ _ Hi) Hx) as [Ho _].
    specialize (Ho (page_block phys n)). destruct (page_block_ok _ _ _ _ Hg Hn (ki_null _ _ Hi)) as (_ & _ & He & _).
    rewrite He in Ho. apply Ho. apply elem_of_app. right. by left.
Qed.

(** Writing the payload of a block. *)
Lemma payload_write_grows s bs b m' :
  kheap_inv s bs → b ∈ bs → mem_bytes m' →
  mem_outside (kh_mem s) m' (b_data b) (b_data b + b_size b) →
  heap_grows 0 s bs (with_mem (fun _ => m') s) bs.
Proof.
  intros Hi Hb Hm Hout. apply list_elem_of_split in Hb as (l1 & l2 & ->).
  pose proof (ki_list _ _ Hi) as [_ [Hb _]%Forall_middle _].
  split; [by apply payload_write_inv|lia|done|]. intros x Hx. split; [exact Hx|]. apply Hout.
  destruct Hx as [Hx _]. pose proof (Hx b ltac:(apply elem_middle; by left)).
  destruct Hb. unfold b_data, b_end in *. lia.
Qed.

(** [kcalloc] always returns on a well-formed heap, and keeps it well-formed. *)
Lemma kcalloc_spec (fuel : nat) (count size : Z) (s : kheap A) (bs : list blk)
    (Hinv : kheap_inv s bs) (Hsize : 0 < count * size ≤ 18446744073709539328)
    (Hfuel : (length bs + 3 ≤ fuel)%nat) :
  match kcalloc fuel count size s with
  | Ok (ptr, s') =>
      (ptr = 0 ∧ kheap_inv s' bs ∧ leaves_foreign s bs s' bs) ∨
      ∃ b, ptr = b_data b ∧ ptr ≠ 0 ∧ allocated 2 (count * size) bs s s' b ∧
        ∀ x, ptr ≤ x < ptr + count * size → kh_mem s' x = 0
  | Panic _ => True
  | _ => False
  end.
Proof.
  unfold kcalloc. rewrite wrap64_small by lia.
  pose proof (kmalloc_spec fuel (count * size) s bs Hinv Hsize Hfuel) as Hk.
  destruct (kmalloc fuel (count * size) s) as [[p s1]| | |]; try done.
  cbn [mbind outcome_bind].
  destruct Hk as [(-> & _ & _ & Hi & Hfr)|(b & -> & Hal & _)]; [by left|].
  destruct Hal as [(l1 & l2 & Hi & Hu & Hlen & Hfr) Hf Hs Hk].
  pose proof (hl_ok _ _ (ki_list _ _ Hi)) as [Hb _]%Forall_middle.
  destruct (heap_list_payload_ptr b Hb) as [_ Hnz]. apply Z.eqb_neq in Hnz as Hnz'.
  rewrite Hnz'. right. exists b. split; [done|]. split; [done|].
  destruct (payload_write_inv s1 (memset (b_data b) 0 (count * size) (kh_mem s1)) l1 b l2 Hi)
    as [Hi' Hp]; [by apply memset_bytes, Hi| |].
  { intros x Hx. apply memset_out; lia. }
  split; [split; try done|].
  - exists l1, l2. split_and!; [done|done|lia|].
    eapply leaves_foreign_trans; [exact Hfr|]. intros x Hx. split; [exact Hx|].
    destruct Hx as [Hx _]. pose proof (Hx b ltac:(apply elem_middle; by left)).
    destruct Hb. apply memset_out; unfold b_data, b_end in *; lia.
  - intros c Hc. eapply payload_kept_trans; [by apply Hk|]. apply Hp.
    rewrite <- Hu in Hc. by apply list_elem_of_filter in Hc as [_ ?].
  - intros x Hx. cbn [with_mem kh_mem]. by apply memset_in.
Qed.

(** (Property) [kcalloc] with a product that does not wrap returns 0 or the
    payload of a block in use whose first [count * size] bytes are all zero; the
    heap stays well-formed and every other payload in use keeps its bytes. *)
Theorem kcalloc_zeroed (fuel : nat) (count size : Z) (s s' : kheap A) (bs : list blk) (ptr : Z)
    (Hinv : kheap_inv s bs) (Hsize : 0 < count * size ≤ 18446744073709539328)
    (Hfuel : (length bs + 3 ≤ fuel)%nat) (Hrun : kcalloc fuel count size s = Ok (ptr, s')) :
  ptr = 0 ∨
  ∃ b, ptr = b_data b ∧ allocated 2 (count * size) bs s s' b ∧
    ∀ x, ptr ≤ x < ptr + count * size → kh_mem s' x = 0.
Proof.
  pose proof (kcalloc_spec fuel count size s bs Hinv Hsize Hfuel) as H1. rewrite Hrun in H1.
  destruct H1 as [(-> & _)|(b & Hp & _ & Hal & Hz)]; [by left|right]. by exists b.
Qed.

Lemma kheap_init_spec (fuel : nat) (start size : Z) (s : kheap A)
    (Hby : mem_bytes (kh_mem s)) (Hhd : heap_head s = 0) (Hpg : alloc_inv (kh_pages s))
    (Hnull : used_page (kh_pages s) 0 = true) (Hsize : 0 < size) :
  match kheap_init fuel start size s with
  | Ok (_, s') => ∃ nb, kheap_inv s' [nb] ∧ b_free nb = true ∧
      MIN HEAP_MIN_SIZE size ≤ b_size nb + 56 ∧ heap_base s' = start ∧ leaves_foreign s [] s' [nb]
  | Panic _ => True
  | _ => False
  end.
Proof.
  unfold kheap_init.
  set (s0 := mk_kheap _ _ _ _ _ _).
  assert (kheap_inv s0 []) as Hi0 by (split; try done; by split).
  pose proof (heap_expand_spec fuel (MIN HEAP_MIN_SIZE size) s0 [] Hi0) as Hex.
  assert (0 < MIN HEAP_MIN_SIZE size ≤ 65536) as Hmin
    by (unfold MIN, HEAP_MIN_SIZE, PAGE_SIZE; zcases; lia).
  specialize (Hex ltac:(lia) ltac:(simpl; lia)).
  pose proof (heap_expand_base fuel (MIN HEAP_MIN_SIZE size) s0) as Hbase.
  destruct (heap_expand _ _ s0) as [[r s1]| | |]; try done. cbn [mbind outcome_bind].
  destruct Hex as [(-> & _)|(-> & _ & nb & Hi & Hf & Hn & _ & Hfr)]; [done|].
  rewrite Z.eqb_refl. exists nb. by split_and!.
Qed.

(** (Property) [kheap_init] on an empty heap either panics or leaves a
    well-formed heap that consists of one free block. *)
Theorem kheap_init_establishes (fuel : nat) (start size : Z) (s : kheap A)
    (Hby : mem_bytes (kh_mem s)) (Hhd : heap_head s = 0) (Hpg : alloc_inv (kh_pages s))
    (Hnull : used_page (kh_pages s) 0 = true) (Hsize : 0 < size) :
  match kheap_init fuel start size s with
  | Ok (_, s') => ∃ nb, kheap_inv s' [nb] ∧ b_free nb = true ∧
      MIN HEAP_MIN_SIZE size ≤ b_size nb + 56 ∧ heap_base s' = start ∧ leaves_foreign s [] s' [nb]
  | Panic _ => True
  | _ => False
  end.
Proof. by apply kheap_init_spec. Qed.
End Clients.

(** ** A concrete heap

    One page at 1 MiB, of which the first 64 bytes are in use. *)
Definition sample_blocks : list blk := [mk_blk 1048576 64 false; mk_blk 1048696 3920 true].
Definition sample_page : mem :=
  set_next 1048576 0 (set_prev 1048576 0 (write_block 1048576 4040 true (fun _ => 0))).
Definition sample_heap : kheap pmm :=
  mk_kheap (take_fit 64 1048576 sample_page) sample_pmm 1048576 1048576 1052672 2097152.
Definition empty_heap : kheap pmm := mk_kheap (fun _ => 0) sample_pmm 0 0 0 0.

Lemma zero_bytes : mem_bytes (fun _ => 0).
Proof. intros x. lia. Qed.

Lemma sample_page_owned : page_used sample_pmm 256 = true ∧ page_used sample_pmm 0 = true.
Proof. split; vm_compute; reflexivity. Qed.

Lemma sample_heap_inv : kheap_inv sample_heap sample_blocks.
Proof.
  assert (blk_ok (mk_blk 1048576 4040 true)) as Hb
    by (split; unfold b_end; cbn [b_addr b_size]; (lia || reflexivity)).
  destruct (single_block_spec (fun _ => 0) _ Hb eq_refl) as [Hl _].
  destruct (take_fit_spec sample_page [] _ [] 64 Hl eq_refl) as [Hl' _];
    [split; [lia|reflexivity]|cbn [b_size]; lia|].
  split; unfold sample_heap; cbn [kh_mem kh_pages heap_head].
  - apply take_fit_bytes, set_next_bytes, set_prev_bytes, write_block_bytes, zero_bytes.
  - reflexivity.
  - exact Hl'.
  - destruct sample_page_owned as [Hp _].
    assert (∀ b, 1048576 ≤ b_addr b → b_end b ≤ 1052672 → owned sample_pmm b) as Ho.
    { intros b Hlo Hhi x Hx. replace (x / PAGE_SIZE) with 256; [exact Hp|].
      unfold PAGE_SIZE. Z.div_mod_to_equations; lia. }
    repeat constructor; apply Ho; unfold b_end; cbn [b_addr b_size]; lia.
  - exact sample_pmm_inv.
  - apply sample_page_owned.
Qed.

Lemma kmalloc_correct_witness :
  kheap_inv sample_heap sample_blocks ∧
  ∃ s', kmalloc 5 100 sample_heap = Ok (1048736, s') ∧
    ∃ b, 1048736 = b_data b ∧ allocated 2 100 sample_blocks sample_heap s' b.
Proof.
  split; [exact sample_heap_inv|].
  pose proof (kmalloc_correct 5 100 sample_heap sample_blocks sample_heap_inv
    ltac:(lia) ltac:(simpl; lia)) as Hk.
  destruct (kmalloc_fit 5 100 sample_heap sample_blocks (mk_blk 1048696 3920 true)
    sample_heap_inv ltac:(lia) ltac:(simpl; lia)) as (s' & b & E & _ & Ha & _);
    [vm_compute; reflexivity|].
  exists s'. rewrite E in Hk.
  assert (b_data b = 1048736) as Hd by (unfold b_data; rewrite Ha; reflexivity).
  rewrite Hd in E, Hk. split; [exact E|].
  destruct Hk as [(H0 & _)|(b' & Hb' & Hal & _)]; [discriminate H0|].
  exists b'. exact (conj Hb' Hal).
Defined.

Lemma kfree_coalesces_witness :
  kheap_inv sample_heap ([] ++ mk_blk 1048576 64 false :: [mk_blk 1048696 3920 true]) ∧
  kheap_inv (kfree 1048616 sample_heap) [mk_blk 1048576 4040 true].
Proof.
  split; [exact sample_heap_inv|].
  refine (proj1 (kfree_coalesces sample_heap [] [mk_blk 1048696 3920 true]
    (mk_blk 1048576 64 false) sample_heap_inv eq_refl _)).
  split; [intros n t [= <- <-] _; reflexivity|discriminate].
Defined.

Lemma kcalloc_zeroed_witness :
  ∃ s', kcalloc 5 25 4 sample_heap = Ok (1048736, s') ∧
    ∀ x, 1048736 ≤ x < 1048836 → kh_mem s' x = 0.
Proof.
  destruct (kmalloc_fit 5 100 sample_heap sample_blocks (mk_blk 1048696 3920 true)
    sample_heap_inv ltac:(lia) ltac:(simpl; lia)) as (s1 & b & E & _ & Ha & _);
    [vm_compute; reflexivity|].
  assert (b_data b = 1048736) as Hd by (unfold b_data; rewrite Ha; reflexivity).
  assert (kcalloc 5 25 4 sample_heap =
    Ok (1048736, with_mem (memset 1048736 0 100) s1)) as Erun.
  { unfold kcalloc. change (25 *₆₄ 4) with 100. rewrite E, Hd. reflexivity. }
  exists (with_mem (memset 1048736 0 100) s1). split; [exact Erun|].
  destruct (kcalloc_zeroed 5 25 4 sample_heap _ sample_blocks 1048736 sample_heap_inv
    ltac:(lia) ltac:(simpl; lia) Erun) as [Hz|(b' & _ & _ & Hx)]; [discriminate Hz|exact Hx].
Defined.

Lemma kheap_init_establishes_witness :
  match kheap_init 1 0 4096 empty_heap with
  | Ok (_, s') => ∃ nb, kheap_inv s' [nb]
  | Panic _ => True
  | _ => False
  end.
Proof.
  pose proof (kheap_init_establishes 1 0 4096 empty_heap zero_bytes eq_refl sample_pmm_inv
    (proj2 sample_page_owned) ltac:(lia)) as H.
  destruct (kheap_init 1 0 4096 empty_heap) as [[u s']| | |]; try exact H.
  destruct H as (nb & Hi & _). exists nb. exact Hi.
Defined.

(** ** What the code does outside these hypotheses *)

(** Two one-page regions with a gap between them, as two calls of [heap_expand]
    leave them; the block of the second region is in use. *)
Definition gap_heap : kheap pmm :=
  let m := write_block 8192 4040 true (fun _ => 0) in
  let m := set_next 8192 65536 (set_prev 8192 0 m) in
  let m := write_block 65536 4040 false m in
  let m := set_next 65536 0 (set_prev 65536 8192 m) in
  mk_kheap m pmm_static 8192 8192 16384 65536.

(** Freeing it merges the two regions although they are 53,248 bytes apart; the next
    [kmalloc] of 6000 bytes returns a block that runs past the end of the first
    region, over memory the heap does not own. *)
Example kfree_merges_across_gap :
  hdr_size (kh_mem gap_heap) 8192 = 4040 ∧
  hdr_size (kh_mem (kfree 65576 gap_heap)) 8192 = 8136 ∧
  fst <$> kmalloc 4 6000 (kfree 65576 gap_heap) = Ok 8232.
Proof. vm_compute. split_and!; reflexivity. Qed.

(** Rounding and header arithmetic wrap for sizes just below 2^64: the request is
    granted from a 4040-byte block, and the footer is written over the size
    field of the block's own header. *)
Example kmalloc_wraps :
  let s := kfree 65576 gap_heap in
  fst <$> kmalloc 4 18446744073709551576 s = Ok 8232 ∧
  (fun r => hdr_size (kh_mem (snd r)) 8192) <$> kmalloc 4 18446744073709551576 s
    = Ok HEAP_MAGIC_USED.
Proof. vm_compute. split_and!; reflexivity. Qed.

(** The product of [kcalloc] wraps: a request for 2^60 + 16 elements of 16 bytes
    is served as one for 256 bytes. *)
Example kcalloc_product_wraps : kcalloc 4 1152921504606846992 16 gap_heap = kcalloc 4 1 256 gap_heap.
Proof. reflexivity. Qed.
