(* ===== verification/HeapCredit.v ===== *)
(** * What is left on the heap

    [credited n N h]: the page allocator has room for [n] more pages and the heap a
    free block of at least [N] bytes.  An operation that costs no more than that
    cannot fail: it neither panics nor returns NULL. *)
From S2P Require Import Prelude Mem LibString PageAlloc Kheap KheapInv KheapSpec KmallocSpec.

Section Credit.
Context {A : Type} `{PageAllocSpec A, !PageAllocRoom A}.
Implicit Types h : kheap A.

Definition credited (n N : Z) h : Prop :=
  room n (kh_pages h) ∧ ∃ bs c, kheap_inv h bs ∧ c ∈ bs ∧ b_free c = true ∧ N ≤ b_size c.

Lemma credited_weaken n N N' h : credited n N h → N' ≤ N → credited n N' h.
Proof. intros (Hr & bs & c & Hi & Hc & Hf & HN) Hle. split; [done|]. exists bs, c. split_and!; [done..|lia]. Qed.

(** Credit is a matter of the list of blocks and the pages. *)
Lemma credited_same n N h h' bs :
  credited n N h → kheap_inv h bs → kheap_inv h' bs → kh_pages h' = kh_pages h → credited n N h'.
Proof.
  intros (Hr & bs0 & c & Hi0 & Hc) Hi Hi' E. split; [by rewrite E|].
  rewrite (kheap_inv_unique _ _ _ Hi0 Hi) in Hc. by exists bs, c.
Qed.

Lemma credited_pages n k N h :
  0 ≤ n → 1 ≤ k < 18446744073709551616 → credited (n + k) N h →
  ∃ phys a', alloc_pages k (kh_pages h) = Ok (phys, a') ∧ credited n N (with_pages a' h).
Proof.
  intros Hn Hk (Hr & bs & c & Hi & Hc). destruct (room_pages n k _ Hn ltac:(lia) Hr) as (phys & a' & E & Hr').
  exists phys, a'. split; [done|]. pose proof (alloc_pages_spec k _ (ki_pages _ _ Hi) Hk) as Hg. rewrite E in Hg.
  split; [done|]. exists bs, c. split; [|done]. apply (grabbed_grows _ _ _ _ _ Hi Hg).
Qed.

Lemma credited_page n N h :
  0 ≤ n → credited (n + 1) N h →
  ∃ phys a', alloc_page (kh_pages h) = Ok (phys, a') ∧ credited n N (with_pages a' h).
Proof.
  intros Hn (Hr & bs & c & Hi & Hc). destruct (room_page n _ Hn Hr) as (phys & a' & E & Hr').
  exists phys, a'. split; [done|]. pose proof (alloc_page_spec _ (ki_pages _ _ Hi)) as Hg. rewrite E in Hg.
  split; [done|]. exists bs, c. split; [|done]. apply (grabbed_grows _ _ _ _ _ Hi Hg).
Qed.

(** What a request for [size] bytes takes from a free block, at most. *)
Definition cost (size : Z) : Z := ALIGN_UP64 size 16 + 88.

Lemma fitting_exists need l c :
  c ∈ l → b_free c = true → need ≤ b_size c → ∃ b, first_fit need l = Some b.
Proof.
  intros Hc Hf Hn. destruct (first_fit need l) as [b|] eqn:E; [by exists b|].
  apply list_elem_of_In in Hc. pose proof (find_none _ _ E c Hc) as Hno. unfold fits in Hno.
  rewrite Hf in Hno. cbn in Hno. apply Z.leb_gt in Hno. lia.
Qed.

Lemma kmalloc_pays fuel size n N h bs :
  kheap_inv h bs → 0 < size ≤ 18446744073709539328 → (length bs + 3 ≤ fuel)%nat → 0 ≤ N →
  credited n (N + cost size) h →
  ∃ p h', kmalloc fuel size h = Ok (p, h') ∧ p ≠ 0 ∧ credited n N h'.
Proof.
  intros Hi Hsize Hfuel HN (Hr & bs0 & c & Hi0 & Hc & Hf & Hle). rewrite (kheap_inv_unique _ _ _ Hi0 Hi) in Hc. clear bs0 Hi0.
  destruct (round16 size Hsize) as (Hgood & _). pose proof (proj1 Hgood) as Hpos. unfold cost in Hle. set (sz := ALIGN_UP64 size 16) in *.
  destruct (fitting_exists (sz + 56) bs c Hc Hf ltac:(lia)) as [d Hd].
  destruct (kmalloc_fit fuel size h bs d Hi Hsize ltac:(lia) Hd) as (h' & b & E & Hal & _ & Ep & l1 & l2 & -> & Hdf & Hi').
  fold sz in Hi'. exists (b_data b), h'. split; [done|]. destruct (allocated_grows _ _ _ _ _ _ Hal) as (_ & _ & _ & _ & Hnz & _).
  split; [done|]. split; [by rewrite Ep|]. apply elem_middle in Hc as [->|Hc].
  - exists (l1 ++ fit_used sz d :: fit_rest sz d ++ l2), (tail_part sz d). split; [done|].
    unfold fit_rest. destruct (Z.leb_spec (sz + 88) (b_size d)); [|lia]. split; [|split; [done|cbn; lia]].
    apply elem_middle. right. rewrite !elem_of_app. right. left. by left.
  - exists (l1 ++ fit_used sz d :: fit_rest sz d ++ l2), c. split; [done|]. split; [|split; [done|lia]].
    apply elem_middle. right. rewrite !elem_of_app. apply elem_of_app in Hc. tauto.
Qed.

Lemma kcalloc_pays fuel count size n N h bs :
  kheap_inv h bs → 0 < count * size ≤ 18446744073709539328 → (length bs + 3 ≤ fuel)%nat → 0 ≤ N →
  credited n (N + cost (count * size)) h →
  ∃ p h', kcalloc fuel count size h = Ok (p, h') ∧ p ≠ 0 ∧ credited n N h'.
Proof.
  intros Hi Hsize Hfuel HN Hc. unfold kcalloc. rewrite wrap64_small by lia.
  destruct (kmalloc_pays fuel _ n N h bs Hi Hsize Hfuel HN Hc) as (p & h' & E & Hnz & Hc').
  pose proof (kmalloc_spec fuel (count * size) h bs Hi Hsize Hfuel) as Hk. rewrite E in Hk |- *. cbn [mbind outcome_bind].
  destruct Hk as [(-> & _)|(b & -> & [(l1 & l2 & Hi' & _) _ Hs _] & _)]; [done|].
  destruct (Z.eqb_spec (b_data b) 0) as [|_]; [done|]. eexists _, _. split; [done|]. split; [done|].
  eapply credited_same; [exact Hc'|exact Hi'| |done]. apply (payload_write_inv h' _ l1 b l2 Hi').
  - apply memset_bytes, Hi'.
  - intros x Hx. apply memset_out; lia.
Qed.

Lemma kheap_init_pays fuel start size n h :
  mem_bytes (kh_mem h) → heap_head h = 0 → alloc_inv (kh_pages h) → used_page (kh_pages h) 0 = true →
  65536 ≤ size → 0 ≤ start → start + size < 18446744073709551616 → 0 ≤ n → room (n + 16) (kh_pages h) →
  ∃ h', kheap_init fuel start size h = Ok (tt, h') ∧ credited n 65480 h'.
Proof.
  intros Hby Hhd Hpg Hnull Hsize Hst Hsum Hn Hr.
  pose proof (kheap_init_spec fuel start size h Hby Hhd Hpg Hnull ltac:(lia)) as Hk.
  destruct (room_pages n 16 _ Hn ltac:(lia) Hr) as (phys & a' & E & Hr').
  assert (MIN HEAP_MIN_SIZE size = 65536) as Hmin by (unfold MIN, HEAP_MIN_SIZE, PAGE_SIZE; zcases; lia).
  unfold kheap_init in *. set (h0 := mk_kheap _ _ _ _ _ _) in *. rewrite Hmin in Hk |- *.
  unfold heap_expand in *. change (ALIGN_UP64 65536 PAGE_SIZE / PAGE_SIZE) with 16 in *.
  change (kh_pages h0) with (kh_pages h) in *. rewrite E in Hk |- *. cbn [mbind outcome_bind] in *.
  change (heap_head _) with (heap_head h) in *. rewrite Hhd in Hk |- *. rewrite Z.eqb_refl in Hk |- *.
  change (heap_max _) with (start +₆₄ size) in *. change (heap_end _) with start in *.
  change (16 *₆₄ PAGE_SIZE) with 65536 in *. rewrite !(wrap64_small (start + _)) in * by lia.
  destruct (Z.ltb_spec (start + size) (start + 65536)); [lia|]. cbn [mbind outcome_bind] in *. rewrite Z.eqb_refl in Hk |- *.
  eexists. split; [reflexivity|]. destruct Hk as (nb & Hi & Hf & Hs & _). split; [exact Hr'|].
  exists [nb], nb. split_and!; [exact Hi|by left|done|lia].
Qed.
End Credit.
