(* ===== verification/KreallocSpec.v ===== *)
(** * Resizing: [krealloc] and [kmalloc_aligned]

    [krealloc] copies to a block allocated with [kmalloc] and frees the old one. *)
From S2P Require Import Prelude Mem LibString PageAlloc Pmm Kheap KheapInv KheapSpec KmallocSpec.

Section Resize.
Context {A : Type} `{PageAllocSpec A}.
Implicit Types s : kheap A.

(** A block of the list and what the code reads from its header. *)
Lemma listed_block s bs b :
  kheap_inv s bs → b ∈ bs →
  b_data b -₆₄ HEADER_SIZE = b_addr b ∧ b_data b ≠ 0 ∧ hdr_size (kh_mem s) (b_addr b) = b_size b ∧ blk_ok b.
Proof.
  intros Hi (l1 & l2 & ->)%list_elem_of_split. pose proof (ki_list _ _ Hi) as [Hc [Hb _]%Forall_middle _].
  apply chain_app in Hc as [_ [Hbb _]]. destruct (heap_list_payload_ptr b Hb).
  split_and!; [done|done|by apply (ba_size _ _ _ _ Hbb)|done].
Qed.

Lemma used_in bs b : b ∈ used_blocks bs → b ∈ bs ∧ b_free b = false.
Proof. unfold used_blocks. intros [? ?]%list_elem_of_filter. done. Qed.

(** Copying the payload of [b] to the start of the payload of a block of its own. *)
Lemma copy_payload s bs b nb n :
  kheap_inv s bs → b ∈ bs → nb ∈ bs → blk_disj nb b → 0 ≤ n ≤ b_size b → n ≤ b_size nb →
  let s' := with_mem (fun m => memcpy (b_data nb) (b_data b) n m) s in
  kheap_inv s' bs ∧ (∀ i, 0 ≤ i < n → kh_mem s' (b_data nb + i) = kh_mem s (b_data b + i)) ∧
  ∀ c, c ∈ bs → blk_disj nb c → payload_kept (kh_mem s) (kh_mem s') c.
Proof.
  intros Hi Hb Hnb Hd Hn Hn' s'. pose proof (ki_bytes _ _ Hi) as Hby.
  destruct (listed_block _ _ _ Hi Hb) as (_ & _ & _ & [_ _ Hs _]).
  destruct (listed_block _ _ _ Hi Hnb) as (_ & _ & _ & [_ _ Hs' _]).
  assert (∀ x, kh_mem s' x = if (b_data nb <=? x) && (x <? b_data nb + n) then kh_mem s (b_data b + (x - b_data nb)) else kh_mem s x) as Hat.
  { intros x. apply memcpy_at; [lia| |done]. unfold blk_disj, b_data, b_end in *. lia. }
  split; [|split].
  - apply (payload_write_grows s bs nb (kh_mem s') Hi Hnb).
    + intros x. rewrite Hat. by destruct (_ && _).
    + intros x Hx. rewrite Hat. zcases; (done || lia).
  - intros i Hx. rewrite Hat. zcases; try lia. f_equal. lia.
  - intros c Hc Hdc x Hx. rewrite Hat. destruct (listed_block _ _ _ Hi Hc) as (_ & _ & _ & [_ _ Hsc _]).
    unfold blk_disj, b_data, b_end in *. zcases; (done || lia).
Qed.

(** What a successful move to the block [nb] leaves, when the neighbours of the old
    block in the list touch it in memory. *)
Record moved (b nb : blk) (rest : list blk) s s' (bs : list blk) : Prop := mk_moved {
  mv_inv : kheap_inv s' bs;
  mv_used : ∀ c, c ∈ used_blocks bs ↔ c = nb ∨ c ∈ rest;
  mv_bytes : ∀ i, 0 ≤ i < b_size b → kh_mem s' (b_data nb + i) = kh_mem s (b_data b + i);
  mv_kept : ∀ c, c ∈ rest → payload_kept (kh_mem s) (kh_mem s') c;
}.

Lemma used_middle c l1 b l2 :
  c ∈ used_blocks (l1 ++ b :: l2) ↔ b_free b = false ∧ c = b ∨ c ∈ used_blocks (l1 ++ l2).
Proof.
  unfold used_blocks. rewrite !filter_app, !elem_of_app, filter_cons.
  destruct (decide (b_free b = false)); rewrite ?elem_of_cons; tauto.
Qed.

Lemma other_block s l1 b l2 c :
  kheap_inv s (l1 ++ b :: l2) → c ∈ l1 ++ l2 → c ≠ b ∧ blk_disj b c.
Proof.
  intros Hi Hc. pose proof (ki_list _ _ Hi) as [_ [Hb _]%Forall_middle [_ Hd]%blocks_disj_middle].
  rewrite Forall_forall in Hd. split; [|by apply Hd]. intros ->. specialize (Hd _ Hc).
  destruct Hb. unfold blk_disj, b_end in *. lia.
Qed.

Lemma used_disj s bs b c :
  kheap_inv s bs → b ∈ used_blocks bs → c ∈ used_blocks bs → b_data b ≠ b_data c → blk_disj b c.
Proof.
  intros Hi [_ Hb]%list_elem_of_filter [_ Hc]%list_elem_of_filter Hne.
  apply list_elem_of_split in Hb as (l1 & l2 & ->).
  pose proof (hl_disj _ _ (ki_list _ _ Hi)) as [_ Hd]%blocks_disj_middle.
  apply elem_middle in Hc as [->|Hc]; [done|]. rewrite Forall_forall in Hd. by apply Hd.
Qed.

(** A block in use is known by its payload. *)
Lemma used_by_data s bs b c :
  kheap_inv s bs → b ∈ used_blocks bs → c ∈ used_blocks bs → b_data b = b_data c → b = c.
Proof.
  intros Hi [_ Hb]%list_elem_of_filter [_ Hc]%list_elem_of_filter E.
  apply list_elem_of_split in Hb as (l1 & l2 & ->). apply elem_middle in Hc as [->|Hc]; [done|].
  destruct (other_block _ _ _ _ _ Hi Hc) as [_ Hd]. pose proof (ki_list _ _ Hi) as [_ [Hb Hok]%Forall_middle _].
  rewrite Forall_forall in Hok. destruct Hb, (Hok c Hc). unfold blk_disj, b_data, b_end in *. lia.
Qed.

(** Freeing [b] after its bytes have been copied to [nb]. *)
Lemma free_moved s s1 k1 nb k2 l1 b l2 :
  kheap_inv s (l1 ++ b :: l2) → b_free b = false → kheap_inv s1 (k1 ++ nb :: k2) → b_free nb = false →
  used_blocks (k1 ++ k2) = used_blocks (l1 ++ b :: l2) → b_size b ≤ b_size nb →
  (∀ c, c ∈ used_blocks (l1 ++ b :: l2) → payload_kept (kh_mem s) (kh_mem s1) c) →
  let s2 := with_mem (fun m => memcpy (b_data nb) (b_data b) (b_size b) m) s1 in
  ∃ j1 j2, kheap_inv s2 (j1 ++ b :: j2) ∧ kheap_inv s1 (j1 ++ b :: j2) ∧
    (touching j1 b j2 → moved b nb (used_blocks (l1 ++ l2)) s (kfree (b_data b) s2) (freed_list j1 b j2)).
Proof.
  intros Hi Hb Hi1 Hnb Hu Hsz Hkept s2.
  assert (b ∈ used_blocks (k1 ++ k2)) as Hbu by (rewrite Hu, used_middle; by left).
  pose proof (used_in _ _ Hbu) as [Hbk _]. pose proof (fun c => other_block _ _ _ _ c Hi1) as Hob. destruct (Hob _ Hbk) as [Hne Hd].
  assert (0 ≤ b_size b) as Hs by (destruct (listed_block _ _ b Hi ltac:(apply elem_middle; by left)) as (_ & _ & _ & []); done).
  destruct (copy_payload s1 (k1 ++ nb :: k2) b nb (b_size b) Hi1) as (Hi2 & Hcopy & Hother);
    [apply elem_middle; by right|apply elem_middle; by left|done|lia|done|].
  fold s2 in Hi2, Hcopy, Hother.
  assert (∀ c, c ∈ used_blocks (k1 ++ nb :: k2) ↔ c = nb ∨ c = b ∨ c ∈ used_blocks (l1 ++ l2)) as Hall.
  { intros c. rewrite used_middle, Hu, used_middle. tauto. }
  assert (b ∈ k1 ++ nb :: k2) as (j1 & j2 & E)%list_elem_of_split by (apply elem_middle; by right).
  exists j1, j2. rewrite E in Hi1, Hi2, Hall. split; [done|]. split; [done|]. intros Ht.
  destruct (kfree_spec s2 j1 j2 b Hi2 Hb Ht) as (Hi' & Hu' & Hk').
  assert (∀ c, c ∈ used_blocks (j1 ++ j2) ↔ c = nb ∨ c ∈ used_blocks (l1 ++ l2)) as Hrest.
  { intros c. specialize (Hall c). rewrite used_middle in Hall. split.
    - intros Hc. destruct (proj1 Hall (or_intror Hc)) as [?|[->|?]]; [by left| |by right].
      pose proof (used_in _ _ Hc) as [Hc' _]. by destruct (other_block _ _ _ _ _ Hi2 Hc').
    - intros Hc. assert (c ≠ b) as Hcb.
      { destruct Hc as [->|Hc]; [congruence|]. pose proof (used_in _ _ Hc) as [Hc' _].
        by destruct (other_block _ _ _ _ _ Hi Hc'). }
      destruct (proj2 Hall ltac:(tauto)) as [[_ ?]|?]; done. }
  split; [exact Hi'|by intros c; rewrite Hu'| |].
  - intros i Hx. rewrite (Hk' nb (proj2 (Hrest nb) (or_introl eq_refl))) by (unfold b_data; lia).
    rewrite Hcopy by done. apply (Hkept b); [rewrite used_middle; by left|unfold b_data; lia].
  - intros c Hc. eapply payload_kept_trans; [apply Hkept; rewrite used_middle; by right|].
    eapply payload_kept_trans; [apply Hother|by apply Hk', Hrest; right].
    + assert (c ∈ used_blocks (k1 ++ k2)) as [? _]%used_in by (rewrite Hu, used_middle; by right).
      apply elem_middle. by right.
    + assert (c ∈ used_blocks (k1 ++ k2)) as [Hc' _]%used_in by (rewrite Hu, used_middle; by right).
      by destruct (Hob _ Hc').
Qed.

(** ** Allocation keeps a block's neighbours touching *)

Lemma used_other s l1 b l2 :
  kheap_inv s (l1 ++ b :: l2) → b ∉ l1 ++ l2.
Proof. intros Hi Hb. by destruct (other_block s l1 b l2 b Hi Hb). Qed.

(** Replacing the free block [c] by what a fit leaves of it. *)
Lemma fit_touching s1 l1 b l2 k1 c k2 j1 j2 sz :
  good_size sz → b_free c = true → sz + 56 ≤ b_size c → b_free b = false →
  touching l1 b l2 → l1 ++ b :: l2 = k1 ++ c :: k2 → (b ∉ l1 ++ l2) →
  kheap_inv s1 (j1 ++ b :: j2) → j1 ++ b :: j2 = k1 ++ fit_used sz c :: fit_rest sz c ++ k2 →
  touching j1 b j2.
Proof.
  intros Hsz Hc Hle Hb [Hn Hp] E Hnb Hi Ej. pose proof (used_other _ _ _ _ Hi) as Hnj.
  assert (b ∈ k1 ++ k2) as Hbk.
  { assert (b ∈ k1 ++ c :: k2) as Hin by (rewrite <- E; apply elem_middle; by left).
    apply elem_middle in Hin as [->|]; [congruence|done]. }
  destruct (fit_used_facts sz c Hsz Hle) as (Hfu & _ & _ & _).
  apply elem_of_app in Hbk as [(a1 & a2 & ->)%list_elem_of_split|(a1 & a2 & ->)%list_elem_of_split].
  - rewrite <- app_assoc in E, Ej. cbn [app] in E, Ej.
    destruct (split_unique b a1 (a2 ++ c :: k2) l1 l2 (eq_sym E) Hnb) as [<- <-].
    destruct (split_unique b a1 (a2 ++ fit_used sz c :: fit_rest sz c ++ k2) j1 j2 (eq_sym Ej) Hnj) as [<- <-].
    split; [|exact Hp]. intros n t. destruct a2 as [|n' a2]; cbn [app]; [intros [= <- _]; congruence|].
    intros [= <- _]. by eapply Hn.
  - change (k1 ++ c :: a1 ++ b :: a2) with (k1 ++ (c :: a1) ++ b :: a2) in E. rewrite app_assoc in E.
    destruct (split_unique b (k1 ++ c :: a1) a2 l1 l2 (eq_sym E) Hnb) as [<- <-].
    replace (k1 ++ fit_used sz c :: fit_rest sz c ++ a1 ++ b :: a2)
      with ((k1 ++ (fit_used sz c :: fit_rest sz c) ++ a1) ++ b :: a2) in Ej by (by rewrite <- !app_assoc).
    destruct (split_unique b (k1 ++ (fit_used sz c :: fit_rest sz c) ++ a1) a2 j1 j2 (eq_sym Ej) Hnj) as [<- <-].
    split; [exact Hn|]. intros p r. rewrite !rev_app_distr. intros E1 Hpf.
    destruct (rev a1) as [|q t] eqn:Ea.
    + apply (f_equal (@rev blk)) in Ea. rewrite rev_involutive in Ea. subst a1. cbn [rev app] in E1.
      assert (b_end c = b_addr b) as <- by (eapply Hp; [by rewrite rev_app_distr|done]).
      unfold fit_used, fit_rest in *. destruct (sz + 88 <=? b_size c); cbn [rev app] in E1; injection E1 as <- _; [|congruence].
      unfold b_end. cbn [tail_part b_addr b_size]. lia.
    + cbn [app] in E1. injection E1 as <- _. eapply Hp; [|done]. rewrite rev_app_distr. cbn [rev]. by rewrite Ea.
Qed.

Lemma kmalloc_touching fuel size s l1 b l2 p s' j1 j2 :
  kheap_inv s (l1 ++ b :: l2) → b_free b = false → touching l1 b l2 →
  0 < size ≤ 18446744073709539328 → (length (l1 ++ b :: l2) + 3 ≤ fuel)%nat →
  kmalloc fuel size s = Ok (p, s') → p ≠ 0 → kheap_inv s' (j1 ++ b :: j2) → touching j1 b j2.
Proof.
  intros Hinv Hb Ht Hsize Hfuel Hk Hnz Hj. pose proof (used_other _ _ _ _ Hinv) as Hnb. set (bs := l1 ++ b :: l2) in *.
  destruct (round16 size Hsize) as (Hgood & Hle & Hidem).
  destruct (first_fit (ALIGN_UP64 size 16 + 56) bs) as [c|] eqn:Hfit.
  { destruct (kmalloc_fit fuel size s bs c Hinv Hsize ltac:(lia) Hfit)
      as (s2 & nb & E & _ & _ & _ & k1 & k2 & Es & Hc & Hi'). rewrite E in Hk. injection Hk as <- <-.
    destruct (first_fit_split _ _ _ Hfit) as (_ & _ & _ & _ & Hsz & _).
    eapply (fit_touching s2 l1 b l2 k1 c k2); [exact Hgood|done|exact Hsz|done|done|done|done|exact Hj|by eapply kheap_inv_unique]. }
  destruct fuel as [|fuel]; [lia|]. cbn [kmalloc] in Hk. destruct (Z.eqb_spec size 0); [lia|].
  set (sz := ALIGN_UP64 size 16) in *. pose proof (ki_list _ _ Hinv) as Hl. rewrite (ki_head _ _ Hinv) in Hk.
  rewrite (find_fit_spec _ _ sz 0 bs) in Hk; [|apply Hl|apply Hl|lia].
  unfold OVERHEAD, HEADER_SIZE, FOOTER_SIZE, PAGE_SIZE in Hk. rewrite (wrap64_small (sz + (40 + 16))) in Hk by lia.
  replace (sz + (40 + 16)) with (sz + 56) in Hk by lia. rewrite Hfit in Hk.
  cbn [mbind outcome_bind fmap option_fmap option_map] in Hk. rewrite wrap64_small in Hk by lia.
  pose proof (heap_expand_spec (S fuel) (sz + 56 + 4096) s bs Hinv ltac:(destruct Hgood; lia) ltac:(lia)) as Hex.
  destruct (heap_expand _ _ _) as [[r s1]|msg| |]; try done. cbn [mbind outcome_bind] in Hk.
  destruct Hex as [(-> & _)|(-> & _ & nb & Hinv1 & Hnf & Hns & _)]; [cbn in Hk; congruence|]. rewrite Z.eqb_refl in Hk.
  destruct (first_fit_app_free (sz + 56) bs nb Hnf ltac:(lia)) as [c Hc].
  rewrite <- Hidem in Hc. destruct Hgood as [Hpos Hmod].
  destruct (kmalloc_fit fuel sz s1 (bs ++ [nb]) c Hinv1 ltac:(lia)) as (s2 & nb' & E & _ & _ & _ & k1 & k2 & Es & Hcf & Hi');
    [rewrite length_app; simpl; lia|done|]. rewrite Hidem in Hc, Hi'.
  rewrite E in Hk. injection Hk as <- <-.
  (* only the new block fits *)
  assert (c = nb ∧ k2 = []) as [-> ->].
  { destruct (first_fit_split _ _ _ Hc) as (m1 & m2 & Em & _ & Hsz & _).
    assert (c ∈ bs ++ [nb]) as [Hin|Hin]%elem_of_app by (rewrite Em; apply elem_middle; by left).
    - exfalso. apply list_elem_of_In in Hin. pose proof (find_none _ _ Hfit c Hin) as Hno.
      unfold fits in Hno. rewrite Hcf in Hno. cbn in Hno. apply Z.leb_gt in Hno. lia.
    - apply list_elem_of_singleton in Hin as ->. split; [done|].
      pose proof (used_other _ _ _ _ Hinv1) as Hnn. rewrite app_nil_r in Hnn.
      by destruct (split_unique nb k1 k2 bs [] (eq_sym Es)) as [_ ->]; [rewrite app_nil_r|]. }
  apply app_inj_tail in Es as [Ek _]. rewrite <- Ek in Hi'.
  pose proof (kheap_inv_unique _ _ _ Hj Hi') as Ej. rewrite app_nil_r in Ej. unfold bs in Ej. rewrite <- app_assoc in Ej. cbn [app] in Ej.
  pose proof (used_other _ _ _ _ Hj) as Hnj.
  destruct (split_unique b l1 (l2 ++ fit_used sz nb :: fit_rest sz nb) j1 j2 (eq_sym Ej) Hnj) as [<- <-].
  destruct Ht as [Hn Hp]. split; [|exact Hp]. intros x t. destruct l2 as [|n' l2']; cbn [app].
  - intros [= <- _]. destruct (fit_used_facts sz nb (conj Hpos Hmod)) as (Hfu & _); [lia|congruence].
  - intros [= <- _]. by eapply Hn.
Qed.

Lemma krealloc_spec (fuel : nat) (size : Z) s (l1 l2 : list blk) (b : blk)
    (Hinv : kheap_inv s (l1 ++ b :: l2)) (Hused : b_free b = false)
    (Hsize : 0 < size ≤ 18446744073709539328) (Hfuel : (length (l1 ++ b :: l2) + 3 ≤ fuel)%nat) :
  match krealloc fuel (b_data b) size s with
  | Ok (ptr, s') =>
      (size ≤ b_size b ∧ ptr = b_data b ∧ s' = s) ∨
      b_size b < size ∧
      ((ptr = 0 ∧ (first_fit (ALIGN_UP64 size 16 + 56) (l1 ++ b :: l2) = None ∧ past_limit (grow_need size) s) ∧
        kheap_inv s' (l1 ++ b :: l2) ∧ kh_mem s' = kh_mem s) ∨
       ∃ nb, ptr = b_data nb ∧ ptr ≠ 0 ∧ size ≤ b_size nb ∧ b_free nb = false ∧
         (∀ c, c ∈ used_blocks (l1 ++ b :: l2) → blk_disj nb c ∧ b_data c ≠ b_data nb) ∧
         (touching l1 b l2 → ∃ bs', moved b nb (used_blocks (l1 ++ l2)) s s' bs'))
  | Panic _ => b_size b < size ∧ first_fit (ALIGN_UP64 size 16 + 56) (l1 ++ b :: l2) = None ∧
      no_run (pages_for (grow_need size)) (kh_pages s)
  | _ => False
  end.
Proof.
  unfold krealloc. assert (b ∈ l1 ++ b :: l2) as Hin by (apply elem_middle; by left).
  destruct (listed_block _ _ b Hinv Hin) as (Hh & Hnz & Hsz & _).
  destruct (Z.eqb_spec (b_data b) 0); [done|]. destruct (Z.eqb_spec size 0); [lia|]. rewrite Hh, Hsz.
  destruct (Z.leb_spec size (b_size b)) as [|Hlt]; [by left|].
  pose proof (kmalloc_spec fuel size s _ Hinv Hsize Hfuel) as Hk.
  pose proof (kmalloc_touching fuel size s l1 b l2) as Htk.
  destruct (kmalloc fuel size s) as [[p s1]|msg|why|]; cbn [mbind outcome_bind]; [|by split|done..]. cbn [mbind outcome_bind].
  destruct Hk as [(-> & Hno & Hm & Hi & _)|(nb & -> & Hal & _)]; [right; split; [lia|left; exact (conj eq_refl (conj Hno (conj Hi Hm)))]|].
  destruct (allocated_grows _ _ _ _ _ _ Hal) as (_ & _ & _ & _ & _ & Hfresh).
  destruct Hal as [(k1 & k2 & Hi1 & Hu & _ & _) Hnb Hle Hkept].
  destruct (listed_block _ _ nb Hi1 ltac:(apply elem_middle; by left)) as (_ & Hnz' & _).
  destruct (Z.eqb_spec (b_data nb) 0); [done|]. right. split; [lia|]. right.
  assert (b ∈ used_blocks (k1 ++ k2)) as [Hbk _]%used_in by (rewrite Hu, used_middle; by left).
  destruct (listed_block _ _ b Hi1 ltac:(apply elem_middle; by right)) as (_ & _ & Hsz1 & _).
  replace (with_mem (fun m => memcpy (b_data nb) (b_data b) (hdr_size m (b_addr b)) m) s1)
    with (with_mem (fun m => memcpy (b_data nb) (b_data b) (b_size b) m) s1)
    by (unfold with_mem; by rewrite Hsz1).
  destruct (free_moved s s1 k1 nb k2 l1 b l2 Hinv Hused Hi1 Hnb Hu ltac:(lia) Hkept) as (j1 & j2 & Hi2 & Hi1' & Hmv).
  exists nb. split_and!; [done..|]. intros Htouch. exists (freed_list j1 b j2). apply Hmv. by eapply Htk.
Qed.

(** (C21) [krealloc] of a block in use to a size that does not wrap, with every outcome.
    A block that is large enough is returned as it is.  Otherwise, when no free block
    fits and the heap cannot grow: a panic if the page allocator has no run of pages,
    NULL if the heap would pass its limit, and then the block is kept and memory is
    unchanged.  Otherwise a new block that is large enough and apart from all blocks in
    use is returned; and if the free neighbours of the old block in the list touch it in
    memory, the new block starts with the bytes of the old one, all other blocks in use
    keep their place and their bytes, and the old one is freed (if they do not touch,
    [kfree] merges across the gap, see [kfree_merges_across_gap]). *)
Theorem krealloc_correct (fuel : nat) (size : Z) s (l1 l2 : list blk) (b : blk)
    (Hinv : kheap_inv s (l1 ++ b :: l2)) (Hused : b_free b = false)
    (Hsize : 0 < size ≤ 18446744073709539328) (Hfuel : (length (l1 ++ b :: l2) + 3 ≤ fuel)%nat) :
  match krealloc fuel (b_data b) size s with
  | Ok (ptr, s') =>
      (size ≤ b_size b ∧ ptr = b_data b ∧ s' = s) ∨
      b_size b < size ∧
      ((ptr = 0 ∧ (first_fit (ALIGN_UP64 size 16 + 56) (l1 ++ b :: l2) = None ∧ past_limit (grow_need size) s) ∧
        kheap_inv s' (l1 ++ b :: l2) ∧ kh_mem s' = kh_mem s) ∨
       ∃ nb, ptr = b_data nb ∧ ptr ≠ 0 ∧ size ≤ b_size nb ∧ b_free nb = false ∧
         (∀ c, c ∈ used_blocks (l1 ++ b :: l2) → blk_disj nb c ∧ b_data c ≠ b_data nb) ∧
         (touching l1 b l2 → ∃ bs', moved b nb (used_blocks (l1 ++ l2)) s s' bs'))
  | Panic _ => b_size b < size ∧ first_fit (ALIGN_UP64 size 16 + 56) (l1 ++ b :: l2) = None ∧
      no_run (pages_for (grow_need size)) (kh_pages s)
  | _ => False
  end.
Proof. by apply krealloc_spec. Qed.

(** (Property) [kmalloc_aligned] with a power of two: NULL, or an aligned address such
    that the bytes wanted from it and the 8 bytes before it, which hold the address
    of the block, lie inside one new block in use; all other blocks in use keep their
    bytes. *)
Theorem kmalloc_aligned_correct (fuel : nat) (size k : Z) s (bs : list blk)
    (Hinv : kheap_inv s bs) (Hk : 0 ≤ k < 32) (Hsize : 0 < size) (Hmax : size + 2 ^ k + 8 ≤ 18446744073709539328)
    (Hfuel : (length bs + 3 ≤ fuel)%nat) :
  match kmalloc_aligned fuel size (2 ^ k) s with
  | Ok (ptr, s') =>
      (ptr = 0 ∧ kheap_inv s' bs) ∨
      ptr mod 2 ^ k = 0 ∧ ∃ b l1 l2, kheap_inv s' (l1 ++ b :: l2) ∧ b_free b = false ∧
        used_blocks (l1 ++ l2) = used_blocks bs ∧
        b_data b + 8 ≤ ptr ∧ ptr + size ≤ b_data b + b_size b ∧ load64 (kh_mem s') (ptr - 8) = b_data b ∧
        ∀ c, c ∈ used_blocks bs → payload_kept (kh_mem s) (kh_mem s') c
  | Panic _ => True
  | _ => False
  end.
Proof.
  assert (0 < 2 ^ k) as Hp by (apply Z.pow_pos_nonneg; lia). assert (2 ^ k ≤ 2 ^ 31) as Hp' by (apply Z.pow_le_mono_r; lia).
  change (2 ^ 31) with 2147483648 in Hp'.
  unfold kmalloc_aligned. rewrite (wrap64_small (size + 2 ^ k)), (wrap64_small (size + 2 ^ k + 8)) by lia.
  pose proof (kmalloc_spec fuel (size + 2 ^ k + 8) s bs Hinv ltac:(lia) Hfuel) as Hm.
  destruct (kmalloc fuel _ s) as [[raw s1]|msg|why|]; [|done..]. cbn [mbind outcome_bind].
  destruct Hm as [(-> & _ & _ & Hi & _)|(b & -> & Hal & _)]; [by left|].
  destruct Hal as [(l1 & l2 & Hi & Hu & _ & _) Hb Hs Hkept].
  destruct (listed_block _ _ b Hi ltac:(apply elem_middle; by left)) as (_ & Hnz & _ & [Ha _ Hs0 He]).
  destruct (Z.eqb_spec (b_data b) 0); [done|]. right.
  assert (b_data b = b_addr b + 40 ∧ b_end b = b_addr b + 56 + b_size b) as [Ed Ee] by done.
  rewrite (wrap64_small (b_data b + 8)), align_up64_div by lia.
  set (r := wrap64 _ / _ * _). assert (r mod 2 ^ k = 0) as Hmod by (apply Z.mod_mul; lia).
  assert (b_data b + 8 ≤ r < b_data b + 8 + 2 ^ k) as Hr.
  { unfold r. rewrite wrap64_small by lia. set (y := b_data b + 8 + 2 ^ k - 1).
    pose proof (Z.mul_div_le y (2 ^ k) ltac:(lia)). pose proof (Z.mul_succ_div_gt y (2 ^ k) ltac:(lia)). unfold y in *. lia. }
  rewrite wrap64_small by lia. split; [exact Hmod|]. exists b, l1, l2.
  destruct (payload_write_inv s1 (store64 (kh_mem s1) (r - 8) (b_data b)) l1 b l2 Hi) as [Hi' Hk'].
  { apply store64_bytes, Hi. }
  { intros x Hx. apply store64_other. lia. }
  split_and!; [exact Hi'|done|done|lia|lia| |].
  - cbn [with_mem kh_mem]. rewrite load64_store64_same. apply wrap64_small. lia.
  - intros c Hc. eapply payload_kept_trans; [by apply Hkept|]. apply Hk'. rewrite <- Hu in Hc. by apply used_in.
Qed.
End Resize.

Lemma sample_touching : touching [] (mk_blk 1048576 64 false) [mk_blk 1048696 3920 true].
Proof. split; [by intros n t [= <- _]|discriminate]. Qed.

(** The 64-byte block of the sample heap grows to 128 bytes and moves. *)
Lemma krealloc_correct_witness :
  ∃ s', krealloc 5 1048616 128 sample_heap = Ok (1048736, s') ∧
    ∃ nb bs', 1048736 = b_data nb ∧ 128 ≤ b_size nb ∧ moved (mk_blk 1048576 64 false) nb [] sample_heap s' bs'.
Proof.
  assert (fst <$> krealloc 5 1048616 128 sample_heap = Ok 1048736) as E by (vm_compute; reflexivity).
  destruct (fst_ok _ _ E) as [s' E']. exists s'. split; [exact E'|].
  pose proof (krealloc_correct 5 128 sample_heap [] [mk_blk 1048696 3920 true] (mk_blk 1048576 64 false)
    sample_heap_inv eq_refl ltac:(lia) ltac:(cbn; lia)) as H.
  change (b_data (mk_blk 1048576 64 false)) with 1048616 in H. rewrite E' in H.
  destruct H as [(Hle & _)|(_ & [(Hz & _)|(nb & H1 & _ & H2 & _ & _ & H3)])].
  - cbn in Hle. lia.
  - discriminate Hz.
  - destruct (H3 sample_touching) as [bs' H4]. exists nb, bs'. exact (conj H1 (conj H2 H4)).
Defined.
