(* ===== verification/HeapRuns.v ===== *)
(** * The heap over whole runs

    A heap that has reached its limit is an arena: its blocks lie one behind the other
    and no two free blocks meet.  [kmalloc] and [kfree] keep it so.  Over every run of
    a client that allocates, frees, reads and writes, the heap behaves like a map from
    pointers to contents ([ledger]), and when everything is freed it is one block
    again. *)
From S2P Require Import Prelude Mem LibString PageAlloc Pmm Kheap KheapInv KheapSpec KmallocSpec KreallocSpec.

(** ** Arenas as lists of blocks *)

(** [bs] covers [lo, hi) without gaps, in order. *)
Fixpoint tiles (lo : Z) (bs : list blk) (hi : Z) : Prop :=
  match bs with [] => lo = hi | b :: bs' => b_addr b = lo ∧ tiles (b_end b) bs' hi end.

(** No free block follows a free block; [prev] is whether the block before is free. *)
Fixpoint separated (prev : bool) (bs : list blk) : Prop :=
  match bs with [] => True | b :: bs' => prev && b_free b = false ∧ separated (b_free b) bs' end.

Definition last_free (prev : bool) (bs : list blk) : bool := from_option b_free prev (last bs).

Lemma tiles_app lo l1 l2 hi : tiles lo (l1 ++ l2) hi ↔ ∃ mid, tiles lo l1 mid ∧ tiles mid l2 hi.
Proof.
  revert lo. induction l1 as [|b l1 IH]; intros lo; cbn [app tiles].
  - split; [by exists lo|]. by intros (mid & -> & H).
  - rewrite IH. split; [intros (Ha & mid & H1 & H2)|intros (mid & [Ha H1] & H2)]; [by exists mid|].
    split; [done|by exists mid].
Qed.

Lemma separated_app prev l1 l2 :
  separated prev (l1 ++ l2) ↔ separated prev l1 ∧ separated (last_free prev l1) l2.
Proof.
  revert prev. induction l1 as [|b l1 IH]; intros prev; cbn [app separated]; [tauto|].
  rewrite IH. assert (last_free prev (b :: l1) = last_free (b_free b) l1) as ->; [|tauto].
  unfold last_free. destruct l1 as [|c l1]; [done|]. rewrite last_cons_cons.
  destruct (last (c :: l1)) eqn:E; [done|by apply last_None in E].
Qed.

Lemma last_free_snoc prev l b : last_free prev (l ++ [b]) = b_free b.
Proof. unfold last_free. by rewrite last_snoc. Qed.

(** Free blocks only: there is at most one. *)
Lemma separated_free prev bs : separated prev bs → used_blocks bs = [] → bs = [] ∨ ∃ b, bs = [b] ∧ b_free b = true.
Proof.
  unfold used_blocks. destruct bs as [|b [|c bs]]; [by left| |]; rewrite ?filter_cons; cbn [separated]; intros Hs Hu.
  - right. exists b. split; [done|]. by destruct (b_free b).
  - destruct Hs as (_ & Hbc & _). exfalso. destruct (b_free b); [|done]. destruct (b_free c); done.
Qed.

(** The blocks of an arena are few. *)
Lemma tiles_length lo bs hi : Forall blk_ok bs → tiles lo bs hi → 56 * Z.of_nat (length bs) ≤ hi - lo.
Proof.
  intros Hok. revert lo. induction Hok as [|b bs [_ _ Hs _] _ IH]; intros lo; cbn [tiles length]; [lia|].
  intros [Ha Ht]. specialize (IH _ Ht). unfold b_end in IH. lia.
Qed.

(** ** Freeing *)

Lemma tiles_touching lo l1 b l2 hi : tiles lo (l1 ++ b :: l2) hi → touching l1 b l2.
Proof.
  intros (mid & H1 & Hb & H2)%tiles_app. split.
  - intros n t -> _. by destruct H2.
  - intros p r Hr _. assert (l1 = rev r ++ [p]) as -> by (rewrite <- (rev_involutive l1), Hr; done).
    apply tiles_app in H1 as (m & _ & _ & H1). cbn [tiles] in H1. congruence.
Qed.

Lemma freed_right_arena b l2 x t :
  freed_right b l2 = (x, t) → touching [] b l2 → b_free b = false → separated false (b :: l2) →
  b_addr x = b_addr b ∧ b_free x = true ∧ separated true t ∧ ∀ hi, tiles (b_end b) l2 hi → tiles (b_end x) t hi.
Proof.
  unfold freed_right. intros E [Hn _] Hb (_ & Hs). rewrite Hb in Hs.
  destruct l2 as [|n l2]; [by injection E as <- <-|]. destruct (b_free n) eqn:Hf; injection E as <- <-.
  - destruct Hs as [_ Hs]. rewrite Hf in Hs. split_and!; [done|done|done|]. intros hi [Ha Ht].
    assert (b_end (join b n) = b_end n) as ->; [|exact Ht].
    specialize (Hn n l2 eq_refl Hf). unfold b_end in *. cbn [join b_addr b_size]. lia.
  - destruct Hs as [_ Hs]. split_and!; [done|done| |done]. cbn [separated]. rewrite Hf in *. by split.
Qed.

Lemma freed_list_arena lo l1 b l2 hi :
  tiles lo (l1 ++ b :: l2) hi → separated false (l1 ++ b :: l2) → b_free b = false →
  tiles lo (freed_list l1 b l2) hi ∧ separated false (freed_list l1 b l2).
Proof.
  intros Ht Hs Hb. pose proof (tiles_touching _ _ _ _ _ Ht) as [Hn Hp].
  apply tiles_app in Ht as (mid & Ht1 & Hba & Ht2). apply separated_app in Hs as [Hs1 Hs2].
  unfold freed_list. destruct (freed_right b l2) as [x t] eqn:E.
  destruct (freed_right_arena b l2 x t E) as (Hxa & Hxf & Hst & Htt); [split; [exact Hn|done]|done| |].
  { cbn [separated] in *. destruct Hs2 as [_ Hs2]. by rewrite Hb in *. }
  specialize (Htt hi Ht2). destruct l1 as [|p r _] using rev_ind; cbn [rev].
  { cbn [tiles separated] in *. rewrite Hxf. split; [|done]. split; [congruence|exact Htt]. }
  rewrite rev_app_distr in *. cbn [rev app] in *. rewrite rev_involutive in *. specialize (Hp p (rev r) eq_refl).
  apply tiles_app in Ht1 as (mid' & Ht1 & Hpa & Hpe). cbn [tiles] in Hpe. apply separated_app in Hs1 as [Hs1 [Hpf _]].
  destruct (b_free p) eqn:Hf.
  - rewrite tiles_app, separated_app. cbn [tiles separated join b_addr b_free].
    split; [exists mid'; split_and!; [done|done|]|done].
    assert (b_end (join p x) = b_end x) as ->; [|exact Htt].
    specialize (Hp eq_refl). unfold b_end in *. cbn [join b_addr b_size]. lia.
  - rewrite <- app_assoc, tiles_app, separated_app. cbn [app tiles separated]. rewrite Hf, Hxf, andb_false_r. cbn [andb].
    split; [|done]. exists mid'. split; [done|]. split; [done|]. split; [congruence|exact Htt].
Qed.

(** ** Allocating *)

Lemma fit_arena sz c lo l1 l2 hi :
  good_size sz → blk_ok c → b_free c = true →
  tiles lo (l1 ++ c :: l2) hi → separated false (l1 ++ c :: l2) →
  let bs := l1 ++ fit_used sz c :: fit_rest sz c ++ l2 in tiles lo bs hi ∧ separated false bs.
Proof.
  intros Hsz Hc Hf (mid & H1 & Ha & H2)%tiles_app [Hs1 [Hcf Hs2]]%separated_app bs. rewrite Hf in Hcf, Hs2.
  rewrite andb_true_r in Hcf. unfold bs, fit_used, fit_rest. rewrite tiles_app, separated_app.
  destruct (Z.leb_spec (sz + 88) (b_size c)) as [Hle|_]; cbn [app tiles separated head_part tail_part set_free b_addr b_free];
    rewrite ?Hcf, ?andb_false_r.
  - destruct (parts_ok sz c Hsz Hc Hle) as (_ & _ & E1 & E2). split; [exists mid|by split_and!]. split_and!; [done|done|done|].
    by rewrite E2.
  - split; [exists mid; by split_and!|]. split_and!; [done|done|]. destruct l2 as [|n l2]; [done|]. cbn [separated] in *.
    tauto.
Qed.

(** What each live pointer points to. *)
Abbreviation ledger := (gmap Z (list Z)).

Section Runs.
Context {A : Type} `{PageAllocSpec A}.
Implicit Types s : kheap A.

(** ** A heap at its limit *)

(** [heap_expand] cannot succeed any more. *)
Definition sealed s : Prop := 0 ≤ heap_end s < 4611686018427387904 ∧ heap_max s < heap_end s + 4096.

Record arena s (bs : list blk) (lo hi : Z) : Prop := mk_arena {
  ar_inv : kheap_inv s bs;
  ar_tiles : tiles lo bs hi;
  ar_apart : separated false bs;
  ar_sealed : sealed s;
}.

Lemma heap_expand_sealed fuel need s :
  sealed s → 0 < need ≤ 8589934592 →
  match heap_expand fuel need s with Ok (r, s') => r = -1 ∧ ∃ a', s' = with_pages a' s | Undef _ | Diverge => True | Panic _ => True end.
Proof.
  intros [He Hm] Hn. unfold heap_expand. rewrite align_up64_page, (wrap64_small (need + 4095)) by lia.
  change PAGE_SIZE with 4096. rewrite Z.div_mul by lia. set (n := (need + 4095) / 4096).
  assert (1 ≤ n ≤ 2097153) as Hnn by (unfold n; Z.div_mod_to_equations; lia).
  destruct (alloc_pages n (kh_pages s)) as [[phys a']| | |]; try done. cbn [mbind outcome_bind with_pages heap_max heap_end].
  rewrite (wrap64_small (n * 4096)), wrap64_small by lia.
  destruct (Z.ltb_spec (heap_max s) (heap_end s + n * 4096)); [|lia]. by split; [|exists a'].
Qed.

(** [kmalloc] then changes only memory or only the page allocator. *)
Lemma kmalloc_sealed fuel size s p s' :
  sealed s → 0 < size ≤ 4294967296 → kmalloc fuel size s = Ok (p, s') →
  sealed s' ∧ (p = 0 ∨ ∃ cur, find_fit fuel (kh_mem s) (ALIGN_UP64 size 16) (heap_head s) = Ok (Some cur)).
Proof.
  intros Hsl Hs. destruct fuel as [|fuel]; [done|]. cbn [kmalloc]. destruct (Z.eqb_spec size 0); [lia|].
  assert (ALIGN_UP64 size 16 ≤ size + 15 ∧ 0 < ALIGN_UP64 size 16) as [Hup Hpos].
  { rewrite !align_up64_16, (wrap64_small (size + 15)) by lia.
    Z.div_mod_to_equations; lia. }
  destruct (find_fit _ _ _ _) as [[cur|]| | |]; try done; cbn [mbind outcome_bind].
  { intros [= _ <-]. split; [done|]. right. by exists cur. }
  unfold OVERHEAD, HEADER_SIZE, FOOTER_SIZE, PAGE_SIZE. rewrite (wrap64_small (ALIGN_UP64 size 16 + _)) by lia.
  rewrite wrap64_small by lia.
  pose proof (heap_expand_sealed (S fuel) (ALIGN_UP64 size 16 + (40 + 16) + 4096) s Hsl ltac:(lia)) as He.
  destruct (heap_expand _ _ s) as [[r s1]| | |]; try done. destruct He as (-> & a' & ->). cbn [mbind outcome_bind].
  rewrite (proj2 (Z.eqb_neq (-1) 0)) by lia. intros [= <- <-]. split; [exact Hsl|]. by left.
Qed.

(** ** The two operations *)

Lemma arena_kmalloc fuel size s bs lo hi :
  arena s bs lo hi → 0 < size ≤ 4294967296 → (length bs + 3 ≤ fuel)%nat →
  match kmalloc fuel size s with
  | Ok (p, s') => ∃ bs', arena s' bs' lo hi ∧
      (∀ c, c ∈ used_blocks bs → payload_kept (kh_mem s) (kh_mem s') c) ∧
      (p = 0 ∧ first_fit (ALIGN_UP64 size 16 + 56) bs = None ∧ bs' = bs ∨
       p ≠ 0 ∧ ∃ b, p = b_data b ∧ size ≤ b_size b ∧ (∀ c, c ∈ used_blocks bs' ↔ c = b ∨ c ∈ used_blocks bs) ∧
         b ∉ used_blocks bs)
  | Panic _ => first_fit (ALIGN_UP64 size 16 + 56) bs = None
  | _ => False
  end.
Proof.
  intros [Hi Ht Hs Hsl] Hsize Hfuel. pose proof (kmalloc_spec fuel size s bs Hi ltac:(lia) Hfuel) as Hk.
  destruct (kmalloc fuel size s) as [[p s']| | |] eqn:E; try done; [|exact (proj1 Hk)].
  destruct (kmalloc_sealed fuel size s p s' Hsl Hsize E) as [Hsl' _].
  destruct (first_fit (ALIGN_UP64 size 16 + 56) bs) as [c|] eqn:Hfit.
  - destruct (kmalloc_fit fuel size s bs c Hi ltac:(lia) ltac:(lia) Hfit) as (s2 & b & E2 & Hal & Hbc & _ & l1 & l2 & -> & Hcf & Hi').
    rewrite E in E2. injection E2 as -> <-. destruct (round16 size ltac:(lia)) as (Hgood & Hle & _).
    pose proof (hl_ok _ _ (ki_list _ _ Hi)) as [Hc _]%Forall_middle.
    destruct (first_fit_split _ _ _ Hfit) as (k1 & k2 & _ & _ & Hneed & _).
    destruct (fit_used_facts (ALIGN_UP64 size 16) c Hgood ltac:(lia)) as (Hu1 & Hu2 & Hu3 & Hu4).
    set (u := fit_used (ALIGN_UP64 size 16) c) in *. set (rest := fit_rest (ALIGN_UP64 size 16) c) in *.
    destruct (fit_arena _ c lo l1 l2 hi Hgood Hc Hcf Ht Hs) as [Ht' Hs']. fold u rest in Ht', Hs'.
    exists (l1 ++ u :: rest ++ l2). split; [by split|]. split; [apply Hal|]. right.
    assert (b_data b = b_data u) as -> by (rewrite Hu2; unfold b_data; by rewrite Hbc).
    pose proof (hl_ok _ _ (ki_list _ _ Hi')) as [Hu _]%Forall_middle.
    split; [by apply heap_list_payload_ptr|]. exists u. split; [done|]. split; [lia|].
    assert (∀ d, d ∈ used_blocks (l1 ++ u :: rest ++ l2) ↔ d = u ∨ d ∈ used_blocks (l1 ++ c :: l2)) as Hmem.
    { intros d. rewrite !used_middle, Hcf. unfold used_blocks in *. rewrite !filter_app, Hu4. cbn [app].
      split; [intros [[_ ?]|?]|intros [?|[[? _]|?]]]; auto. done. }
    split; [exact Hmem|]. rewrite used_middle, Hcf. intros [[? _]|Hin]; [done|].
    destruct (used_in _ _ Hin) as [Hin' _].
    destruct (other_block s l1 c l2 u Hi Hin') as [_ Hd]. destruct Hu, Hc. unfold blk_disj, b_end, b_data in *. lia.
  - destruct Hk as [(-> & _ & Em & Hi' & _)|(b & -> & Hal & _)].
    + exists bs. split; [by split|]. split; [|by left]. intros c _ x _. by rewrite Em.
    + exfalso. destruct (kmalloc_sealed fuel size s _ s' Hsl Hsize E) as [_ [Hz|(cur & Hcur)]].
      * destruct Hal as [(l1 & l2 & Hi' & _) _ _ _]. pose proof (hl_ok _ _ (ki_list _ _ Hi')) as [Hb _]%Forall_middle.
        by destruct (heap_list_payload_ptr b Hb).
      * rewrite (ki_head _ _ Hi), (find_fit_spec _ _ _ 0 bs) in Hcur by (apply Hi || lia).
        destruct (round16 size ltac:(lia)) as (_ & Hle & _). unfold OVERHEAD, HEADER_SIZE, FOOTER_SIZE in Hcur.
        rewrite wrap64_small in Hcur by lia. change (40 + 16) with 56 in Hcur. by rewrite Hfit in Hcur.
Qed.

Lemma arena_kfree s bs lo hi b :
  arena s bs lo hi → b ∈ used_blocks bs →
  let s' := kfree (b_data b) s in
  ∃ bs', arena s' bs' lo hi ∧ (∀ c, c ∈ used_blocks bs' ↔ c ≠ b ∧ c ∈ used_blocks bs) ∧
    ∀ c, c ∈ used_blocks bs' → payload_kept (kh_mem s) (kh_mem s') c.
Proof.
  intros [Hi Ht Hs Hsl] Hb s'. destruct (used_in _ _ Hb) as [(l1 & l2 & ->)%list_elem_of_split Hbf].
  pose proof (tiles_touching _ _ _ _ _ Ht) as Htouch.
  destruct (kfree_spec s l1 l2 b Hi Hbf Htouch) as (Hi' & Hu & Hk).
  destruct (freed_list_arena _ _ _ _ _ Ht Hs Hbf) as [Ht' Hs'].
  exists (freed_list l1 b l2). split; [split; try done|].
  { unfold s', kfree. destruct (_ =? 0); [done|]. by destruct (negb _). }
  rewrite Hu. split; [|exact Hk]. intros c. rewrite used_middle. split; [|tauto]. intros Hc. split; [|by right].
  apply used_in in Hc as [Hc _]. by apply (other_block s l1 b l2 c Hi).
Qed.

(** ** The client's view *)

Inductive heap_op : Type := Alloc (n : Z) | Release (p : Z) | Put (p i v : Z) | Get (p i : Z).

Definition heap_step (fuel : nat) (op : heap_op) s : outcome (Z * kheap A) :=
  match op with
  | Alloc n => kmalloc fuel n s
  | Release p => Ok (0, kfree p s)
  | Put p i v => Ok (0, with_mem (fun m => store8 m (p + i) v) s)
  | Get p i => Ok (load8 (kh_mem s) (p + i), s)
  end.

(** What a client may do: sizes are positive, pointers live, indices in bounds. *)
Definition allowed (op : heap_op) (L : ledger) : Prop :=
  match op with
  | Alloc n => 0 < n ≤ 4294967296
  | Release p => is_Some (L !! p)
  | Put p i v => (∃ d, L !! p = Some d ∧ 0 ≤ i < Z.of_nat (length d)) ∧ 0 ≤ v < 256
  | Get p i => ∃ d, L !! p = Some d ∧ 0 ≤ i < Z.of_nat (length d)
  end.

(** What it is told: NULL or a new pointer; the byte last put there. *)
Definition answers (op : heap_op) (r : Z) (L : ledger) : Prop :=
  match op with
  | Alloc _ => r = 0 ∨ L !! r = None
  | Get p i => ∃ d, L !! p = Some d ∧ d !! Z.to_nat i = Some r
  | _ => r = 0
  end.

(** The new contents; a new buffer holds what was in memory. *)
Definition ledger_after (op : heap_op) (r : Z) s' (L : ledger) : ledger :=
  match op with
  | Alloc n => if r =? 0 then L else <[r := bytes_at (kh_mem s') r (Z.to_nat n)]> L
  | Release p => delete p L
  | Put p i v => alter <[Z.to_nat i := v]> p L
  | Get _ _ => L
  end.

(** A run of a client. *)
Inductive heap_runs (fuel : nat) : kheap A → ledger → kheap A → ledger → Prop :=
  | runs_nil s L : heap_runs fuel s L s L
  | runs_step op r s1 s2 s3 L1 L3 :
      allowed op L1 → heap_step fuel op s1 = Ok (r, s2) → heap_runs fuel s2 (ledger_after op r s2 L1) s3 L3 →
      heap_runs fuel s1 L1 s3 L3.

(** Every live pointer is the payload of a block in use that holds its contents, and
    every block in use belongs to one. *)
Record holds_ledger s (bs : list blk) (L : ledger) : Prop := mk_holds_ledger {
  hl_live : ∀ p d, L !! p = Some d → ∃ b, b ∈ used_blocks bs ∧ b_data b = p ∧
    Z.of_nat (length d) ≤ b_size b ∧ bytes_at (kh_mem s) p (length d) = d;
  hl_known : ∀ b, b ∈ used_blocks bs → is_Some (L !! b_data b);
}.

Lemma bytes_at_kept m m' b n :
  payload_kept m m' b → Z.of_nat n ≤ b_size b → bytes_at m' (b_data b) n = bytes_at m (b_data b) n.
Proof. intros Hk Hn. apply bytes_at_ext. intros x Hx. apply Hk. lia. Qed.

Lemma bytes_at_lookup m a n i : (i < n)%nat → bytes_at m a n !! i = Some (m (a + Z.of_nat i)).
Proof. intros Hi. unfold bytes_at. by rewrite list_lookup_fmap, lookup_seq_lt. Qed.

Lemma bytes_at_store m a n i v :
  (i < n)%nat → 0 ≤ v < 256 → bytes_at (store8 m (a + Z.of_nat i) v) a n = <[i := v]> (bytes_at m a n).
Proof.
  intros Hi Hv. apply list_eq. intros j. destruct (decide (j < n)%nat) as [Hj|Hj].
  2: { rewrite !lookup_ge_None_2; rewrite ?length_insert, ?bytes_at_length; (done || lia). }
  rewrite bytes_at_lookup by done. unfold store8. destruct (decide (i = j)) as [->|Hne].
  - rewrite list_lookup_insert_eq by (rewrite bytes_at_length; lia). rewrite Z.eqb_refl. f_equal. unfold wrap8. by rewrite Z.mod_small by lia.
  - rewrite list_lookup_insert_ne, bytes_at_lookup by done. by destruct (Z.eqb_spec (a + Z.of_nat j) (a + Z.of_nat i)); [lia|].
Qed.

(** Different live pointers have disjoint buffers. *)
Lemma ledger_disjoint s bs L p q d e :
  kheap_inv s bs → holds_ledger s bs L → L !! p = Some d → L !! q = Some e → p ≠ q →
  p + Z.of_nat (length d) ≤ q ∨ q + Z.of_nat (length e) ≤ p.
Proof.
  intros Hi HL Hp Hq Hne. destruct (hl_live _ _ _ HL p d Hp) as (b & Hb & <- & Hd & _).
  destruct (hl_live _ _ _ HL q e Hq) as (c & Hc & <- & He & _).
  pose proof (used_disj s bs b c Hi Hb Hc Hne) as Hdj.
  destruct (used_in _ _ Hb) as [Hb' _], (used_in _ _ Hc) as [Hc' _].
  destruct (listed_block _ _ _ Hi Hb') as (_ & _ & _ & []), (listed_block _ _ _ Hi Hc') as (_ & _ & _ & []).
  unfold blk_disj, b_data, b_end in *. lia.
Qed.

(** ** One step *)

Definition step_ok (op : heap_op) (L : ledger) s lo hi (o : outcome (Z * kheap A)) : Prop :=
  match o with
  | Ok (r, s') => answers op r L ∧ ∃ bs', arena s' bs' lo hi ∧ holds_ledger s' bs' (ledger_after op r s' L)
  | Panic _ => ∃ n, op = Alloc n
  | _ => False
  end.

Lemma alloc_ok fuel n s bs lo hi L :
  arena s bs lo hi → holds_ledger s bs L → 0 < n ≤ 4294967296 → (length bs + 3 ≤ fuel)%nat →
  step_ok (Alloc n) L s lo hi (kmalloc fuel n s).
Proof.
  intros Ha HL Hn Hf. pose proof (arena_kmalloc fuel n s bs lo hi Ha Hn Hf) as Hk. unfold step_ok.
  destruct (kmalloc fuel n s) as [[p s']| | |]; [|by eexists|done..].
  destruct Hk as (bs' & Ha' & Hkept & Hcase). cbn [answers ledger_after].
  assert (∀ q d, L !! q = Some d → ∃ b, b ∈ used_blocks bs ∧ b_data b = q ∧ Z.of_nat (length d) ≤ b_size b ∧
    bytes_at (kh_mem s') q (length d) = d) as Hold.
  { intros q d (b & Hb & <- & Hd & E)%(hl_live _ _ _ HL). exists b. split_and!; [done..|].
    by rewrite (bytes_at_kept _ _ _ _ (Hkept b Hb) Hd). }
  destruct Hcase as [(-> & _ & ->)|(Hnz & b & -> & Hsz & Hmem & Hnew)].
  { split; [by left|]. exists bs. split; [done|]. split; [exact Hold|apply HL]. }
  assert (L !! b_data b = None) as Hnone.
  { destruct (L !! b_data b) as [d|] eqn:Hd; [|done]. destruct (Hold _ _ Hd) as (c & Hc & Hcb & _). exfalso. apply Hnew.
    assert (c = b) as <-; [|done]. apply (used_by_data s' bs'); [apply Ha'|apply Hmem; auto..|done]. }
  split; [by right|]. exists bs'. split; [done|]. rewrite (proj2 (Z.eqb_neq _ _) Hnz). split.
  - intros q d [[<- <-]|[_ Hq]]%lookup_insert_Some.
    + exists b. rewrite bytes_at_length. split_and!; [apply Hmem; by left|done|lia|done].
    + destruct (Hold q d Hq) as (c & Hc & ?). exists c. split; [apply Hmem; by right|done].
  - intros c [->|Hc]%Hmem; [by rewrite lookup_insert_eq|]. rewrite lookup_insert_is_Some'. right. by apply HL.
Qed.

Lemma release_ok s bs lo hi L p :
  arena s bs lo hi → holds_ledger s bs L → is_Some (L !! p) →
  step_ok (Release p) L s lo hi (Ok (0, kfree p s)).
Proof.
  intros Ha HL [d Hd]. destruct (hl_live _ _ _ HL p d Hd) as (b & Hb & <- & _).
  destruct (arena_kfree s bs lo hi b Ha Hb) as (bs' & Ha' & Hmem & Hkept).
  split; [done|]. exists bs'. split; [done|]. cbn [ledger_after]. split.
  - intros q e [Hne Hq]%lookup_delete_Some. destruct (hl_live _ _ _ HL q e Hq) as (c & Hc & <- & He & E).
    assert (c ∈ used_blocks bs') as Hc' by (apply Hmem; split; [by intros ->|done]).
    exists c. split_and!; [done|done|done|]. by rewrite (bytes_at_kept _ _ _ _ (Hkept c Hc') He).
  - intros c Hc. pose proof Hc as [Hne Hcu]%Hmem. rewrite lookup_delete_ne; [by apply HL|].
    intros E. apply Hne. by apply (used_by_data s bs); [apply Ha| |done|].
Qed.

Lemma put_ok s bs lo hi L p i v d :
  arena s bs lo hi → holds_ledger s bs L → L !! p = Some d → 0 ≤ i < Z.of_nat (length d) → 0 ≤ v < 256 →
  step_ok (Put p i v) L s lo hi (Ok (0, with_mem (fun m => store8 m (p + i) v) s)).
Proof.
  intros [Hi Ht Hs Hsl] HL Hd Hin Hv. destruct (hl_live _ _ _ HL p d Hd) as (b & Hb & <- & Hsz & E).
  destruct (used_in _ _ Hb) as [Hbin _].
  assert (mem_bytes (store8 (kh_mem s) (b_data b + i) v)) as Hby by (apply store8_bytes, Hi).
  assert (mem_outside (kh_mem s) (store8 (kh_mem s) (b_data b + i) v) (b_data b) (b_data b + b_size b)) as Hout.
  { intros x Hx. unfold store8. by destruct (Z.eqb_spec x (b_data b + i)); [lia|]. }
  pose proof Hbin as (l1 & l2 & El)%list_elem_of_split. subst bs.
  destruct (payload_write_inv s _ l1 b l2 Hi Hby Hout) as [Hi' Hkept].
  split; [done|]. exists (l1 ++ b :: l2). split; [by split|]. cbn [ledger_after]. split.
  - intros q e Hq. destruct (decide (q = b_data b)) as [->|Hne].
    + rewrite lookup_alter_eq, Hd in Hq. injection Hq as <-. exists b. rewrite length_insert. split_and!; [done..|].
      cbn [with_mem kh_mem]. replace i with (Z.of_nat (Z.to_nat i)) at 1 by lia. rewrite bytes_at_store by lia. by rewrite E.
    + rewrite lookup_alter_ne in Hq by done. destruct (hl_live _ _ _ HL q e Hq) as (c & Hc & <- & He & E2).
      exists c. split_and!; [done..|]. rewrite (bytes_at_kept (kh_mem s) _ c); [done| |done]. apply Hkept.
      apply used_in in Hc as [[->|Hc]%elem_middle _]; done.
  - intros c Hc. rewrite lookup_alter_is_Some. by apply HL.
Qed.

Lemma heap_step_spec fuel op s bs lo hi L :
  arena s bs lo hi → holds_ledger s bs L → allowed op L → (length bs + 3 ≤ fuel)%nat →
  step_ok op L s lo hi (heap_step fuel op s).
Proof.
  intros Ha HL Hop Hf. destruct op as [n|p|p i v|p i]; cbn [heap_step allowed] in *.
  - by eapply alloc_ok.
  - by eapply release_ok.
  - destruct Hop as [(d & Hd & Hi) Hv]. by eapply put_ok.
  - destruct Hop as (d & Hd & Hi). split; [|by exists bs]. exists d. split; [done|].
    destruct (hl_live _ _ _ HL p d Hd) as (b & _ & _ & _ & E). rewrite <- E.
    rewrite bytes_at_lookup by lia. unfold load8. do 2 f_equal. lia.
Qed.

(** ** Whole runs *)

Definition fuel_for (lo hi : Z) : nat := Z.to_nat ((hi - lo) / 56) + 3.

Lemma arena_fuel s bs lo hi : arena s bs lo hi → (length bs + 3 ≤ fuel_for lo hi)%nat.
Proof.
  intros [Hi Ht _ _]. pose proof (tiles_length lo bs hi (hl_ok _ _ (ki_list _ _ Hi)) Ht). unfold fuel_for.
  Z.div_mod_to_equations; lia.
Qed.

Lemma heap_runs_keep fuel s L s' L' bs lo hi :
  heap_runs fuel s L s' L' → arena s bs lo hi → holds_ledger s bs L → (fuel_for lo hi ≤ fuel)%nat →
  ∃ bs', arena s' bs' lo hi ∧ holds_ledger s' bs' L'.
Proof.
  intros Hruns. revert bs. induction Hruns as [s L|op r s1 s2 s3 L1 L3 Hop E _ IH]; intros bs Ha HL Hf; [by exists bs|].
  pose proof (arena_fuel _ _ _ _ Ha) as Hf'.
  pose proof (heap_step_spec fuel op s1 bs lo hi L1 Ha HL Hop ltac:(lia)) as Hs. rewrite E in Hs.
  destruct Hs as (_ & bs2 & Ha2 & HL2). by apply (IH bs2).
Qed.

(** A heap initialised with at most 64 KiB is an arena from the start, with nothing live. *)
Lemma kheap_init_arena fuel start size s :
  mem_bytes (kh_mem s) → heap_head s = 0 → alloc_inv (kh_pages s) → used_page (kh_pages s) 0 = true →
  0 ≤ start < 1073741824 → 0 < size ≤ HEAP_MIN_SIZE →
  match kheap_init fuel start size s with
  | Ok (_, s') => ∃ nb, arena s' [nb] (b_addr nb) (b_end nb) ∧ holds_ledger s' [nb] ∅ ∧ size ≤ b_size nb + 56
  | Panic _ => True
  | _ => False
  end.
Proof.
  intros Hby Hhd Hpg Hnull Hstart Hsize.
  pose proof (kheap_init_spec fuel start size s Hby Hhd Hpg Hnull ltac:(lia)) as Hinit.
  destruct (kheap_init fuel start size s) as [[u s']| | |] eqn:E; try done.
  destruct Hinit as (nb & Hi & Hf & Hn & _). exists nb.
  assert (MIN HEAP_MIN_SIZE size = size) as Hm by (unfold MIN; zcases; lia). rewrite Hm in Hn.
  split; [|split; [|done]].
  - split; [done|done|done|]. unfold kheap_init in E. rewrite Hm in E. unfold HEAP_MIN_SIZE, PAGE_SIZE in Hsize.
    destruct (heap_expand fuel size _) as [[r s1]| | |] eqn:Ex; try done. cbn [mbind outcome_bind] in E.
    destruct (Z.eqb_spec r 0) as [->|]; [|done]. injection E as _ ->. unfold heap_expand in Ex.
    rewrite align_up64_page, (wrap64_small (size + 4095)) in Ex by lia.
    change PAGE_SIZE with 4096 in Ex. rewrite Z.div_mul in Ex by lia.
    set (n := (size + 4095) / 4096) in Ex.
    assert (size ≤ n * 4096 < size + 4096) as Hnn by (unfold n; Z.div_mod_to_equations; lia).
    destruct (alloc_pages n (kh_pages _)) as [[phys a']| | |]; try done.
    cbn [mbind outcome_bind with_pages heap_max heap_end heap_head] in Ex.
    rewrite (wrap64_small (n * 4096)), !wrap64_small in Ex by lia.
    destruct (Z.ltb_spec (start + size) (start + n * 4096)); [done|]. cbn [with_mem with_end heap_head] in Ex.
    rewrite Hhd in Ex. cbn [Z.eqb] in Ex. injection Ex as <-. unfold sealed. cbn. lia.
  - split; [intros p d Hp; by rewrite lookup_empty in Hp|]. intros b Hb. apply used_in in Hb as [Hb Hbf].
    apply list_elem_of_singleton in Hb as ->. congruence.
Qed.


End Runs.

(** ** A concrete run: the page of [sample_heap], closed at its size *)

(** The heap [s] with another limit. *)
Definition with_limit {A : Type} (limit : Z) (s : kheap A) : kheap A :=
  mk_kheap (kh_mem s) (kh_pages s) (heap_head s) (heap_base s) (heap_end s) limit.

Lemma with_limit_inv {A} `{PageAlloc A} limit (s : kheap A) bs : kheap_inv s bs → kheap_inv (with_limit limit s) bs.
Proof. by intros [H1 H2 H3 H4 H5 H6]. Qed.

Definition full_heap : kheap pmm := with_limit 1052672 sample_heap.

Definition full_ledger : ledger := {[1048616 := bytes_at (kh_mem sample_heap) 1048616 64]}.

Lemma full_heap_arena : arena full_heap sample_blocks 1048576 1052672.
Proof.
  split.
  - exact (with_limit_inv 1052672 sample_heap sample_blocks sample_heap_inv).
  - cbn [tiles sample_blocks b_addr b_size]. unfold b_end. cbn [b_addr b_size]. lia.
  - by cbn.
  - unfold sealed, full_heap, sample_heap. cbn [with_limit heap_end heap_max]. lia.
Qed.

Lemma full_heap_ledger : holds_ledger full_heap sample_blocks full_ledger.
Proof.
  split.
  - intros p d Hd. unfold full_ledger in Hd. apply lookup_singleton_Some in Hd as [<- <-]. exists (mk_blk 1048576 64 false). rewrite bytes_at_length.
    split; [by left|]. split; [reflexivity|]. split; [cbn; lia|reflexivity].
  - intros b Hb. apply list_elem_of_singleton in Hb as ->.
    exists (bytes_at (kh_mem sample_heap) 1048616 64). unfold full_ledger. apply lookup_singleton_eq.
Qed.

Example full_heap_allocates :
  match heap_step 80 (Alloc 100) full_heap with Ok (p, _) => p | _ => -1 end = 1048736.
Proof. vm_compute. reflexivity. Qed.


