(* ===== verification/CString.v ===== *)
(** * lib/string.c: NUL-terminated strings and number conversion

    Strings are bytes in memory up to a 0.  The loops that look for the 0 take
    fuel; [cstring m s l] says that the string at [s] is [l], and the theorems
    ask for more fuel than [length l].  A [char] is compared by its bits. *)
From S2P Require Import Prelude Mem LibString PageAlloc Kheap.

Fixpoint strlen_loop (fuel : nat) (m : mem) (s n : Z) : outcome Z :=
  match fuel with
  | O => Diverge
  | S fuel' => if load8 m s =? 0 then Ok n else strlen_loop fuel' m (s + 1) (n +₆₄ 1)
  end.
Definition strlen (fuel : nat) (s : Z) (m : mem) : outcome Z := strlen_loop fuel m s 0.

(** [while (n < max && s[n]) n++], with [k = max - n] iterations left. *)
Fixpoint strnlen_loop (k : nat) (m : mem) (s n : Z) : Z :=
  match k with
  | O => n
  | S k' => if load8 m (s + n) =? 0 then n else strnlen_loop k' m s (n + 1)
  end.
Definition strnlen (s max : Z) (m : mem) : Z := strnlen_loop (Z.to_nat max) m s 0.

(** The copy up to and including the 0, also the tail of [strcat]. *)
Fixpoint strcpy_loop (fuel : nat) (d s : Z) (m : mem) : outcome mem :=
  match fuel with
  | O => Diverge
  | S fuel' =>
      let c := load8 m s in
      let m := store8 m d c in
      if c =? 0 then Ok m else strcpy_loop fuel' (d + 1) (s + 1) m
  end.
Definition strcpy (fuel : nat) (dst src : Z) (m : mem) : outcome mem := strcpy_loop fuel dst src m.

(** The first loop of [strncpy], [k = n - i]; it returns the index it stops at. *)
Fixpoint strncpy_copy (k : nat) (dst src i : Z) (m : mem) : Z * mem :=
  match k with
  | O => (i, m)
  | S k' =>
      if load8 m (src + i) =? 0 then (i, m)
      else strncpy_copy k' dst src (i + 1) (store8 m (dst + i) (load8 m (src + i)))
  end.
Definition strncpy (dst src n : Z) (m : mem) : mem :=
  let '(i, m) := strncpy_copy (Z.to_nat n) dst src 0 m in
  c_for i n (fun i m => store8 m (dst + i) 0) m.

Definition strcat (fuel : nat) (dst src : Z) (m : mem) : outcome mem :=
  n ← strlen fuel dst m; strcpy_loop fuel (dst + n) src m.

Fixpoint strncat_loop (k : nat) (d s : Z) (m : mem) : mem :=
  match k with
  | O => store8 m d 0
  | S k' =>
      if load8 m s =? 0 then store8 m d 0
      else strncat_loop k' (d + 1) (s + 1) (store8 m d (load8 m s))
  end.
Definition strncat (fuel : nat) (dst src n : Z) (m : mem) : outcome mem :=
  len ← strlen fuel dst m; Ok (strncat_loop (Z.to_nat n) (dst + len) src m).

Fixpoint strcmp (fuel : nat) (a b : Z) (m : mem) : outcome Z :=
  match fuel with
  | O => Diverge
  | S fuel' =>
      if negb (load8 m a =? 0) && (load8 m a =? load8 m b)
      then strcmp fuel' (a + 1) (b + 1) m
      else Ok (load8 m a - load8 m b)
  end.

Fixpoint strncmp_loop (n : nat) (a b : Z) (m : mem) : Z :=
  match n with
  | O => 0
  | S n' =>
      if negb (load8 m a =? 0) && (load8 m a =? load8 m b)
      then strncmp_loop n' (a + 1) (b + 1) m
      else load8 m a - load8 m b
  end.
Definition strncmp (a b n : Z) (m : mem) : Z := strncmp_loop (Z.to_nat n) a b m.

Fixpoint strchr (fuel : nat) (s c : Z) (m : mem) : outcome Z :=
  match fuel with
  | O => Diverge
  | S fuel' =>
      if load8 m s =? 0 then Ok (if c =? 0 then s else 0)
      else if load8 m s =? wrap8 c then Ok s
      else strchr fuel' (s + 1) c m
  end.

Fixpoint strrchr_loop (fuel : nat) (s c last : Z) (m : mem) : outcome Z :=
  match fuel with
  | O => Diverge
  | S fuel' =>
      if load8 m s =? 0 then Ok (if c =? 0 then s else last)
      else strrchr_loop fuel' (s + 1) c (if load8 m s =? wrap8 c then s else last) m
  end.
Definition strrchr (fuel : nat) (s c : Z) (m : mem) : outcome Z := strrchr_loop fuel s c 0 m.

Fixpoint strstr_loop (fuel : nat) (h needle nlen : Z) (m : mem) : outcome Z :=
  match fuel with
  | O => Diverge
  | S fuel' =>
      if load8 m h =? 0 then Ok 0
      else if strncmp h needle nlen m =? 0 then Ok h
      else strstr_loop fuel' (h + 1) needle nlen m
  end.
Definition strstr (fuel : nat) (haystack needle : Z) (m : mem) : outcome Z :=
  if load8 m needle =? 0 then Ok haystack
  else nlen ← strlen fuel needle m; strstr_loop fuel haystack needle nlen m.

Definition strdup {A} `{PageAlloc A} (fuel : nat) (s : Z) : kop (kheap A) Z := fun h =>
  n ← strlen fuel s (kh_mem h);
  let len := n +₆₄ 1 in
  '(copy, h1) ← kmalloc fuel len h;
  if copy =? 0 then Ok (0, h1) else Ok (copy, with_mem (memcpy copy s len) h1).

(** ** Numbers *)

(** [digits[d]] for [d < 16]. *)
Definition digit_char (d : Z) : Z := if d <? 10 then 48 + d else 87 + d.

(** The division loop; [tmp] holds the digits so far, latest first.  The fuel is
    the room left in [char tmp[65]]. *)
Fixpoint utoa_loop (room : nat) (val base : Z) (tmp : list Z) : outcome (list Z) :=
  if val <=? 0 then Ok tmp
  else match room with
  | O => Undef "utoa: tmp overflows"
  | S room' => utoa_loop room' (val / base) base (digit_char (val mod base) :: tmp)
  end.

(** [while (i--) buf[j++] = tmp[i]; buf[j] = 0]: [tmp] is already reversed. *)
Fixpoint put_string (l : list Z) (buf : Z) (m : mem) : mem :=
  match l with
  | [] => store8 m buf 0
  | c :: l' => put_string l' (buf + 1) (store8 m buf c)
  end.

Definition utoa (val buf base : Z) (m : mem) : outcome mem :=
  if (base <? 2) || (16 <? base) then Ok (store8 m buf 0)
  else if val =? 0 then Ok (store8 (store8 m buf 48) (buf + 1) 0)
  else tmp ← utoa_loop 65 val base []; Ok (put_string tmp buf m).

(** [val] is an [int64_t]; negating the least one overflows. *)
Definition itoa (val buf base : Z) (m : mem) : outcome mem :=
  if (base =? 10) && (val <? 0) then
    if val =? -9223372036854775808 then Undef "itoa: signed overflow"
    else utoa (wrap64 (- val)) (buf + 1) base (store8 m buf 45)
  else utoa (wrap64 val) buf base m.

(** ** Strings *)

(** The string at [s] is [l]: non-zero bytes, then a 0. *)
Definition cstring (m : mem) (s : Z) (l : list Z) : Prop :=
  (∀ i x, l !! i = Some x → m (s + Z.of_nat i) = x ∧ x ≠ 0) ∧ m (s + Z.of_nat (length l)) = 0.

Lemma cstring_nil m s : cstring m s [] ↔ m s = 0.
Proof.
  unfold cstring. simpl. rewrite Z.add_0_r. split; [tauto|]. intros H. split; [|done].
  intros i x Hx. by rewrite lookup_nil in Hx.
Qed.

Lemma cstring_cons m s c l : cstring m s (c :: l) ↔ m s = c ∧ c ≠ 0 ∧ cstring m (s + 1) l.
Proof.
  unfold cstring. simpl. split.
  - intros [H1 H2]. destruct (H1 0%nat c eq_refl) as [Hc Hc0]. rewrite Z.add_0_r in Hc.
    split; [done|]. split; [done|]. split.
    + intros i x Hx. replace (s + 1 + Z.of_nat i) with (s + Z.of_nat (S i)) by lia. by apply H1.
    + by replace (s + 1 + Z.of_nat (length l)) with (s + Z.of_nat (S (length l))) by lia.
  - intros (Hc & Hc0 & H1 & H2). split.
    + intros [|i] x Hx; [injection Hx as <-; by rewrite Z.add_0_r|].
      replace (s + Z.of_nat (S i)) with (s + 1 + Z.of_nat i) by lia. by apply H1.
    + by replace (s + Z.of_nat (S (length l))) with (s + 1 + Z.of_nat (length l)) by lia.
Qed.

Lemma cstring_ext m m' s l :
  mem_agree m m' s (s + Z.of_nat (length l) + 1) → cstring m s l → cstring m' s l.
Proof.
  intros Hag [H1 H2]. split.
  - intros i x Hx. pose proof (lookup_lt_Some _ _ _ Hx). rewrite Hag by lia. by apply H1.
  - by rewrite Hag by lia.
Qed.

Lemma strlen_loop_spec fuel m s l n :
  cstring m s l → (length l < fuel)%nat → 0 ≤ n → n + Z.of_nat (length l) < 18446744073709551616 →
  strlen_loop fuel m s n = Ok (n + Z.of_nat (length l)).
Proof.
  revert s l n. induction fuel as [|fuel IH]; intros s l n Hs Hf Hn Hb; [lia|].
  destruct l as [|c l]; cbn [strlen_loop length] in *; unfold load8.
  - apply cstring_nil in Hs. rewrite Hs. cbn [Z.eqb]. f_equal. lia.
  - apply cstring_cons in Hs as (-> & Hc & Hs). destruct (Z.eqb_spec c 0); [done|].
    rewrite wrap64_small by lia. rewrite (IH _ l); [f_equal; lia|done|lia..].
Qed.

(** [strcmp] on two strings: the difference at the first place they differ. *)
Fixpoint compare_bytes (l1 l2 : list Z) : Z :=
  match l1, l2 with
  | [], [] => 0
  | [], y :: _ => - y
  | x :: _, [] => x
  | x :: l1', y :: l2' => if x =? y then compare_bytes l1' l2' else x - y
  end.

Lemma compare_bytes_zero l1 l2 :
  Forall (fun x => x ≠ 0) l1 → Forall (fun x => x ≠ 0) l2 → compare_bytes l1 l2 = 0 ↔ l1 = l2.
Proof.
  revert l2. induction l1 as [|x l1 IH]; intros [|y l2] H1 H2; simpl; try done.
  - apply Forall_inv in H2. split; [lia|done].
  - apply Forall_inv in H1. split; [lia|done].
  - apply Forall_cons in H1 as [Hx H1]. apply Forall_cons in H2 as [Hy H2].
    destruct (Z.eqb_spec x y) as [->|Hne].
    + rewrite IH by done. split; [by intros ->|by intros [= ->]].
    + split; [lia|]. intros [= ? ?]. done.
Qed.

Lemma cstring_nonzero m s l : cstring m s l → Forall (fun x => x ≠ 0) l.
Proof. intros [H _]. apply Forall_lookup_2. intros i x Hx. by apply (H i x). Qed.

Lemma strcmp_spec fuel m a b l1 l2 :
  cstring m a l1 → cstring m b l2 → (length l1 < fuel)%nat →
  strcmp fuel a b m = Ok (compare_bytes l1 l2).
Proof.
  revert a b l1 l2. induction fuel as [|fuel IH]; intros a b l1 l2 H1 H2 Hf; [lia|].
  cbn [strcmp]. unfold load8.
  destruct l1 as [|x l1].
  - apply cstring_nil in H1. rewrite H1. cbn [Z.eqb negb andb].
    destruct l2 as [|y l2]; [apply cstring_nil in H2|apply cstring_cons in H2 as (H2 & _)];
      rewrite H2; simpl; f_equal; lia.
  - apply cstring_cons in H1 as (-> & Hx & H1). destruct (Z.eqb_spec x 0); [done|]. cbn [negb andb].
    destruct l2 as [|y l2].
    + apply cstring_nil in H2. rewrite H2. destruct (Z.eqb_spec x 0); [done|]. simpl. f_equal. lia.
    + apply cstring_cons in H2 as (-> & Hy & H2). cbn [compare_bytes].
      destruct (Z.eqb_spec x y); [|done]. apply IH; [done|done|simpl in Hf; lia].
Qed.

(** (Property) [strcmp] of two strings always ends and returns the difference of
    the first bytes that differ, 0 exactly when the strings are equal. *)
Theorem strcmp_correct (fuel : nat) (a b : Z) (m : mem) (l1 l2 : list Z)
    (Ha : cstring m a l1) (Hb : cstring m b l2) (Hfuel : (length l1 < fuel)%nat) :
  strcmp fuel a b m = Ok (compare_bytes l1 l2) ∧ (compare_bytes l1 l2 = 0 ↔ l1 = l2).
Proof.
  split; [by apply strcmp_spec|].
  apply compare_bytes_zero; by eapply cstring_nonzero.
Qed.

(** ** strncpy: fixed-width fields *)

Lemma strncpy_copy_spec k dst src i m l :
  cstring m src l → 0 ≤ i → mem_bytes m →
  (∀ x, dst + i ≤ x < dst + i + Z.of_nat k → x < src ∨ src + Z.of_nat (length l) < x) →
  i ≤ Z.of_nat (length l) →
  let j := Z.min (i + Z.of_nat k) (Z.of_nat (length l)) in
  ∃ m', strncpy_copy k dst src i m = (j, m') ∧
    ∀ x, m' x = if (dst + i <=? x) && (x <? dst + j) then m (src + (x - dst)) else m x.
Proof.
  revert i m. induction k as [|k IH]; intros i m Hs Hi Hm Hd Hle; cbn [strncpy_copy].
  - exists m. replace (Z.min _ _) with i by lia. split; [done|]. intros x.
    destruct (Z.leb_spec (dst + i) x), (Z.ltb_spec x (dst + i)); (done || lia).
  - unfold load8. destruct (Z.eqb_spec (m (src + i)) 0) as [E|E].
    + assert (i = Z.of_nat (length l)) as ->.
      { destruct (decide (i < Z.of_nat (length l))) as [Hlt|]; [|lia]. exfalso.
        destruct (lookup_lt_is_Some_2 l (Z.to_nat i)) as [y Hy]; [lia|].
        destruct Hs as [H1 _]. destruct (H1 _ _ Hy) as [H2 H3]. rewrite Z2Nat.id in H2 by lia. congruence. }
      exists m. replace (Z.min _ _) with (Z.of_nat (length l)) by lia. split; [done|]. intros x.
      destruct (Z.leb_spec (dst + Z.of_nat (length l)) x), (Z.ltb_spec x (dst + Z.of_nat (length l)));
        (done || lia).
    + assert (i < Z.of_nat (length l)) as Hlt.
      { destruct (Z.lt_ge_cases i (Z.of_nat (length l))); [done|].
        assert (i = Z.of_nat (length l)) as -> by lia. by destruct Hs as [_ ?]. }
      set (m1 := store8 m (dst + i) (m (src + i))).
      assert (cstring m1 src l) as Hs1.
      { eapply cstring_ext; [|exact Hs]. intros x Hx. unfold m1. apply store8_other.
        intros ->. destruct (Hd (dst + i)); lia. }
      destruct (IH (i + 1) m1) as (m' & E' & Hm'); [done|lia|by apply store8_bytes| |lia|].
      { intros x Hx. apply Hd. lia. }
      exists m'. split.
      { rewrite E'. f_equal. lia. }
      intros x. rewrite Hm'. unfold m1, store8. rewrite wrap8_byte by apply Hm.
      destruct (Z.eqb_spec x (dst + i)) as [->|Hx].
      * destruct (Z.leb_spec (dst + (i + 1)) (dst + i)); [lia|]. cbn [andb].
        destruct (Z.leb_spec (dst + i) (dst + i)); [|lia].
        destruct (Z.ltb_spec (dst + i) (dst + Z.min (i + Z.of_nat (S k)) (Z.of_nat (length l)))); [|lia].
        cbn [andb]. f_equal. lia.
      * destruct (Z.leb_spec (dst + (i + 1)) x), (Z.leb_spec (dst + i) x); cbn [andb]; try (done || lia).
        replace (i + 1 + Z.of_nat k) with (i + Z.of_nat (S k)) by lia.
        destruct (Z.ltb_spec x (dst + Z.min (i + Z.of_nat (S k)) (Z.of_nat (length l)))); [|done].
        destruct (Z.eqb_spec (src + (x - dst)) (dst + i)) as [E2|]; [|done].
        destruct (Hd (dst + i)); lia.
Qed.

(** The zero padding after the copied prefix. *)
Lemma zero_fill_at lo n dst m x :
  lo ≤ n → c_for lo n (fun i m => store8 m (dst + i) 0) m x =
    if (dst + lo <=? x) && (x <? dst + n) then 0 else m x.
Proof.
  intros Hle.
  apply (c_for_inv (fun i mk => mk x = if (dst + lo <=? x) && (x <? dst + i) then 0 else m x)); [done| |].
  - destruct (Z.leb_spec (dst + lo) x), (Z.ltb_spec x (dst + lo)); (done || lia).
  - intros i mk Hi E. unfold store8. change (wrap8 0) with 0.
    destruct (Z.eqb_spec x (dst + i)) as [->|Hx].
    + destruct (Z.leb_spec (dst + lo) (dst + i)), (Z.ltb_spec (dst + i) (dst + (i + 1))); (done || lia).
    + rewrite E. destruct (Z.leb_spec (dst + lo) x), (Z.ltb_spec x (dst + i)),
        (Z.ltb_spec x (dst + (i + 1))); (done || lia).
Qed.

(** (Property) [strncpy] into a field that does not overlap the source: the field
    holds the first [n] bytes of the string padded with zeros, nothing else
    changes, and the field contains a terminating 0 exactly when the string is
    shorter than [n]. *)
Theorem strncpy_field (dst src n : Z) (m : mem) (l : list Z)
    (Hsrc : cstring m src l) (Hn : 0 ≤ n) (Hm : mem_bytes m)
    (Hdisj : ∀ x, dst ≤ x < dst + n → x < src ∨ src + Z.of_nat (length l) < x) :
  let m' := strncpy dst src n m in
  (∀ x, m' x = if (dst <=? x) && (x <? dst + n)
               then nth (Z.to_nat (x - dst)) l 0 else m x) ∧
  ((∃ x, dst ≤ x < dst + n ∧ m' x = 0) ↔ Z.of_nat (length l) < n).
Proof.
  unfold strncpy.
  destruct (strncpy_copy_spec (Z.to_nat n) dst src 0 m l Hsrc) as (m1 & E & Hm1);
    [lia|done|intros x Hx; apply Hdisj; lia|lia|].
  rewrite Z2Nat.id in E, Hm1 by lia. rewrite Z.add_0_l in E, Hm1. rewrite E.
  set (j := Z.min n (Z.of_nat (length l))) in *.
  assert (∀ x, c_for j n (fun i m => store8 m (dst + i) 0) m1 x =
    if (dst <=? x) && (x <? dst + n) then nth (Z.to_nat (x - dst)) l 0 else m x) as Hx.
  { intros x. rewrite zero_fill_at, Hm1 by lia.
    destruct (Z.leb_spec dst x), (Z.ltb_spec x (dst + n)), (Z.leb_spec (dst + j) x),
      (Z.leb_spec (dst + 0) x), (Z.ltb_spec x (dst + j)); cbn [andb]; try done; try lia.
    - by rewrite nth_overflow by lia.
    - destruct (lookup_lt_is_Some_2 l (Z.to_nat (x - dst))) as [y Hy]; [lia|].
      destruct Hsrc as [Hs1 _]. destruct (Hs1 _ _ Hy) as [Hs2 _]. rewrite Z2Nat.id in Hs2 by lia.
      rewrite nth_lookup, Hy. exact Hs2. }
  split; [exact Hx|]. split.
  - intros (x & Hr & H0). rewrite Hx in H0.
    destruct (Z.leb_spec dst x), (Z.ltb_spec x (dst + n)); try lia. cbn [andb] in H0.
    destruct (Z.lt_ge_cases (x - dst) (Z.of_nat (length l))); [|lia].
    destruct (lookup_lt_is_Some_2 l (Z.to_nat (x - dst))) as [y Hy]; [lia|].
    rewrite nth_lookup, Hy in H0. destruct Hsrc as [Hs1 _]. by destruct (Hs1 _ _ Hy).
  - intros Hlt. exists (dst + Z.of_nat (length l)). split; [lia|]. rewrite Hx.
    destruct (Z.leb_spec dst (dst + Z.of_nat (length l))),
      (Z.ltb_spec (dst + Z.of_nat (length l)) (dst + n)); try lia.
    cbn [andb]. by rewrite nth_overflow by lia.
Qed.

(** ** utoa *)

(** The value of a digit character and of a digit string. *)
Definition char_digit (c : Z) : Z := if c <? 58 then c - 48 else c - 87.
Definition parse_digits (base : Z) (l : list Z) : Z :=
  fold_left (fun acc c => acc * base + char_digit c) l 0.

Lemma char_digit_char d : 0 ≤ d < 16 → char_digit (digit_char d) = d.
Proof. intros Hd. unfold char_digit, digit_char. destruct (Z.ltb_spec d 10); zcases; lia. Qed.

Lemma fold_digits base l acc :
  fold_left (fun acc c => acc * base + char_digit c) l acc =
    acc * base ^ Z.of_nat (length l) + parse_digits base l.
Proof.
  revert acc. induction l as [|c l IH]; intros acc; unfold parse_digits; cbn [fold_left length].
  - simpl. lia.
  - rewrite IH, (IH (0 * base + _)). rewrite Nat2Z.inj_succ, Z.pow_succ_r by lia. lia.
Qed.

(** The digits of a positive value: what the loop leaves in front of [tmp]. *)
Lemma utoa_loop_spec room val base tmp :
  2 ≤ base ≤ 16 → 0 ≤ val < 2 ^ Z.of_nat room →
  ∃ ds, utoa_loop room val base tmp = Ok (ds ++ tmp) ∧ parse_digits base ds = val ∧
    Forall (fun c => ∃ d, 0 ≤ d < base ∧ c = digit_char d) ds ∧ (length ds ≤ room)%nat.
Proof.
  intros Hb. revert val tmp. induction room as [|room IH]; intros val tmp Hv.
  - change (2 ^ Z.of_nat 0) with 1 in Hv. exists []. cbn [utoa_loop].
    destruct (Z.leb_spec val 0); [|lia].
    split_and!; [done|unfold parse_digits; simpl; lia|apply List.Forall_nil|simpl; lia].
  - cbn [utoa_loop]. destruct (Z.leb_spec val 0).
    { exists []. split_and!; [done|unfold parse_digits; simpl; lia|apply List.Forall_nil|simpl; lia]. }
    rewrite Nat2Z.inj_succ, Z.pow_succ_r in Hv by lia.
    assert (0 ≤ val / base < 2 ^ Z.of_nat room) as Hq.
    { split; [apply Z.div_pos; lia|]. apply Z.div_lt_upper_bound; [lia|].
      assert (2 * 2 ^ Z.of_nat room ≤ base * 2 ^ Z.of_nat room) by (apply Z.mul_le_mono_nonneg_r; lia).
      lia. }
    destruct (IH (val / base) (digit_char (val mod base) :: tmp) Hq) as (ds & E & Hp & Hf & Hl).
    pose proof (Z.mod_pos_bound val base ltac:(lia)) as Hmod.
    exists (ds ++ [digit_char (val mod base)]). split_and!.
    + rewrite E, <- app_assoc. done.
    + unfold parse_digits in *. rewrite fold_left_app. cbn [fold_left]. rewrite Hp.
      rewrite char_digit_char by lia. pose proof (Z.div_mod val base ltac:(lia)). lia.
    + apply Forall_app. split; [done|]. constructor; [|constructor]. by exists (val mod base).
    + rewrite length_app. simpl. lia.
Qed.

(** More room does not change the digits. *)
Lemma utoa_loop_more room val base tmp l :
  utoa_loop room val base tmp = Ok l → utoa_loop (S room) val base tmp = Ok l.
Proof.
  revert val tmp. induction room as [|room IH]; intros val tmp E.
  - cbn [utoa_loop] in *. by destruct (val <=? 0).
  - change (utoa_loop (S room) val base tmp) with (if val <=? 0 then Ok tmp else
      utoa_loop room (val / base) base (digit_char (val mod base) :: tmp)) in E.
    change (utoa_loop (S (S room)) val base tmp) with (if val <=? 0 then Ok tmp else
      utoa_loop (S room) (val / base) base (digit_char (val mod base) :: tmp)).
    destruct (val <=? 0); [done|]. by apply IH.
Qed.

Lemma digit_char_byte d : 0 ≤ d < 16 → 0 < digit_char d < 256.
Proof. intros Hd. unfold digit_char. destruct (Z.ltb_spec d 10); lia. Qed.

Lemma put_string_at l buf m :
  Forall (fun c => 0 < c < 256) l →
  cstring (put_string l buf m) buf l ∧
  ∀ x, x < buf ∨ buf + Z.of_nat (length l) < x → put_string l buf m x = m x.
Proof.
  revert buf m. induction l as [|c l IH]; intros buf m Hl; cbn [put_string].
  - split; [by apply cstring_nil, store8_same|]. intros x Hx. apply store8_other. simpl in Hx. lia.
  - apply Forall_cons in Hl as [Hc Hl]. destruct (IH (buf + 1) (store8 m buf c) Hl) as [H1 H2].
    split.
    + apply cstring_cons. split_and!; [|lia|done].
      rewrite H2 by lia. rewrite store8_same. apply wrap8_byte. lia.
    + intros x Hx. cbn [length] in Hx. rewrite H2 by lia. apply store8_other. lia.
Qed.

(** (Property) [utoa] in a base from 2 to 16 never overflows its 65-byte scratch
    buffer; it leaves a string of at most 64 digits of that base, and reading the
    string back in the base gives the value. *)
Theorem utoa_roundtrip (val buf base : Z) (m : mem)
    (Hval : is_u64 val) (Hbase : 2 ≤ base ≤ 16) :
  ∃ m' l, utoa val buf base m = Ok m' ∧ cstring m' buf l ∧ parse_digits base l = val ∧
    (1 ≤ length l ≤ 64)%nat ∧ Forall (fun c => ∃ d, 0 ≤ d < base ∧ c = digit_char d) l ∧
    ∀ x, x < buf ∨ buf + 64 < x → m' x = m x.
Proof.
  unfold utoa. destruct (Z.ltb_spec base 2); [lia|]. destruct (Z.ltb_spec 16 base); [lia|]. cbn [orb].
  destruct (Z.eqb_spec val 0) as [->|Hnz].
  - exists (put_string [48] buf m), [48]. destruct (put_string_at [48] buf m) as [H1 H2];
      [constructor; [lia|constructor]|].
    split_and!; [done|done|done|simpl; lia|simpl; lia| |].
    + constructor; [|constructor]. exists 0. split; [lia|done].
    + intros x Hx. apply H2. simpl. lia.
  - destruct (utoa_loop_spec 64 val base []) as (ds & E & Hp & Hf & Hl); [lia|exact Hval|].
    assert (utoa_loop 65 val base [] = Ok ds) as ->.
    { rewrite app_nil_r in E. by apply utoa_loop_more in E. }
    cbn [mbind outcome_bind].
    assert (Forall (fun c => 0 < c < 256) ds) as Hby.
    { eapply Forall_impl; [exact Hf|]. intros c (d & Hd & ->). apply digit_char_byte. lia. }
    destruct (put_string_at ds buf m Hby) as [H1 H2].
    exists (put_string ds buf m), ds. split_and!; [done|done|done| |done|done|].
    + destruct ds; [|simpl; lia]. exfalso. apply Hnz. by rewrite <- Hp.
    + intros x Hx. apply H2. lia.
Qed.

(** ** Concrete strings *)

(** "Hello" at 0x20000. *)
Definition hello_mem : mem := mem_image 131072 [1819043144; 111].
Definition hello : list Z := [72; 101; 108; 108; 111].

Lemma hello_string : cstring hello_mem 131072 hello.
Proof. repeat (apply cstring_cons; split; [reflexivity|split; [discriminate|]]). apply cstring_nil. reflexivity. Qed.

Lemma hello_bytes : mem_bytes hello_mem.
Proof. apply mem_image_bytes. Qed.

Lemma memmove_any_overlap_witness :
  mem_bytes hello_mem ∧ memmove 131074 131072 5 hello_mem 131078 = 111.
Proof.
  split; [exact hello_bytes|].
  rewrite (memmove_any_overlap 131074 131072 5 hello_mem ltac:(lia) hello_bytes).
  reflexivity.
Defined.

Lemma strcmp_correct_witness :
  cstring hello_mem 131072 hello ∧ strcmp 6 131072 131074 hello_mem = Ok (-36).
Proof.
  split; [exact hello_string|].
  assert (cstring hello_mem 131074 [108; 108; 111]) as H2
    by (repeat (apply cstring_cons; split; [reflexivity|split; [discriminate|]]); apply cstring_nil; reflexivity).
  exact (proj1 (strcmp_correct 6 131072 131074 hello_mem hello _ hello_string H2
    ltac:(simpl; lia))).
Defined.

(** A field of 5 bytes has no room for the 0 of "Hello". *)
Lemma strncpy_field_witness :
  ¬ (∃ x, 4096 ≤ x < 4096 + 5 ∧ strncpy 4096 131072 5 hello_mem x = 0).
Proof.
  destruct (strncpy_field 4096 131072 5 hello_mem hello hello_string ltac:(lia) hello_bytes
    ltac:(intros x Hx; left; lia)) as [_ H].
  intros Hz. apply H in Hz. simpl in Hz. lia.
Defined.

Lemma utoa_roundtrip_witness :
  ∃ m' l, utoa 48879 4096 16 hello_mem = Ok m' ∧ cstring m' 4096 l ∧ parse_digits 16 l = 48879.
Proof.
  destruct (utoa_roundtrip 48879 4096 16 hello_mem ltac:(unfold is_u64; lia) ltac:(lia))
    as (m' & l & E & Hs & Hp & _). exists m', l. exact (conj E (conj Hs Hp)).
Defined.

Example utoa_beef :
  (fun m => (fun i => m (4096 + Z.of_nat i)) <$> seq 0 5) <$> utoa 48879 4096 16 hello_mem
    = Ok [98; 101; 101; 102; 0].
Proof. vm_compute. reflexivity. Qed.
