(* ===== verification/Paging.v ===== *)
(** * kernel/mm/vmm.c and arch/x86_64/mm/paging.h: 4-level page tables

    Page tables are arrays of 512 entries of 8 bytes in physical memory, which
    the kernel reaches through the identity mapping.  The state is the heap of
    Kheap.v (with the memory and the page allocator), the control register CR3
    and the sequence of TLB entries flushed with [invlpg], latest first. *)
From S2P Require Import Prelude Mem LibString PageAlloc Kheap.

Definition PTE_PRESENT : Z := BIT 0.
Definition PTE_WRITABLE : Z := BIT 1.
Definition PTE_USER : Z := BIT 2.
Definition PTE_HUGE : Z := BIT 7.
Definition PTE_GLOBAL : Z := BIT 8.
Definition PTE_NO_EXEC : Z := BIT 63.
Definition PTE_KERNEL_RW : Z := Z.lor (Z.lor PTE_PRESENT PTE_WRITABLE) PTE_GLOBAL.
Definition PTE_USER_RW : Z := Z.lor (Z.lor PTE_PRESENT PTE_WRITABLE) PTE_USER.

Definition PML4_IDX (va : Z) : Z := Z.land (Z.shiftr va 39) 511.
Definition PDPT_IDX (va : Z) : Z := Z.land (Z.shiftr va 30) 511.
Definition PD_IDX (va : Z) : Z := Z.land (Z.shiftr va 21) 511.
Definition PT_IDX (va : Z) : Z := Z.land (Z.shiftr va 12) 511.
Definition PAGE_OFFSET (va : Z) : Z := Z.land va 4095.

(** [0x000FFFFFFFFFF000]. *)
Definition PTE_ADDR_MASK : Z := 4503599627366400.
Definition PTE_ADDR (pte : Z) : Z := Z.land pte PTE_ADDR_MASK.

Definition pte_present (pte : Z) : bool := negb (Z.land pte PTE_PRESENT =? 0).
Definition pte_huge (pte : Z) : bool := negb (Z.land pte PTE_HUGE =? 0).

(** [table[i]] for a [pte_t *table]. *)
Definition pte_at (m : mem) (table i : Z) : Z := load64 m (table + 8 * i).
Definition set_pte (table i v : Z) (m : mem) : mem := store64 m (table + 8 * i) v.

Record mmu (A : Type) : Type := mk_mmu {
  mm_heap : kheap A;
  cr3 : Z;
  tlb_flushes : list Z;
}.
Arguments mk_mmu {A}.
Arguments mm_heap {A}.
Arguments cr3 {A}.
Arguments tlb_flushes {A}.

Definition mm_mem {A} (s : mmu A) : mem := kh_mem (mm_heap s).
Definition mm_pages {A} (s : mmu A) : A := kh_pages (mm_heap s).
Definition on_heap {A} (f : kheap A → kheap A) (s : mmu A) : mmu A :=
  mk_mmu (f (mm_heap s)) (cr3 s) (tlb_flushes s).
Definition tlb_flush_page {A} (virt : Z) (s : mmu A) : mmu A :=
  mk_mmu (mm_heap s) (cr3 s) (virt :: tlb_flushes s).

(** The table CR3 points to: [cr3 & ~0xFFF]. *)
Definition pml4_of (c : Z) : Z := Z.land c (~₆₄ 4095).

(** The walk of [paging_virt_to_phys]; 0 when the address is not mapped. *)
Definition translate (m : mem) (pml4 virt : Z) : Z :=
  let e4 := pte_at m pml4 (PML4_IDX virt) in
  if negb (pte_present e4) then 0
  else
    let e3 := pte_at m (PTE_ADDR e4) (PDPT_IDX virt) in
    if negb (pte_present e3) then 0
    else
      let e2 := pte_at m (PTE_ADDR e3) (PD_IDX virt) in
      if negb (pte_present e2) then 0
      else if pte_huge e2 then PTE_ADDR e2 +₆₄ Z.land virt 2097151
      else
        let e1 := pte_at m (PTE_ADDR e2) (PT_IDX virt) in
        if negb (pte_present e1) then 0
        else PTE_ADDR e1 +₆₄ PAGE_OFFSET virt.

Definition paging_virt_to_phys {A} (virt : Z) (s : mmu A) : Z :=
  translate (mm_mem s) (pml4_of (cr3 s)) virt.

Definition paging_switch_directory {A} (pml4_phys : Z) (s : mmu A) : mmu A :=
  mk_mmu (mm_heap s) pml4_phys (tlb_flushes s).

Definition paging_unmap {A} (virt : Z) (s : mmu A) : mmu A :=
  let m := mm_mem s in
  let e4 := pte_at m (pml4_of (cr3 s)) (PML4_IDX virt) in
  if negb (pte_present e4) then s
  else
    let e3 := pte_at m (PTE_ADDR e4) (PDPT_IDX virt) in
    if negb (pte_present e3) then s
    else
      let e2 := pte_at m (PTE_ADDR e3) (PD_IDX virt) in
      if negb (pte_present e2) then s
      else
        tlb_flush_page virt
          (on_heap (with_mem (set_pte (PTE_ADDR e2) (PT_IDX virt) 0)) s).

Section Paging.
Context {A : Type} `{PageAlloc A}.

Definition get_or_create_table (parent idx flags : Z) : kop (mmu A) Z := fun s =>
  if pte_present (pte_at (mm_mem s) parent idx)
  then Ok (PTE_ADDR (pte_at (mm_mem s) parent idx), s)
  else
    '(phys, p) ← alloc_page (mm_pages s);
    let s := on_heap (with_pages p) s in
    let s := on_heap (with_mem (memset phys 0 PAGE_SIZE)) s in
    Ok (phys, on_heap (with_mem (set_pte parent idx (Z.lor phys flags))) s).

Definition paging_map (virt phys flags : Z) : kop (mmu A) unit := fun s =>
  let pml4 := pml4_of (cr3 s) in
  let pw := Z.lor PTE_PRESENT PTE_WRITABLE in
  '(pdpt, s1) ← get_or_create_table pml4 (PML4_IDX virt) pw s;
  '(pd, s2) ← get_or_create_table pdpt (PDPT_IDX virt) pw s1;
  '(pt, s3) ← get_or_create_table pd (PD_IDX virt) pw s2;
  let s4 := on_heap (with_mem (set_pte pt (PT_IDX virt) (Z.lor phys flags))) s3 in
  Ok (tt, tlb_flush_page virt s4).

(** ** vmm.c: address spaces and ranges

    An [addr_space_t] lies in the heap; [as_] is its address, 0 for NULL. *)
Definition as_pml4_phys (m : mem) (as_ : Z) : Z := load64 m as_.
Definition as_heap_end (m : mem) (as_ : Z) : Z := load64 m (as_ + 16).
Definition set_heap_end (as_ v : Z) (m : mem) : mem := store64 m (as_ + 16) v.

Definition vmm_create_address_space (fuel : nat) : kop (mmu A) Z := fun s =>
  '(as_, h) ← kmalloc fuel 32 (mm_heap s);
  let s := on_heap (fun _ => h) s in
  if as_ =? 0 then Ok (0, s)
  else
    '(pml4_phys, p) ← alloc_page (mm_pages s);
    let s := on_heap (with_pages p) s in
    Ok (as_, on_heap (with_mem (fun m =>
      let m := memset pml4_phys 0 PAGE_SIZE m in
      let m := store64 m as_ pml4_phys in
      let m := store64 m (as_ + 8) 4194304 in
      let m := store64 m (as_ + 16) (load64 m (as_ + 8)) in
      store64 m (as_ + 24) 140737488347136)) s).

Definition vmm_destroy_address_space (as_ : Z) (s : mmu A) : mmu A :=
  if as_ =? 0 then s
  else
    let s := on_heap (with_pages (free_page (as_pml4_phys (mm_mem s) as_) (mm_pages s))) s in
    on_heap (kfree as_) s.

Definition vmm_switch_address_space (as_ : Z) (s : mmu A) : mmu A :=
  if as_ =? 0 then s else paging_switch_directory (as_pml4_phys (mm_mem s) as_) s.

(** The loops over [offset = 0, PAGE_SIZE, ...]: [n] iterations are left. *)
Fixpoint map_pages (n : nat) (offset virt phys flags : Z) : kop (mmu A) unit := fun s =>
  match n with
  | O => Ok (tt, s)
  | S n' =>
      '(_, s1) ← paging_map (virt +₆₄ offset) (phys +₆₄ offset) flags s;
      map_pages n' (offset + PAGE_SIZE) virt phys flags s1
  end.

Definition vmm_map_range (as_ virt phys size flags : Z) : kop (mmu A) Z := fun s =>
  let size := ALIGN_UP64 size PAGE_SIZE in
  '(_, s1) ← map_pages (Z.to_nat (size / PAGE_SIZE)) 0 virt phys flags s;
  Ok (0, s1).

Fixpoint unmap_pages (n : nat) (offset virt : Z) (s : mmu A) : mmu A :=
  match n with
  | O => s
  | S n' => unmap_pages n' (offset + PAGE_SIZE) virt (paging_unmap (virt +₆₄ offset) s)
  end.

Definition vmm_unmap_range (as_ virt size : Z) (s : mmu A) : Z * mmu A :=
  let size := ALIGN_UP64 size PAGE_SIZE in
  (0, unmap_pages (Z.to_nat (size / PAGE_SIZE)) 0 virt s).

Definition vmm_alloc_pages (as_ count flags : Z) : kop (mmu A) Z := fun s =>
  '(phys, p) ← alloc_pages count (mm_pages s);
  let s := on_heap (with_pages p) s in
  if as_ =? 0 then Ok (phys, s)
  else
    let virt := as_heap_end (mm_mem s) as_ in
    '(_, s1) ← vmm_map_range as_ virt phys (count *₆₄ PAGE_SIZE) flags s;
    Ok (virt, on_heap (with_mem (fun m =>
      set_heap_end as_ (as_heap_end m as_ +₆₄ (count *₆₄ PAGE_SIZE)) m)) s1).

Definition vmm_virt_to_phys (as_ virt : Z) (s : mmu A) : Z := paging_virt_to_phys virt s.
End Paging.
