(* ===== verification/PagingSpec.v ===== *)
(** * The page tables as a tree, and what the paging operations do to it

    [pt_tree] relates the tables in memory to a partial map from index paths to
    table addresses.  Through it, [paging_map] and [paging_unmap] are shown to
    change the translation of one page and of no other. *)
From S2P Require Import Prelude Mem LibString PageAlloc Pmm Kheap KheapInv Paging.

(** The path of a virtual address through the four levels. *)
Definition pt_path (va : Z) : list Z := [PML4_IDX va; PDPT_IDX va; PD_IDX va].
Definition same_page (va va' : Z) : bool :=
  bool_decide (pt_path va = pt_path va' ∧ PT_IDX va = PT_IDX va').

(** The pointer in an entry of a table at the given depth leads to a table. *)
Definition leads_on (p : list Z) (e : Z) : bool :=
  pte_present e && negb ((length p =? 2)%nat && pte_huge e).

Record pt_tree {A} `{PageAlloc A} (s : mmu A) (tab : list Z → option Z) : Prop := mk_pt_tree {
  pt_root : tab [] = Some (pml4_of (cr3 s));
  pt_table : ∀ p t, tab p = Some t →
    t mod PAGE_SIZE = 0 ∧ 0 ≤ t ∧ t / PAGE_SIZE < PAGE_LIMIT ∧
    used_page (mm_pages s) (t / PAGE_SIZE) = true;
  pt_inj : ∀ p q t, tab p = Some t → tab q = Some t → p = q;
  pt_child : ∀ p t i, tab p = Some t → (length p < 3)%nat → 0 ≤ i < 512 →
    tab (p ++ [i]) = if leads_on p (pte_at (mm_mem s) t i)
                     then Some (PTE_ADDR (pte_at (mm_mem s) t i)) else None;
  pt_prefix : ∀ p i t, tab (p ++ [i]) = Some t →
    ∃ t', tab p = Some t' ∧ (length p < 3)%nat ∧ 0 ≤ i < 512;
  pt_pages : alloc_inv (mm_pages s);
}.

(** ** Indices and entries *)

Lemma land_511 x : 0 ≤ Z.land x 511 < 512.
Proof. change 511 with (Z.ones 9). rewrite Z.land_ones by lia. apply Z.mod_pos_bound. lia. Qed.

Lemma pml4_idx_range va : 0 ≤ PML4_IDX va < 512.
Proof. apply land_511. Qed.
Lemma pdpt_idx_range va : 0 ≤ PDPT_IDX va < 512.
Proof. apply land_511. Qed.
Lemma pd_idx_range va : 0 ≤ PD_IDX va < 512.
Proof. apply land_511. Qed.
Lemma pt_idx_range va : 0 ≤ PT_IDX va < 512.
Proof. apply land_511. Qed.
Create HintDb paging.
#[export] Hint Resolve pml4_idx_range pdpt_idx_range pd_idx_range pt_idx_range : paging.

Lemma pte_present_bit e : pte_present e = Z.testbit e 0.
Proof. apply land_bit. lia. Qed.
Lemma pte_huge_bit e : pte_huge e = Z.testbit e 7.
Proof. apply land_bit. lia. Qed.

(** A page frame address: what an entry can point to. *)
Definition frame (phys : Z) : Prop := 0 ≤ phys < 4503599627370496 ∧ phys mod PAGE_SIZE = 0.
(** Flag bits only: nothing in the address field. *)
Definition flags_ok (flags : Z) : Prop := is_u64 flags ∧ PTE_ADDR flags = 0.

Lemma frame_low_bits phys i : frame phys → 0 ≤ i < 12 → Z.testbit phys i = false.
Proof.
  intros [_ Hm] Hi. unfold PAGE_SIZE in Hm. change 4096 with (2 ^ 12) in Hm.
  rewrite <- (Z.mod_pow2_bits_low phys 12 i) by lia. by rewrite Hm, Z.bits_0.
Qed.

Lemma mask_frame phys : frame phys → PTE_ADDR phys = phys.
Proof.
  intros Hf. pose proof Hf as [Hr _]. unfold PTE_ADDR, PTE_ADDR_MASK.
  replace 4503599627366400 with (Z.shiftl (Z.ones 40) 12) by reflexivity.
  apply Z.bits_inj'; intros i Hi. rewrite Z.land_spec, Z.shiftl_spec by lia.
  destruct (Z.lt_ge_cases i 12); [by rewrite (frame_low_bits phys) by (done || lia)|].
  destruct (Z.lt_ge_cases i 52).
  - rewrite Z.testbit_ones_nonneg by lia.
    destruct (Z.ltb_spec (i - 12) 40); [by rewrite andb_true_r|lia].
  - replace phys with (phys mod 2 ^ 52) by (apply Z.mod_small; exact Hr).
    by rewrite Z.mod_pow2_bits_high by lia.
Qed.

Lemma entry_addr phys flags :
  frame phys → PTE_ADDR flags = 0 → PTE_ADDR (Z.lor phys flags) = phys.
Proof.
  intros Hf Hfl. unfold PTE_ADDR in *. rewrite Z.land_lor_distr_l, Hfl, Z.lor_0_r.
  by apply mask_frame.
Qed.

Lemma entry_bit phys flags i :
  frame phys → 0 ≤ i < 12 → Z.testbit (Z.lor phys flags) i = Z.testbit flags i.
Proof. intros Hf Hi. rewrite Z.lor_spec. by rewrite (frame_low_bits phys). Qed.

Lemma frame_u64 phys : frame phys → is_u64 phys.
Proof. intros [Hr _]. unfold is_u64. lia. Qed.

Lemma page_frame t : t mod PAGE_SIZE = 0 → 0 ≤ t → t / PAGE_SIZE < PAGE_LIMIT → frame t.
Proof. unfold frame, PAGE_SIZE, PAGE_LIMIT. intros. Z.div_mod_to_equations; lia. Qed.

Lemma zero_entry : pte_present 0 = false.
Proof. done. Qed.

(** ** Reading entries after writes *)

Lemma pte_set_same t i v m : is_u64 v → pte_at (set_pte t i v m) t i = v.
Proof. intros Hv. unfold pte_at, set_pte. rewrite load64_store64_same. by apply wrap64_small. Qed.

Lemma pte_set_other t i v m t' j :
  t mod PAGE_SIZE = 0 → t' mod PAGE_SIZE = 0 → 0 ≤ i < 512 → 0 ≤ j < 512 →
  t' ≠ t ∨ j ≠ i → pte_at (set_pte t i v m) t' j = pte_at m t' j.
Proof.
  unfold pte_at, set_pte, PAGE_SIZE. intros Ht Ht' Hi Hj Hne.
  apply load64_store64_other. Z.div_mod_to_equations. lia.
Qed.

Lemma pte_memset_same t m i : 0 ≤ i < 512 → pte_at (memset t 0 PAGE_SIZE m) t i = 0.
Proof. intros Hi. apply load64_memset_zero; unfold PAGE_SIZE; lia. Qed.

Lemma pte_memset_other t m t' j :
  t mod PAGE_SIZE = 0 → t' mod PAGE_SIZE = 0 → t' ≠ t → 0 ≤ j < 512 →
  pte_at (memset t 0 PAGE_SIZE m) t' j = pte_at m t' j.
Proof.
  unfold pte_at, PAGE_SIZE. intros Ht Ht' Hne Hj.
  apply load64_ext, memset_agree; [lia|]. Z.div_mod_to_equations. lia.
Qed.

(** ** The translation read off the tree *)

(** The memory-independent part of a walk: which table serves [va]. *)
Definition tree_translate (m : mem) (tab : list Z → option Z) (va : Z) : Z :=
  match tab (pt_path va) with
  | Some pt =>
      let e := pte_at m pt (PT_IDX va) in
      if pte_present e then PTE_ADDR e +₆₄ PAGE_OFFSET va else 0
  | None =>
      match tab [PML4_IDX va; PDPT_IDX va] with
      | Some pd =>
          let e := pte_at m pd (PD_IDX va) in
          if pte_present e then PTE_ADDR e +₆₄ Z.land va 2097151 else 0
      | None => 0
      end
  end.

(** [va] lies in a 2 MiB page. *)
Definition huge_mapped (m : mem) (tab : list Z → option Z) (va : Z) : bool :=
  match tab [PML4_IDX va; PDPT_IDX va] with
  | Some pd => pte_present (pte_at m pd (PD_IDX va)) && pte_huge (pte_at m pd (PD_IDX va))
  | None => false
  end.

Section Tree.
Context {A : Type} `{PageAllocSpec A}.
Implicit Types s : mmu A.

Lemma pt_step s tab p t i :
  pt_tree s tab → tab p = Some t → (length p < 2)%nat → 0 ≤ i < 512 →
  tab (p ++ [i]) = if pte_present (pte_at (mm_mem s) t i)
                   then Some (PTE_ADDR (pte_at (mm_mem s) t i)) else None.
Proof.
  intros Ht Hp Hl Hi. rewrite (pt_child _ _ Ht p t i Hp) by lia.
  unfold leads_on. destruct (Nat.eqb_spec (length p) 2); [lia|]. by rewrite andb_true_r.
Qed.

Lemma pt_none s tab p i : pt_tree s tab → tab p = None → tab (p ++ [i]) = None.
Proof.
  intros Ht Hp. destruct (tab (p ++ [i])) as [t|] eqn:E; [|done].
  destruct (pt_prefix _ _ Ht _ _ _ E) as (t' & Hp' & _). congruence.
Qed.

Lemma translate_tree s tab va :
  pt_tree s tab → paging_virt_to_phys va s = tree_translate (mm_mem s) tab va.
Proof.
  intros Ht. unfold paging_virt_to_phys, translate, tree_translate, pt_path.
  pose proof (pt_step s tab [] _ (PML4_IDX va) Ht (pt_root _ _ Ht) ltac:(simpl; lia)
    (pml4_idx_range va)) as H4. simpl in H4.
  set (e4 := pte_at _ _ (PML4_IDX va)) in *. destruct (pte_present e4) eqn:E4; cbn [negb].
  2: { pose proof (pt_none _ _ [PML4_IDX va] (PDPT_IDX va) Ht H4) as H3.
       pose proof (pt_none _ _ _ (PD_IDX va) Ht H3) as H2. simpl in *. by rewrite H2, H3. }
  pose proof (pt_step s tab _ _ (PDPT_IDX va) Ht H4 ltac:(simpl; lia)
    (pdpt_idx_range va)) as H3. simpl in H3.
  set (e3 := pte_at _ _ (PDPT_IDX va)) in *. destruct (pte_present e3) eqn:E3; cbn [negb].
  2: { pose proof (pt_none _ _ _ (PD_IDX va) Ht H3) as H2. simpl in *. by rewrite H2, H3. }
  pose proof (pt_child _ _ Ht _ _ (PD_IDX va) H3 ltac:(simpl; lia) (pd_idx_range va)) as H2.
  simpl in H2. rewrite H3. unfold leads_on in H2. cbn [length Nat.eqb] in H2.
  set (e2 := pte_at _ _ (PD_IDX va)) in *.
  destruct (pte_present e2) eqn:E2; cbn [negb andb] in *.
  2: { by rewrite H2. }
  destruct (pte_huge e2) eqn:Eh; cbn [negb] in *; rewrite H2; [done|].
  cbv zeta. by destruct (pte_present (pte_at _ (PTE_ADDR e2) _)).
Qed.

(** ** Growing the tree *)

(** [s'] has at least the tables of [s] and the same translations. *)
Record extends s (tab : list Z → option Z) s' (tab' : list Z → option Z) : Prop := mk_extends {
  ex_tree : pt_tree s' tab';
  ex_cr3 : cr3 s' = cr3 s;
  ex_tlb : tlb_flushes s' = tlb_flushes s;
  ex_grow : ∀ q x, tab q = Some x → tab' q = Some x;
  ex_translate : ∀ va, tree_translate (mm_mem s') tab' va = tree_translate (mm_mem s) tab va;
  ex_huge : ∀ va, huge_mapped (mm_mem s') tab' va = huge_mapped (mm_mem s) tab va;
}.

Lemma extends_refl s tab : pt_tree s tab → extends s tab s tab.
Proof. by split. Qed.

Lemma extends_trans s1 t1 s2 t2 s3 t3 :
  extends s1 t1 s2 t2 → extends s2 t2 s3 t3 → extends s1 t1 s3 t3.
Proof.
  intros [] []. split; auto; intros; (congruence || by etrans).
Qed.

Definition tab_add (p : list Z) (t : Z) (tab : list Z → option Z) (q : list Z) : option Z :=
  if bool_decide (q = p) then Some t else tab q.

Lemma tab_add_same p t tab : tab_add p t tab p = Some t.
Proof. unfold tab_add. by rewrite bool_decide_eq_true_2. Qed.
Lemma tab_add_other p t tab q : q ≠ p → tab_add p t tab q = tab q.
Proof. intros Hq. unfold tab_add. by rewrite bool_decide_eq_false_2. Qed.

(** The memory after a table at [phys] was cleared and linked at [parent[i]]. *)
Definition link_table (parent i phys flags : Z) (m : mem) : mem :=
  set_pte parent i (Z.lor phys flags) (memset phys 0 PAGE_SIZE m).

(** What the flags of an intermediate entry must be like. *)
Definition link_flags (flags : Z) : Prop :=
  flags_ok flags ∧ pte_present flags = true ∧ pte_huge flags = false.

Section Link.
Context s (tab : list Z → option Z) (p : list Z) (i parent phys flags : Z) (a' : A).
Context (Ht : pt_tree s tab) (Hp : tab p = Some parent) (Hl : (length p < 3)%nat).
Context (Hi : 0 ≤ i < 512) (Habs : pte_present (pte_at (mm_mem s) parent i) = false).
Context (Hg : grabbed phys 1 (mm_pages s) a') (Hfl : link_flags flags).
Let m' := link_table parent i phys flags (mm_mem s).
Let s' := on_heap (with_mem (fun _ => m')) (on_heap (with_pages a') s).
Let tab' := tab_add (p ++ [i]) phys tab.

Lemma link_absent : tab (p ++ [i]) = None.
Proof. rewrite (pt_child _ _ Ht _ _ _ Hp) by done. unfold leads_on. by rewrite Habs. Qed.

Lemma link_frame : frame phys ∧ 0 ≤ phys ∧ phys / PAGE_SIZE < PAGE_LIMIT.
Proof.
  pose proof (grabbed_low _ _ _ _ Hg). pose proof (grabbed_high _ _ _ _ Hg).
  split; [apply page_frame|]; try lia. apply (grabbed_aligned _ _ _ _ Hg).
Qed.

Lemma link_fresh q t : tab q = Some t → t ≠ phys.
Proof.
  intros Hq ->. destruct (pt_table _ _ Ht _ _ Hq) as (_ & _ & _ & Hu).
  pose proof (grabbed_fresh _ _ _ _ _ Hg Hu). lia.
Qed.

Lemma link_zero j : 0 ≤ j < 512 → pte_at m' phys j = 0.
Proof.
  intros Hj. unfold m', link_table. destruct (pt_table _ _ Ht _ _ Hp) as (Ha & _).
  rewrite pte_set_other; [by apply pte_memset_same|done|apply (grabbed_aligned _ _ _ _ Hg)|done..|].
  left. intros E. by apply (link_fresh p parent Hp).
Qed.

Lemma link_entry : pte_at m' parent i = Z.lor phys flags.
Proof.
  unfold m', link_table. apply pte_set_same. apply lor_u64; [apply frame_u64, link_frame|apply Hfl].
Qed.

Lemma link_other q t j :
  tab q = Some t → 0 ≤ j < 512 → q ≠ p ∨ j ≠ i → pte_at m' t j = pte_at (mm_mem s) t j.
Proof.
  intros Hq Hj Hne. unfold m', link_table.
  destruct (pt_table _ _ Ht _ _ Hp) as (Ha & _). destruct (pt_table _ _ Ht _ _ Hq) as (Ha' & _).
  rewrite pte_set_other; [|done..|].
  - apply pte_memset_other; [apply (grabbed_aligned _ _ _ _ Hg)|done|by eapply link_fresh|done].
  - destruct Hne as [Hne|Hne]; [left|by right]. intros ->. apply Hne. by apply (pt_inj _ _ Ht _ _ parent).
Qed.

Lemma link_grow q x : tab q = Some x → tab' q = Some x.
Proof.
  intros Hq. unfold tab'. rewrite tab_add_other; [done|]. intros ->.
  by rewrite link_absent in Hq.
Qed.

Lemma snoc_neq {X} (q : list X) x : q ≠ q ++ [x].
Proof. intros E. apply (f_equal length) in E. rewrite length_app in E. simpl in E. lia. Qed.

Lemma link_tree : pt_tree s' tab'.
Proof.
  destruct link_frame as (Hf & Hlo & Hhi). destruct Hfl as ([Hfu Hfa] & Hfp & Hfh).
  split; cbn [s' on_heap mm_heap cr3 mm_mem mm_pages with_mem with_pages kh_mem kh_pages].
  - apply link_grow, (pt_root _ _ Ht).
  - intros q t. unfold tab'. destruct (decide (q = p ++ [i])) as [->|Hne].
    + rewrite tab_add_same. intros [= <-]. split_and!; [apply (grabbed_aligned _ _ _ _ Hg)|done..|].
      apply (grabbed_takes _ _ _ _ _ Hg). lia.
    + rewrite tab_add_other by done. intros Hq. destruct (pt_table _ _ Ht _ _ Hq) as (? & ? & ? & Hu).
      split_and!; try done. eapply grabbed_keeps; [exact Hg| |exact Hu].
      unfold PAGE_SIZE, PAGE_LIMIT in *. Z.div_mod_to_equations; lia.
  - intros q r t. unfold tab'. destruct (decide (q = p ++ [i])) as [->|Hq], (decide (r = p ++ [i])) as [->|Hr];
      rewrite ?tab_add_same, ?tab_add_other by done; intros H1 H2; [done|..].
    + injection H1 as <-. by apply link_fresh in H2.
    + injection H2 as <-. by apply link_fresh in H1.
    + by apply (pt_inj _ _ Ht _ _ t).
  - intros q t j Hq Hlq Hj. unfold mm_mem. cbn [on_heap mm_heap with_mem with_pages kh_mem].
    unfold tab' in *. destruct (decide (q = p ++ [i])) as [->|Hne].
    { rewrite tab_add_same in Hq. injection Hq as <-. rewrite link_zero by done.
      rewrite tab_add_other by (intros E; by apply (snoc_neq (p ++ [i]) j)).
      by apply pt_none with s, link_absent. }
    rewrite tab_add_other in Hq by done.
    destruct (decide (q ++ [j] = p ++ [i])) as [E|Hne'].
    + apply app_inj_2 in E as [-> [= ->]]; [|done]. rewrite tab_add_same.
      assert (t = parent) as -> by congruence. rewrite link_entry.
      unfold leads_on. rewrite pte_present_bit, pte_huge_bit, !entry_bit by (done || lia).
      rewrite <- pte_present_bit, <- pte_huge_bit, Hfp, Hfh, andb_false_r. cbn [negb andb].
      by rewrite entry_addr.
    + rewrite tab_add_other by done.
      rewrite (link_other q t j Hq Hj); [by apply (pt_child _ _ Ht)|].
      destruct (decide (q = p)) as [->|]; [right|by left]. by intros ->.
  - intros q j t. unfold tab'. destruct (decide (q ++ [j] = p ++ [i])) as [E|Hne].
    + apply app_inj_2 in E as [-> [= ->]]; [|done]. intros _. exists parent.
      split_and!; try (done || lia). by apply link_grow.
    + rewrite tab_add_other by done. intros Hq.
      destruct (pt_prefix _ _ Ht _ _ _ Hq) as (t' & Hq' & ?). exists t'. split; [|done].
      by apply link_grow.
  - apply (grabbed_inv _ _ _ _ Hg).
Qed.

(** A walk meets the new table at the last level, or not at all. *)
Lemma link_walk va :
  (p = [PML4_IDX va; PDPT_IDX va] ∧ i = PD_IDX va) ∨
  (tab' (pt_path va) = tab (pt_path va) ∧
   ∀ pd, tab [PML4_IDX va; PDPT_IDX va] = Some pd →
     tab' [PML4_IDX va; PDPT_IDX va] = Some pd ∧
     pte_at m' pd (PD_IDX va) = pte_at (mm_mem s) pd (PD_IDX va)).
Proof.
  destruct (decide (pt_path va = p ++ [i])) as [E|Hne].
  - left. change (pt_path va) with ([PML4_IDX va; PDPT_IDX va] ++ [PD_IDX va]) in E.
    by apply app_inj_2 in E as [E1 [= E2]].
  - right. split; [by apply tab_add_other|]. intros pd Hpd. split; [by apply link_grow|].
    apply (link_other _ _ _ Hpd); [apply pd_idx_range|].
    destruct (decide (PD_IDX va = i)) as [Ei|]; [|by right]. left. intros Ep. apply Hne.
    by rewrite <- Ei, <- Ep.
Qed.

(** A page directory that is new holds only empty entries. *)
Lemma link_new_pd va pd' :
  tab [PML4_IDX va; PDPT_IDX va] = None → tab' [PML4_IDX va; PDPT_IDX va] = Some pd' →
  pte_at m' pd' (PD_IDX va) = 0.
Proof.
  unfold tab'. destruct (decide ([PML4_IDX va; PDPT_IDX va] = p ++ [i])) as [->|Hne].
  - rewrite tab_add_same. intros _ [= <-]. apply link_zero, pd_idx_range.
  - rewrite tab_add_other by done. congruence.
Qed.

Lemma link_translate va : tree_translate m' tab' va = tree_translate (mm_mem s) tab va.
Proof.
  unfold tree_translate. destruct (link_walk va) as [[Ep Ei]|[-> Hpd]].
  - assert (pt_path va = p ++ [i]) as -> by (by rewrite Ep, Ei).
    rewrite link_absent, <- Ep, <- Ei. unfold tab' at 1.
    rewrite tab_add_same, link_zero by apply pt_idx_range. by rewrite Hp, Habs.
  - destruct (tab (pt_path va)) as [pt|] eqn:Hpt.
    + rewrite (link_other _ _ _ Hpt); [done|apply pt_idx_range|].
      left. intros Ep. pose proof Hl as Hl'. rewrite <- Ep in Hl'. simpl in Hl'. lia.
    + destruct (tab [PML4_IDX va; PDPT_IDX va]) as [pd|] eqn:Epd.
      * by destruct (Hpd pd eq_refl) as [-> ->].
      * destruct (tab' [_; _]) as [pd'|] eqn:Epd'; [|done]. by rewrite (link_new_pd va pd').
Qed.

Lemma link_huge va : huge_mapped m' tab' va = huge_mapped (mm_mem s) tab va.
Proof.
  unfold huge_mapped. destruct (link_walk va) as [[Ep Ei]|[_ Hpd]].
  - rewrite <- Ep, <- Ei, Hp, Habs. rewrite (link_grow _ _ Hp), link_entry.
    rewrite pte_huge_bit, entry_bit by (apply link_frame || lia).
    rewrite <- pte_huge_bit. destruct Hfl as (_ & _ & ->). by rewrite andb_false_r.
  - destruct (tab [PML4_IDX va; PDPT_IDX va]) as [pd|] eqn:Epd.
    + by destruct (Hpd pd eq_refl) as [-> ->].
    + destruct (tab' [_; _]) as [pd'|] eqn:Epd'; [|done]. by rewrite (link_new_pd va pd').
Qed.

Lemma link_extends : extends s tab s' tab'.
Proof.
  split; [apply link_tree|done|done|apply link_grow|apply link_translate|apply link_huge].
Qed.
End Link.

Lemma get_or_create_table_spec s tab p i parent flags :
  pt_tree s tab → tab p = Some parent → (length p < 3)%nat → 0 ≤ i < 512 →
  (length p = 2%nat → pte_present (pte_at (mm_mem s) parent i) &&
     pte_huge (pte_at (mm_mem s) parent i) = false) → link_flags flags →
  match get_or_create_table parent i flags s with
  | Ok (t, s') => ∃ tab', extends s tab s' tab' ∧ tab' (p ++ [i]) = Some t
  | Panic _ => True
  | _ => False
  end.
Proof.
  intros Ht Hp Hl Hi Hh Hfl. unfold get_or_create_table.
  destruct (pte_present _) eqn:Hpres.
  - exists tab. split; [by apply extends_refl|].
    rewrite (pt_child _ _ Ht _ _ _ Hp Hl Hi). unfold leads_on. rewrite Hpres. cbn [andb] in *.
    destruct (Nat.eqb_spec (length p) 2) as [El|El]; [by rewrite (Hh El)|done].
  - pose proof (alloc_page_spec (mm_pages s) (pt_pages _ _ Ht)) as Hg.
    destruct (alloc_page (mm_pages s)) as [[phys a']| | |]; try done.
    cbn [mbind outcome_bind]. exists (tab_add (p ++ [i]) phys tab).
    split; [|apply tab_add_same].
    exact (link_extends s tab p i parent phys flags a' Ht Hp Hl Hi Hpres Hg Hfl).
Qed.

(** ** Writing a leaf entry *)

Lemma same_page_spec va va' :
  same_page va va' = true ↔ pt_path va = pt_path va' ∧ PT_IDX va = PT_IDX va'.
Proof. unfold same_page. apply bool_decide_eq_true. Qed.

Definition set_leaf (pt i e : Z) s : mmu A := on_heap (with_mem (set_pte pt i e)) s.

Lemma set_leaf_other s tab p t pt i e j :
  pt_tree s tab → tab p = Some pt → tab t = Some j → 0 ≤ i < 512 →
  ∀ k, 0 ≤ k < 512 → t ≠ p ∨ k ≠ i →
  pte_at (mm_mem (set_leaf pt i e s)) j k = pte_at (mm_mem s) j k.
Proof.
  intros Ht Hp Hj Hi k Hk Hne.
  destruct (pt_table _ _ Ht _ _ Hp) as (Ha & _). destruct (pt_table _ _ Ht _ _ Hj) as (Ha' & _).
  apply pte_set_other; [done..|]. destruct Hne as [Hne|Hne]; [left|by right].
  intros ->. apply Hne. by apply (pt_inj _ _ Ht _ _ pt).
Qed.

Lemma set_leaf_tree s tab va pt e :
  pt_tree s tab → tab (pt_path va) = Some pt → pt_tree (set_leaf pt (PT_IDX va) e s) tab.
Proof.
  intros Ht Hp. pose proof Ht as [H1 H2 H3 H4 H5 H6]. split; try done.
  intros q t j Hq Hl Hj.
  rewrite (set_leaf_other s tab (pt_path va) q pt (PT_IDX va) e t); try done;
    [by apply H4|apply pt_idx_range|].
  left. intros ->. simpl in Hl. lia.
Qed.

(** Exactly the page of [va] changes its translation. *)
Lemma set_leaf_translate s tab va pt e va' :
  pt_tree s tab → tab (pt_path va) = Some pt → is_u64 e →
  tree_translate (mm_mem (set_leaf pt (PT_IDX va) e s)) tab va' =
    if same_page va va' then
      (if pte_present e then PTE_ADDR e +₆₄ PAGE_OFFSET va' else 0)
    else tree_translate (mm_mem s) tab va'.
Proof.
  intros Ht Hp He. unfold tree_translate. unfold same_page.
  destruct (bool_decide_reflect (pt_path va = pt_path va' ∧ PT_IDX va = PT_IDX va')) as [[E1 E2]|Hne].
  - rewrite <- E1, Hp, <- E2.
    change (mm_mem (set_leaf pt (PT_IDX va) e s)) with (set_pte pt (PT_IDX va) e (mm_mem s)).
    by rewrite pte_set_same.
  - destruct (tab (pt_path va')) as [pt'|] eqn:Hp'.
    + rewrite (set_leaf_other s tab (pt_path va) (pt_path va') pt _ e pt');
        try done; try apply pt_idx_range.
      destruct (decide (pt_path va' = pt_path va)) as [E|]; [right|by left].
      intros Ei. by apply Hne.
    + destruct (tab [PML4_IDX va'; PDPT_IDX va']) as [pd|] eqn:Hpd; [|done].
      rewrite (set_leaf_other s tab (pt_path va) _ pt _ e pd Ht Hp Hpd); try done;
        [apply pt_idx_range|apply pd_idx_range|by left].
Qed.

Lemma set_leaf_huge s tab va pt e va' :
  pt_tree s tab → tab (pt_path va) = Some pt →
  huge_mapped (mm_mem (set_leaf pt (PT_IDX va) e s)) tab va' = huge_mapped (mm_mem s) tab va'.
Proof.
  intros Ht Hp. unfold huge_mapped.
  destruct (tab [PML4_IDX va'; PDPT_IDX va']) as [pd|] eqn:Hpd; [|done].
  rewrite (set_leaf_other s tab (pt_path va) _ pt _ e pd Ht Hp Hpd); try done;
    [apply pt_idx_range|apply pd_idx_range|by left].
Qed.

(** ** paging_map and paging_unmap *)

Lemma leaf_flags phys flags :
  frame phys → flags_ok flags →
  is_u64 (Z.lor phys flags) ∧ PTE_ADDR (Z.lor phys flags) = phys ∧
  pte_present (Z.lor phys flags) = pte_present flags.
Proof.
  intros Hf [Hu Ha]. split_and!; [apply lor_u64; [by apply frame_u64|done]|by apply entry_addr|].
  rewrite !pte_present_bit. apply entry_bit; [done|lia].
Qed.

Lemma link_flags_default : link_flags (Z.lor PTE_PRESENT PTE_WRITABLE).
Proof. by split_and!. Qed.

(** The tables of the whole path exist after the three lookups. *)
Lemma path_created virt s tab :
  pt_tree s tab → huge_mapped (mm_mem s) tab virt = false →
  ∀ phys flags,
  match paging_map virt phys flags s with
  | Ok (_, s') => ∃ s3 tab' pt, extends s tab s3 tab' ∧ tab' (pt_path virt) = Some pt ∧
      s' = tlb_flush_page virt (set_leaf pt (PT_IDX virt) (Z.lor phys flags) s3)
  | Panic _ => True
  | _ => False
  end.
Proof.
  intros Ht Hh phys flags. unfold paging_map.
  set (pw := Z.lor PTE_PRESENT PTE_WRITABLE).
  pose proof (get_or_create_table_spec s tab [] (PML4_IDX virt) _ pw Ht (pt_root _ _ Ht)
    ltac:(simpl; lia) (pml4_idx_range virt) ltac:(discriminate) link_flags_default) as H1.
  destruct (get_or_create_table _ _ _ s) as [[pdpt s1]| | |]; try done.
  cbn [mbind outcome_bind]. destruct H1 as (t1 & E1 & Hp1).
  pose proof (get_or_create_table_spec s1 t1 [PML4_IDX virt] (PDPT_IDX virt) _ pw (ex_tree _ _ _ _ E1) Hp1
    ltac:(simpl; lia) (pdpt_idx_range virt) ltac:(discriminate) link_flags_default) as H2.
  destruct (get_or_create_table _ _ _ s1) as [[pd s2]| | |]; try done.
  cbn [mbind outcome_bind]. destruct H2 as (t2 & E2 & Hp2).
  pose proof (extends_trans _ _ _ _ _ _ E1 E2) as E12.
  assert (pte_present (pte_at (mm_mem s2) pd (PD_IDX virt)) &&
          pte_huge (pte_at (mm_mem s2) pd (PD_IDX virt)) = false) as Hnh.
  { pose proof (ex_huge _ _ _ _ E12 virt) as Hx. rewrite Hh in Hx. unfold huge_mapped in Hx.
    simpl in Hp2. by rewrite Hp2 in Hx. }
  pose proof (get_or_create_table_spec s2 t2 [PML4_IDX virt; PDPT_IDX virt] (PD_IDX virt) _ pw
    (ex_tree _ _ _ _ E2) Hp2 ltac:(simpl; lia) (pd_idx_range virt) (fun _ => Hnh)
    link_flags_default) as H3.
  destruct (get_or_create_table _ _ _ s2) as [[pt s3]| | |]; try done.
  cbn [mbind outcome_bind]. destruct H3 as (t3 & E3 & Hp3).
  exists s3, t3, pt. split; [by eapply extends_trans|]. by split.
Qed.

(** What one or more calls of [paging_map] do: [f] gives the new translations. *)
Record remapped (f : Z → option Z) (virts : list Z) s tab s' tab' : Prop := mk_remapped {
  rm_tree : pt_tree s' tab';
  rm_cr3 : cr3 s' = cr3 s;
  rm_tlb : tlb_flushes s' = virts ++ tlb_flushes s;
  rm_translate : ∀ va, paging_virt_to_phys va s' =
    default (paging_virt_to_phys va s) (f va);
  rm_huge : ∀ va, huge_mapped (mm_mem s') tab' va = huge_mapped (mm_mem s) tab va;
}.

(** The translation that a mapping of [virt] to [phys] introduces. *)
Definition page_mapping (virt phys flags : Z) (va : Z) : option Z :=
  if same_page virt va
  then Some (if pte_present flags then phys +₆₄ PAGE_OFFSET va else 0) else None.

Lemma paging_map_remaps virt phys flags s tab :
  pt_tree s tab → frame phys → flags_ok flags → huge_mapped (mm_mem s) tab virt = false →
  match paging_map virt phys flags s with
  | Ok (_, s') => ∃ tab', remapped (page_mapping virt phys flags) [virt] s tab s' tab'
  | Panic _ => True
  | _ => False
  end.
Proof.
  intros Ht Hf Hfl Hh. pose proof (path_created virt s tab Ht Hh phys flags) as Hp.
  destruct (paging_map virt phys flags s) as [[[] s']| | |]; try done.
  destruct Hp as (s3 & tab' & pt & Ex & Hpt & ->). exists tab'.
  destruct (leaf_flags phys flags Hf Hfl) as (He & Ha & Hpr). pose proof (ex_tree _ _ _ _ Ex) as Ht3.
  pose proof (set_leaf_tree s3 tab' virt pt (Z.lor phys flags) Ht3 Hpt) as Ht4.
  split.
  - by destruct Ht4.
  - apply Ex.
  - cbn. f_equal. apply Ex.
  - intros va. unfold page_mapping.
    rewrite (translate_tree s tab va Ht).
    change (paging_virt_to_phys va (tlb_flush_page virt (set_leaf pt (PT_IDX virt) (Z.lor phys flags) s3)))
      with (paging_virt_to_phys va (set_leaf pt (PT_IDX virt) (Z.lor phys flags) s3)).
    rewrite (translate_tree _ tab' va Ht4), (set_leaf_translate s3 tab' virt pt _ va Ht3 Hpt He).
    rewrite Ha, Hpr. destruct (same_page virt va); [done|]. apply Ex.
  - intros va. change (mm_mem (tlb_flush_page virt ?x)) with (mm_mem x).
    rewrite (set_leaf_huge s3 tab' virt pt); [apply Ex|done|done].
Qed.

(** At most [n] pages are free. *)
Definition few_free (n : nat) (a : A) : Prop :=
  ∃ l : list Z, (length l ≤ n)%nat ∧
    ∀ q, 0 ≤ q < PAGE_LIMIT → used_page a q = false → q ∈ l.

Lemma few_free_weaken n n' a : (n ≤ n')%nat → few_free n a → few_free n' a.
Proof. intros Hn (l & Hl & Hf). exists l. split; [lia|done]. Qed.

Lemma few_free_grabbed n phys a a' :
  grabbed phys 1 a a' → few_free n a' → few_free (S n) a.
Proof.
  intros Hg (l & Hl & Hf). exists (phys / PAGE_SIZE :: l). split; [simpl; lia|].
  intros q Hq Hfree. destruct (decide (q = phys / PAGE_SIZE)) as [->|Hne]; [by left|].
  right. apply Hf; [done|]. rewrite (grabbed_used _ _ _ _ Hg), Hfree by done. zcases; lia.
Qed.

(** One step down the tables takes at most one page, and panics only when none
    is left. *)
Lemma get_or_create_table_takes parent idx flags s :
  alloc_inv (mm_pages s) →
  match get_or_create_table parent idx flags s with
  | Ok (_, s') => alloc_inv (mm_pages s') ∧
      ∀ n, few_free n (mm_pages s') → few_free (S n) (mm_pages s)
  | Panic _ => few_free 0 (mm_pages s)
  | _ => False
  end.
Proof.
  intros Hi. unfold get_or_create_table. destruct (pte_present _).
  - split; [done|]. intros n. apply few_free_weaken. lia.
  - pose proof (alloc_page_spec (mm_pages s) Hi) as Ha.
    destruct (alloc_page (mm_pages s)) as [[phys a']| | |]; cbn [mbind outcome_bind]; try done.
    + split; [apply Ha|]. intros n. by apply few_free_grabbed with phys.
    + exists []. split; [done|]. intros q Hq Hf. by rewrite Ha in Hf.
Qed.

(** Mapping one page panics only when fewer than three pages are free. *)
Lemma paging_map_panics virt phys flags s e :
  alloc_inv (mm_pages s) → paging_map virt phys flags s = Panic e → few_free 2 (mm_pages s).
Proof.
  intros Hi. unfold paging_map. set (pw := Z.lor PTE_PRESENT PTE_WRITABLE).
  pose proof (get_or_create_table_takes (pml4_of (cr3 s)) (PML4_IDX virt) pw s Hi) as H1.
  destruct (get_or_create_table _ _ _ s) as [[pdpt s1]| | |]; cbn [mbind outcome_bind]; try done;
    [|intros _; by eapply few_free_weaken; [|exact H1]; lia].
  destruct H1 as [Hi1 H1].
  pose proof (get_or_create_table_takes pdpt (PDPT_IDX virt) pw s1 Hi1) as H2.
  destruct (get_or_create_table _ _ _ s1) as [[pd s2]| | |]; cbn [mbind outcome_bind]; try done;
    [|intros _; eapply few_free_weaken; [|by apply H1]; lia].
  destruct H2 as [Hi2 H2].
  pose proof (get_or_create_table_takes pd (PD_IDX virt) pw s2 Hi2) as H3.
  destruct (get_or_create_table _ _ _ s2) as [[pt s3]| | |]; cbn [mbind outcome_bind]; try done.
  intros _. by apply H1, H2.
Qed.

(** (C12) Mapping a page of an address whose level 2 entry is not a 2 MiB page
    ([huge_mapped] is false), to an aligned frame with flags outside the address
    bits: the tables stay a tree of allocated, pairwise distinct pages, every
    address of that page translates to the new frame (to 0 when the flags lack
    PRESENT), every other address translates as before, and exactly the mapped
    address is flushed from the TLB.  The only other outcome is the allocator's
    panic, with fewer than three pages free.

    The condition is needed: boot.asm maps the first GiB with 2 MiB pages, and
    for an address in one of them [paging_map] takes the mapped frame for a page
    table, writes an entry into it and leaves the translation as it was
    ([paging_map_ignores_huge]; vmm.c:13). *)
Theorem paging_map_correct (virt phys flags : Z) (s : mmu A) (tab : list Z → option Z)
    (Htree : pt_tree s tab) (Hphys : frame phys) (Hflags : flags_ok flags)
    (Hsmall : huge_mapped (mm_mem s) tab virt = false) :
  match paging_map virt phys flags s with
  | Ok (_, s') =>
      (∃ tab', pt_tree s' tab') ∧ cr3 s' = cr3 s ∧
      tlb_flushes s' = virt :: tlb_flushes s ∧
      ∀ va, paging_virt_to_phys va s' =
        if same_page virt va
        then (if pte_present flags then phys +₆₄ PAGE_OFFSET va else 0)
        else paging_virt_to_phys va s
  | Panic _ => few_free 2 (mm_pages s)
  | _ => False
  end.
Proof.
  pose proof (paging_map_remaps virt phys flags s tab Htree Hphys Hflags Hsmall) as Hm.
  destruct (paging_map virt phys flags s) as [[[] s']| |e|] eqn:Em; try done.
  - destruct Hm as (tab' & [H1 H2 H3 H4 _]). split_and!; [by exists tab'|done|done|].
    intros va. rewrite H4. unfold page_mapping. by destruct (same_page virt va).
  - apply (paging_map_panics _ _ _ _ _ (pt_pages _ _ Htree) Em).
Qed.

(** The walk of [paging_unmap] reaches the leaf table, or the address was not
    mapped at all. *)
Lemma unmap_walk virt s tab :
  pt_tree s tab → huge_mapped (mm_mem s) tab virt = false →
  match tab (pt_path virt) with
  | Some pt => paging_unmap virt s = tlb_flush_page virt (set_leaf pt (PT_IDX virt) 0 s)
  | None => paging_unmap virt s = s
  end.
Proof.
  intros Ht Hh. unfold paging_unmap, pt_path, huge_mapped in *.
  pose proof (pt_step s tab [] _ (PML4_IDX virt) Ht (pt_root _ _ Ht) ltac:(simpl; lia)
    (pml4_idx_range virt)) as H4. simpl in H4.
  set (e4 := pte_at _ _ (PML4_IDX virt)) in *. destruct (pte_present e4) eqn:E4; cbn [negb].
  2: { pose proof (pt_none _ _ [PML4_IDX virt] (PDPT_IDX virt) Ht H4) as H3.
       pose proof (pt_none _ _ _ (PD_IDX virt) Ht H3) as H2. simpl in *. by rewrite H2. }
  pose proof (pt_step s tab _ _ (PDPT_IDX virt) Ht H4 ltac:(simpl; lia)
    (pdpt_idx_range virt)) as H3. simpl in H3.
  set (e3 := pte_at _ _ (PDPT_IDX virt)) in *. destruct (pte_present e3) eqn:E3; cbn [negb].
  2: { pose proof (pt_none _ _ _ (PD_IDX virt) Ht H3) as H2. simpl in *. by rewrite H2. }
  rewrite H3 in Hh.
  pose proof (pt_child _ _ Ht _ _ (PD_IDX virt) H3 ltac:(simpl; lia) (pd_idx_range virt)) as H2.
  simpl in H2. unfold leads_on in H2. cbn [length Nat.eqb] in H2.
  set (e2 := pte_at _ _ (PD_IDX virt)) in *.
  destruct (pte_present e2) eqn:E2; cbn [negb andb] in *; [|by rewrite H2].
  rewrite Hh in H2. cbn [negb] in H2. by rewrite H2.
Qed.

Lemma paging_unmap_remaps virt s tab :
  pt_tree s tab → huge_mapped (mm_mem s) tab virt = false →
  ∃ fl, remapped (fun va => if same_page virt va then Some 0 else None) fl s tab
    (paging_unmap virt s) tab.
Proof.
  intros Ht Hh. pose proof (unmap_walk virt s tab Ht Hh) as Hw.
  destruct (tab (pt_path virt)) as [pt|] eqn:Hpt; rewrite Hw.
  - exists [virt]. pose proof (set_leaf_tree s tab virt pt 0 Ht Hpt) as Ht4.
    split; [by destruct Ht4|done|done| |intros va; by apply set_leaf_huge].
    intros va. change (paging_virt_to_phys va (tlb_flush_page virt ?x)) with (paging_virt_to_phys va x).
    rewrite (translate_tree _ tab va Ht4), (set_leaf_translate s tab virt pt _ va Ht Hpt)
      by (unfold is_u64; lia).
    rewrite (translate_tree s tab va Ht). by destruct (same_page virt va).
  - exists []. split; try done. intros va. destruct (same_page virt va) eqn:Es; [|done].
    apply same_page_spec in Es as [Ep _]. rewrite (translate_tree s tab va Ht).
    unfold tree_translate. rewrite <- Ep, Hpt. unfold huge_mapped, pt_path in *.
    injection Ep as <- <- <-. cbn [default].
    destruct (tab [PML4_IDX virt; PDPT_IDX virt]) as [pd|] eqn:Hpd; [|done].
    pose proof (pt_child _ _ Ht _ _ (PD_IDX virt) Hpd ltac:(simpl; lia) (pd_idx_range virt)) as H2.
    simpl in H2. rewrite Hpt in H2. unfold leads_on in H2. cbn [length Nat.eqb andb] in H2.
    destruct (pte_present _); [|done]. cbn [andb] in *. by rewrite Hh in H2.
Qed.

(** (C36) Unmapping an address whose level 2 entry is not a 2 MiB page
    ([huge_mapped] is false), mapped or not: its page no longer translates, every
    other address translates as before, and the tables stay a tree.

    Inside a 2 MiB page, as boot.asm maps the first GiB, [paging_unmap] takes the
    mapped frame for a page table and zeroes a word of the data in it; the
    address stays mapped ([paging_unmap_ignores_huge]). *)
Theorem paging_unmap_correct (virt : Z) (s : mmu A) (tab : list Z → option Z)
    (Htree : pt_tree s tab) (Hsmall : huge_mapped (mm_mem s) tab virt = false) :
  pt_tree (paging_unmap virt s) tab ∧
  ∀ va, paging_virt_to_phys va (paging_unmap virt s) =
    if same_page virt va then 0 else paging_virt_to_phys va s.
Proof.
  destruct (paging_unmap_remaps virt s tab Htree Hsmall) as [fl [H1 _ _ H4 _]].
  split; [done|]. intros va. rewrite H4. by destruct (same_page virt va).
Qed.

(** ** Ranges *)

(** In the lower half of the address space the path is the page number. *)
Lemma same_page_low va va' :
  0 ≤ va < 281474976710656 → 0 ≤ va' < 281474976710656 →
  same_page va va' = (va / PAGE_SIZE =? va' / PAGE_SIZE).
Proof.
  intros Hv Hv'. unfold same_page, pt_path, PML4_IDX, PDPT_IDX, PD_IDX, PT_IDX, PAGE_SIZE.
  assert (∀ x k, 0 ≤ k → Z.land (Z.shiftr x (12 + k)) 511 = x / 4096 / 2 ^ k mod 512) as Hi.
  { intros x k Hk. change 511 with (Z.ones 9). rewrite Z.land_ones by lia.
    rewrite Z.shiftr_div_pow2, Z.pow_add_r, <- Z.div_div by lia. done. }
  pose proof (Hi va 27 ltac:(lia)) as A1. pose proof (Hi va 18 ltac:(lia)) as A2.
  pose proof (Hi va 9 ltac:(lia)) as A3. pose proof (Hi va 0 ltac:(lia)) as A4.
  pose proof (Hi va' 27 ltac:(lia)) as B1. pose proof (Hi va' 18 ltac:(lia)) as B2.
  pose proof (Hi va' 9 ltac:(lia)) as B3. pose proof (Hi va' 0 ltac:(lia)) as B4.
  change (12 + 27) with 39 in *. change (12 + 18) with 30 in *. change (12 + 9) with 21 in *.
  change (12 + 0) with 12 in *. rewrite A1, A2, A3, A4, B1, B2, B3, B4.
  change (2 ^ 27) with 134217728. change (2 ^ 18) with 262144. change (2 ^ 9) with 512.
  change (2 ^ 0) with 1.
  set (p := va / 4096). set (q := va' / 4096).
  assert (0 ≤ p < 68719476736 ∧ 0 ≤ q < 68719476736) as [Hp Hq]
    by (unfold p, q; Z.div_mod_to_equations; lia).
  clearbody p q. destruct (Z.eqb_spec p q) as [->|Hne]; [by apply bool_decide_eq_true_2|].
  apply bool_decide_eq_false_2. intros [[= E1 E2 E3] E4]. apply Hne.
  Z.div_mod_to_equations. lia.
Qed.

(** What a range of [n] pages from [virt] translates to. *)
Definition range_mapping (virt phys flags n : Z) (va : Z) : option Z :=
  if (virt <=? va) && (va <? virt + n * 4096)
  then Some (if pte_present flags then phys + (va - virt) else 0) else None.

Lemma page_mapping_low virt phys flags va :
  frame phys → virt mod PAGE_SIZE = 0 → 0 ≤ virt < 281474976710656 →
  0 ≤ va < 281474976710656 →
  page_mapping virt phys flags va = range_mapping virt phys flags 1 va.
Proof.
  intros [Hf _] Hal Hv Hva. unfold page_mapping, range_mapping.
  rewrite same_page_low by done. unfold PAGE_OFFSET, PAGE_SIZE in *.
  change 4095 with (Z.ones 12). rewrite Z.land_ones by lia. change (2 ^ 12) with 4096.
  pose proof (Z.mod_pos_bound va 4096 ltac:(lia)).
  rewrite wrap64_small by lia.
  destruct (Z.eqb_spec (virt / 4096) (va / 4096)) as [E|E], (Z.leb_spec virt va),
    (Z.ltb_spec va (virt + 1 * 4096)); cbn [andb]; try done;
    try (exfalso; Z.div_mod_to_equations; lia).
  replace (va mod 4096) with (va - virt) by (Z.div_mod_to_equations; lia). done.
Qed.

Lemma map_pages_spec n : ∀ off virt phys flags s tab,
  pt_tree s tab → flags_ok flags → virt mod PAGE_SIZE = 0 → phys mod PAGE_SIZE = 0 →
  off mod PAGE_SIZE = 0 → 0 ≤ off → 0 ≤ virt → 0 ≤ phys →
  virt + off + Z.of_nat n * 4096 ≤ 281474976710656 →
  phys + off + Z.of_nat n * 4096 ≤ 4503599627370496 →
  (∀ va, virt + off ≤ va < virt + off + Z.of_nat n * 4096 →
     huge_mapped (mm_mem s) tab va = false) →
  match map_pages n off virt phys flags s with
  | Ok (_, s') => ∃ tab', pt_tree s' tab' ∧ cr3 s' = cr3 s ∧
      ∀ va, 0 ≤ va < 281474976710656 → paging_virt_to_phys va s' =
        default (paging_virt_to_phys va s)
          (range_mapping (virt + off) (phys + off) flags (Z.of_nat n) va)
  | Panic _ => True
  | _ => False
  end.
Proof.
  induction n as [|n IH]; intros off virt phys flags s tab Ht Hfl Hv Hp Ho Hoff Hv0 Hp0 Hvl Hpl Hh.
  - exists tab. split_and!; [done..|]. intros va Hva. unfold range_mapping.
    destruct (Z.leb_spec (virt + off) va), (Z.ltb_spec va (virt + off + Z.of_nat 0 * 4096));
      (done || lia).
  - cbn [map_pages]. rewrite !wrap64_small by lia.
    assert (frame (phys + off)) as Hf
      by (split; [lia|unfold PAGE_SIZE in *; Z.div_mod_to_equations; lia]).
    assert ((virt + off) mod PAGE_SIZE = 0) as Hvo
      by (unfold PAGE_SIZE in *; Z.div_mod_to_equations; lia).
    pose proof (paging_map_remaps (virt + off) (phys + off) flags s tab Ht Hf Hfl
      (Hh (virt + off) ltac:(lia))) as Hm.
    destruct (paging_map (virt + off) (phys + off) flags s) as [[[] s1]| | |]; try done.
    destruct Hm as (tab1 & [H1 H2 H3 H4 H5]). cbn [mbind outcome_bind].
    specialize (IH (off + PAGE_SIZE) virt phys flags s1 tab1 H1 Hfl Hv Hp).
    unfold PAGE_SIZE in IH, Ho |- *.
    specialize (IH ltac:(Z.div_mod_to_equations; lia) ltac:(lia) Hv0 Hp0 ltac:(lia) ltac:(lia)).
    specialize (IH ltac:(intros va Hva; rewrite H5; apply Hh; lia)).
    destruct (map_pages n (off + 4096) virt phys flags s1) as [[u s']| | |]; try done.
    destruct IH as (tab' & G1 & G2 & G3). exists tab'. split_and!; [done|congruence|].
    intros va Hva. rewrite (G3 va Hva), H4, page_mapping_low by (done || lia).
    unfold range_mapping.
    destruct (Z.leb_spec (virt + off) va), (Z.ltb_spec va (virt + off + 1 * 4096)),
      (Z.leb_spec (virt + (off + 4096)) va),
      (Z.ltb_spec va (virt + (off + 4096) + Z.of_nat n * 4096)),
      (Z.ltb_spec va (virt + off + Z.of_nat (S n) * 4096)); cbn [andb default]; try (done || lia).
    destruct (pte_present flags); [cbn; lia|done].
Qed.

(** (Property) [vmm_map_range] over an aligned range of the lower half that
    holds no 2 MiB page: it returns 0 (or panics for want of memory), and then
    every address of the range, rounded up to whole pages, translates to the
    address at the same distance from [phys], and no other address of the lower
    half is affected. *)
Theorem vmm_map_range_correct (as_ virt phys size flags : Z) (s : mmu A)
    (tab : list Z → option Z) (Htree : pt_tree s tab) (Hflags : flags_ok flags)
    (Hpres : pte_present flags = true)
    (Hvirt : 0 ≤ virt ∧ virt mod PAGE_SIZE = 0) (Hphys : 0 ≤ phys ∧ phys mod PAGE_SIZE = 0)
    (Hsize : 0 ≤ size) (Hvfit : virt + size ≤ 281474976706560)
    (Hpfit : phys + size ≤ 4503599627366400)
    (Hsmall : ∀ va, virt ≤ va < virt + size + 4096 → huge_mapped (mm_mem s) tab va = false) :
  match vmm_map_range as_ virt phys size flags s with
  | Ok (r, s') => r = 0 ∧ (∃ tab', pt_tree s' tab') ∧
      ∀ va, 0 ≤ va < 281474976710656 → paging_virt_to_phys va s' =
        if (virt <=? va) && (va <? virt + (size + 4095) / 4096 * 4096)
        then phys + (va - virt) else paging_virt_to_phys va s
  | Panic _ => True
  | _ => False
  end.
Proof.
  unfold vmm_map_range. rewrite align_up64_page, (wrap64_small (size + 4095)) by lia.
  change PAGE_SIZE with 4096 at 1. rewrite Z.div_mul by lia.
  set (n := (size + 4095) / 4096).
  assert (0 ≤ n ∧ n * 4096 ≤ size + 4095) as [Hn Hn'] by (unfold n; Z.div_mod_to_equations; lia).
  destruct Hvirt as [Hv0 Hv], Hphys as [Hp0 Hp].
  pose proof (map_pages_spec (Z.to_nat n) 0 virt phys flags s tab Htree Hflags Hv Hp eq_refl
    ltac:(lia) Hv0 Hp0 ltac:(lia) ltac:(lia) ltac:(intros; apply Hsmall; lia)) as Hm.
  destruct (map_pages (Z.to_nat n) 0 virt phys flags s) as [[u s']| | |]; try done.
  cbn [mbind outcome_bind]. destruct Hm as (tab' & G1 & G2 & G3).
  split_and!; [done|by exists tab'|]. intros va Hva. rewrite (G3 va Hva). unfold range_mapping.
  rewrite !Z.add_0_r, Z2Nat.id, Hpres by lia. by destruct (_ && _).
Qed.
End Tree.

(** ** Concrete page tables *)

(** An empty PML4 in page 5. *)
Definition sample_mmu : mmu pmm := mk_mmu (mk_kheap (fun _ => 0) sample_pmm 0 0 0 0) 20480 [].
Definition sample_tab (p : list Z) : option Z := if bool_decide (p = []) then Some 20480 else None.

Lemma sample_tab_some p t : sample_tab p = Some t → p = [] ∧ t = 20480.
Proof. unfold sample_tab. destruct (bool_decide_reflect (p = [])); [by intros [= <-]|done]. Qed.

Lemma sample_page5 : page_used sample_pmm 5 = true.
Proof. vm_compute. reflexivity. Qed.

Lemma sample_mmu_tree : pt_tree sample_mmu sample_tab.
Proof.
  split.
  - reflexivity.
  - intros p t [-> ->]%sample_tab_some. unfold PAGE_SIZE, PAGE_LIMIT.
    split; [reflexivity|split; [lia|split; [reflexivity|exact sample_page5]]].
  - intros p q t [-> _]%sample_tab_some [-> _]%sample_tab_some. reflexivity.
  - intros p t i [-> ->]%sample_tab_some _ Hi.
    change (pte_at (mm_mem sample_mmu) 20480 i) with 0. reflexivity.
  - intros p i t [E _]%sample_tab_some. by apply app_eq_nil in E as [_ ?].
  - exact sample_pmm_inv.
Qed.

Lemma sample_not_huge va : huge_mapped (mm_mem sample_mmu) sample_tab va = false.
Proof. reflexivity. Qed.

Lemma sample_frame : frame 4194304.
Proof. split; [lia|reflexivity]. Qed.

Lemma sample_flags : flags_ok PTE_USER_RW.
Proof. split; [split; [discriminate|reflexivity]|reflexivity]. Qed.

(** Mapping one page there succeeds. *)
Lemma sample_map_ok :
  match paging_map 1073745920 4194304 PTE_USER_RW sample_mmu with Ok _ => True | _ => False end.
Proof. vm_compute. exact I. Qed.

Lemma sample_mapped : ∃ s' tab',
  paging_map 1073745920 4194304 PTE_USER_RW sample_mmu = Ok (tt, s') ∧
  remapped (page_mapping 1073745920 4194304 PTE_USER_RW) [1073745920] sample_mmu sample_tab s' tab'.
Proof.
  pose proof (paging_map_remaps 1073745920 4194304 PTE_USER_RW sample_mmu sample_tab
    sample_mmu_tree sample_frame sample_flags (sample_not_huge _)) as Hm.
  pose proof sample_map_ok as Hok.
  destruct (paging_map 1073745920 4194304 PTE_USER_RW sample_mmu) as [[[] s']| | |]; try done.
  destruct Hm as (tab' & Hr). by exists s', tab'.
Qed.

Lemma paging_map_correct_witness :
  ∃ s', paging_map 1073745920 4194304 PTE_USER_RW sample_mmu = Ok (tt, s') ∧
    paging_virt_to_phys 1073745925 sample_mmu = 0 ∧
    paging_virt_to_phys 1073745925 s' = 4194309.
Proof.
  pose proof (paging_map_correct 1073745920 4194304 PTE_USER_RW sample_mmu sample_tab
    sample_mmu_tree sample_frame sample_flags (sample_not_huge _)) as Hm.
  pose proof sample_map_ok as Hok.
  destruct (paging_map 1073745920 4194304 PTE_USER_RW sample_mmu) as [[[] s']| | |];
    [|destruct Hok..].
  destruct Hm as (_ & _ & _ & Ht). exists s'. split; [reflexivity|]. split; [reflexivity|].
  rewrite Ht. vm_compute. reflexivity.
Defined.

(** The page mapped above translates, and after unmapping it does not. *)
Lemma paging_unmap_correct_witness :
  ∃ s', paging_map 1073745920 4194304 PTE_USER_RW sample_mmu = Ok (tt, s') ∧
    paging_virt_to_phys 1073745925 s' = 4194309 ∧
    paging_virt_to_phys 1073745925 (paging_unmap 1073745920 s') = 0.
Proof.
  destruct sample_mapped as (s' & tab' & Hok & Hr).
  destruct (paging_unmap_correct 1073745920 s' tab' (rm_tree _ _ _ _ _ _ Hr)
    (rm_huge _ _ _ _ _ _ Hr 1073745920)) as [_ Ht].
  exists s'. split; [exact Hok|]. split.
  - rewrite (rm_translate _ _ _ _ _ _ Hr). vm_compute. reflexivity.
  - rewrite Ht. reflexivity.
Defined.

Lemma vmm_map_range_correct_witness :
  match vmm_map_range 0 1073741824 4194304 5000 PTE_USER_RW sample_mmu with
  | Ok (r, s') => r = 0 ∧ paging_virt_to_phys 1073746000 s' = 4198480
  | Panic _ => True
  | _ => False
  end.
Proof.
  pose proof (vmm_map_range_correct 0 1073741824 4194304 5000 PTE_USER_RW sample_mmu sample_tab
    sample_mmu_tree sample_flags eq_refl ltac:(split; [lia|reflexivity]) ltac:(split; [lia|reflexivity])
    ltac:(lia) ltac:(lia) ltac:(lia) (fun va _ => sample_not_huge va)) as Hm.
  destruct (vmm_map_range 0 1073741824 4194304 5000 PTE_USER_RW sample_mmu) as [[r s']| | |];
    try exact Hm.
  destruct Hm as (Hr & _ & Ht). split; [exact Hr|]. rewrite Ht by lia. reflexivity.
Defined.

(** ** Mapping inside a 2 MiB page

    The boot tables: PML4 at 4096, PDPT at 8192, PD at 12288, whose entry 0 is a
    2 MiB page at physical 0. *)
Definition huge_mmu : mmu pmm :=
  mk_mmu (mk_kheap (set_pte 12288 0 131 (set_pte 8192 0 12291 (set_pte 4096 0 8195 (fun _ => 0))))
    pmm_static 0 0 0 0) 4096 [].

(** [get_or_create_table] takes the 2 MiB frame for a page table: the new
    mapping is written into the frame (at physical 40) and the translation of
    the address does not change. *)
Example paging_map_ignores_huge :
  paging_virt_to_phys 20480 huge_mmu = 20480 ∧
  (fun r => paging_virt_to_phys 20480 (snd r)) <$> paging_map 20480 4194304 3 huge_mmu
    = Ok 20480 ∧
  (fun r => load64 (mm_mem (snd r)) 40) <$> paging_map 20480 4194304 3 huge_mmu = Ok 4194307.
Proof. vm_compute. split_and!; reflexivity. Qed.

(** And [paging_unmap] of an address in it zeroes the word at physical 40; the
    address stays mapped. *)
Example paging_unmap_ignores_huge :
  let s := on_heap (with_mem (fun m => store64 m 40 77)) huge_mmu in
  paging_virt_to_phys 20480 s = 20480 ∧ load64 (mm_mem s) 40 = 77 ∧
  paging_virt_to_phys 20480 (paging_unmap 20480 s) = 20480 ∧
  load64 (mm_mem (paging_unmap 20480 s)) 40 = 0.
Proof. vm_compute. split_and!; reflexivity. Qed.
