(* ===== verification/Ipc.v ===== *)
(** * kernel/ipc/ipc.c: pipes, message queues, shared memory

    Pipes and queues are heap objects, read and written field by field in
    memory; [msg_queues] and [shm_regions] are the static arrays of ipc.c.  The
    signal functions act on processes and are in Process.v. *)
From S2P Require Import Prelude Mem LibString PageAlloc Kheap.

(** ** Pipes

    [pipe_t]: buf at 0, read_pos at 4096, write_pos at 4104, bytes_available at
    4112, write_closed at 4120, read_closed at 4121. *)
Definition PIPE_BUF_SIZE : Z := 4096.
Definition PIPE_SIZEOF : Z := 4128.
Definition p_read_pos (m : mem) (p : Z) : Z := load64 m (p + 4096).
Definition p_write_pos (m : mem) (p : Z) : Z := load64 m (p + 4104).
Definition p_available (m : mem) (p : Z) : Z := load64 m (p + 4112).
Definition p_write_closed (m : mem) (p : Z) : bool := negb (load8 m (p + 4120) =? 0).
Definition p_read_closed (m : mem) (p : Z) : bool := negb (load8 m (p + 4121) =? 0).

(** The body of the copy loop of [pipe_read]. *)
Definition pipe_read_body (p buf i : Z) (m : mem) : mem :=
  let m := store8 m (buf + i) (load8 m (p + p_read_pos m p mod PIPE_BUF_SIZE)) in
  let m := store64 m (p + 4096) (p_read_pos m p +₆₄ 1) in
  store64 m (p + 4112) (p_available m p -₆₄ 1).

Definition pipe_read (p buf count : Z) (m : mem) : Z * mem :=
  if (p =? 0) || p_read_closed m p then (-1, m)
  else if p_available m p =? 0 then
    if p_write_closed m p then (0, m) else (-11, m)
  else
    let to_read := MIN count (p_available m p) in
    (to_read, c_for 0 to_read (pipe_read_body p buf) m).

(** The body of the copy loop of [pipe_write]. *)
Definition pipe_write_body (p buf i : Z) (m : mem) : mem :=
  let m := store8 m (p + p_write_pos m p mod PIPE_BUF_SIZE) (load8 m (buf + i)) in
  let m := store64 m (p + 4104) (p_write_pos m p +₆₄ 1) in
  store64 m (p + 4112) (p_available m p +₆₄ 1).

Definition pipe_write (p buf count : Z) (m : mem) : Z * mem :=
  if (p =? 0) || p_write_closed m p then (-1, m)
  else
    let space := PIPE_BUF_SIZE -₆₄ p_available m p in
    let to_write := MIN count space in
    if to_write =? 0 then (-11, m)
    else (to_write, c_for 0 to_write (pipe_write_body p buf) m).

(** ** Message queues

    [message_t] is 1040 bytes (sender, size, 1024 bytes of data); [msg_queue_t]:
    id at 0, messages at 8, head at 66568, tail at 66576, count at 66584. *)
Definition MSG_QUEUE_LEN : Z := 64.
Definition MSG_SIZEOF : Z := 1040.
Definition MSGQ_SIZEOF : Z := 66592.
Definition MAX_QUEUES : Z := 64.
Definition msg_slot (q i : Z) : Z := q + 8 + MSG_SIZEOF * i.
Definition q_head (m : mem) (q : Z) : Z := load64 m (q + 66568).
Definition q_tail (m : mem) (q : Z) : Z := load64 m (q + 66576).
Definition q_count (m : mem) (q : Z) : Z := load64 m (q + 66584).

(** ** Shared memory *)
Definition SHM_MAX_SIZE : Z := 1048576.
Definition SHM_MAX_SEGS : Z := 64.
Record shm_region : Type := mk_shm { shm_id : Z; shm_size : Z; shm_phys : Z; shm_refs : Z }.

(** The static data of ipc.c, the heap and the page allocator. *)
Record ipc (A : Type) : Type := mk_ipc {
  ipc_heap : kheap A;
  msg_queues : list Z;
  next_qid : Z;
  shm_regions : list shm_region;
  next_shmid : Z;
}.
Arguments mk_ipc {A}.
Arguments ipc_heap {A}.
Arguments msg_queues {A}.
Arguments next_qid {A}.
Arguments shm_regions {A}.
Arguments next_shmid {A}.

Definition with_heap {A} (h : kheap A) (s : ipc A) : ipc A :=
  mk_ipc h (msg_queues s) (next_qid s) (shm_regions s) (next_shmid s).
Definition ipc_with_mem {A} (f : mem → mem) (s : ipc A) : ipc A :=
  with_heap (with_mem f (ipc_heap s)) s.
Definition set_queue {A} (qid q : Z) (s : ipc A) : ipc A :=
  mk_ipc (ipc_heap s) (<[Z.to_nat qid := q]> (msg_queues s)) (next_qid s)
    (shm_regions s) (next_shmid s).
Definition set_next_qid {A} (n : Z) (s : ipc A) : ipc A :=
  mk_ipc (ipc_heap s) (msg_queues s) n (shm_regions s) (next_shmid s).
Definition set_region {A} (id : Z) (r : shm_region) (s : ipc A) : ipc A :=
  mk_ipc (ipc_heap s) (msg_queues s) (next_qid s)
    (<[Z.to_nat id := r]> (shm_regions s)) (next_shmid s).
Definition set_next_shmid {A} (n : Z) (s : ipc A) : ipc A :=
  mk_ipc (ipc_heap s) (msg_queues s) (next_qid s) (shm_regions s) n.

Definition no_region : shm_region := mk_shm 0 0 0 0.
#[export] Instance shm_region_inhabited : Inhabited shm_region := populate no_region.

(** [shm_regions[id]]. *)
Definition region {A} (s : ipc A) (id : Z) : shm_region := shm_regions s !!! Z.to_nat id.

(** The queue a [qid] names: the guard at the head of every queue operation. *)
Definition queue_of {A} (s : ipc A) (qid : Z) : option Z :=
  if (qid <? 0) || (qid >=? MAX_QUEUES) then None
  else let q := msg_queues s !!! Z.to_nat qid in if q =? 0 then None else Some q.

Definition msgq_send {A} (qid msg : Z) (s : ipc A) : Z * ipc A :=
  match queue_of s qid with
  | None => (-1, s)
  | Some q =>
      let m := kh_mem (ipc_heap s) in
      if MSG_QUEUE_LEN <=? q_count m q then (-11, s)
      else (0, ipc_with_mem (fun m =>
        let m := memcpy (msg_slot q (q_tail m q)) msg MSG_SIZEOF m in
        let m := store64 m (q + 66576) ((q_tail m q +₆₄ 1) mod MSG_QUEUE_LEN) in
        store64 m (q + 66584) (q_count m q +₆₄ 1)) s)
  end.

Definition msgq_recv {A} (qid msg : Z) (s : ipc A) : Z * ipc A :=
  match queue_of s qid with
  | None => (-1, s)
  | Some q =>
      let m := kh_mem (ipc_heap s) in
      if q_count m q =? 0 then (-11, s)
      else (0, ipc_with_mem (fun m =>
        let m := memcpy msg (msg_slot q (q_head m q)) MSG_SIZEOF m in
        let m := store64 m (q + 66568) ((q_head m q +₆₄ 1) mod MSG_QUEUE_LEN) in
        store64 m (q + 66584) (q_count m q -₆₄ 1)) s)
  end.

Section Ipc.
Context {A : Type} `{PageAlloc A}.

Definition pipe_create (fuel : nat) : kop (kheap A) Z := kcalloc fuel 1 PIPE_SIZEOF.
Definition pipe_destroy (p : Z) (s : kheap A) : kheap A := kfree p s.

Definition msgq_create (fuel : nat) : kop (ipc A) Z := fun s =>
  if MAX_QUEUES <=? next_qid s then Ok (-1, s)
  else
    '(q, h) ← kcalloc fuel 1 MSGQ_SIZEOF (ipc_heap s);
    let s := set_queue (next_qid s) q (with_heap h s) in
    if q =? 0 then Ok (-1, s)
    else
      let s := ipc_with_mem (fun m => store32 m q (next_qid s)) s in
      Ok (next_qid s, set_next_qid (next_qid s + 1) s).

Definition msgq_destroy (qid : Z) (s : ipc A) : ipc A :=
  match queue_of s qid with
  | None => s
  | Some q => set_queue qid 0 (with_heap (kfree q (ipc_heap s)) s)
  end.

Definition shm_create (size : Z) : kop (ipc A) Z := fun s =>
  if SHM_MAX_SEGS <=? next_shmid s then Ok (-1, s)
  else
    let size := ALIGN_UP64 size PAGE_SIZE in
    if SHM_MAX_SIZE <? size then Ok (-1, s)
    else
      '(phys, p) ← alloc_pages (size / PAGE_SIZE) (kh_pages (ipc_heap s));
      let s := with_heap (with_pages p (ipc_heap s)) s in
      if phys =? 0 then Ok (-1, s)
      else
        let id := next_shmid s in
        let s := set_region id (mk_shm id size phys 0) s in
        Ok (id, set_next_shmid (id + 1) s).

(** [r->ref_count] is an [int] and wraps. *)
Definition shm_attach (shmid as_ : Z) (s : ipc A) : Z * ipc A :=
  if (shmid <? 0) || (shmid >=? SHM_MAX_SEGS) then (0, s)
  else
    let r := region s shmid in
    if shm_phys r =? 0 then (0, s)
    else (shm_phys r,
          set_region shmid (mk_shm (shm_id r) (shm_size r) (shm_phys r) (signed32 (wrap32 (shm_refs r + 1)))) s).

Definition shm_detach (shmid as_ addr : Z) (s : ipc A) : ipc A :=
  if (shmid <? 0) || (shmid >=? SHM_MAX_SEGS) then s
  else
    let r := region s shmid in
    if 0 <? shm_refs r
    then set_region shmid (mk_shm (shm_id r) (shm_size r) (shm_phys r) (shm_refs r - 1)) s
    else s.

Definition shm_destroy (shmid : Z) (s : ipc A) : ipc A :=
  if (shmid <? 0) || (shmid >=? SHM_MAX_SEGS) then s
  else
    let r := region s shmid in
    if shm_phys r =? 0 then s
    else
      let p := free_pages (shm_phys r) (shm_size r / PAGE_SIZE) (kh_pages (ipc_heap s)) in
      let s := with_heap (with_pages p (ipc_heap s)) s in
      set_region shmid (mk_shm (shm_id r) (shm_size r) 0 (shm_refs r)) s.
End Ipc.
