(* ===== verification/IpcSpec.v ===== *)
(** * Pipes and message queues as FIFO queues; shared memory regions

    Refinement of the byte-level operations of Ipc.v to operations on lists. *)
From S2P Require Import Prelude Mem LibString PageAlloc Pmm Kheap KheapInv KheapSpec KmallocSpec Ipc.

Lemma MIN_min a b : MIN a b = a `min` b.
Proof. unfold MIN. destruct (Z.ltb_spec a b); lia. Qed.

(** ** Pipes *)

(** The pipe at [p] holds the bytes [q], oldest first. *)
Record pipe_holds (m : mem) (p : Z) (q : list Z) : Prop := mk_pipe_holds {
  ph_bytes : mem_bytes m;
  ph_available : p_available m p = Z.of_nat (length q);
  ph_capacity : Z.of_nat (length q) ≤ PIPE_BUF_SIZE;
  ph_write_pos : p_write_pos m p mod PIPE_BUF_SIZE =
    (p_read_pos m p + Z.of_nat (length q)) mod PIPE_BUF_SIZE;
  ph_content : ∀ i x, q !! i = Some x →
    m (p + (p_read_pos m p + Z.of_nat i) mod PIPE_BUF_SIZE) = x;
}.

(** The user buffer does not overlap the pipe object. *)
Definition clear_of_pipe (p buf n : Z) : Prop := buf + n ≤ p ∨ p + PIPE_SIZEOF ≤ buf.

(** The bytes a transfer through [p] may touch: the buffer and the pipe up to its flags. *)
Definition untouched (p buf n x : Z) : Prop :=
  (x < buf ∨ buf + n ≤ x) ∧ (x < p ∨ p + 4120 ≤ x).

Lemma wrap_inc_mod n k : wrap64 (n + 1) mod 4096 = (n + 1) mod 4096 ∧
  (wrap64 (n + 1) + k) mod 4096 = (n + (1 + k)) mod 4096.
Proof. unfold wrap64. split; Z.div_mod_to_equations; lia. Qed.

Lemma pipe_read_step m p buf i x q :
  pipe_holds m p (x :: q) → buf + i < p ∨ p + PIPE_SIZEOF ≤ buf + i →
  let m' := pipe_read_body p buf i m in
  pipe_holds m' p q ∧ m' (buf + i) = x ∧
  ∀ y, y ≠ buf + i → y < p ∨ p + 4120 ≤ y → m' y = m y.
Proof.
  intros [Hby Hav Hcap Hwp Hc] Hbuf m'. unfold PIPE_SIZEOF in Hbuf.
  pose proof (load64_range m (p + 4096) Hby) as Hr. unfold is_u64 in Hr.
  pose proof (Z.mod_pos_bound (p_read_pos m p) 4096 ltac:(lia)) as Hmod.
  unfold m', pipe_read_body, p_read_pos, p_write_pos, p_available, PIPE_BUF_SIZE in *.
  set (m1 := store8 m (buf + i) _).
  assert (∀ a, p + 4096 ≤ a → a + 8 ≤ p + 4120 → load64 m1 a = load64 m a) as H1.
  { intros a Hl Hh. unfold m1. apply load64_store8_other. lia. }
  rewrite (H1 (p + 4096)), (load64_store64_other m1 (p + 4096)), (H1 (p + 4112)), Hav by lia.
  cbn [length] in *. rewrite (wrap64_small (Z.of_nat (S (length q)) - 1)) by lia.
  split; [|split].
  - split; unfold p_read_pos, p_write_pos, p_available, PIPE_BUF_SIZE.
    + unfold m1. by apply store64_bytes, store64_bytes, store8_bytes.
    + mem_simpl. rewrite wrap64_small; lia.
    + lia.
    + mem_simpl. rewrite H1 by lia. rewrite (wrap64_small (wrap64 _)) by apply wrap64_range.
      rewrite Hwp, (proj2 (wrap_inc_mod _ _)). f_equal. lia.
    + intros j y Hj. mem_simpl. rewrite (wrap64_small (wrap64 _)) by apply wrap64_range.
      rewrite (proj2 (wrap_inc_mod _ _)).
      pose proof (Z.mod_pos_bound (load64 m (p + 4096) + (1 + Z.of_nat j)) 4096 ltac:(lia)).
      rewrite !store64_other by lia. unfold m1. rewrite store8_other by lia.
      rewrite <- (Hc (S j) y Hj). do 3 f_equal. lia.
  - rewrite !store64_other by lia. unfold m1. rewrite store8_same. unfold load8.
    specialize (Hc 0%nat x eq_refl). rewrite Z.add_0_r in Hc. rewrite Hc.
    apply wrap8_byte. rewrite <- Hc. apply Hby.
  - intros y Hy Hy'. rewrite !store64_other by lia. unfold m1. by apply store8_other.
Qed.

Lemma pipe_write_step m p buf i q :
  pipe_holds m p q → buf + i < p ∨ p + PIPE_SIZEOF ≤ buf + i →
  Z.of_nat (length q) < PIPE_BUF_SIZE →
  let m' := pipe_write_body p buf i m in
  pipe_holds m' p (q ++ [m (buf + i)]) ∧ ∀ y, y < p ∨ p + 4120 ≤ y → m' y = m y.
Proof.
  intros [Hby Hav Hcap Hwp Hc] Hbuf Hroom m'. unfold PIPE_SIZEOF in Hbuf.
  pose proof (load64_range m (p + 4104) Hby) as Hr. unfold is_u64 in Hr.
  pose proof (Z.mod_pos_bound (p_write_pos m p) 4096 ltac:(lia)) as Hmod.
  unfold m', pipe_write_body, p_read_pos, p_write_pos, p_available, PIPE_BUF_SIZE in *.
  set (w := load64 m (p + 4104) mod 4096) in *.
  set (m1 := store8 m (p + w) _).
  assert (∀ a, p + 4096 ≤ a → a + 8 ≤ p + 4120 → load64 m1 a = load64 m a) as H1.
  { intros a Hl Hh. unfold m1. apply load64_store8_other. lia. }
  rewrite (H1 (p + 4104)), (load64_store64_other m1 (p + 4104)), (H1 (p + 4112)), Hav by lia.
  rewrite (wrap64_small (Z.of_nat (length q) + 1)) by lia.
  split.
  - split; unfold p_read_pos, p_write_pos, p_available, PIPE_BUF_SIZE; rewrite ?length_app; cbn [length].
    + unfold m1. by apply store64_bytes, store64_bytes, store8_bytes.
    + mem_simpl. rewrite wrap64_small; lia.
    + lia.
    + mem_simpl. rewrite H1 by lia. rewrite (wrap64_small (wrap64 _)) by apply wrap64_range.
      rewrite (proj1 (wrap_inc_mod _ 0)).
      replace (load64 m (p + 4096) + Z.of_nat (length q + 1))
        with (load64 m (p + 4096) + Z.of_nat (length q) + 1) by lia.
      rewrite <- Zplus_mod_idemp_l, <- (Zplus_mod_idemp_l (load64 m (p + 4096) + _)).
      fold w. by rewrite Hwp.
    + intros j y Hj. mem_simpl. rewrite H1 by lia.
      set (r := load64 m (p + 4096)) in *.
      pose proof (Z.mod_pos_bound (r + Z.of_nat j) 4096 ltac:(lia)).
      rewrite !store64_other by lia. unfold m1.
      apply lookup_app_Some in Hj as [Hj|[Hlen Hj]].
      * pose proof (lookup_lt_Some _ _ _ Hj). rewrite store8_other; [by apply Hc|].
        rewrite Hwp. intros E. Z.div_mod_to_equations. lia.
      * apply list_lookup_singleton_Some in Hj as [Hj <-].
        replace (Z.of_nat j) with (Z.of_nat (length q)) by lia. rewrite <- Hwp.
        rewrite store8_same. apply wrap8_byte, Hby.
  - intros y Hy. rewrite !store64_other by lia. unfold m1. apply store8_other. lia.
Qed.

(** What a whole transfer keeps: bytes outside the buffer and the pipe data,
    and in particular the two flags. *)
Lemma pipe_flags_kept m m' p :
  (∀ y, y < p ∨ p + 4120 ≤ y → m' y = m y) →
  p_write_closed m' p = p_write_closed m p ∧ p_read_closed m' p = p_read_closed m p.
Proof.
  intros H. unfold p_write_closed, p_read_closed, load8. rewrite !H by lia. done.
Qed.

Lemma pipe_read_loop m p buf n q :
  pipe_holds m p q → clear_of_pipe p buf n → 0 ≤ n ≤ Z.of_nat (length q) →
  let m' := c_for 0 n (pipe_read_body p buf) m in
  pipe_holds m' p (drop (Z.to_nat n) q) ∧
  (∀ i, (i < Z.to_nat n)%nat → q !! i = Some (m' (buf + Z.of_nat i))) ∧
  ∀ y, untouched p buf n y → m' y = m y.
Proof.
  intros Hh Hclear Hn m'. unfold clear_of_pipe in Hclear.
  pose (P := fun k (mk : mem) => pipe_holds mk p (drop (Z.to_nat k) q) ∧
    (∀ i, (i < Z.to_nat k)%nat → q !! i = Some (mk (buf + Z.of_nat i))) ∧
    ∀ y, untouched p buf n y → mk y = m y).
  apply (c_for_inv P); [lia|split; [done|split; [lia|done]]|].
  intros k mk Hk (Hh' & Hget & Hkeep).
  destruct (drop (Z.to_nat k) q) as [|x rest] eqn:Hd.
  { apply (f_equal length) in Hd. rewrite length_drop in Hd. simpl in Hd. lia. }
  destruct (pipe_read_step mk p buf k x rest Hh' ltac:(lia)) as (H1 & H2 & H3).
  unfold P. replace (Z.to_nat (k + 1)) with (S (Z.to_nat k)) by lia.
  assert (q !! Z.to_nat k = Some x) as Hqk
    by (rewrite <- (Nat.add_0_r (Z.to_nat k)), <- lookup_drop, Hd; done).
  split; [|split].
  - rewrite <- Nat.add_1_r, <- drop_drop, Hd. simpl. by rewrite drop_0.
  - intros i Hi. destruct (decide (i = Z.to_nat k)) as [->|Hne].
    + by rewrite Z2Nat.id, H2 by lia.
    + unfold PIPE_SIZEOF in Hclear. rewrite H3 by lia. apply Hget. lia.
  - intros y Hy. unfold untouched in *. rewrite H3 by lia. by apply Hkeep.
Qed.

Lemma pipe_write_loop m p buf n q :
  pipe_holds m p q → clear_of_pipe p buf n → 0 ≤ n →
  Z.of_nat (length q) + n ≤ PIPE_BUF_SIZE →
  let m' := c_for 0 n (pipe_write_body p buf) m in
  pipe_holds m' p (q ++ ((fun i => m (buf + Z.of_nat i)) <$> seq 0 (Z.to_nat n))) ∧
  ∀ y, y < p ∨ p + 4120 ≤ y → m' y = m y.
Proof.
  intros Hh Hclear Hn Hroom m'. unfold clear_of_pipe in Hclear.
  pose (P := fun k (mk : mem) =>
    pipe_holds mk p (q ++ ((fun i => m (buf + Z.of_nat i)) <$> seq 0 (Z.to_nat k))) ∧
    ∀ y, y < p ∨ p + 4120 ≤ y → mk y = m y).
  apply (c_for_inv P); [lia|split; [by rewrite app_nil_r|done]|].
  intros k mk Hk (Hh' & Hkeep). unfold PIPE_SIZEOF in Hclear.
  destruct (pipe_write_step mk p buf k _ Hh') as (H1 & H2).
  { unfold PIPE_SIZEOF. lia. }
  { rewrite length_app, length_fmap, length_seq. lia. }
  unfold P. replace (Z.to_nat (k + 1)) with (Z.to_nat k + 1)%nat by lia. split.
  - rewrite seq_app, fmap_app, app_assoc. simpl. rewrite Z2Nat.id by lia.
    rewrite <- (Hkeep (buf + k)) by lia. exact H1.
  - intros y Hy. rewrite H2 by done. by apply Hkeep.
Qed.

(** (Property) [pipe_read] refines reading from a byte queue: it fails with -1
    on a closed read end, returns 0 at the end of file and -11 when the pipe is
    empty but open; otherwise it removes the [min(count, available)] oldest bytes,
    which arrive in order in the buffer, and touches nothing else. *)
Theorem pipe_read_fifo (p buf count : Z) (m : mem) (q : list Z)
    (Hp : p ≠ 0) (Hpipe : pipe_holds m p q) (Hcount : 0 ≤ count)
    (Hclear : clear_of_pipe p buf (count `min` Z.of_nat (length q))) :
  let n := count `min` Z.of_nat (length q) in
  let '(r, m') := pipe_read p buf count m in
  if p_read_closed m p then r = -1 ∧ m' = m
  else if bool_decide (q = []) then r = (if p_write_closed m p then 0 else -11) ∧ m' = m
  else r = n ∧ pipe_holds m' p (drop (Z.to_nat n) q) ∧
    (∀ i, (i < Z.to_nat n)%nat → q !! i = Some (m' (buf + Z.of_nat i))) ∧
    (∀ y, untouched p buf n y → m' y = m y).
Proof.
  cbv zeta. unfold pipe_read. destruct (Z.eqb_spec p 0); [done|]. cbn [orb].
  destruct (p_read_closed m p); [done|].
  rewrite (ph_available _ _ _ Hpipe).
  destruct q as [|x q]; [by destruct (p_write_closed m p)|].
  destruct (Z.eqb_spec (Z.of_nat (length (x :: q))) 0) as [E|_]; [simpl in E; lia|].
  rewrite bool_decide_eq_false_2 by done.
  rewrite MIN_min.
  split; [done|]. apply pipe_read_loop; [done|done|lia].
Qed.

(** (Property) [pipe_write] refines appending to a bounded byte queue: -1 on a
    closed write end, -11 when nothing can be written (also for a count of 0);
    otherwise the first [min(count, 4096 - available)] bytes of the buffer are
    appended, and no byte outside the pipe data changes. *)
Theorem pipe_write_fifo (p buf count : Z) (m : mem) (q : list Z)
    (Hp : p ≠ 0) (Hpipe : pipe_holds m p q) (Hcount : 0 ≤ count)
    (Hclear : clear_of_pipe p buf count) :
  let n := count `min` (PIPE_BUF_SIZE - Z.of_nat (length q)) in
  let '(r, m') := pipe_write p buf count m in
  if p_write_closed m p then r = -1 ∧ m' = m
  else if n =? 0 then r = -11 ∧ m' = m
  else r = n ∧
    pipe_holds m' p (q ++ ((fun i => m (buf + Z.of_nat i)) <$> seq 0 (Z.to_nat n))) ∧
    (∀ y, y < p ∨ p + 4120 ≤ y → m' y = m y).
Proof.
  cbv zeta. unfold pipe_write. destruct (Z.eqb_spec p 0); [done|]. cbn [orb].
  destruct (p_write_closed m p); [done|].
  pose proof (ph_capacity _ _ _ Hpipe) as Hcap.
  rewrite (ph_available _ _ _ Hpipe). unfold PIPE_BUF_SIZE in *. rewrite wrap64_small by lia.
  rewrite MIN_min.
  destruct (_ =? 0) eqn:E; [done|]. split; [done|]. apply Z.eqb_neq in E.
  apply pipe_write_loop; [done|unfold clear_of_pipe in *; lia|lia|unfold PIPE_BUF_SIZE; lia].
Qed.

(** (Property) A pipe transports: what one write accepted is what the next read of
    the same size delivers, byte for byte, when the pipe was empty. *)
Theorem pipe_roundtrip (p src dst count : Z) (m : mem)
    (Hp : p ≠ 0) (Hpipe : pipe_holds m p []) (Hcount : 0 < count ≤ PIPE_BUF_SIZE)
    (Hopen : p_write_closed m p = false ∧ p_read_closed m p = false)
    (Hsrc : clear_of_pipe p src count) (Hdst : clear_of_pipe p dst count) :
  let '(w, m1) := pipe_write p src count m in
  let '(r, m2) := pipe_read p dst count m1 in
  w = count ∧ r = count ∧ pipe_holds m2 p [] ∧
  ∀ i, 0 ≤ i < count → m2 (dst + i) = m (src + i).
Proof.
  destruct Hopen as [Hwc Hrc].
  unfold pipe_write. destruct (Z.eqb_spec p 0); [done|]. rewrite Hwc. cbn [orb].
  rewrite (ph_available _ _ _ Hpipe). change (PIPE_BUF_SIZE -₆₄ Z.of_nat (length [])) with 4096.
  unfold PIPE_BUF_SIZE in Hcount.
  rewrite MIN_min, Z.min_l by lia.
  destruct (Z.eqb_spec count 0); [lia|].
  destruct (pipe_write_loop m p src count [] Hpipe Hsrc ltac:(lia) ltac:(simpl; unfold PIPE_BUF_SIZE; lia))
    as [Hh Hk].
  set (m1 := c_for 0 count (pipe_write_body p src) m) in *.
  destruct (pipe_flags_kept m m1 p Hk) as [_ Hrc'].
  unfold pipe_read. destruct (Z.eqb_spec p 0); [done|]. rewrite Hrc', Hrc. cbn [orb].
  rewrite (ph_available _ _ _ Hh). cbn [app] in *. set (q := _ <$> _) in *.
  assert (Z.of_nat (length q) = count) as Hlen
    by (unfold q; rewrite length_fmap, length_seq; lia).
  rewrite Hlen. destruct (Z.eqb_spec count 0); [lia|].
  rewrite MIN_min, Z.min_id.
  destruct (pipe_read_loop m1 p dst count q Hh Hdst ltac:(lia)) as (Hh2 & Hget & _).
  split_and!; [done..| |].
  - rewrite drop_ge in Hh2 by lia. exact Hh2.
  - intros i Hi. specialize (Hget (Z.to_nat i) ltac:(lia)). unfold q in Hget.
    rewrite list_lookup_fmap, lookup_seq_lt in Hget by lia. rewrite Z2Nat.id in Hget by lia.
    injection Hget as Hget. by rewrite <- Hget, Z2Nat.id by lia.
Qed.

(** ** Message queues *)

(** The 1040 bytes of a [message_t] at [a]. *)
Definition msg_holds (m : mem) (a : Z) (msg : list Z) : Prop :=
  Z.of_nat (length msg) = MSG_SIZEOF ∧ ∀ k x, msg !! k = Some x → m (a + Z.of_nat k) = x.

Record queue_holds (m : mem) (q : Z) (msgs : list (list Z)) : Prop := mk_queue_holds {
  qh_bytes : mem_bytes m;
  qh_count : q_count m q = Z.of_nat (length msgs);
  qh_capacity : Z.of_nat (length msgs) ≤ MSG_QUEUE_LEN;
  qh_head : 0 ≤ q_head m q < MSG_QUEUE_LEN;
  qh_tail : q_tail m q = (q_head m q + Z.of_nat (length msgs)) mod MSG_QUEUE_LEN;
  qh_content : ∀ i msg, msgs !! i = Some msg →
    msg_holds m (msg_slot q ((q_head m q + Z.of_nat i) mod MSG_QUEUE_LEN)) msg;
}.

Definition clear_of_queue (q a : Z) : Prop := a + MSG_SIZEOF ≤ q ∨ q + MSGQ_SIZEOF ≤ a.

Lemma msg_holds_frame m m' a msg :
  mem_agree m m' a (a + MSG_SIZEOF) → msg_holds m a msg → msg_holds m' a msg.
Proof.
  intros Hag [Hlen Hc]. split; [done|]. intros k x Hk.
  pose proof (lookup_lt_Some _ _ _ Hk). rewrite Hag by lia. by apply Hc.
Qed.

Lemma memcpy_bytes dst src n m : mem_bytes m → mem_bytes (memcpy dst src n m).
Proof.
  unfold memcpy. generalize (Z.to_nat n) as k. intros k. revert dst src m.
  induction k as [|k IH]; intros dst src m Hm; simpl; [done|]. by apply IH, store8_bytes.
Qed.

Lemma memcpy_msg m dst src msg :
  mem_bytes m → msg_holds m src msg → dst + MSG_SIZEOF ≤ src ∨ src + MSG_SIZEOF ≤ dst →
  msg_holds (memcpy dst src MSG_SIZEOF m) dst msg ∧
  ∀ x, x < dst ∨ dst + MSG_SIZEOF ≤ x → memcpy dst src MSG_SIZEOF m x = m x.
Proof.
  intros Hby [Hlen Hc] Hd. unfold MSG_SIZEOF in *.
  assert (∀ x, memcpy dst src 1040 m x =
    if (dst <=? x) && (x <? dst + 1040) then m (src + (x - dst)) else m x) as Hat
    by (intros x; apply memcpy_at; [lia|lia|done]).
  split; [split; [done|]|].
  - intros k x Hk. pose proof (lookup_lt_Some _ _ _ Hk). rewrite Hat.
    destruct (Z.leb_spec dst (dst + Z.of_nat k)), (Z.ltb_spec (dst + Z.of_nat k) (dst + 1040));
      try lia. cbn [andb]. rewrite <- (Hc k x Hk). f_equal. lia.
  - intros x Hx. rewrite Hat.
    destruct (Z.leb_spec dst x), (Z.ltb_spec x (dst + 1040)); cbn [andb]; (done || lia).
Qed.

(** The slots are disjoint and below the indices. *)
Lemma slot_bounds q i :
  0 ≤ i < MSG_QUEUE_LEN → q + 8 ≤ msg_slot q i ∧ msg_slot q i + MSG_SIZEOF ≤ q + 66568.
Proof. unfold msg_slot, MSG_SIZEOF, MSG_QUEUE_LEN. lia. Qed.

Lemma slot_disjoint q i j :
  i ≠ j → msg_slot q i + MSG_SIZEOF ≤ msg_slot q j ∨ msg_slot q j + MSG_SIZEOF ≤ msg_slot q i.
Proof. unfold msg_slot, MSG_SIZEOF. lia. Qed.

(** (Property) [msgq_send] appends: with room left it returns 0, the queue holds
    its old messages followed by the new one and no byte outside the queue
    changes; a queue of 64 messages refuses with -11 and stays as it is. *)
Theorem msgq_send_fifo {A} (qid msg q : Z) (s : ipc A) (msgs : list (list Z)) (x : list Z)
    (Hq : queue_of s qid = Some q) (Hh : queue_holds (kh_mem (ipc_heap s)) q msgs)
    (Hx : msg_holds (kh_mem (ipc_heap s)) msg x) (Hclear : clear_of_queue q msg) :
  let '(r, s') := msgq_send qid msg s in
  let m' := kh_mem (ipc_heap s') in
  if bool_decide (length msgs = 64%nat) then r = -11 ∧ s' = s
  else r = 0 ∧ queue_holds m' q (msgs ++ [x]) ∧
    ∀ y, y < q ∨ q + MSGQ_SIZEOF ≤ y → m' y = kh_mem (ipc_heap s) y.
Proof.
  unfold msgq_send. rewrite Hq. set (m := kh_mem (ipc_heap s)) in *.
  destruct Hh as [Hby Hcnt Hcap Hhd Htl Hc]. rewrite Hcnt. unfold MSG_QUEUE_LEN in *.
  destruct (Z.leb_spec 64 (Z.of_nat (length msgs))) as [Hfull|Hroom].
  { rewrite bool_decide_eq_true_2 by lia. done. }
  rewrite bool_decide_eq_false_2 by lia. split; [done|].
  cbn [ipc_with_mem with_heap ipc_heap with_mem kh_mem]. fold m.
  set (t := q_tail m q) in *.
  assert (0 ≤ t < 64) as Ht by (rewrite Htl; apply Z.mod_pos_bound; lia).
  pose proof (slot_bounds q t Ht) as Hsb. unfold clear_of_queue, MSGQ_SIZEOF in *.
  destruct (memcpy_msg m (msg_slot q t) msg x Hby Hx) as [Hnew Hold]; [lia|].
  set (m1 := memcpy (msg_slot q t) msg MSG_SIZEOF m) in *.
  assert (∀ a, q + 66568 ≤ a → load64 m1 a = load64 m a) as H1.
  { intros a Ha. apply load64_ext. intros y Hy. apply Hold. unfold MSG_SIZEOF in *. lia. }
  assert (q_tail m1 q = t) as -> by (apply H1; lia).
  rewrite (wrap64_small (t + 1)) by lia.
  set (m2 := store64 m1 (q + 66576) ((t + 1) mod 64)).
  assert (q_count m2 q = Z.of_nat (length msgs)) as ->.
  { unfold q_count, m2. mem_simpl. rewrite H1 by lia. exact Hcnt. }
  rewrite (wrap64_small (Z.of_nat (length msgs) + 1)) by lia.
  assert (∀ y, y < q + 66576 ∨ q + 66592 ≤ y →
    store64 m2 (q + 66584) (Z.of_nat (length msgs) + 1) y = m1 y) as H2.
  { intros y Hy. unfold m2. rewrite !store64_other by lia. done. }
  assert (mem_bytes m1) as Hby1 by (by apply memcpy_bytes).
  assert (load64 (store64 m2 (q + 66584) (Z.of_nat (length msgs) + 1)) (q + 66568) = q_head m q) as Hhd'.
  { unfold m2. mem_simpl. by apply H1. }
  split.
  - split; unfold q_head, q_tail, q_count, MSG_QUEUE_LEN; rewrite ?Hhd', ?length_app; cbn [length].
    + unfold m2. by apply store64_bytes, store64_bytes.
    + mem_simpl. rewrite wrap64_small; lia.
    + lia.
    + done.
    + unfold m2. mem_simpl. rewrite wrap64_small by (Z.div_mod_to_equations; lia).
      rewrite Htl. rewrite Zplus_mod_idemp_l. f_equal. lia.
    + intros i y Hi. apply lookup_app_Some in Hi as [Hi|[Hlen Hi]].
      * pose proof (lookup_lt_Some _ _ _ Hi).
        set (j := (q_head m q + Z.of_nat i) mod 64).
        assert (0 ≤ j < 64) as Hj by (apply Z.mod_pos_bound; lia).
        assert (j ≠ t) as Hjt by (rewrite Htl; unfold j; Z.div_mod_to_equations; lia).
        pose proof (slot_bounds q j Hj). pose proof (slot_disjoint q j t Hjt).
        unfold MSG_SIZEOF in *.
        eapply msg_holds_frame; [|by apply Hc]. fold j. intros z Hz. unfold MSG_SIZEOF in Hz.
        rewrite H2, Hold by lia. done.
      * apply list_lookup_singleton_Some in Hi as [Hi <-].
        replace (Z.of_nat i) with (Z.of_nat (length msgs)) by lia. rewrite <- Htl.
        eapply msg_holds_frame; [|exact Hnew]. intros z Hz. unfold MSG_SIZEOF in *.
        apply H2. lia.
  - intros y Hy. unfold MSG_SIZEOF in *. rewrite H2, Hold by lia. done.
Qed.

(** (Property) [msgq_recv] removes the oldest message: it is copied whole into the
    caller's buffer and nothing else outside the queue changes; an empty queue
    answers -11 and stays as it is. *)
Theorem msgq_recv_fifo {A} (qid buf q : Z) (s : ipc A) (msgs : list (list Z))
    (Hq : queue_of s qid = Some q) (Hh : queue_holds (kh_mem (ipc_heap s)) q msgs)
    (Hclear : clear_of_queue q buf) :
  let '(r, s') := msgq_recv qid buf s in
  let m' := kh_mem (ipc_heap s') in
  match msgs with
  | [] => r = -11 ∧ s' = s
  | x :: rest => r = 0 ∧ queue_holds m' q rest ∧ msg_holds m' buf x ∧
      ∀ y, y < q ∨ q + MSGQ_SIZEOF ≤ y → y < buf ∨ buf + MSG_SIZEOF ≤ y →
        m' y = kh_mem (ipc_heap s) y
  end.
Proof.
  unfold msgq_recv. rewrite Hq. set (m := kh_mem (ipc_heap s)) in *.
  destruct Hh as [Hby Hcnt Hcap Hhd Htl Hc]. rewrite Hcnt. unfold MSG_QUEUE_LEN in *.
  destruct msgs as [|x rest]; [done|]. cbn [length] in *.
  destruct (Z.eqb_spec (Z.of_nat (S (length rest))) 0) as [|_]; [lia|].
  cbn [ipc_with_mem with_heap ipc_heap with_mem kh_mem]. fold m.
  set (h := q_head m q) in *.
  pose proof (slot_bounds q h Hhd) as Hsb. unfold clear_of_queue, MSGQ_SIZEOF in *.
  pose proof (Hc 0%nat x eq_refl) as Hx. rewrite Z.add_0_r, (Z.mod_small h 64) in Hx by done.
  destruct (memcpy_msg m buf (msg_slot q h) x Hby Hx) as [Hnew Hold]; [lia|].
  set (m1 := memcpy buf (msg_slot q h) MSG_SIZEOF m) in *.
  assert (∀ a, q ≤ a → a + 8 ≤ q + 66592 → load64 m1 a = load64 m a) as H1.
  { intros a Ha Ha'. apply load64_ext. intros y Hy. apply Hold. lia. }
  assert (q_head m1 q = h) as -> by (apply H1; lia).
  rewrite (wrap64_small (h + 1)) by lia.
  set (m2 := store64 m1 (q + 66568) ((h + 1) mod 64)).
  assert (q_count m2 q = Z.of_nat (S (length rest))) as ->.
  { unfold q_count, m2. mem_simpl. rewrite H1 by lia. exact Hcnt. }
  rewrite (wrap64_small (Z.of_nat (S (length rest)) - 1)) by lia.
  set (m3 := store64 m2 (q + 66584) _).
  assert (∀ y, y < q + 66568 ∨ q + 66592 ≤ y → m3 y = m1 y) as H2.
  { intros y Hy. unfold m3, m2. rewrite !store64_other by lia. done. }
  assert (load64 m3 (q + 66568) = (h + 1) mod 64) as Hhd'.
  { unfold m3, m2. mem_simpl. apply wrap64_small. Z.div_mod_to_equations; lia. }
  split; [done|]. split; [|split].
  - split; unfold q_head, q_tail, q_count, MSG_QUEUE_LEN; rewrite ?Hhd'.
    + unfold m3, m2. by apply store64_bytes, store64_bytes, memcpy_bytes.
    + unfold m3. mem_simpl. rewrite wrap64_small; lia.
    + lia.
    + apply Z.mod_pos_bound. lia.
    + unfold m3, m2. mem_simpl. rewrite H1 by lia. fold (q_tail m q). rewrite Htl.
      rewrite Zplus_mod_idemp_l. f_equal. lia.
    + intros i y Hi. rewrite Zplus_mod_idemp_l.
      set (j := (h + 1 + Z.of_nat i) mod 64).
      assert (0 ≤ j < 64) as Hj by (apply Z.mod_pos_bound; lia).
      pose proof (slot_bounds q j Hj).
      assert (msg_holds m (msg_slot q j) y) as Hy.
      { unfold j. replace (h + 1 + Z.of_nat i) with (h + Z.of_nat (S i)) by lia. by apply Hc. }
      eapply msg_holds_frame; [|exact Hy]. intros z Hz. rewrite H2, Hold by lia. done.
  - eapply msg_holds_frame; [|exact Hnew]. intros z Hz. apply H2. lia.
  - intros y Hy Hy'. rewrite H2, Hold by lia. done.
Qed.

(** ** Shared memory *)

Section Shm.
Context {A : Type} `{PageAllocSpec A}.

Definition ipc_pages (s : ipc A) : A := kh_pages (ipc_heap s).

Lemma region_set_same (id : Z) r (s : ipc A) :
  0 ≤ id → (Z.to_nat id < length (shm_regions s))%nat → region (set_region id r s) id = r.
Proof. intros Hid Hlen. unfold region, set_region. cbn. by apply list_lookup_total_insert_eq. Qed.

Lemma aligned_size size :
  is_u64 size →
  (ALIGN_UP64 size PAGE_SIZE = 0 ∧ (size = 0 ∨ SHM_MAX_SIZE < size)) ∨
  (0 < size ∧ ALIGN_UP64 size PAGE_SIZE = (size + 4095) / 4096 * 4096 ∧
   1 ≤ (size + 4095) / 4096).
Proof.
  intros Hs. unfold is_u64, SHM_MAX_SIZE in *. rewrite align_up64_page.
  destruct (Z.lt_ge_cases size 18446744073709547521).
  - destruct (Z.eq_dec size 0) as [->|]; [left; split; [reflexivity|by left]|].
    right. rewrite wrap64_small by lia. split_and!; [lia|done|Z.div_mod_to_equations; lia].
  - left. split; [|right; lia]. unfold wrap64. Z.div_mod_to_equations; lia.
Qed.

(** (C35) The life of a shared memory segment.  [shm_create] refuses with -1 a
    size of 0 or above 1 MiB (including those whose rounding wraps) and a full
    table; otherwise the segment owns fresh pages, attaching it yields their
    address, and destroying it, even while it is attached, returns exactly these
    pages to the allocator and makes later attachments fail. *)
Theorem shm_lifecycle (size as_ : Z) (s : ipc A)
    (Hsize : is_u64 size) (Hpages : alloc_inv (ipc_pages s))
    (Hnull : used_page (ipc_pages s) 0 = true)
    (Hid : 0 ≤ next_shmid s) (Htab : length (shm_regions s) = 64%nat) :
  match shm_create size s with
  | Ok (id, s') =>
      (id = -1 ∧ shm_regions s' = shm_regions s ∧
       (64 ≤ next_shmid s ∨ size = 0 ∨ SHM_MAX_SIZE < size)) ∨
      (id = next_shmid s ∧ next_shmid s' = id + 1 ∧
       ∃ phys, let n := (size + 4095) / 4096 in
         grabbed phys n (ipc_pages s) (ipc_pages s') ∧ phys ≠ 0 ∧
         let '(addr, s1) := shm_attach id as_ s' in
         addr = phys ∧ dropped phys n (ipc_pages s') (ipc_pages (shm_destroy id s1)) ∧
         fst (shm_attach id as_ (shm_destroy id s1)) = 0)
  | Panic _ => True
  | _ => False
  end.
Proof.
  unfold shm_create, SHM_MAX_SEGS.
  destruct (Z.leb_spec 64 (next_shmid s)); [left; split_and!; [done..|lia]|].
  set (sz := ALIGN_UP64 size PAGE_SIZE).
  destruct (Z.ltb_spec SHM_MAX_SIZE sz) as [Hbig|Hsmall].
  { left. split_and!; [done..|]. destruct (aligned_size size Hsize) as [[E _]|(? & E & _)];
      fold sz in E; unfold SHM_MAX_SIZE in *; [lia|].
    right; right. rewrite E in Hbig. Z.div_mod_to_equations; lia. }
  destruct (aligned_size size Hsize) as [[E Hsz]|(Hpos & E & Hn)]; fold sz in E; rewrite E.
  { change (0 / PAGE_SIZE) with 0. rewrite alloc_pages_zero. left. by split_and!; [..|right]. }
  change PAGE_SIZE with 4096. rewrite Z.div_mul by lia.
  set (n := (size + 4095) / 4096) in *. unfold SHM_MAX_SIZE in Hsmall.
  pose proof (alloc_pages_spec n (kh_pages (ipc_heap s)) Hpages ltac:(lia)) as Hg.
  destruct (alloc_pages n _) as [[phys a']| | |]; try done.
  cbn [mbind outcome_bind].
  assert (phys ≠ 0) as Hnz.
  { intros ->. pose proof (grabbed_free _ _ _ _ Hg 0) as Hf.
    change (0 / PAGE_SIZE) with 0 in Hf. unfold ipc_pages in Hnull. rewrite Hf in Hnull by lia. done. }
  destruct (Z.eqb_spec phys 0) as [|_]; [done|].
  right. split; [done|]. split; [done|]. exists phys. split; [exact Hg|]. split; [done|].
  change (next_shmid (with_heap (with_pages a' (ipc_heap s)) s)) with (next_shmid s).
  set (s' := set_next_shmid _ _).
  assert (region s' (next_shmid s) = mk_shm (next_shmid s) (n * 4096) phys 0) as Hr.
  { unfold s'. apply (region_set_same (next_shmid s) _ _); cbn; lia. }
  assert (length (shm_regions s') = 64%nat) as Hlen by (unfold s'; cbn; by rewrite length_insert).
  assert ((next_shmid s <? 0) || (next_shmid s >=? 64) = false) as Hrange
    by (destruct (Z.ltb_spec (next_shmid s) 0), (Z.geb_spec (next_shmid s) 64); (done || lia)).
  set (s1 := set_region (next_shmid s) (mk_shm (next_shmid s) (n * 4096) phys 1) s').
  assert (shm_attach (next_shmid s) as_ s' = (phys, s1)) as ->.
  { unfold shm_attach, SHM_MAX_SEGS. rewrite Hrange, Hr. cbn [shm_phys shm_id shm_size shm_refs].
    by destruct (Z.eqb_spec phys 0) as [|_]. }
  assert (region s1 (next_shmid s) = mk_shm (next_shmid s) (n * 4096) phys 1) as Hr1
    by (apply (region_set_same (next_shmid s) _ s'); lia).
  assert (length (shm_regions s1) = 64%nat) as Hlen1 by (unfold s1; cbn; by rewrite length_insert).
  unfold shm_destroy, SHM_MAX_SEGS. rewrite Hrange, Hr1. cbn [shm_phys shm_id shm_size shm_refs].
  destruct (Z.eqb_spec phys 0) as [|_]; [done|].
  split; [done|]. split.
  - change PAGE_SIZE with 4096. rewrite Z.div_mul by lia.
    apply (free_pages_spec phys n a'); [apply Hg|apply Hg|apply Hg|lia|apply Hg].
  - unfold shm_attach, SHM_MAX_SEGS. rewrite Hrange.
    assert (Z.to_nat (next_shmid s) < length (shm_regions s1))%nat as Hlt by lia.
    rewrite region_set_same; [done|lia|exact Hlt].
Qed.
End Shm.

(** ** Concrete objects *)

(** A pipe at 0x9000 into which the five bytes at 0x20000 were written. *)
Definition sample_src : mem := mem_image 131072 [1819043144; 111].
Definition sample_pipe_mem : mem := snd (pipe_write 36864 131072 5 sample_src).

Lemma sample_empty_pipe : pipe_holds sample_src 36864 [].
Proof.
  split; [apply mem_image_bytes|vm_compute; reflexivity|unfold PIPE_BUF_SIZE; simpl; lia
    |vm_compute; reflexivity|done].
Qed.

Lemma sample_pipe_holds : pipe_holds sample_pipe_mem 36864 [72; 101; 108; 108; 111].
Proof.
  destruct (pipe_write_loop sample_src 36864 131072 5 [] sample_empty_pipe) as [H _];
    [unfold clear_of_pipe, PIPE_SIZEOF; lia|lia|unfold PIPE_BUF_SIZE; simpl; lia|].
  exact H.
Qed.

Lemma pipe_read_fifo_witness :
  let '(r, m') := pipe_read 36864 196608 3 sample_pipe_mem in
  r = 3 ∧ pipe_holds m' 36864 [108; 111].
Proof.
  pose proof (pipe_read_fifo 36864 196608 3 sample_pipe_mem _ ltac:(lia) sample_pipe_holds
    ltac:(lia) ltac:(unfold clear_of_pipe, PIPE_SIZEOF; simpl; lia)) as H.
  cbv zeta in H. destruct (pipe_read 36864 196608 3 sample_pipe_mem) as [r m'].
  assert (p_read_closed sample_pipe_mem 36864 = false) as E by (vm_compute; reflexivity).
  rewrite E in H. cbn [bool_decide] in H. destruct H as (Hr & Hp & _).
  split; [exact Hr|exact Hp].
Defined.

Lemma pipe_write_fifo_witness :
  let '(r, m') := pipe_write 36864 131073 2 sample_pipe_mem in
  r = 2 ∧ pipe_holds m' 36864 [72; 101; 108; 108; 111; 101; 108].
Proof.
  pose proof (pipe_write_fifo 36864 131073 2 sample_pipe_mem _ ltac:(lia) sample_pipe_holds
    ltac:(lia) ltac:(unfold clear_of_pipe, PIPE_SIZEOF; simpl; lia)) as H.
  cbv zeta in H. destruct (pipe_write 36864 131073 2 sample_pipe_mem) as [r m'].
  assert (p_write_closed sample_pipe_mem 36864 = false) as E by (vm_compute; reflexivity).
  rewrite E in H. destruct H as (Hr & Hp & _).
  split; [exact Hr|exact Hp].
Defined.

Lemma pipe_roundtrip_witness :
  let '(w, m1) := pipe_write 36864 131072 5 sample_src in
  let '(r, m2) := pipe_read 36864 196608 5 m1 in
  w = 5 ∧ r = 5 ∧ m2 196608 = 72.
Proof.
  pose proof (pipe_roundtrip 36864 131072 196608 5 sample_src ltac:(lia) sample_empty_pipe
    ltac:(unfold PIPE_BUF_SIZE; lia) ltac:(vm_compute; split; reflexivity)
    ltac:(unfold clear_of_pipe, PIPE_SIZEOF; lia)
    ltac:(unfold clear_of_pipe, PIPE_SIZEOF; lia)) as H.
  destruct (pipe_write 36864 131072 5 sample_src) as [w m1].
  destruct (pipe_read 36864 196608 5 m1) as [r m2].
  destruct H as (Hw & Hr & _ & Hx). split; [exact Hw|split; [exact Hr|]].
  replace 196608 with (196608 + 0) by lia. rewrite Hx by lia. vm_compute. reflexivity.
Defined.

(** A queue at 1 MiB with one message of zero bytes. *)
Definition sample_msg : list Z := replicate 1040 0.
Definition sample_ipc (m : mem) : ipc pmm :=
  mk_ipc (mk_kheap m sample_pmm 0 0 0 0) (1048576 :: replicate 63 0) 1
    (replicate 64 no_region) 0.
Definition one_msg : mem := store64 (store64 (fun _ => 0) 1115160 1) 1115152 1.

Lemma zero_msg m a : (∀ x, a ≤ x < a + 1040 → m x = 0) → msg_holds m a sample_msg.
Proof.
  intros H. split; [done|]. intros k x Hk. unfold sample_msg in Hk.
  apply lookup_replicate in Hk as [-> Hk]. apply H. lia.
Qed.

Lemma one_msg_holds : queue_holds one_msg 1048576 [sample_msg].
Proof.
  unfold one_msg. split; unfold q_head, q_count, q_tail, MSG_QUEUE_LEN; cbn [length].
  - apply store64_bytes, store64_bytes, zero_bytes.
  - vm_compute. reflexivity.
  - lia.
  - vm_compute. split; [discriminate|reflexivity].
  - vm_compute. reflexivity.
  - intros i msg Hi. apply list_lookup_singleton_Some in Hi as [-> <-].
    apply zero_msg. intros x Hx.
    replace (msg_slot _ _) with 1048584 in Hx by (vm_compute; reflexivity).
    by rewrite !store64_other by lia.
Qed.

Lemma msgq_send_fifo_witness :
  let '(r, s') := msgq_send 0 4096 (sample_ipc one_msg) in
  r = 0 ∧ queue_holds (kh_mem (ipc_heap s')) 1048576 [sample_msg; sample_msg].
Proof.
  pose proof (msgq_send_fifo 0 4096 1048576 (sample_ipc one_msg) [sample_msg] sample_msg
    eq_refl one_msg_holds) as H.
  specialize (H (zero_msg one_msg 4096 ltac:(intros x Hx; unfold one_msg;
    rewrite !store64_other by lia; reflexivity)) ltac:(left; unfold MSG_SIZEOF; lia)).
  destruct (msgq_send 0 4096 (sample_ipc one_msg)) as [r s'].
  destruct H as (Hr & Hq & _). split; [exact Hr|exact Hq].
Defined.

Lemma msgq_recv_fifo_witness :
  let '(r, s') := msgq_recv 0 4096 (sample_ipc one_msg) in
  r = 0 ∧ queue_holds (kh_mem (ipc_heap s')) 1048576 [].
Proof.
  pose proof (msgq_recv_fifo 0 4096 1048576 (sample_ipc one_msg) [sample_msg]
    eq_refl one_msg_holds ltac:(left; unfold MSG_SIZEOF; lia)) as H.
  destruct (msgq_recv 0 4096 (sample_ipc one_msg)) as [r s'].
  destruct H as (Hr & Hq & _). split; [exact Hr|exact Hq].
Defined.

Lemma shm_lifecycle_witness :
  match shm_create 5000 (sample_ipc one_msg) with
  | Ok (id, s') => id = 0 ∧ next_shmid s' = 1
  | Panic _ => True
  | _ => False
  end.
Proof.
  pose proof (shm_lifecycle 5000 0 (sample_ipc one_msg) ltac:(unfold is_u64; lia)
    sample_pmm_inv (proj2 sample_page_owned) ltac:(cbn; lia) eq_refl) as H.
  destruct (shm_create 5000 (sample_ipc one_msg)) as [[id s']| | |]; try exact H.
  destruct H as [(_ & _ & [Hn|[Hn|Hn]])|(-> & Hn & _)].
  - exfalso. cbn in Hn. lia.
  - discriminate Hn.
  - discriminate Hn.
  - split; [reflexivity|exact Hn].
Defined.
