(* ===== verification/IpcFifo.v ===== *)
(** * Pipes and message queues over whole runs

    The one-call lemmas of IpcSpec.v, put together: over any sequence of calls a
    pipe behaves like a bounded byte queue, a message queue like a bounded queue of
    messages, results included. *)
From S2P Require Import Prelude Mem LibString PageAlloc Pmm Kheap KheapInv KheapSpec KmallocSpec Ipc IpcSpec.

(** ** The specification of a pipe *)

Module ByteQueue.
Record t : Type := mk { content : list Z; write_closed : bool; read_closed : bool }.

(** [write bs]: the result and the queue after offering the bytes [bs]. *)
Definition write (bs : list Z) (x : t) : Z * t :=
  let room := (4096 - length (content x))%nat in
  if write_closed x then (-1, x)
  else if bool_decide (take room bs = []) then (-11, x)
  else (Z.of_nat (length (take room bs)),
        mk (content x ++ take room bs) (write_closed x) (read_closed x)).

(** [read n]: the result, the bytes delivered and the queue after asking for [n]. *)
Definition read (n : nat) (x : t) : Z * list Z * t :=
  if read_closed x then (-1, [], x)
  else if bool_decide (content x = []) then (if write_closed x then 0 else -11, [], x)
  else (Z.of_nat (length (take n (content x))), take n (content x),
        mk (drop n (content x)) (write_closed x) (read_closed x)).
End ByteQueue.

Inductive pipe_op : Type := PipeWrite (buf count : Z) | PipeRead (buf count : Z).

Definition pipe_op_ok (p : Z) (op : pipe_op) : Prop :=
  match op with PipeWrite buf count | PipeRead buf count => 0 ≤ count ∧ clear_of_pipe p buf count end.

(** The pipe at [p] and the queue [x] correspond. *)
Record pipe_rel (m : mem) (p : Z) (x : ByteQueue.t) : Prop := mk_pipe_rel {
  pr_holds : pipe_holds m p (ByteQueue.content x);
  pr_write : p_write_closed m p = ByteQueue.write_closed x;
  pr_read : p_read_closed m p = ByteQueue.read_closed x;
}.

(** The pipe and the queue go through the calls side by side: same results, same
    bytes delivered, nothing else touched. *)
Fixpoint pipe_agrees (p : Z) (ops : list pipe_op) (m : mem) (x : ByteQueue.t) : Prop :=
  match ops with
  | [] => pipe_rel m p x
  | PipeWrite buf count :: ops' =>
      let '(r, m') := pipe_write p buf count m in
      let '(r', x') := ByteQueue.write (bytes_at m buf (Z.to_nat count)) x in
      r = r' ∧ (∀ y, y < p ∨ p + 4120 ≤ y → m' y = m y) ∧ pipe_agrees p ops' m' x'
  | PipeRead buf count :: ops' =>
      let '(r, m') := pipe_read p buf count m in
      let '(r', bs, x') := ByteQueue.read (Z.to_nat count) x in
      r = r' ∧ bytes_at m' buf (length bs) = bs ∧
      (∀ y, untouched p buf (Z.of_nat (length bs)) y → m' y = m y) ∧ pipe_agrees p ops' m' x'
  end.

Lemma take_bytes_at m a n k : take k (bytes_at m a n) = bytes_at m a (k `min` n).
Proof.
  destruct (Nat.le_ge_cases k n) as [Hk|Hk].
  - rewrite Nat.min_l by done. replace n with (k + (n - k))%nat by lia.
    by rewrite bytes_at_add, take_app_length' by (by rewrite bytes_at_length).
  - rewrite Nat.min_r by done. by rewrite take_ge by (rewrite bytes_at_length; lia).
Qed.

Lemma bytes_at_nil m a n : bytes_at m a n = [] ↔ n = 0%nat.
Proof.
  split; [|by intros ->]. intros E. apply (f_equal length) in E. by rewrite bytes_at_length in E.
Qed.

(** One write. *)
Lemma pipe_write_rel p buf count m x :
  p ≠ 0 → pipe_rel m p x → pipe_op_ok p (PipeWrite buf count) →
  let '(r, m') := pipe_write p buf count m in
  let '(r', x') := ByteQueue.write (bytes_at m buf (Z.to_nat count)) x in
  r = r' ∧ (∀ y, y < p ∨ p + 4120 ≤ y → m' y = m y) ∧ pipe_rel m' p x'.
Proof.
  intros Hp [Hh Hw Hr] [Hc Hcl]. destruct x as [q wc rc]. cbn [ByteQueue.content ByteQueue.write_closed ByteQueue.read_closed] in *.
  pose proof (pipe_write_fifo p buf count m q Hp Hh Hc Hcl) as H. cbv zeta in H.
  pose proof (ph_capacity _ _ _ Hh) as Hcap. unfold PIPE_BUF_SIZE in *.
  unfold ByteQueue.write. cbn [ByteQueue.content ByteQueue.write_closed ByteQueue.read_closed].
  rewrite take_bytes_at, bytes_at_length.
  destruct (pipe_write p buf count m) as [r m']. rewrite Hw in H.
  destruct wc; [by destruct H as [-> ->]|].
  rewrite (bool_decide_ext _ _ (bytes_at_nil _ _ _)).
  destruct (Z.eqb_spec (count `min` (4096 - Z.of_nat (length q))) 0) as [E|E].
  - rewrite bool_decide_eq_true_2 by lia. by destruct H as [-> ->].
  - rewrite bool_decide_eq_false_2 by lia. destruct H as (-> & Hh' & Hk).
    destruct (pipe_flags_kept m m' p Hk) as [F1 F2].
    split; [lia|]. split; [done|]. split; cbn [ByteQueue.content ByteQueue.write_closed ByteQueue.read_closed].
    + replace ((4096 - length q) `min` Z.to_nat count)%nat
        with (Z.to_nat (count `min` (4096 - Z.of_nat (length q)))) by lia. exact Hh'.
    + by rewrite F1.
    + by rewrite F2.
Qed.

(** One read. *)
Lemma pipe_read_rel p buf count m x :
  p ≠ 0 → pipe_rel m p x → pipe_op_ok p (PipeRead buf count) →
  let '(r, m') := pipe_read p buf count m in
  let '(r', bs, x') := ByteQueue.read (Z.to_nat count) x in
  r = r' ∧ bytes_at m' buf (length bs) = bs ∧
  (∀ y, untouched p buf (Z.of_nat (length bs)) y → m' y = m y) ∧ pipe_rel m' p x'.
Proof.
  intros Hp [Hh Hw Hr] [Hc Hcl]. destruct x as [q wc rc]. cbn [ByteQueue.content ByteQueue.write_closed ByteQueue.read_closed] in *.
  pose proof (pipe_read_fifo p buf count m q Hp Hh Hc ltac:(unfold clear_of_pipe in *; lia)) as H. cbv zeta in H.
  unfold ByteQueue.read. cbn [ByteQueue.content ByteQueue.write_closed ByteQueue.read_closed].
  destruct (pipe_read p buf count m) as [r m']. rewrite Hr, Hw in H.
  destruct rc; [by destruct H as [-> ->]|].
  destruct (bool_decide (q = [])); [by destruct H as [-> ->]; destruct wc|].
  destruct H as (-> & Hh' & Hget & Hk). rewrite length_take.
  replace (Z.to_nat (count `min` Z.of_nat (length q))) with (Z.to_nat count `min` length q)%nat in Hget, Hh' by lia.
  assert (∀ y, untouched p buf (Z.of_nat (Z.to_nat count `min` length q)) y → m' y = m y) as Hk'.
  { intros y Hy. apply Hk. unfold untouched in *. lia. }
  assert (∀ y, p + 4120 ≤ y < p + PIPE_SIZEOF → m' y = m y) as Hflags.
  { intros y Hy. apply Hk. unfold untouched, clear_of_pipe in *. lia. }
  split; [lia|]. split; [|split; [exact Hk'|]].
  - apply list_eq. intros i. destruct (decide (i < Z.to_nat count `min` length q)%nat) as [Hi|Hi].
    + unfold bytes_at. rewrite list_lookup_fmap, lookup_seq_lt by done. cbn [fmap option_fmap option_map].
      rewrite lookup_take_lt, (Hget i Hi) by lia. done.
    + rewrite !lookup_ge_None_2; [done|rewrite length_take; lia|rewrite bytes_at_length; lia].
  - split; cbn [ByteQueue.content ByteQueue.write_closed ByteQueue.read_closed].
    + destruct (Nat.le_ge_cases (Z.to_nat count) (length q)) as [Hle|Hge].
      * by rewrite Nat.min_l in Hh' by done.
      * rewrite Nat.min_r in Hh' by done. by rewrite drop_ge in Hh' |- * by lia.
    + unfold p_write_closed, load8 in *. by rewrite Hflags by (unfold PIPE_SIZEOF; lia).
    + unfold p_read_closed, load8 in *. by rewrite Hflags by (unfold PIPE_SIZEOF; lia).
Qed.

(** (C23) A pipe refines a byte queue of 4096 bytes over every sequence of
    reads and writes: results, end of file and refusals included, the bytes
    delivered are those of the queue, and nothing but the pipe and the reader's
    buffer is touched. *)
Theorem pipe_refines_queue (p : Z) (ops : list pipe_op) (m : mem) (x : ByteQueue.t)
    (Hp : p ≠ 0) (Hx : pipe_rel m p x) (Hops : Forall (pipe_op_ok p) ops) :
  pipe_agrees p ops m x.
Proof.
  revert m x Hx. induction Hops as [|op ops Hop _ IH]; intros m x Hx; [done|].
  destruct op as [buf count|buf count]; cbn [pipe_agrees].
  - pose proof (pipe_write_rel p buf count m x Hp Hx Hop) as H.
    destruct (pipe_write p buf count m) as [r m'], (ByteQueue.write _ x) as [r' x'].
    destruct H as (-> & Hk & Hx'). by split_and!; [|exact Hk|apply IH].
  - pose proof (pipe_read_rel p buf count m x Hp Hx Hop) as H.
    destruct (pipe_read p buf count m) as [r m'], (ByteQueue.read _ x) as [[r' bs] x'].
    destruct H as (-> & Hb & Hk & Hx'). by split_and!; [| |exact Hk|apply IH].
Qed.

(** ** Message queues *)

Module MsgQueue.
Definition send (x : list Z) (q : list (list Z)) : Z * list (list Z) :=
  if bool_decide (length q = 64%nat) then (-11, q) else (0, q ++ [x]).
Definition recv (q : list (list Z)) : Z * option (list Z) * list (list Z) :=
  match q with [] => (-11, None, []) | x :: q' => (0, Some x, q') end.
End MsgQueue.

Inductive msg_op : Type := MsgSend (msg : Z) | MsgRecv (buf : Z).

Section Messages.
Context {A : Type}.
Implicit Types s : ipc A.

Definition ipc_mem s : mem := kh_mem (ipc_heap s).

Definition msg_op_ok (q : Z) (op : msg_op) : Prop :=
  match op with MsgSend a | MsgRecv a => clear_of_queue q a end.

Fixpoint msgq_agrees (qid q : Z) (ops : list msg_op) s (x : list (list Z)) : Prop :=
  match ops with
  | [] => queue_holds (ipc_mem s) q x
  | MsgSend a :: ops' =>
      let '(r, s') := msgq_send qid a s in
      let '(r', x') := MsgQueue.send (bytes_at (ipc_mem s) a 1040) x in
      r = r' ∧ (∀ y, y < q ∨ q + MSGQ_SIZEOF ≤ y → ipc_mem s' y = ipc_mem s y) ∧
      msgq_agrees qid q ops' s' x'
  | MsgRecv a :: ops' =>
      let '(r, s') := msgq_recv qid a s in
      let '(r', got, x') := MsgQueue.recv x in
      r = r' ∧ (∀ msg, got = Some msg → bytes_at (ipc_mem s') a 1040 = msg) ∧
      (∀ y, y < q ∨ q + MSGQ_SIZEOF ≤ y → y < a ∨ a + MSG_SIZEOF ≤ y → ipc_mem s' y = ipc_mem s y) ∧
      msgq_agrees qid q ops' s' x'
  end.

Lemma msg_holds_bytes m a : msg_holds m a (bytes_at m a 1040).
Proof.
  split; [by rewrite bytes_at_length|]. intros k x Hk. unfold bytes_at in Hk.
  rewrite list_lookup_fmap in Hk. apply fmap_Some in Hk as (i & Hi & ->).
  by apply lookup_seq in Hi as [-> _].
Qed.

Lemma bytes_msg_holds m a msg : msg_holds m a msg → bytes_at m a 1040 = msg.
Proof.
  intros [Hlen Hc]. unfold MSG_SIZEOF in Hlen. apply list_eq. intros i. unfold bytes_at. rewrite list_lookup_fmap.
  destruct (decide (i < 1040)%nat) as [Hi|Hi].
  - rewrite lookup_seq_lt by done. cbn [fmap option_fmap option_map Nat.add].
    destruct (lookup_lt_is_Some_2 msg i) as [v Hv]; [lia|]. by rewrite Hv, (Hc i v Hv).
  - rewrite !lookup_ge_None_2; [done|lia|rewrite length_seq; lia].
Qed.

(** The queue table is not changed by a transfer. *)
Lemma msgq_send_table qid a s : queue_of (snd (msgq_send qid a s)) qid = queue_of s qid.
Proof. unfold msgq_send. destruct (queue_of s qid) eqn:E; [|done]. by case_match. Qed.
Lemma msgq_recv_table qid a s : queue_of (snd (msgq_recv qid a s)) qid = queue_of s qid.
Proof. unfold msgq_recv. destruct (queue_of s qid) eqn:E; [|done]. by case_match. Qed.

(** (C24) A message queue refines a queue of at most 64 messages over every
    sequence of sends and receives: results and refusals included, each message
    arrives whole and in order, and nothing but the queue and the receiver's
    buffer is touched. *)
Theorem msgq_refines_queue (qid q : Z) (ops : list msg_op) s (x : list (list Z))
    (Hq : queue_of s qid = Some q) (Hx : queue_holds (ipc_mem s) q x) (Hops : Forall (msg_op_ok q) ops) :
  msgq_agrees qid q ops s x.
Proof.
  revert s x Hq Hx. induction Hops as [|op ops Hop _ IH]; intros s x Hq Hx; [done|].
  destruct op as [a|a]; cbn [msgq_agrees].
  - pose proof (msgq_send_fifo qid a q s x _ Hq Hx (msg_holds_bytes _ _) Hop) as H.
    pose proof (msgq_send_table qid a s) as Ht. unfold MsgQueue.send.
    destruct (msgq_send qid a s) as [r s']. cbn [snd] in Ht. cbv zeta in H.
    case_bool_decide as E; cycle 1.
    + destruct H as (-> & Hx' & Hk). split_and!; [done|exact Hk|]. apply IH; [by rewrite Ht|exact Hx'].
    + destruct H as [-> ->]. split_and!; [done..|]. by apply IH.
  - pose proof (msgq_recv_fifo qid a q s x Hq Hx Hop) as H.
    pose proof (msgq_recv_table qid a s) as Ht. unfold MsgQueue.recv.
    destruct (msgq_recv qid a s) as [r s']. cbn [snd] in Ht. cbv zeta in H.
    destruct x as [|msg x].
    + destruct H as [-> ->]. split_and!; [done..|]. by apply IH.
    + destruct H as (-> & Hx' & Hm & Hk). split_and!; [done| |exact Hk|].
      * intros ? [= <-]. by apply bytes_msg_holds.
      * apply IH; [by rewrite Ht|exact Hx'].
Qed.
End Messages.

(** ** Concrete runs *)

(** The pipe of IpcSpec.v holds "Hello"; a read of 3, a write of 2, a read of 9. *)
Definition hello : ByteQueue.t := ByteQueue.mk [72; 101; 108; 108; 111] false false.

Lemma pipe_refines_queue_witness :
  pipe_rel sample_pipe_mem 36864 hello ∧
  pipe_agrees 36864 [PipeRead 196608 3; PipeWrite 131073 2; PipeRead 196608 9] sample_pipe_mem hello.
Proof.
  assert (pipe_rel sample_pipe_mem 36864 hello) as Hr
    by (split; [exact sample_pipe_holds|vm_compute; reflexivity|vm_compute; reflexivity]).
  split; [exact Hr|]. apply (pipe_refines_queue 36864 _ sample_pipe_mem hello); [discriminate|exact Hr|].
  repeat (apply Forall_cons; split; [unfold pipe_op_ok, clear_of_pipe, PIPE_SIZEOF; lia|]). by apply Forall_nil.
Defined.

Lemma msgq_refines_queue_witness :
  queue_holds one_msg 1048576 [sample_msg] ∧
  msgq_agrees 0 1048576 [MsgSend 4096; MsgRecv 8192; MsgRecv 8192; MsgRecv 8192] (sample_ipc one_msg) [sample_msg].
Proof.
  split; [exact one_msg_holds|].
  apply (msgq_refines_queue 0 1048576 _ (sample_ipc one_msg)); [reflexivity|exact one_msg_holds|].
  repeat (apply Forall_cons; split; [unfold msg_op_ok, clear_of_queue, MSG_SIZEOF; lia|]). by apply Forall_nil.
Defined.
