(* ===== verification/Process.v ===== *)
(** * kernel/proc: processes, the run queue and the scheduler; signals of ipc.c

    A [process_t] is a heap object; the model keeps the objects in a typed
    store from addresses to records (the bytes of the heap are those of
    Kheap.v, of which only the allocation matters here).  A pointer is an
    address, 0 for NULL, and following one that names no process is [Undef].

    [context_switch] (switch.asm) is recorded as an event; what other processes
    do before the switch returns is not part of a call. *)
From S2P Require Import Prelude Mem LibString PageAlloc Kheap Paging.

Inductive proc_state : Type :=
  | PROC_CREATED | PROC_READY | PROC_RUNNING | PROC_BLOCKED
  | PROC_SLEEPING | PROC_ZOMBIE | PROC_DEAD.
#[export] Instance proc_state_eq_dec : EqDecision proc_state.
Proof. solve_decision. Defined.

Definition PROC_FLAG_KERNEL : Z := BIT 0.
Definition PROC_FLAG_USER : Z := BIT 1.
Definition MAX_PROCESSES : Z := 1024.
Definition KERNEL_STACK_SIZE : Z := 16384.
Definition PROCESS_SIZEOF : Z := 2368.
Definition SCHED_DEFAULT_QUANTUM : Z := 10.

(** The registers that process creation sets; the others are zero. *)
Record cpu_context : Type := mk_ctx { rip : Z; rsp : Z; cs : Z; ss : Z; rflags : Z }.

Record process : Type := mk_process {
  pid : Z;
  ppid : Z;
  name : string;
  state : proc_state;
  flags : Z;
  context : cpu_context;
  addr_space : Z;
  kernel_stack : Z;
  kernel_stack_phys : Z;
  kernel_stack_size : Z;
  exit_code : Z;
  runtime_ticks : Z;
  sleep_until : Z;
  priority : Z;
  vruntime : Z;
  next : Z;
  prev : Z;
}.

(** The all-zero object of [kcalloc] and [memset]. *)
Definition zero_process : process :=
  mk_process 0 0 EmptyString PROC_CREATED 0 (mk_ctx 0 0 0 0 0) 0 0 0 0 0 0 0 0 0 0 0.

Definition set_state (x : proc_state) (p : process) : process :=
  mk_process (pid p) (ppid p) (name p) x (flags p) (context p) (addr_space p) (kernel_stack p)
    (kernel_stack_phys p) (kernel_stack_size p) (exit_code p) (runtime_ticks p) (sleep_until p)
    (priority p) (vruntime p) (next p) (prev p).
Definition set_links (n v : Z) (p : process) : process :=
  mk_process (pid p) (ppid p) (name p) (state p) (flags p) (context p) (addr_space p)
    (kernel_stack p) (kernel_stack_phys p) (kernel_stack_size p) (exit_code p) (runtime_ticks p)
    (sleep_until p) (priority p) (vruntime p) n v.
Definition set_pnext (n : Z) (p : process) : process := set_links n (prev p) p.
Definition set_pprev (v : Z) (p : process) : process := set_links (next p) v p.
Definition set_times (rt sl vr : Z) (p : process) : process :=
  mk_process (pid p) (ppid p) (name p) (state p) (flags p) (context p) (addr_space p)
    (kernel_stack p) (kernel_stack_phys p) (kernel_stack_size p) (exit_code p) rt
    sl (priority p) vr (next p) (prev p).
Definition set_exit (code : Z) (p : process) : process :=
  mk_process (pid p) (ppid p) (name p) (state p) (flags p) (context p) (addr_space p)
    (kernel_stack p) (kernel_stack_phys p) (kernel_stack_size p) code (runtime_ticks p)
    (sleep_until p) (priority p) (vruntime p) (next p) (prev p).

(** The address of the static [idle_proc]; [kmalloc] returns addresses that are
    8 modulo 16. *)
Definition IDLE_PROC : Z := 1.

(** [g_runqueue]. *)
Record run_queue : Type := mk_rq {
  rq_head : Z; rq_tail : Z; rq_count : Z; current : Z; tick : Z
}.

(** The processes, the tables and the machine state below them. *)
Record sys (A : Type) : Type := mk_sys {
  procs : gmap Z process;
  proc_table : list Z;
  next_pid : Z;
  rq : run_queue;
  switches : list (Z * Z);       (* context_switch(old, new), latest first *)
  sys_mmu : mmu A;
}.
Arguments mk_sys {A}.
Arguments procs {A}.
Arguments proc_table {A}.
Arguments next_pid {A}.
Arguments rq {A}.
Arguments switches {A}.
Arguments sys_mmu {A}.

Section Store.
Context {A : Type}.
Implicit Types s : sys A.

Definition with_procs (f : gmap Z process → gmap Z process) s : sys A :=
  mk_sys (f (procs s)) (proc_table s) (next_pid s) (rq s) (switches s) (sys_mmu s).
Definition with_rq (f : run_queue → run_queue) s : sys A :=
  mk_sys (procs s) (proc_table s) (next_pid s) (f (rq s)) (switches s) (sys_mmu s).
Definition with_mmu (m : mmu A) s : sys A :=
  mk_sys (procs s) (proc_table s) (next_pid s) (rq s) (switches s) m.
Definition set_table (i p : Z) s : sys A :=
  mk_sys (procs s) (<[Z.to_nat i := p]> (proc_table s)) (next_pid s) (rq s) (switches s) (sys_mmu s).
Definition set_next_pid (n : Z) s : sys A :=
  mk_sys (procs s) (proc_table s) n (rq s) (switches s) (sys_mmu s).

Definition set_head (h : Z) (q : run_queue) : run_queue :=
  mk_rq h (rq_tail q) (rq_count q) (current q) (tick q).
Definition set_tail (t : Z) (q : run_queue) : run_queue :=
  mk_rq (rq_head q) t (rq_count q) (current q) (tick q).
Definition set_count (c : Z) (q : run_queue) : run_queue :=
  mk_rq (rq_head q) (rq_tail q) c (current q) (tick q).
Definition set_current (c : Z) (q : run_queue) : run_queue :=
  mk_rq (rq_head q) (rq_tail q) (rq_count q) c (tick q).
Definition set_tick (t : Z) (q : run_queue) : run_queue :=
  mk_rq (rq_head q) (rq_tail q) (rq_count q) (current q) t.

(** [*p], and [p->field = ...]. *)
Definition deref (p : Z) s : outcome process :=
  match procs s !! p with Some x => Ok x | None => Undef "not a process" end.
Definition update (p : Z) (f : process → process) s : outcome (sys A) :=
  x ← deref p s; Ok (with_procs <[p := f x]> s).

(** The registers are saved in one context and loaded from another; [switches] records it.
    In every caller the switch is the last thing done for the scheduler, so an operation
    ends at its switch.  What follows in the C code belongs to the old process and is done
    when that runs again: for the timer's interrupt see [Interrupts.resume_process], for a
    system call Syscall.v. *)
Definition context_switch (old new : Z) s : sys A :=
  mk_sys (procs s) (proc_table s) (next_pid s) (rq s) ((old, new) :: switches s) (sys_mmu s).

(** [proc_get]: the bound is checked, [pid_t] is unsigned. *)
Definition proc_get (i : Z) s : Z :=
  if MAX_PROCESSES <=? i then 0 else proc_table s !!! Z.to_nat i.
Definition proc_current s : Z := current (rq s).

(** ** sched.c *)

Definition sched_init s : sys A :=
  with_rq (fun _ => mk_rq 0 0 0 (proc_get 0 s) 0) s.

Definition sched_add (p : Z) s : outcome (sys A) :=
  if p =? 0 then Ok s
  else
    x ← deref p s;
    if bool_decide (state x ≠ PROC_READY) then Ok s
    else
      s ← update p (set_pnext 0) s;
      s ← update p (set_pprev (rq_tail (rq s))) s;
      s ← (if rq_tail (rq s) =? 0 then Ok (with_rq (set_head p) s)
           else update (rq_tail (rq s)) (set_pnext p) s);
      let s := with_rq (set_tail p) s in
      Ok (with_rq (fun q => set_count (rq_count q +₃₂ 1) q) s).

Definition sched_remove (p : Z) s : outcome (sys A) :=
  if p =? 0 then Ok s
  else
    x ← deref p s;
    s ← (if prev x =? 0 then Ok (with_rq (set_head (next x)) s)
         else update (prev x) (set_pnext (next x)) s);
    x ← deref p s;
    s ← (if next x =? 0 then Ok (with_rq (set_tail (prev x)) s)
         else update (next x) (set_pprev (prev x)) s);
    s ← update p (set_links 0 0) s;
    Ok (with_rq (fun q => if 0 <? rq_count q then set_count (rq_count q - 1) q else q) s).

(** The [while (cur)] loop of [pick_next]. *)
Fixpoint pick_loop (fuel : nat) (cur best : Z) s : outcome Z :=
  match fuel with
  | O => Diverge
  | S fuel' =>
      if cur =? 0 then Ok best
      else
        x ← deref cur s;
        better ← (if bool_decide (state x = PROC_READY) then
                    if best =? 0 then Ok true
                    else b ← deref best s; Ok (vruntime x <? vruntime b)
                  else Ok false);
        pick_loop fuel' (next x) (if better : bool then cur else best) s
  end.

Definition pick_next (fuel : nat) s : outcome Z :=
  if rq_head (rq s) =? 0 then Ok (proc_get 0 s)
  else
    best ← pick_loop fuel (rq_head (rq s)) 0 s;
    Ok (if best =? 0 then proc_get 0 s else best).

(** "Wake sleeping processes". *)
Fixpoint wake_loop (fuel : nat) (p : Z) s : outcome (sys A) :=
  match fuel with
  | O => Diverge
  | S fuel' =>
      if p =? 0 then Ok s
      else
        x ← deref p s;
        s ← (if bool_decide (state x = PROC_SLEEPING) && (sleep_until x <=? tick (rq s))
             then update p (set_state PROC_READY) s else Ok s);
        wake_loop fuel' (next x) s
  end.

(** The switch to [nxt] at the end of [sched_tick] and [sched_yield]. *)
Definition switch_to (cur nxt : Z) s : outcome (sys A) :=
  if negb (nxt =? 0) && negb (nxt =? cur) then
    let s := with_rq (set_current nxt) s in
    s ← update nxt (set_state PROC_RUNNING) s;
    Ok (context_switch cur nxt s)
  else Ok s.

Definition sched_tick (fuel : nat) s : outcome (sys A) :=
  let s := with_rq (fun q => set_tick (tick q +₆₄ 1) q) s in
  let cur := current (rq s) in
  if cur =? 0 then Ok s
  else
    s ← update cur (fun x => set_times (runtime_ticks x +₆₄ 1) (sleep_until x)
           (vruntime x +₃₂ (255 -₃₂ priority x +₃₂ 1)) x) s;
    s ← wake_loop fuel (rq_head (rq s)) s;
    x ← deref cur s;
    if runtime_ticks x mod SCHED_DEFAULT_QUANTUM =? 0 then
      s ← (if bool_decide (state x = PROC_RUNNING)
           then update cur (set_state PROC_READY) s else Ok s);
      nxt ← pick_next fuel s;
      switch_to cur nxt s
    else Ok s.

Definition sched_yield (fuel : nat) s : outcome (sys A) :=
  let cur := current (rq s) in
  if cur =? 0 then Ok s
  else
    s ← update cur (set_state PROC_READY) s;
    nxt ← pick_next fuel s;
    switch_to cur nxt s.

Definition sched_sleep (fuel : nat) (ms : Z) s : outcome (sys A) :=
  let cur := current (rq s) in
  if cur =? 0 then Ok s
  else
    s ← update cur (set_state PROC_SLEEPING) s;
    s ← update cur (fun x => set_times (runtime_ticks x) (tick (rq s) +₆₄ ms) (vruntime x) x) s;
    sched_yield fuel s.

Definition sched_wake (p : Z) s : outcome (sys A) :=
  if p =? 0 then Ok s
  else
    x ← deref p s;
    if bool_decide (state x = PROC_SLEEPING) || bool_decide (state x = PROC_BLOCKED)
    then update p (set_state PROC_READY) s else Ok s.

(** ** process.c *)

Definition proc_exit (fuel : nat) (p code : Z) s : outcome (sys A) :=
  if p =? 0 then Ok s
  else
    s ← update p (set_exit code) s;
    s ← update p (set_state PROC_ZOMBIE) s;
    sched_yield fuel s.

Definition proc_kill (fuel : nat) (i sig : Z) s : outcome (sys A) :=
  let p := proc_get i s in
  if p =? 0 then Ok s else proc_exit fuel p (-1) s.

(** ** The signals of ipc.c *)
Definition NSIG : Z := 32.
Definition SIGKILL : Z := 9.
Definition SIGTERM : Z := 15.
Definition SIGCONT : Z := 18.
Definition SIGSTOP : Z := 19.

(** [signal_handlers] is an array of its own, never read by the kernel. *)
Definition signal_set_handler (signo handler : Z) (handlers : list Z) : list Z :=
  if (0 <? signo) && (signo <? NSIG) then <[Z.to_nat signo := handler]> handlers else handlers.

Definition signal_send (fuel : nat) (i signo : Z) s : outcome (sys A) :=
  let p := proc_get i s in
  if p =? 0 then Ok s
  else if (signo =? SIGKILL) || (signo =? SIGTERM) then proc_exit fuel p (- signo) s
  else if signo =? SIGSTOP then update p (set_state PROC_BLOCKED) s
  else if signo =? SIGCONT then
    x ← deref p s;
    if bool_decide (state x = PROC_BLOCKED) then update p (set_state PROC_READY) s else Ok s
  else Ok s.
End Store.

(** ** Creation *)

(** [strncpy(p->name, s, PROC_NAME_LEN - 1)] into a zeroed array of 64. *)
Definition name_field (n : string) : string := String.substring 0 63 n.

(** "Find free slot": [-1] as an unsigned [pid_t] when there is none. *)
Definition free_slot (table : list Z) : Z :=
  match c_for_ret 1 MAX_PROCESSES
    (fun i (_ : unit) => if table !!! Z.to_nat i =? 0 then inr i else inl tt) tt with
  | inr i => i
  | inl _ => 4294967295
  end.

Section Create.
Context {A : Type} `{PageAlloc A}.

Definition proc_init (idle_task : Z) : kop (sys A) unit := fun s =>
  '(stack, p) ← alloc_pages (KERNEL_STACK_SIZE / PAGE_SIZE) (mm_pages (sys_mmu s));
  let idle := mk_process 0 0 "[idle]" PROC_READY PROC_FLAG_KERNEL
    (mk_ctx idle_task (stack +₆₄ KERNEL_STACK_SIZE) 8 16 514)
    0 stack stack KERNEL_STACK_SIZE 0 0 0 255 0 0 0 in
  Ok (tt, mk_sys (<[IDLE_PROC := idle]> (procs s))
    (IDLE_PROC :: replicate 1023 0) (next_pid s) (rq s) (switches s)
    (on_heap (with_pages p) (sys_mmu s))).

(** The guard [pid < 0] compares an unsigned value and is never taken; without a
    free slot the store to [proc_table[pid]] is outside the array. *)
Definition proc_create (fuel : nat) (pname : option string) (entry pflags prio : Z) :
    kop (sys A) Z := fun s =>
  let i := free_slot (proc_table s) in
  if i <? 0 then Ok (0, s)
  else
    '(p, h) ← kcalloc fuel 1 PROCESS_SIZEOF (mm_heap (sys_mmu s));
    let s := with_mmu (on_heap (fun _ => h) (sys_mmu s)) s in
    if p =? 0 then Ok (0, s)
    else
      parent ← (if proc_current s =? 0 then Ok 0 else x ← deref (proc_current s) s; Ok (pid x));
      '(stack, pa) ← alloc_pages (KERNEL_STACK_SIZE / PAGE_SIZE) (mm_pages (sys_mmu s));
      let s := with_mmu (on_heap (with_pages pa) (sys_mmu s)) s in
      '(as_, m) ← vmm_create_address_space fuel (sys_mmu s);
      let s := with_mmu m s in
      let kernel := negb (Z.land pflags PROC_FLAG_KERNEL =? 0) in
      let x := mk_process i parent (name_field (default "unnamed" pname)) PROC_READY pflags
        (mk_ctx entry (stack +₆₄ KERNEL_STACK_SIZE) (if kernel then 8 else 27)
           (if kernel then 16 else 35) 514)
        as_ stack stack KERNEL_STACK_SIZE 0 0 0 prio 0 0 0 in
      let s := with_procs <[p := x]> s in
      if MAX_PROCESSES <=? i then Undef "proc_table index out of bounds"
      else Ok (p, set_next_pid (i +₃₂ 1) (set_table i p s)).

Definition proc_create_kernel_thread (fuel : nat) (pname : option string) (entry : Z) :
    kop (sys A) Z := proc_create fuel pname entry PROC_FLAG_KERNEL 10.
End Create.
