(* ===== verification/ProcessSpec.v ===== *)
(** * The run queue and the scheduler: invariants and effects

    [rq_wf s l]: the run queue of [s] is the doubly linked list of the processes
    [l].  [sched_inv] adds that at most the current process is RUNNING. *)
From S2P Require Import Prelude Mem LibString PageAlloc Kheap Paging Process.

Definition hd_addr (l : list Z) (n : Z) : Z := match l with [] => n | p :: _ => p end.
Definition last_of (v : Z) (l : list Z) : Z := default v (last l).

(** The segment [l] of a doubly linked list, entered from [v], left to [n]. *)
Fixpoint linked (m : gmap Z process) (v : Z) (l : list Z) (n : Z) : Prop :=
  match l with
  | [] => True
  | p :: l' => p ≠ 0 ∧ (∃ x, m !! p = Some x ∧ prev x = v ∧ next x = hd_addr l' n) ∧
      linked m p l' n
  end.

Record rq_wf {A} (s : sys A) (l : list Z) : Prop := mk_rq_wf {
  rw_linked : linked (procs s) 0 l 0;
  rw_head : rq_head (rq s) = hd_addr l 0;
  rw_tail : rq_tail (rq s) = last_of 0 l;
  rw_nodup : NoDup l;
  rw_count : rq_count (rq s) = Z.of_nat (length l);
}.

(** ** Segments *)

Lemma hd_addr_app l1 l2 n : hd_addr (l1 ++ l2) n = hd_addr l1 (hd_addr l2 n).
Proof. by destruct l1. Qed.

Lemma last_of_cons v p l : last_of v (p :: l) = last_of p l.
Proof.
  unfold last_of. revert p. induction l as [|q l IH]; intros p; [done|].
  rewrite last_cons_cons. destruct (last (q :: l)) eqn:E; [done|]. by apply last_None in E.
Qed.

Lemma last_of_snoc v l p : last_of v (l ++ [p]) = p.
Proof. unfold last_of. by rewrite last_snoc. Qed.

Lemma linked_app m v l1 l2 n :
  linked m v (l1 ++ l2) n ↔ linked m v l1 (hd_addr l2 n) ∧ linked m (last_of v l1) l2 n.
Proof.
  revert v. induction l1 as [|p l1 IH]; intros v; simpl.
  - unfold last_of. simpl. tauto.
  - rewrite IH, hd_addr_app, last_of_cons. tauto.
Qed.

(** Only the links of the members matter. *)
Definition links (x : process) : Z * Z := (next x, prev x).
Definition same_links (m m' : gmap Z process) : Prop := ∀ q, links <$> m' !! q = links <$> m !! q.

Lemma linked_ext m m' v l n :
  (∀ q, q ∈ l → links <$> m' !! q = links <$> m !! q) → linked m v l n → linked m' v l n.
Proof.
  revert v. induction l as [|p l IH]; intros v He Hl; [done|].
  destruct Hl as (Hp & (x & Hx & Hv & Hn) & Hl). split; [done|]. split.
  - pose proof (He p ltac:(by left)) as E. rewrite Hx in E. cbn in E.
    destruct (m' !! p) as [x'|]; [|done]. injection E as E1 E2. exists x'. by rewrite E1, E2.
  - apply IH; [|done]. intros q Hq. apply He. by right.
Qed.

Lemma linked_insert_other m p x v l n :
  p ∉ l → linked m v l n → linked (<[p := x]> m) v l n.
Proof.
  intros Hp. apply linked_ext. intros q Hq. rewrite lookup_insert_ne; [done|].
  intros ->. done.
Qed.

(** Redirecting the last [next] or the first [prev] of a segment. *)
Lemma linked_set_last m v l p n n' x :
  p ∉ l → m !! p = Some x → linked m v (l ++ [p]) n →
  linked (<[p := set_pnext n' x]> m) v (l ++ [p]) n'.
Proof.
  intros Hp Hx [H1 H2]%linked_app. apply linked_app. split.
  - by apply linked_insert_other.
  - destruct H2 as (Hp0 & (x' & Hx' & Hv & _) & _). split; [done|]. split; [|done].
    exists (set_pnext n' x). rewrite lookup_insert_eq. split; [done|].
    by assert (x' = x) as -> by congruence.
Qed.

Lemma linked_set_first m v v' p l n x :
  p ∉ l → m !! p = Some x → linked m v (p :: l) n →
  linked (<[p := set_pprev v' x]> m) v' (p :: l) n.
Proof.
  intros Hp Hx (Hp0 & (x' & Hx' & _ & Hn) & Hl). split; [done|]. split.
  - exists (set_pprev v' x). rewrite lookup_insert_eq. split; [done|].
    by assert (x' = x) as -> by congruence.
  - by apply linked_insert_other.
Qed.

(** ** The queue operations *)

Section Queue.
Context {A : Type}.
Implicit Types s : sys A.

Lemma update_ok s p x f : procs s !! p = Some x → update p f s = Ok (with_procs <[p := f x]> s).
Proof. intros Hx. unfold update, deref. by rewrite Hx. Qed.

Lemma deref_ok s p x : procs s !! p = Some x → deref p s = Ok x.
Proof. intros Hx. unfold deref. by rewrite Hx. Qed.

Definition core (x : process) : process := set_links 0 0 x.
(** Everything but the links of every process is as before. *)
Definition same_core s s' : Prop := ∀ q, core <$> procs s' !! q = core <$> procs s !! q.

Lemma same_core_insert (m : gmap Z process) (p : Z) x y (q : Z) :
  m !! p = Some x → core y = core x → core <$> <[p := y]> m !! q = core <$> m !! q.
Proof.
  intros Hx Hy. destruct (decide (q = p)) as [->|Hne].
  - rewrite lookup_insert_eq, Hx. simpl. by rewrite Hy.
  - by rewrite lookup_insert_ne.
Qed.

Lemma linked_lookup m v l n p : linked m v l n → p ∈ l → p ≠ 0 ∧ is_Some (m !! p).
Proof.
  revert v. induction l as [|q l IH]; intros v Hl Hp; [by apply elem_of_nil in Hp|].
  destruct Hl as (Hq & (x & Hx & _) & Hl). apply elem_of_cons in Hp as [->|Hp].
  - split; [done|]. by exists x.
  - by apply (IH q).
Qed.

Lemma sched_add_spec (p : Z) (x : process) s (l : list Z)
    (Hwf : rq_wf s l) (Hp : p ≠ 0) (Hx : procs s !! p = Some x) (Hnew : p ∉ l)
    (Hlen : Z.of_nat (length l) < 4294967295) :
  ∃ s', sched_add p s = Ok s' ∧ same_core s s' ∧
    if decide (state x = PROC_READY) then rq_wf s' (l ++ [p]) else s' = s.
Proof.
  unfold sched_add. destruct (Z.eqb_spec p 0); [done|]. rewrite (deref_ok s p x Hx).
  cbn [mbind outcome_bind].
  destruct (decide (state x = PROC_READY)) as [Hr|Hr].
  2: { rewrite bool_decide_eq_true_2 by done. by exists s. }
  rewrite bool_decide_eq_false_2 by tauto.
  destruct Hwf as [Hl Hhd Htl Hnd Hcnt].
  rewrite (update_ok s p x _ Hx). cbn [mbind outcome_bind].
  set (s1 := with_procs _ s). assert (procs s1 !! p = Some (set_pnext 0 x)) as Hx1
    by apply lookup_insert_eq.
  rewrite (update_ok s1 p _ _ Hx1). cbn [mbind outcome_bind].
  change (rq s1) with (rq s). set (y := set_pprev (rq_tail (rq s)) (set_pnext 0 x)).
  set (s2 := with_procs _ s1).
  assert (procs s2 = <[p := y]> (procs s)) as Hp2 by (cbn; by rewrite insert_insert_eq).
  assert (linked (procs s2) 0 l 0) as Hl2 by (rewrite Hp2; by apply linked_insert_other).
  assert (procs s2 !! p = Some y) as Hy by (rewrite Hp2; apply lookup_insert_eq).
  assert (same_core s s2) as Hc2 by (intros q; rewrite Hp2; by apply (same_core_insert _ _ x)).
  change (rq s2) with (rq s).
  destruct l as [|t l _] using rev_ind.
  - rewrite Htl. cbn [Z.eqb last_of last default mbind outcome_bind].
    eexists. split; [done|]. split; [exact Hc2|].
    split; cbn [with_rq rq set_head set_tail set_count rq_head rq_tail rq_count procs app].
    + split; [done|]. split; [|done]. exists y. split; [exact Hy|]. unfold y. rewrite Htl. done.
    + done.
    + done.
    + apply NoDup_singleton.
    + change (rq s2) with (rq s). rewrite Hcnt. done.
  - rewrite Htl, last_of_snoc in *.
    destruct (linked_lookup _ _ _ _ t Hl2) as [Ht [z Hz]];
      [apply elem_of_app; right; by apply list_elem_of_singleton|].
    destruct (Z.eqb_spec t 0); [done|]. rewrite (update_ok s2 t z _ Hz). cbn [mbind outcome_bind].
    eexists. split; [done|]. split.
    { intros q. cbn [with_rq with_procs procs]. rewrite (same_core_insert _ _ z) by done. apply Hc2. }
    assert ((t ∉ l) ∧ t ≠ p) as [Htl' Htp].
    { apply NoDup_app in Hnd as (_ & Hd & _). split.
      - intros Hin. apply (Hd t Hin). by apply list_elem_of_singleton.
      - intros ->. apply Hnew, elem_of_app. right. by apply list_elem_of_singleton. }
    split; cbn [with_rq with_procs rq procs set_head set_tail set_count rq_head rq_tail rq_count].
    + apply linked_app. split; [apply (linked_set_last _ _ _ _ 0); [exact Htl'|exact Hz|exact Hl2]|].
      rewrite last_of_snoc. split; [done|]. split; [|done]. exists y.
      rewrite lookup_insert_ne by done. split; [exact Hy|]. unfold y. by rewrite Htl.
    + change (rq s2) with (rq s). by rewrite Hhd, !hd_addr_app.
    + by rewrite last_of_snoc.
    + apply NoDup_app. split; [done|]. split; [|apply NoDup_singleton].
      intros q Hq ->%list_elem_of_singleton. done.
    + change (rq s2) with (rq s). rewrite Hcnt, !length_app. cbn [length]. rewrite length_app in Hlen. cbn [length] in Hlen.
      rewrite wrap32_small; lia.
Qed.

(** (Property) [sched_add] of a process that is not queued: READY processes are
    appended at the tail of the list, others are ignored; nothing but the links
    changes. *)
Theorem sched_add_appends (p : Z) (x : process) s (l : list Z)
    (Hwf : rq_wf s l) (Hp : p ≠ 0) (Hx : procs s !! p = Some x) (Hnew : p ∉ l)
    (Hlen : Z.of_nat (length l) < 4294967295) :
  ∃ s', sched_add p s = Ok s' ∧ same_core s s' ∧
    if decide (state x = PROC_READY) then rq_wf s' (l ++ [p]) else s' = s.
Proof. by apply sched_add_spec. Qed.

(** The two halves of [sched_remove]: bypassing a member on either side. *)
Lemma bypass_left s l1 nx :
  linked (procs s) 0 l1 nx → NoDup l1 → ∀ nx',
  ∃ s1, (if last_of 0 l1 =? 0 then Ok (with_rq (set_head nx') s)
         else update (last_of 0 l1) (set_pnext nx') s) = Ok s1 ∧
    linked (procs s1) 0 l1 nx' ∧ (∀ q, q ∉ l1 → procs s1 !! q = procs s !! q) ∧
    same_core s s1 ∧ rq s1 = (if last_of 0 l1 =? 0 then set_head nx' (rq s) else rq s) ∧
    (last_of 0 l1 = 0 ↔ l1 = []).
Proof.
  intros Hl Hnd nx'. destruct l1 as [|a l1 _] using rev_ind.
  { by exists (with_rq (set_head nx') s). }
  rewrite last_of_snoc.
  destruct (linked_lookup _ _ _ _ a Hl) as [Ha [z Hz]];
    [apply elem_of_app; right; by apply list_elem_of_singleton|].
  destruct (Z.eqb_spec a 0); [done|]. rewrite (update_ok s a z _ Hz).
  eexists. split; [done|]. cbn [with_procs procs rq].
  assert (a ∉ l1) as Hal.
  { apply NoDup_app in Hnd as (_ & Hd & _). intros Hin. apply (Hd a Hin).
    by apply list_elem_of_singleton. }
  split_and!; try done.
  - by apply (linked_set_last _ _ _ _ nx).
  - intros q Hq. apply lookup_insert_ne. intros ->. apply Hq, elem_of_app. right.
    by apply list_elem_of_singleton.
  - intros q. by apply (same_core_insert _ _ z).
  - split; [done|]. intros E. by destruct l1.
Qed.

Lemma bypass_right s v l2 :
  linked (procs s) v l2 0 → NoDup l2 → ∀ v',
  ∃ s1, (if hd_addr l2 0 =? 0 then Ok (with_rq (set_tail v') s)
         else update (hd_addr l2 0) (set_pprev v') s) = Ok s1 ∧
    linked (procs s1) v' l2 0 ∧ (∀ q, q ∉ l2 → procs s1 !! q = procs s !! q) ∧
    same_core s s1 ∧ rq s1 = (if hd_addr l2 0 =? 0 then set_tail v' (rq s) else rq s) ∧
    (hd_addr l2 0 = 0 ↔ l2 = []).
Proof.
  intros Hl Hnd v'. destruct l2 as [|b l2]; [by exists (with_rq (set_tail v') s)|].
  cbn [hd_addr]. pose proof Hl as (Hb & (z & Hz & _) & _).
  destruct (Z.eqb_spec b 0); [done|]. rewrite (update_ok s b z _ Hz).
  eexists. split; [done|]. cbn [with_procs procs rq]. apply NoDup_cons in Hnd as [Hbl Hnd].
  split_and!; try done.
  - by apply (linked_set_first _ v).
  - intros q Hq. apply lookup_insert_ne. intros ->. apply Hq. by left.
  - intros q. by apply (same_core_insert _ _ z).
Qed.

Lemma last_of_app v l1 l2 : last_of v (l1 ++ l2) = last_of (last_of v l1) l2.
Proof.
  revert v. induction l1 as [|p l1 IH]; intros v; [done|].
  rewrite <- app_comm_cons, !last_of_cons. apply IH.
Qed.

Lemma sched_remove_spec (p : Z) s (l1 l2 : list Z)
    (Hwf : rq_wf s (l1 ++ p :: l2)) :
  ∃ s', sched_remove p s = Ok s' ∧ same_core s s' ∧ rq_wf s' (l1 ++ l2).
Proof.
  destruct Hwf as [Hl Hhd Htl Hnd Hcnt].
  pose proof Hl as [Hl1 (Hp0 & (x & Hx & Hpv & Hnx) & Hl2)]%linked_app.
  apply NoDup_app in Hnd as (Hnd1 & Hdis & [Hpl2 Hnd2]%NoDup_cons).
  assert (p ∉ l1) as Hpl1 by (intros Hin; apply (Hdis p Hin); by left).
  assert (∀ q, q ∈ l1 → q ∉ l2) as H12 by (intros q Hq Hq2; apply (Hdis q Hq); by right).
  unfold sched_remove. destruct (Z.eqb_spec p 0); [done|].
  rewrite (deref_ok s p x Hx). cbn [mbind outcome_bind]. rewrite Hpv, Hnx.
  destruct (bypass_left s l1 p Hl1 Hnd1 (hd_addr l2 0)) as (s1 & -> & G1 & G2 & G3 & G4 & G5).
  cbn [mbind outcome_bind]. rewrite (deref_ok s1 p x) by (by rewrite G2).
  cbn [mbind outcome_bind]. rewrite Hpv, Hnx.
  assert (linked (procs s1) p l2 0) as Hl2'.
  { eapply linked_ext; [|exact Hl2]. intros q Hq. rewrite G2; [done|]. intros Hq1. by apply (H12 q). }
  destruct (bypass_right s1 p l2 Hl2' Hnd2 (last_of 0 l1)) as (s2 & -> & K1 & K2 & K3 & K4 & K5).
  cbn [mbind outcome_bind].
  assert (procs s2 !! p = Some x) as Hx2 by (by rewrite K2, G2).
  rewrite (update_ok s2 p x _ Hx2). cbn [mbind outcome_bind].
  eexists. split; [done|]. split.
  { intros q. cbn [with_rq with_procs procs]. rewrite (same_core_insert _ _ x) by done.
    rewrite K3. apply G3. }
  assert (rq s2 = mk_rq (hd_addr (l1 ++ l2) 0) (last_of 0 (l1 ++ l2)) (rq_count (rq s))
    (current (rq s)) (tick (rq s))) as Hrq.
  { rewrite K4, G4. rewrite hd_addr_app in Hhd |- *. rewrite last_of_app in Htl |- *.
    cbn [hd_addr] in Hhd. rewrite last_of_cons in Htl.
    destruct (rq s) as [h t c cu ti]. cbn [rq_head rq_tail rq_count current tick set_head set_tail] in *.
    subst h t.
    destruct (Z.eqb_spec (last_of 0 l1) 0) as [E1|E1], (Z.eqb_spec (hd_addr l2 0) 0) as [E2|E2];
      cbn [rq_head rq_tail rq_count current tick set_head set_tail].
    - apply G5 in E1 as ->. apply K5 in E2 as ->. done.
    - apply G5 in E1 as ->. destruct l2 as [|b l2]; [done|]. by rewrite !last_of_cons.
    - apply K5 in E2 as ->. destruct l1; [done|]. done.
    - destruct l1; [done|]. destruct l2; [done|]. by rewrite !last_of_cons. }
  rewrite length_app in Hcnt. cbn [length] in Hcnt.
  split; cbn [with_rq with_procs rq procs]; rewrite ?Hrq;
    cbn [rq_head rq_tail rq_count current tick set_count];
    destruct (Z.ltb_spec 0 (rq_count (rq s))); try lia;
    cbn [rq_head rq_tail rq_count current tick set_count]; try done.
  - apply linked_insert_other; [by rewrite elem_of_app; intros [?|?]|].
    apply linked_app. split; [|exact K1].
    eapply linked_ext; [|exact G1]. intros q Hq. rewrite K2; [done|]. by apply H12.
  - apply NoDup_app. by split_and!.
  - rewrite Hcnt, length_app. lia.
Qed.

(** (Property) [sched_remove] of a queued process takes exactly it out of the
    list, wherever it is, and changes nothing but links. *)
Theorem sched_remove_unlinks (p : Z) s (l1 l2 : list Z)
    (Hwf : rq_wf s (l1 ++ p :: l2)) :
  ∃ s', sched_remove p s = Ok s' ∧ same_core s s' ∧ rq_wf s' (l1 ++ l2).
Proof. by apply sched_remove_spec. Qed.
End Queue.
