(* ===== verification/SchedSpec.v ===== *)
(** * The scheduler: choice of the next process, ticks, and the invariant

    [pick_next] takes the first READY process of least virtual runtime;
    [sched_inv] (a well-formed queue, valid pointers, at most one RUNNING
    process) holds in every state the operations reach, so none of them follows
    a bad pointer or loops. *)
From S2P Require Import Prelude Mem LibString PageAlloc Pmm Kheap Paging Process ProcessSpec.

Section Sched.
Context {A : Type}.
Implicit Types s : sys A.

(** ** pick_next *)

(** [r] is what a scan of [l] that starts with the candidate [b] ends with. *)
Definition ready_at (m : gmap Z process) (p vr : Z) : Prop :=
  ∃ x, m !! p = Some x ∧ state x = PROC_READY ∧ vruntime x = vr.

Record first_least (m : gmap Z process) (l : list Z) (r : Z) : Prop := mk_first_least {
  fl_ready : ∃ vr, ready_at m r vr;
  fl_place : ∃ l1 l2, l = l1 ++ r :: l2 ∧ ∀ vr, ready_at m r vr →
    (∀ q vq, q ∈ l1 → ready_at m q vq → vr < vq) ∧
    (∀ q vq, q ∈ l2 → ready_at m q vq → vr ≤ vq);
}.

Definition none_ready (m : gmap Z process) (l : list Z) : Prop :=
  ∀ p x, p ∈ l → m !! p = Some x → state x ≠ PROC_READY.

Lemma ready_at_eq m p v v' : ready_at m p v → ready_at m p v' → v = v'.
Proof. intros (x & Hx & _ & <-) (y & Hy & _ & <-). congruence. Qed.

(** The loop with [done_] behind it and [l] ahead. *)
Lemma pick_loop_spec fuel s v l done_ best :
  linked (procs s) v l 0 → (length l < fuel)%nat →
  (best = 0 ∧ none_ready (procs s) done_) ∨ (best ≠ 0 ∧ first_least (procs s) done_ best) →
  ∃ r, pick_loop fuel (hd_addr l 0) best s = Ok r ∧
    ((r = 0 ∧ none_ready (procs s) (done_ ++ l)) ∨
     (r ≠ 0 ∧ first_least (procs s) (done_ ++ l) r)).
Proof.
  revert v l done_ best. induction fuel as [|fuel IH]; intros v l done_ best Hl Hf Hb; [lia|].
  destruct l as [|p l]; cbn [pick_loop hd_addr].
  { rewrite Z.eqb_refl, app_nil_r. by exists best. }
  destruct Hl as (Hp & (x & Hx & _ & Hn) & Hl). destruct (Z.eqb_spec p 0); [done|].
  rewrite (deref_ok s p x Hx). cbn [mbind outcome_bind]. rewrite Hn.
  assert (∀ b, ((b = 0 ∧ none_ready (procs s) (done_ ++ [p])) ∨
                (b ≠ 0 ∧ first_least (procs s) (done_ ++ [p]) b)) →
    ∃ r, pick_loop fuel (hd_addr l 0) b s = Ok r ∧
      ((r = 0 ∧ none_ready (procs s) (done_ ++ p :: l)) ∨
       (r ≠ 0 ∧ first_least (procs s) (done_ ++ p :: l) r))) as Hgo.
  { intros b Hb'. destruct (IH p l (done_ ++ [p]) b Hl ltac:(simpl in Hf; lia) Hb') as (r & Hr & Hr').
    exists r. split; [done|]. by rewrite <- app_assoc in Hr'. }
  destruct (decide (state x = PROC_READY)) as [Hr|Hr].
  - rewrite bool_decide_eq_true_2 by done.
    assert (ready_at (procs s) p (vruntime x)) as Hrp by (by exists x).
    destruct Hb as [[-> Hnone]|[Hb0 [[vb (y & Hy & Hyr & Hyv)] (l1 & l2 & Hd & Hmin)]]].
    + rewrite Z.eqb_refl. cbn [mbind outcome_bind]. apply Hgo. right. split; [done|].
      split; [by exists (vruntime x)|]. exists done_, []. split; [done|].
      intros vr Hvr. split; [|by intros q vq Hq%elem_of_nil].
      intros q vq Hq (z & Hz & Hzr & _). by apply (Hnone q z) in Hq.
    + destruct (Z.eqb_spec best 0); [done|]. rewrite (deref_ok s best y Hy).
      cbn [mbind outcome_bind]. apply Hgo. right.
      assert (ready_at (procs s) best vb) as Hrb by (by exists y).
      destruct (Hmin vb Hrb) as [Hm1 Hm2]. rewrite Hyv.
      destruct (Z.ltb_spec (vruntime x) vb) as [Hlt|Hge]; (split; [done|]).
      * split; [by exists (vruntime x)|]. exists done_, []. split; [done|].
        intros vr Hvr. rewrite (ready_at_eq _ _ _ _ Hvr Hrp) in *.
        split; [|by intros q vq Hq%elem_of_nil].
        intros q vq Hq Hqr. rewrite Hd in Hq. apply elem_of_app in Hq as [Hq|Hq].
        -- pose proof (Hm1 q vq Hq Hqr). lia.
        -- apply elem_of_cons in Hq as [->|Hq].
           ++ rewrite (ready_at_eq _ _ _ _ Hqr Hrb). lia.
           ++ pose proof (Hm2 q vq Hq Hqr). lia.
      * split; [by exists vb|]. exists l1, (l2 ++ [p]).
        split; [by rewrite Hd, <- app_assoc|].
        intros vr Hvr. rewrite (ready_at_eq _ _ _ _ Hvr Hrb) in *. split; [done|].
        intros q vq [Hq|Hq]%elem_of_app Hqr; [by apply Hm2 with q|].
        apply list_elem_of_singleton in Hq as ->.
        rewrite (ready_at_eq _ _ _ _ Hqr Hrp). lia.
  - rewrite bool_decide_eq_false_2 by done. cbn [mbind outcome_bind]. apply Hgo.
    assert (∀ q vq, q = p → ready_at (procs s) q vq → False) as Hnot.
    { intros q vq -> (z & Hz & Hzr & _). apply Hr. congruence. }
    destruct Hb as [[-> Hnone]|[Hb0 [Hre (l1 & l2 & Hd & Hmin)]]].
    + left. split; [done|]. intros q z [Hq|Hq]%elem_of_app Hz; [by apply (Hnone q z)|].
      apply list_elem_of_singleton in Hq as ->. congruence.
    + right. split; [done|]. split; [done|]. exists l1, (l2 ++ [p]).
      split; [by rewrite Hd, <- app_assoc|]. intros vr Hvr. destruct (Hmin vr Hvr) as [Hm1 Hm2].
      split; [done|]. intros q vq [Hq|Hq]%elem_of_app Hqr; [by apply Hm2 with q|].
      apply list_elem_of_singleton in Hq. by destruct (Hnot q vq).
Qed.

Lemma pick_next_spec fuel s l :
  rq_wf s l → (length l < fuel)%nat →
  ∃ r, pick_next fuel s = Ok r ∧
    ((none_ready (procs s) l ∧ r = proc_get 0 s) ∨ first_least (procs s) l r).
Proof.
  intros [Hl Hhd _ _ _] Hf. unfold pick_next. rewrite Hhd.
  destruct (pick_loop_spec fuel s 0 l [] 0 Hl Hf) as (r & Hr & Hcase).
  { left. split; [done|]. by intros p x Hp%elem_of_nil. }
  destruct l as [|p l].
  { exists (proc_get 0 s). split; [done|]. left. split; [|done].
    by intros p x Hp%elem_of_nil. }
  destruct Hl as (Hp & _). cbn [hd_addr]. destruct (Z.eqb_spec p 0); [done|].
  cbn [hd_addr app] in *. rewrite Hr. cbn [mbind outcome_bind].
  eexists. split; [done|]. destruct Hcase as [[-> Hn]|[Hr0 Hfl]]; [by left|].
  destruct (Z.eqb_spec r 0); [done|]. by right.
Qed.

(** (Property) The next process: the scan of a well-formed queue always ends, with
    the first READY process among those of least virtual runtime, or with the
    idle process exactly when no queued process is READY. *)
Theorem pick_next_least_vruntime (fuel : nat) s (l : list Z)
    (Hwf : rq_wf s l) (Hfuel : (length l < fuel)%nat) :
  ∃ r, pick_next fuel s = Ok r ∧
    ((none_ready (procs s) l ∧ r = proc_get 0 s) ∨ first_least (procs s) l r).
Proof. by apply pick_next_spec. Qed.

(** ** Waking sleepers *)

Definition wake_one (t : Z) (x : process) : process :=
  if bool_decide (state x = PROC_SLEEPING) && (sleep_until x <=? t)
  then set_state PROC_READY x else x.

(** [s'] differs from [s] in its processes only. *)
Definition only_procs s s' : Prop := s' = with_procs (fun _ => procs s') s.

Lemma only_procs_refl s : only_procs s s.
Proof. by destruct s. Qed.

Lemma only_procs_trans s1 s2 s3 : only_procs s1 s2 → only_procs s2 s3 → only_procs s1 s3.
Proof.
  unfold only_procs. intros H1 H2. transitivity (with_procs (fun _ => procs s3) s2); [exact H2|].
  rewrite H1. done.
Qed.

Lemma wake_one_links t x : links (wake_one t x) = links x.
Proof. unfold wake_one. by destruct (_ && _). Qed.

Lemma wake_loop_spec fuel s v l :
  linked (procs s) v l 0 → NoDup l → (length l < fuel)%nat →
  ∃ s', wake_loop fuel (hd_addr l 0) s = Ok s' ∧ only_procs s s' ∧
    ∀ q, procs s' !! q = if decide (q ∈ l) then wake_one (tick (rq s)) <$> procs s !! q
                         else procs s !! q.
Proof.
  revert s v l. induction fuel as [|fuel IH]; intros s v l Hl Hnd Hf; [lia|].
  destruct l as [|p l]; cbn [wake_loop hd_addr].
  { exists s. split; [done|]. split; [apply only_procs_refl|]. intros q.
    by rewrite decide_False by apply not_elem_of_nil. }
  destruct Hl as (Hp & (x & Hx & _ & Hn) & Hl). destruct (Z.eqb_spec p 0); [done|].
  rewrite (deref_ok s p x Hx). cbn [mbind outcome_bind]. rewrite Hn.
  apply NoDup_cons in Hnd as [Hpl Hnd].
  set (s1 := with_procs <[p := wake_one (tick (rq s)) x]> s).
  assert ((if bool_decide (state x = PROC_SLEEPING) && (sleep_until x <=? tick (rq s))
           then update p (set_state PROC_READY) s else Ok s) = Ok s1) as ->.
  { unfold s1, wake_one. destruct (_ && _); [by apply update_ok|].
    f_equal. destruct s as [m ? ? ? ? ?]. unfold with_procs. cbn in *. by rewrite insert_id. }
  cbn [mbind outcome_bind].
  destruct (IH s1 p l) as (s' & Hw & Ho & Hq); [|done|simpl in Hf; lia|].
  { apply linked_insert_other; done. }
  exists s'. split; [done|]. split; [eapply only_procs_trans; [|exact Ho]; done|].
  intros q. rewrite Hq. change (rq s1) with (rq s). cbn [s1 with_procs procs].
  destruct (decide (q = p)) as [->|Hqp].
  - rewrite decide_False by done. rewrite decide_True by (by left).
    by rewrite lookup_insert_eq, Hx.
  - rewrite lookup_insert_ne by done.
    destruct (decide (q ∈ l)) as [Hin|Hin].
    + rewrite decide_True by (by right). done.
    + rewrite decide_False; [done|]. by intros [->|?]%elem_of_cons.
Qed.

(** ** The invariant *)

Record sched_inv s (l : list Z) : Prop := mk_sched_inv {
  si_wf : rq_wf s l;
  si_current : current (rq s) = 0 ∨ is_Some (procs s !! current (rq s));
  si_idle : proc_get 0 s ≠ 0;
  si_table : ∀ i, 0 ≤ i → proc_get i s = 0 ∨ is_Some (procs s !! proc_get i s);
  si_running : ∀ p x, procs s !! p = Some x → state x = PROC_RUNNING → p = current (rq s);
}.

(** A change of processes that keeps links and domain keeps the queue. *)
Lemma rq_wf_same_links s s' l :
  rq_wf s l → only_procs s s' → same_links (procs s) (procs s') → rq_wf s' l.
Proof.
  intros [H1 H2 H3 H4 H5] Ho Hs. rewrite Ho. split; cbn [with_procs rq procs]; try done.
  eapply linked_ext; [|exact H1]. intros q _. apply Hs.
Qed.

Lemma same_links_dom m m' q : same_links m m' → is_Some (m !! q) → is_Some (m' !! q).
Proof.
  intros Hs [x Hx]. specialize (Hs q). rewrite Hx in Hs. destruct (m' !! q); [done|discriminate].
Qed.

Lemma inv_same_links s s' l :
  sched_inv s l → only_procs s s' → same_links (procs s) (procs s') →
  (∀ p x, procs s' !! p = Some x → state x = PROC_RUNNING → p = current (rq s)) →
  sched_inv s' l.
Proof.
  intros [H1 H2 H3 H4 H5] Ho Hs Hr. pose proof (rq_wf_same_links _ _ _ H1 Ho Hs) as Hwf.
  rewrite Ho in Hwf |- *. cbn [with_procs] in *.
  split; cbn [with_procs rq procs]; try done.
  - destruct H2 as [?|?]; [by left|right]. by eapply same_links_dom.
  - intros i Hi. change (proc_get i (with_procs (fun _ => procs s') s)) with (proc_get i s).
    destruct (H4 i Hi) as [?|?]; [by left|right]. by eapply same_links_dom.
Qed.

Lemma same_links_insert (m : gmap Z process) p x y :
  m !! p = Some x → links y = links x → same_links m (<[p := y]> m).
Proof.
  intros Hx Hy q. destruct (decide (q = p)) as [->|Hne].
  - rewrite lookup_insert_eq, Hx. cbn. by rewrite Hy.
  - by rewrite lookup_insert_ne.
Qed.

Lemma inv_update s l p x f :
  sched_inv s l → procs s !! p = Some x → links (f x) = links x →
  (state (f x) = PROC_RUNNING → state x = PROC_RUNNING) →
  update p f s = Ok (with_procs <[p := f x]> s) ∧ sched_inv (with_procs <[p := f x]> s) l.
Proof.
  intros Hi Hx Hf Hs. split; [by apply update_ok|].
  apply (inv_same_links s); [done|done|by eapply same_links_insert|].
  intros q y Hy Hr. cbn [with_procs procs] in Hy.
  destruct (decide (q = p)) as [->|Hne].
  - rewrite lookup_insert_eq in Hy. injection Hy as <-. apply (si_running _ _ Hi p x Hx). auto.
  - rewrite lookup_insert_ne in Hy by done. by apply (si_running _ _ Hi q y).
Qed.

(** No process is RUNNING: the state in which the next one is chosen. *)
Definition quiet s : Prop := ∀ p x, procs s !! p = Some x → state x ≠ PROC_RUNNING.

Lemma switch_to_inv s l cur nxt :
  sched_inv s l → quiet s → nxt = 0 ∨ is_Some (procs s !! nxt) → cur = current (rq s) →
  ∃ s', switch_to cur nxt s = Ok s' ∧ sched_inv s' l ∧ tick (rq s') = tick (rq s) ∧
    current (rq s') = (if nxt =? 0 then cur else nxt) ∧
    ∀ q x, procs s !! q = Some x → q = nxt ∨ procs s' !! q = Some x.
Proof.
  intros Hi Hq Hn ->. unfold switch_to. set (cur := current (rq s)).
  destruct (Z.eqb_spec nxt 0) as [Hn0|Hn0]; cbn [negb andb].
  { exists s. split_and!; auto. }
  destruct Hn as [|[x Hx]]; [done|]. destruct (Z.eqb_spec nxt cur) as [->|Hne]; cbn [negb].
  { exists s. split_and!; auto. }
  rewrite (update_ok (with_rq (set_current nxt) s) nxt x _ Hx). cbn [mbind outcome_bind].
  eexists. split; [done|]. cbn [context_switch with_procs with_rq procs rq tick current set_current].
  split; [|split; [done|split; [done|]]].
  - pose proof (same_links_insert (procs s) nxt x (set_state PROC_RUNNING x) Hx eq_refl) as Hsl.
    destruct Hi as [[W1 W2 W3 W4 W5] H2 H3 H4 H5].
    split; cbn [context_switch with_procs with_rq procs rq current set_current].
    + split; cbn [context_switch with_procs with_rq procs rq set_current rq_head rq_tail rq_count]; try done.
      eapply linked_ext; [|exact W1]. intros q _. apply Hsl.
    + right. rewrite lookup_insert_eq. by eexists.
    + done.
    + intros i Hi'. destruct (H4 i Hi') as [?|?]; [by left|right].
      by apply (same_links_dom _ _ _ Hsl).
    + intros p y Hy Hr. destruct (decide (p = nxt)) as [->|Hp]; [done|].
      rewrite lookup_insert_ne in Hy by done. exfalso. by apply (Hq p y).
  - intros q y Hy. destruct (decide (q = nxt)) as [->|Hp]; [by left|right].
    by rewrite lookup_insert_ne.
Qed.

Lemma pick_valid fuel s l :
  sched_inv s l → (length l < fuel)%nat →
  ∃ r, pick_next fuel s = Ok r ∧ is_Some (procs s !! r) ∧ r ≠ 0 ∧
    ((none_ready (procs s) l ∧ r = proc_get 0 s) ∨ first_least (procs s) l r).
Proof.
  intros Hi Hf. destruct (pick_next_spec fuel s l (si_wf _ _ Hi) Hf) as (r & Hr & Hc).
  exists r. split; [done|]. split; [|split; [|done]].
  - destruct Hc as [[_ ->]|[[vr (x & Hx & _)] _]]; [|by exists x].
    destruct (si_table _ _ Hi 0 ltac:(lia)) as [H0|?]; [|done]. by destruct (si_idle _ _ Hi).
  - destruct Hc as [[_ ->]|[_ (l1 & l2 & -> & _)]]; [apply (si_idle _ _ Hi)|].
    pose proof (rw_linked _ _ (si_wf _ _ Hi)) as Hl.
    apply (linked_lookup _ _ _ _ r) in Hl; [apply Hl|]. apply elem_of_app. right. by left.
Qed.

(** Making the current process something else than RUNNING silences the system. *)
Lemma quiet_after s l c x y :
  sched_inv s l → c = current (rq s) → procs s !! c = Some x → state y ≠ PROC_RUNNING →
  quiet (with_procs <[c := y]> s).
Proof.
  intros Hi -> Hx Hy q z Hz Hr. cbn [with_procs procs] in Hz.
  destruct (decide (q = current (rq s))) as [->|Hne].
  - rewrite lookup_insert_eq in Hz. by injection Hz as <-.
  - rewrite lookup_insert_ne in Hz by done. apply Hne. by apply (si_running _ _ Hi q z).
Qed.

(** The common end of a yield, seen from outside. *)
Lemma sched_yield_spec fuel s l :
  sched_inv s l → (length l < fuel)%nat →
  ∃ s', sched_yield fuel s = Ok s' ∧ sched_inv s' l ∧ tick (rq s') = tick (rq s) ∧
    ∀ x, current (rq s) ≠ 0 → procs s !! current (rq s) = Some x →
      procs s' !! current (rq s) = Some (set_state PROC_READY x) ∧
      current (rq s') ≠ 0.
Proof.
  intros Hi Hf. unfold sched_yield. destruct (Z.eqb_spec (current (rq s)) 0) as [E|Hc].
  { exists s. by split_and!. }
  destruct (si_current _ _ Hi) as [|[x Hx]]; [done|].
  destruct (inv_update s l (current (rq s)) x (set_state PROC_READY) Hi Hx eq_refl) as [-> Hi1];
    [done|].
  cbn [mbind outcome_bind]. set (s1 := with_procs _ s) in *.
  destruct (pick_valid fuel s1 l Hi1 Hf) as (r & -> & Hr & Hr0 & _). cbn [mbind outcome_bind].
  assert (quiet s1) as Hq by (by eapply (quiet_after s l _ x)).
  destruct (switch_to_inv s1 l (current (rq s)) r Hi1 Hq (or_intror Hr) eq_refl)
    as (s' & Hs' & Hi' & Ht & Hcur & Hkeep).
  exists s'. split; [done|]. split; [done|]. split; [done|].
  intros y _ Hy. assert (y = x) as -> by congruence.
  split; [|rewrite Hcur; by destruct (Z.eqb_spec r 0)].
  assert (procs s1 !! current (rq s) = Some (set_state PROC_READY x)) as Hx1
    by apply lookup_insert_eq.
  destruct (Hkeep _ _ Hx1) as [E|E]; [|done].
  unfold switch_to in Hs'. rewrite <- E, Z.eqb_refl, andb_false_r in Hs'. by injection Hs' as <-.
Qed.

(** ** The tick *)

(** The account of one tick to the current process. *)
Definition charge (x : process) : process :=
  set_times (runtime_ticks x +₆₄ 1) (sleep_until x) (vruntime x +₃₂ (255 -₃₂ priority x +₃₂ 1)) x.

(** The processes after accounting and waking, at the new tick [t]. *)
Definition ticked (t c : Z) (m : gmap Z process) (l : list Z) (q : Z) : option process :=
  let y := if decide (q = c) then charge <$> m !! q else m !! q in
  if decide (q ∈ l) then wake_one t <$> y else y.

Definition demote (x : process) : process :=
  if bool_decide (state x = PROC_RUNNING) then set_state PROC_READY x else x.

Lemma inv_set_tick s l t : sched_inv s l → sched_inv (with_rq (set_tick t) s) l.
Proof.
  intros [[W1 W2 W3 W4 W5] H2 H3 H4 H5]. by repeat split.
Qed.

Lemma wake_inv fuel s l :
  sched_inv s l → (length l < fuel)%nat →
  ∃ s', wake_loop fuel (rq_head (rq s)) s = Ok s' ∧ only_procs s s' ∧ sched_inv s' l ∧
    ∀ q, procs s' !! q = if decide (q ∈ l) then wake_one (tick (rq s)) <$> procs s !! q
                         else procs s !! q.
Proof.
  intros Hi Hf. destruct (si_wf _ _ Hi) as [Hl Hhd _ Hnd _]. rewrite Hhd.
  destruct (wake_loop_spec fuel s 0 l Hl Hnd Hf) as (s' & Hw & Ho & Hq).
  exists s'. split_and!; try done. apply (inv_same_links s); [done|done| |].
  - intros q. rewrite Hq. destruct (decide (q ∈ l)); [|done].
    destruct (procs s !! q) as [x|]; [|done]. cbn. by rewrite wake_one_links.
  - intros p x Hx Hr. rewrite Hq in Hx. destruct (decide (p ∈ l)).
    + destruct (procs s !! p) as [y|] eqn:Hy; [|done]. cbn in Hx. injection Hx as <-.
      apply (si_running _ _ Hi p y Hy). unfold wake_one in Hr. by destruct (_ && _).
    + by apply (si_running _ _ Hi p x).
Qed.

Lemma ticked_current t c m l x :
  m !! c = Some x → ∃ y, ticked t c m l c = Some y ∧ runtime_ticks y = runtime_ticks x +₆₄ 1.
Proof.
  intros Hx. unfold ticked. destruct (decide (c = c)) as [_|]; [|done].
  rewrite Hx. cbn [fmap option_fmap option_map].
  destruct (decide (c ∈ l)); eexists; (split; [done|]); [|done].
  unfold wake_one. by destruct (_ && _).
Qed.

Lemma sched_tick_spec fuel s l x :
  sched_inv s l → (length l < fuel)%nat → current (rq s) ≠ 0 →
  procs s !! current (rq s) = Some x →
  let c := current (rq s) in let t := tick (rq s) +₆₄ 1 in
  ∃ s', sched_tick fuel s = Ok s' ∧ sched_inv s' l ∧ tick (rq s') = t ∧
    if (runtime_ticks x +₆₄ 1) mod SCHED_DEFAULT_QUANTUM =? 0 then
      ∃ r m, (∀ q, m !! q = (if decide (q = c) then demote <$> ticked t c (procs s) l q
                             else ticked t c (procs s) l q)) ∧
        ((none_ready m l ∧ r = proc_get 0 s) ∨ first_least m l r) ∧
        current (rq s') = r ∧
        (switches s' = if r =? c then switches s else (c, r) :: switches s) ∧
        ∀ q, procs s' !! q = if (q =? r) && negb (r =? c) then set_state PROC_RUNNING <$> m !! q else m !! q
    else current (rq s') = c ∧ switches s' = switches s ∧
      ∀ q, procs s' !! q = ticked t c (procs s) l q.
Proof.
  intros Hi Hf Hc Hx c t. fold c in Hc, Hx. unfold sched_tick.
  set (s0 := with_rq _ s). assert (sched_inv s0 l) as Hi0 by (by apply inv_set_tick).
  change (current (rq s0)) with c. destruct (Z.eqb_spec c 0); [done|].
  destruct (inv_update s0 l c x charge Hi0 Hx eq_refl ltac:(done)) as [E1 Hi1].
  change (fun x => set_times _ _ _ _) with charge. rewrite E1. cbn [mbind outcome_bind].
  set (s1 := with_procs <[c := charge x]> s0) in *.
  destruct (wake_inv fuel s1 l Hi1 Hf) as (s2 & -> & Ho & Hi2 & Hq2). cbn [mbind outcome_bind].
  assert (∀ q, procs s2 !! q = ticked t c (procs s) l q) as Hq.
  { intros q. rewrite Hq2. unfold ticked. change (tick (rq s1)) with t.
    cbn [s1 s0 with_procs with_rq procs].
    destruct (decide (q = c)) as [->|Hne]; [by rewrite lookup_insert_eq, Hx|].
    by rewrite lookup_insert_ne. }
  assert (rq s2 = rq s0) as Hrq by (by rewrite Ho).
  assert (switches s2 = switches s) as Hsw by (by rewrite Ho).
  assert (proc_table s2 = proc_table s) as Htb by (by rewrite Ho).
  destruct (ticked_current t c (procs s) l x Hx) as (y & Hy & Hrt).
  rewrite <- Hq in Hy. rewrite (deref_ok s2 c y Hy). cbn [mbind outcome_bind]. rewrite Hrt.
  destruct (_ =? 0) eqn:Eexp.
  2: { exists s2. split_and!; [done|done|by rewrite Hrq|by rewrite Hrq|done|done]. }
  set (s3 := with_procs <[c := demote y]> s2).
  assert ((if bool_decide (state y = PROC_RUNNING) then update c (set_state PROC_READY) s2
           else Ok s2) = Ok s3) as ->.
  { unfold s3, demote. destruct (bool_decide _); [by apply update_ok|].
    f_equal. destruct s2 as [m ? ? ? ? ?]. unfold with_procs. cbn in *. by rewrite insert_id. }
  cbn [mbind outcome_bind].
  assert (sched_inv s3 l) as Hi3.
  { apply (inv_update s2 l c y demote Hi2 Hy); unfold demote; by destruct (bool_decide _). }
  assert (quiet s3) as Hqt.
  { apply (quiet_after s2 l c y); [done|by rewrite Hrq|done|]. unfold demote.
    by destruct (bool_decide_reflect (state y = PROC_RUNNING)). }
  destruct (pick_valid fuel s3 l Hi3 Hf) as (r & -> & Hr & Hr0 & Hpick). cbn [mbind outcome_bind].
  destruct (switch_to_inv s3 l c r Hi3 Hqt (or_intror Hr)) as (s' & Hs' & Hi' & Ht' & Hcur & _);
    [cbn; by rewrite Hrq|].
  exists s'. split; [done|]. split; [done|]. split; [rewrite Ht'; cbn; by rewrite Hrq|].
  exists r, (procs s3). split_and!.
  - intros q. cbn [s3 with_procs procs]. destruct (decide (q = c)) as [->|Hne].
    + by rewrite lookup_insert_eq, <- Hq, Hy.
    + by rewrite lookup_insert_ne.
  - unfold proc_get in *. cbn [s3 with_procs proc_table] in Hpick. by rewrite Htb in Hpick.
  - rewrite Hcur. by destruct (Z.eqb_spec r 0).
  - unfold switch_to in Hs'. destruct (Z.eqb_spec r 0); [done|]. cbn [negb andb] in Hs'.
    destruct (Z.eqb_spec r c); cbn [negb] in Hs'; [by injection Hs' as <-|].
    destruct Hr as [z Hz]. rewrite (update_ok (with_rq (set_current r) s3) r z _ Hz) in Hs'.
    injection Hs' as <-. cbn. by rewrite Hsw.
  - intros q. unfold switch_to in Hs'. destruct (Z.eqb_spec r 0); [done|]. cbn [negb andb] in Hs'.
    destruct (Z.eqb_spec r c); cbn [negb] in Hs' |- *; [injection Hs' as <-; by rewrite andb_false_r|].
    destruct Hr as [z Hz]. rewrite (update_ok (with_rq (set_current r) s3) r z _ Hz) in Hs'.
    injection Hs' as <-. cbn [context_switch with_procs with_rq procs]. rewrite andb_true_r.
    destruct (Z.eqb_spec q r) as [->|Hne]; [by rewrite lookup_insert_eq, Hz|by rewrite lookup_insert_ne].
Qed.

(** (C17) One timer tick on a well-formed system with a current process: the
    tick counter and the account of the current process advance, every queued
    sleeper whose time has come is READY, and unless the ten-tick quantum is
    used up nothing else changes.  When it is, the current process loses the
    RUNNING state and the process of least virtual runtime becomes current: if it
    is another one it becomes RUNNING, with one context switch recorded.  No other
    process changes.  With a switch the statement ends where the new process goes on:
    the rest of the interrupt, its acknowledgement included, waits until the old
    process runs again ([irq_served]).

    The account is charged 255 - priority + 1 per tick, as sched.c:77 does: of two
    processes the one with the lower number is charged more and gets less processor
    time, although process.h:59 and docs/architecture.md:150 call the lower number
    the higher priority. *)
Theorem sched_tick_correct (fuel : nat) s (l : list Z) (x : process)
    (Hinv : sched_inv s l) (Hfuel : (length l < fuel)%nat) (Hcur : current (rq s) ≠ 0)
    (Hx : procs s !! current (rq s) = Some x) :
  let c := current (rq s) in let t := tick (rq s) +₆₄ 1 in
  ∃ s', sched_tick fuel s = Ok s' ∧ sched_inv s' l ∧ tick (rq s') = t ∧
    if (runtime_ticks x +₆₄ 1) mod SCHED_DEFAULT_QUANTUM =? 0 then
      ∃ r m, (∀ q, m !! q = (if decide (q = c) then demote <$> ticked t c (procs s) l q
                             else ticked t c (procs s) l q)) ∧
        ((none_ready m l ∧ r = proc_get 0 s) ∨ first_least m l r) ∧
        current (rq s') = r ∧
        (switches s' = if r =? c then switches s else (c, r) :: switches s) ∧
        ∀ q, procs s' !! q = if (q =? r) && negb (r =? c) then set_state PROC_RUNNING <$> m !! q else m !! q
    else current (rq s') = c ∧ switches s' = switches s ∧
      ∀ q, procs s' !! q = ticked t c (procs s) l q.
Proof. by apply sched_tick_spec. Qed.

(** ** Every operation keeps the invariant *)

Inductive sched_op : Type :=
  | OpAdd (p : Z) | OpRemove (p : Z) | OpTick | OpYield | OpSleep (ms : Z) | OpWake (p : Z)
  | OpExit (p code : Z) | OpKill (i sig : Z) | OpSignal (i signo : Z).

Definition run_op (fuel : nat) (op : sched_op) s : outcome (sys A) :=
  match op with
  | OpAdd p => sched_add p s
  | OpRemove p => sched_remove p s
  | OpTick => sched_tick fuel s
  | OpYield => sched_yield fuel s
  | OpSleep ms => sched_sleep fuel ms s
  | OpWake p => sched_wake p s
  | OpExit p code => proc_exit fuel p code s
  | OpKill i sig => proc_kill fuel i sig s
  | OpSignal i signo => signal_send fuel i signo s
  end.

(** A pointer argument is NULL or a process; only processes outside the queue
    are added, only queued ones removed. *)
Definition op_pre s (l : list Z) (op : sched_op) : Prop :=
  match op with
  | OpAdd p => p ≠ 0 ∧ is_Some (procs s !! p) ∧ (p ∉ l) ∧ Z.of_nat (length l) < 4294967295
  | OpRemove p => p ∈ l
  | OpWake p | OpExit p _ => p = 0 ∨ is_Some (procs s !! p)
  | OpKill i _ | OpSignal i _ => 0 ≤ i
  | OpTick | OpYield | OpSleep _ => True
  end.

(** ** What no operation touches *)

(** [s'] has the memory, the table and the processes of [s], in other states. *)
Record frame s s' : Prop := mk_frame {
  fr_mmu : sys_mmu s' = sys_mmu s;
  fr_table : proc_table s' = proc_table s;
  fr_procs : ∀ p, is_Some (procs s' !! p) ↔ is_Some (procs s !! p);
}.

#[local] Instance frame_preorder : PreOrder frame.
Proof.
  split; [by split|]. intros s1 s2 s3 [A1 A2 A3] [B1 B2 B3]. split; [congruence..|]. intros p. by rewrite B3.
Qed.

(** A result within the frame, and how the operations compose. *)
Definition framed s (o : outcome (sys A)) : Prop := ∀ s', o = Ok s' → frame s s'.

Lemma framed_ok s : framed s (Ok s).
Proof. by intros s' [= <-]. Qed.

Lemma framed_rq s f : framed s (Ok (with_rq f s)).
Proof. intros s' [= <-]. by split. Qed.

Lemma framed_update s p f : framed s (update p f s).
Proof.
  intros s'. unfold update, deref. destruct (procs s !! p) as [x|] eqn:Hx; [|discriminate]. intros [= <-].
  split; [done..|]. intros q. cbn [with_procs procs]. destruct (decide (q = p)) as [->|Hne].
  - rewrite lookup_insert_eq, Hx. split; by eexists.
  - by rewrite lookup_insert_ne.
Qed.

Lemma framed_step s (o : outcome (sys A)) (f : sys A → outcome (sys A)) :
  framed s o → (∀ t, framed t (f t)) → framed s (o ≫= f).
Proof. intros Ho Hf s' (t & E & E')%outcome_bind_ok. transitivity t; [by apply Ho|by apply (Hf t)]. Qed.

Lemma framed_value {X} s (o : outcome X) (f : X → outcome (sys A)) : (∀ x, framed s (f x)) → framed s (o ≫= f).
Proof. intros Hf s' (x & _ & E)%outcome_bind_ok. by apply (Hf x). Qed.

Lemma framed_from s t o : frame s t → framed t o → framed s o.
Proof. intros H Ho s' E. transitivity t; [done|by apply Ho]. Qed.

(** Follows the structure of an operation. *)
Ltac framing :=
  repeat first
    [ apply framed_ok | apply framed_rq | apply framed_update
    | lazymatch goal with
      | |- framed _ (if _ then _ else _) => case_match
      | |- framed _ (match _ with _ => _ end) => case_match
      | |- framed ?s (mbind (A:=sys A) _ _) => apply framed_step; [|intros ?]
      | |- framed _ (_ ≫= _) => apply framed_value; intros ?
      end ].

Lemma framed_switch_to cur nxt s : framed s (switch_to cur nxt s).
Proof.
  unfold switch_to. destruct (_ && _); [|apply framed_ok].
  apply (framed_from _ (with_rq (set_current nxt) s)); [by split|]. framing. intros s' [= <-]. by split.
Qed.

Lemma framed_wake fuel p s : framed s (wake_loop fuel p s).
Proof. revert p s. induction fuel as [|fuel IH]; intros p s; [done|]. cbn [wake_loop]. framing. apply IH. Qed.

Lemma framed_yield fuel s : framed s (sched_yield fuel s).
Proof. unfold sched_yield. framing. apply framed_switch_to. Qed.

Lemma framed_exit fuel p code s : framed s (proc_exit fuel p code s).
Proof. unfold proc_exit. framing. apply framed_yield. Qed.

Lemma framed_op fuel op s : framed s (run_op fuel op s).
Proof.
  destruct op; cbn [run_op]; unfold sched_add, sched_remove, sched_tick, sched_sleep, sched_wake, proc_kill, signal_send;
    framing; try apply framed_yield; try apply framed_exit.
  - intros s' [= <-]. by split.
  - apply (framed_from _ (with_rq (fun q => set_tick (tick q +₆₄ 1) q) s)); [by split|apply framed_update].
  - apply framed_wake.
  - apply framed_switch_to.
Qed.

Lemma framed_ops fuel ops s :
  framed s (foldl (fun o op => x ← o; run_op fuel op x) (Ok s) ops).
Proof.
  induction ops as [|op ops IH] using rev_ind; [apply framed_ok|]. rewrite foldl_app. cbn [foldl].
  apply framed_step; [exact IH|]. intros t. apply framed_op.
Qed.

Lemma update_rest p f s s' : update p f s = Ok s' → rq s' = rq s ∧ proc_table s' = proc_table s.
Proof. unfold update. destruct (deref p s); try discriminate. by intros [= <-]. Qed.

(** The parts of the state that the queue operations do not touch. *)
Lemma sched_add_rest p s s' :
  sched_add p s = Ok s' → current (rq s') = current (rq s) ∧ proc_table s' = proc_table s.
Proof.
  unfold sched_add. destruct (p =? 0); [by intros [= <-]|].
  destruct (deref p s) as [x| | |]; try discriminate. cbn [mbind outcome_bind].
  destruct (bool_decide _); [by intros [= <-]|].
  intros (s1 & E1 & H)%outcome_bind_ok. apply update_rest in E1 as [R1 T1].
  apply outcome_bind_ok in H as (s2 & E2 & H). apply update_rest in E2 as [R2 T2].
  apply outcome_bind_ok in H as (s3 & E3 & [= <-]).
  cbn [with_rq rq proc_table set_tail set_count current]. rewrite <- R1, <- T1, <- R2, <- T2.
  destruct (rq_tail (rq s2) =? 0); [by apply Ok_inj in E3 as <-|].
  by apply update_rest in E3 as [-> ->].
Qed.

Lemma sched_remove_rest p s s' :
  sched_remove p s = Ok s' → current (rq s') = current (rq s) ∧ proc_table s' = proc_table s.
Proof.
  unfold sched_remove. destruct (p =? 0); [by intros [= <-]|].
  destruct (deref p s) as [x| | |]; try discriminate. cbn [mbind outcome_bind].
  intros (s1 & E1 & H)%outcome_bind_ok. apply outcome_bind_ok in H as (y & _ & H).
  apply outcome_bind_ok in H as (s2 & E2 & H). apply outcome_bind_ok in H as (s3 & E3 & [= <-]).
  apply update_rest in E3 as [R3 T3].
  assert (current (rq s1) = current (rq s) ∧ proc_table s1 = proc_table s) as [<- <-].
  { destruct (prev x =? 0); [by apply Ok_inj in E1 as <-|]. by apply update_rest in E1 as [-> ->]. }
  assert (current (rq s2) = current (rq s1) ∧ proc_table s2 = proc_table s1) as [<- <-].
  { destruct (next y =? 0); [by apply Ok_inj in E2 as <-|]. by apply update_rest in E2 as [-> ->]. }
  cbn [with_rq rq proc_table]. rewrite R3, T3. by destruct (0 <? _).
Qed.

(** A change of links alone keeps the rest of the invariant. *)
Lemma inv_same_core s s' l l' :
  sched_inv s l → same_core s s' → rq_wf s' l' → current (rq s') = current (rq s) →
  proc_table s' = proc_table s → sched_inv s' l'.
Proof.
  intros [_ H2 H3 H4 H5] Hc Hwf Hcur Htab.
  assert (∀ q x', procs s' !! q = Some x' → ∃ x, procs s !! q = Some x ∧ state x = state x') as Hback.
  { intros q x' Hx'. specialize (Hc q). rewrite Hx' in Hc. destruct (procs s !! q) as [x|]; [|done].
    exists x. split; [done|]. injection Hc. intros. done. }
  assert (∀ q, is_Some (procs s !! q) → is_Some (procs s' !! q)) as Hfwd.
  { intros q [x Hx]. specialize (Hc q). rewrite Hx in Hc. by destruct (procs s' !! q). }
  split; try done.
  - rewrite Hcur. destruct H2 as [?|?]; [by left|right; auto].
  - unfold proc_get in *. by rewrite Htab.
  - intros i Hi. unfold proc_get in *. rewrite Htab. destruct (H4 i Hi) as [?|?]; [by left|right; auto].
  - intros p x' Hx' Hr. destruct (Hback p x' Hx') as (x & Hx & Hs). rewrite Hcur.
    apply (H5 p x Hx). congruence.
Qed.

Lemma sched_exit_spec fuel s l p code :
  sched_inv s l → (length l < fuel)%nat → p = 0 ∨ is_Some (procs s !! p) →
  ∃ s', proc_exit fuel p code s = Ok s' ∧ sched_inv s' l.
Proof.
  intros Hi Hf Hp. unfold proc_exit. destruct (Z.eqb_spec p 0) as [|Hp0]; [by exists s|].
  destruct Hp as [|[x Hx]]; [done|].
  destruct (inv_update s l p x (set_exit code) Hi Hx eq_refl ltac:(done)) as [-> Hi1].
  cbn [mbind outcome_bind]. set (s1 := with_procs _ s) in *.
  assert (procs s1 !! p = Some (set_exit code x)) as Hx1 by apply lookup_insert_eq.
  destruct (inv_update s1 l p _ (set_state PROC_ZOMBIE) Hi1 Hx1 eq_refl ltac:(done)) as [-> Hi2].
  cbn [mbind outcome_bind].
  destruct (sched_yield_spec fuel _ l Hi2 Hf) as (s' & -> & Hi' & _). by exists s'.
Qed.

Lemma sched_sleep_spec fuel s l ms :
  sched_inv s l → (length l < fuel)%nat →
  ∃ s', sched_sleep fuel ms s = Ok s' ∧ sched_inv s' l ∧
    ∀ x, current (rq s) ≠ 0 → procs s !! current (rq s) = Some x →
      ∃ y, procs s' !! current (rq s) = Some y ∧ state y = PROC_READY ∧
        sleep_until y = tick (rq s) +₆₄ ms.
Proof.
  intros Hi Hf. unfold sched_sleep. destruct (Z.eqb_spec (current (rq s)) 0) as [E|Hc].
  { exists s. by split_and!. }
  destruct (si_current _ _ Hi) as [|[x Hx]]; [done|]. set (c := current (rq s)) in *.
  destruct (inv_update s l c x (set_state PROC_SLEEPING) Hi Hx eq_refl ltac:(done)) as [-> Hi1].
  cbn [mbind outcome_bind]. set (s1 := with_procs _ s) in *.
  assert (procs s1 !! c = Some (set_state PROC_SLEEPING x)) as Hx1 by apply lookup_insert_eq.
  destruct (inv_update s1 l c _ (fun x => set_times (runtime_ticks x) (tick (rq s1) +₆₄ ms) (vruntime x) x)
    Hi1 Hx1 eq_refl ltac:(done)) as [-> Hi2].
  cbn [mbind outcome_bind]. set (s2 := with_procs _ s1) in *.
  destruct (sched_yield_spec fuel s2 l Hi2 Hf) as (s' & -> & Hi' & _ & Hy).
  exists s'. split; [done|]. split; [done|]. intros y _ Hxy.
  change (current (rq s2)) with c in Hy.
  destruct (Hy _ Hc (lookup_insert_eq (procs s1) c _)) as [Hfin _].
  eexists. split; [exact Hfin|]. by split.
Qed.

(** Yielding when the caller is the first READY process of least virtual runtime: it
    runs on. *)
Lemma sched_yield_stays fuel s l x :
  sched_inv s l → (length l < fuel)%nat → current (rq s) ≠ 0 → current (rq s) ∈ l →
  procs s !! current (rq s) = Some x →
  (∀ r, first_least (<[current (rq s) := set_state PROC_READY x]> (procs s)) l r → r = current (rq s)) →
  sched_yield fuel s = Ok (with_procs <[current (rq s) := set_state PROC_READY x]> s).
Proof.
  intros Hi Hf Hc Hin Hx Hleast. unfold sched_yield. destruct (Z.eqb_spec (current (rq s)) 0); [done|].
  destruct (inv_update s l (current (rq s)) x (set_state PROC_READY) Hi Hx eq_refl) as [-> Hi1]; [done|].
  cbn [mbind outcome_bind]. set (s1 := with_procs _ s) in *.
  destruct (pick_valid fuel s1 l Hi1 Hf) as (r & -> & Hr & Hr0 & Hpick). cbn [mbind outcome_bind].
  assert (r = current (rq s)) as ->.
  { destruct Hpick as [[Hnone _]|Hl]; [|by apply Hleast]. exfalso.
    by apply (Hnone (current (rq s)) (set_state PROC_READY x) Hin (lookup_insert_eq _ _ _)). }
  unfold switch_to. by rewrite Z.eqb_refl, andb_false_r.
Qed.

(** The process after it asked to sleep until tick [t]. *)
Definition overslept (t : Z) (x : process) : process :=
  set_state PROC_READY (set_times (runtime_ticks x) t (vruntime x) (set_state PROC_SLEEPING x)).

Lemma sched_sleep_stays fuel s l x ms :
  sched_inv s l → (length l < fuel)%nat → current (rq s) ≠ 0 → current (rq s) ∈ l →
  procs s !! current (rq s) = Some x →
  (∀ r, first_least (<[current (rq s) := overslept (tick (rq s) +₆₄ ms) x]> (procs s)) l r → r = current (rq s)) →
  ∃ s', sched_sleep fuel ms s = Ok s' ∧ sched_inv s' l ∧ current (rq s') = current (rq s) ∧
    procs s' = <[current (rq s) := overslept (tick (rq s) +₆₄ ms) x]> (procs s).
Proof.
  intros Hi Hf Hc Hin Hx Hleast. unfold sched_sleep. destruct (Z.eqb_spec (current (rq s)) 0); [done|].
  set (c := current (rq s)) in *.
  destruct (inv_update s l c x (set_state PROC_SLEEPING) Hi Hx eq_refl ltac:(done)) as [-> Hi1].
  cbn [mbind outcome_bind]. set (s1 := with_procs _ s) in *.
  assert (procs s1 !! c = Some (set_state PROC_SLEEPING x)) as Hx1 by apply lookup_insert_eq.
  destruct (inv_update s1 l c _ (fun x => set_times (runtime_ticks x) (tick (rq s1) +₆₄ ms) (vruntime x) x)
    Hi1 Hx1 eq_refl ltac:(done)) as [-> Hi2].
  cbn [mbind outcome_bind]. set (s2 := with_procs _ s1) in *.
  destruct (sched_yield_spec fuel s2 l Hi2 Hf) as (s' & E & Hi' & _).
  assert (Eall : <[c := overslept (tick (rq s) +₆₄ ms) x]> (procs s2) = <[c := overslept (tick (rq s) +₆₄ ms) x]> (procs s)).
  { cbn [s2 s1 with_procs procs]. by rewrite !insert_insert_eq. }
  pose proof (sched_yield_stays fuel s2 l (set_times (runtime_ticks x) (tick (rq s) +₆₄ ms) (vruntime x) (set_state PROC_SLEEPING x))
    Hi2 Hf Hc Hin) as Hy.
  change (current (rq s2)) with c in Hy. specialize (Hy (lookup_insert_eq _ _ _)).
  exists s'. split; [done|]. split; [done|]. rewrite Hy in E.
  - injection E as <-. split; [done|exact Eall].
  - intros r Hr. apply Hleast. by rewrite <- Eall.
Qed.

(** Only adding and removing change the queue. *)
Definition keeps_queue (op : sched_op) (l l' : list Z) : Prop :=
  match op with
  | OpAdd p => l' = l ∨ l' = l ++ [p]
  | OpRemove p => ∃ l1 l2, l = l1 ++ p :: l2 ∧ l' = l1 ++ l2
  | _ => l' = l
  end.

Lemma keeps_queue_length op l l' : keeps_queue op l l' → (length l' ≤ S (length l))%nat.
Proof.
  destruct op; cbn; try (intros ->; lia).
  - intros [->| ->]; rewrite ?length_app; cbn; lia.
  - intros (l1 & l2 & -> & ->). rewrite !length_app. cbn. lia.
Qed.

Lemma sched_op_spec (fuel : nat) (op : sched_op) s (l : list Z) :
  sched_inv s l → op_pre s l op → (length l < fuel)%nat →
  ∃ s' l', run_op fuel op s = Ok s' ∧ sched_inv s' l' ∧ keeps_queue op l l'.
Proof.
  intros Hinv Hpre Hfuel.
  destruct op as [p|p| | |ms|p|p code|i sig|i signo]; cbn [run_op op_pre keeps_queue] in *.
  - destruct Hpre as (Hp & [x Hx] & Hnew & Hlen).
    destruct (sched_add_spec p x s l (si_wf _ _ Hinv) Hp Hx Hnew Hlen) as (s' & E & Hc & Hw).
    destruct (decide (state x = PROC_READY)); [|subst s'; exists s, l; by auto].
    exists s', (l ++ [p]). split; [done|]. split; [|by right].
    destruct (sched_add_rest p s s' E) as [Hcur Htab]. by apply (inv_same_core s s' l).
  - apply list_elem_of_split in Hpre as (l1 & l2 & ->).
    destruct (sched_remove_spec p s l1 l2 (si_wf _ _ Hinv)) as (s' & E & Hc & Hw).
    exists s', (l1 ++ l2). split; [done|]. split; [|by exists l1, l2].
    destruct (sched_remove_rest p s s' E) as [Hcur Htab]. by apply (inv_same_core s s' (l1 ++ p :: l2)).
  - destruct (si_current _ _ Hinv) as [E|[x Hx]].
    { unfold sched_tick. cbn [with_rq rq set_tick current]. rewrite E, Z.eqb_refl.
      eexists _, l. split; [done|]. split; [|done]. by apply inv_set_tick. }
    destruct (Z.eq_dec (current (rq s)) 0) as [E|Hc].
    { unfold sched_tick. cbn [with_rq rq set_tick current]. rewrite E, Z.eqb_refl.
      eexists _, l. split; [done|]. split; [|done]. by apply inv_set_tick. }
    destruct (sched_tick_spec fuel s l x Hinv Hfuel Hc Hx) as (s' & E & Hi & _). by exists s', l.
  - destruct (sched_yield_spec fuel s l Hinv Hfuel) as (s' & E & Hi & _). by exists s', l.
  - destruct (sched_sleep_spec fuel s l ms Hinv Hfuel) as (s' & E & Hi & _). by exists s', l.
  - unfold sched_wake. destruct (Z.eqb_spec p 0); [by exists s, l|].
    destruct Hpre as [|[x Hx]]; [done|]. rewrite (deref_ok s p x Hx). cbn [mbind outcome_bind].
    destruct (_ || _); [|by exists s, l].
    destruct (inv_update s l p x (set_state PROC_READY) Hinv Hx eq_refl ltac:(done)) as [E Hi].
    by eexists _, l.
  - destruct (sched_exit_spec fuel s l p code Hinv Hfuel Hpre) as (s' & E & Hi). by exists s', l.
  - unfold proc_kill. destruct (Z.eqb_spec (proc_get i s) 0) as [|Hp]; [by exists s, l|].
    destruct (sched_exit_spec fuel s l (proc_get i s) (-1) Hinv Hfuel (si_table _ _ Hinv i Hpre))
      as (s' & E & Hi). by exists s', l.
  - unfold signal_send. destruct (Z.eqb_spec (proc_get i s) 0) as [|Hp]; [by exists s, l|].
    pose proof (si_table _ _ Hinv i Hpre) as Hv.
    destruct (_ || _).
    { destruct (sched_exit_spec fuel s l (proc_get i s) (- signo) Hinv Hfuel Hv) as (s' & E & Hi).
      by exists s', l. }
    destruct Hv as [|[x Hx]]; [done|].
    destruct (signo =? SIGSTOP).
    { destruct (inv_update s l _ x (set_state PROC_BLOCKED) Hinv Hx eq_refl ltac:(done)) as [E Hi].
      by eexists _, l. }
    destruct (signo =? SIGCONT); [|by exists s, l].
    rewrite (deref_ok s _ x Hx). cbn [mbind outcome_bind].
    destruct (bool_decide _); [|by exists s, l].
    destruct (inv_update s l _ x (set_state PROC_READY) Hinv Hx eq_refl ltac:(done)) as [E Hi].
    by eexists _, l.
Qed.

(** (C6) Every scheduler, process and signal operation applied to a
    well-formed system returns (no bad pointer is followed and no list walk runs
    out of the fuel, one more than the length of the queue) and leaves a
    well-formed system, in which at most the current process is RUNNING. *)
Theorem sched_ops_safe (fuel : nat) (op : sched_op) s (l : list Z)
    (Hinv : sched_inv s l) (Hpre : op_pre s l op) (Hfuel : (length l < fuel)%nat) :
  ∃ s' l', run_op fuel op s = Ok s' ∧ sched_inv s' l'.
Proof.
  destruct (sched_op_spec fuel op s l Hinv Hpre Hfuel) as (s' & l' & E & Hi & _). by exists s', l'.
Qed.

(** (Property) [sched_sleep] does not put the caller to sleep: [sched_yield], which
    it calls, overwrites the SLEEPING state with READY, so the process keeps
    competing for the CPU although its wake-up tick is recorded. *)
Theorem sched_sleep_leaves_ready (fuel : nat) (ms : Z) s (l : list Z) (x : process)
    (Hinv : sched_inv s l) (Hfuel : (length l < fuel)%nat) (Hcur : current (rq s) ≠ 0)
    (Hx : procs s !! current (rq s) = Some x) :
  ∃ s' y, sched_sleep fuel ms s = Ok s' ∧ procs s' !! current (rq s) = Some y ∧
    state y = PROC_READY ∧ sleep_until y = tick (rq s) +₆₄ ms.
Proof.
  destruct (sched_sleep_spec fuel s l ms Hinv Hfuel) as (s' & E & _ & Hy).
  destruct (Hy x Hcur Hx) as (y & H1 & H2 & H3). by exists s', y.
Qed.

(** (Property) [proc_exit] of the running process does not leave a zombie: the yield
    at its end makes it READY again, so it is scheduled after it has exited. *)
Theorem proc_exit_leaves_ready (fuel : nat) (code : Z) s (l : list Z) (x : process)
    (Hinv : sched_inv s l) (Hfuel : (length l < fuel)%nat) (Hcur : current (rq s) ≠ 0)
    (Hx : procs s !! current (rq s) = Some x) :
  ∃ s' y, proc_exit fuel (current (rq s)) code s = Ok s' ∧
    procs s' !! current (rq s) = Some y ∧ state y = PROC_READY ∧ exit_code y = code.
Proof.
  unfold proc_exit. destruct (Z.eqb_spec (current (rq s)) 0); [done|]. set (c := current (rq s)) in *.
  destruct (inv_update s l c x (set_exit code) Hinv Hx eq_refl ltac:(done)) as [-> Hi1].
  cbn [mbind outcome_bind]. set (s1 := with_procs _ s) in *.
  assert (procs s1 !! c = Some (set_exit code x)) as Hx1 by apply lookup_insert_eq.
  destruct (inv_update s1 l c _ (set_state PROC_ZOMBIE) Hi1 Hx1 eq_refl ltac:(done)) as [-> Hi2].
  cbn [mbind outcome_bind]. set (s2 := with_procs _ s1) in *.
  destruct (sched_yield_spec fuel s2 l Hi2 Hfuel) as (s' & E & _ & _ & Hy).
  change (current (rq s2)) with c in Hy.
  destruct (Hy _ Hcur (lookup_insert_eq (procs s1) c _)) as [Hfin _].
  eexists _, _. split; [exact E|]. split; [exact Hfin|]. by split.
Qed.
End Sched.
