(* ===== verification/ProcCreateSpec.v ===== *)
(** * Process creation

    [proc_create] takes the first free slot of the process table and registers a
    READY process there; with a full table its guard does not work. *)
From S2P Require Import Prelude Mem LibString PageAlloc Pmm Kheap KheapInv KheapSpec KmallocSpec.
From S2P Require Import Paging Process ProcessSpec SchedSpec.

Lemma free_slot_spec table :
  (1 ≤ free_slot table < MAX_PROCESSES ∧ table !!! Z.to_nat (free_slot table) = 0 ∧
   ∀ j, 1 ≤ j < free_slot table → table !!! Z.to_nat j ≠ 0) ∨
  (free_slot table = 4294967295 ∧ ∀ j, 1 ≤ j < MAX_PROCESSES → table !!! Z.to_nat j ≠ 0).
Proof.
  unfold free_slot, MAX_PROCESSES.
  pose proof (c_for_ret_inv
    (fun i (_ : unit) => 1 ≤ i ∧ ∀ j, 1 ≤ j < i → table !!! Z.to_nat j ≠ 0)
    (fun r => 1 ≤ r < 1024 ∧ table !!! Z.to_nat r = 0 ∧ ∀ j, 1 ≤ j < r → table !!! Z.to_nat j ≠ 0)
    1 1024 (fun i (_ : unit) => if table !!! Z.to_nat i =? 0 then inr i else inl tt) tt) as H.
  destruct (c_for_ret _ _ _ _) as [u|i].
  - right. split; [done|]. apply H; [lia|split; lia|].
    intros i [] Hi [_ Hj]. destruct (Z.eqb_spec (table !!! Z.to_nat i) 0) as [E|E].
    + by split_and!; [lia..|done|].
    + split; [lia|]. intros j Hj'. destruct (Z.eq_dec j i) as [->|]; [done|]. apply Hj. lia.
  - left. apply H; [lia|split; lia|].
    intros k [] Hk [_ Hj]. destruct (Z.eqb_spec (table !!! Z.to_nat k) 0) as [E|E].
    + by split_and!; [lia..|done|].
    + split; [lia|]. intros j Hj'. destruct (Z.eq_dec j k) as [->|]; [done|]. apply Hj. lia.
Qed.

Section Create.
Context {A : Type} `{PageAllocSpec A}.
Implicit Types s : sys A.

(** Writing the fresh page at [phys], with [g], and the four words of the object. *)
Lemma space_written_grows (h : kheap A) a' bs phys b (g : mem → mem) :
  kheap_inv h bs → grabbed phys 1 (kh_pages h) a' → b ∈ used_blocks bs → 32 ≤ b_size b →
  mem_bytes (g (kh_mem h)) → mem_outside (kh_mem h) (g (kh_mem h)) phys (phys + 1 * 4096) →
  heap_grows 0 h bs (with_mem (fun m =>
      let m := g m in
      let m := store64 m (b_data b) phys in
      let m := store64 m (b_data b + 8) 4194304 in
      let m := store64 m (b_data b + 16) (load64 m (b_data b + 8)) in
      store64 m (b_data b + 24) 140737488347136) (with_pages a' h)) bs.
Proof.
  intros Hi Hg [Hbu Hb]%list_elem_of_filter Hs Hm Ho.
  pose proof (fresh_write_grows h bs phys 1 a' _ Hi Hg ltac:(lia) Hm Ho) as H1.
  set (m2 := store64 (store64 (g (kh_mem h)) (b_data b) phys) (b_data b + 8) 4194304).
  pose proof (payload_write_grows (with_mem (fun _ => g (kh_mem h)) (with_pages a' h)) bs b
    (store64 (store64 m2 (b_data b + 16) (load64 m2 (b_data b + 8))) (b_data b + 24) 140737488347136)
    (hg_inv _ _ _ _ _ H1) Hb) as H2.
  apply (heap_grows_trans 0 0 0 _ _ _ _ _ _ H1); [|lia]. apply H2.
  - by apply store64_bytes, store64_bytes, store64_bytes, store64_bytes.
  - intros x Hx. cbn [with_mem with_pages kh_mem]. unfold m2. by rewrite !store64_other by lia.
Qed.

(** A new address space: a heap object and a page table of its own; writing them
    does not disturb the heap. *)
Lemma vmm_create_spec fuel (m : mmu A) bs :
  kheap_inv (mm_heap m) bs → (length bs + 3 ≤ fuel)%nat →
  match vmm_create_address_space fuel m with
  | Ok (_, m') => ∃ bs', heap_grows 2 (mm_heap m) bs (mm_heap m') bs'
  | Panic _ => True
  | _ => False
  end.
Proof.
  intros Hi Hf. unfold vmm_create_address_space.
  pose proof (kmalloc_spec fuel 32 (mm_heap m) bs Hi ltac:(lia) Hf) as Hk.
  destruct (kmalloc fuel 32 (mm_heap m)) as [[p h]| | |]; try done.
  cbn [mbind outcome_bind]. destruct (Z.eqb_spec p 0) as [->|Hp].
  { destruct Hk as [(_ & _ & _ & Hi' & Hfr)|(b & Hb & Hal & _)]; [exists bs; by split; [|lia| |]|].
    destruct (allocated_grows _ _ _ _ _ _ Hal) as (bs' & _ & _ & _ & Hnz & _). congruence. }
  destruct Hk as [(-> & _)|(b & -> & Hal & _)]; [done|].
  destruct (allocated_grows _ _ _ _ _ _ Hal) as (bs' & Hg & Hb & Hs & _ & _).
  pose proof (alloc_page_spec (kh_pages h) (ki_pages _ _ (hg_inv _ _ _ _ _ Hg))) as Hpg.
  unfold mm_pages. cbn [on_heap mm_heap].
  destruct (alloc_page (kh_pages h)) as [[phys a']| | |]; [|done..]. cbn [mbind outcome_bind].
  exists bs'. apply (heap_grows_trans 2 0 2 _ _ _ _ _ _ Hg); [|lia].
  apply (space_written_grows _ _ _ _ _ (memset phys 0 PAGE_SIZE) (hg_inv _ _ _ _ _ Hg) Hpg Hb).
  - lia.
  - apply memset_bytes, (hg_inv _ _ _ _ _ Hg).
  - intros x Hx. apply memset_out; unfold PAGE_SIZE; lia.
Qed.

(** What [proc_create] registers at [p] under the pid [i]. *)
Record created (i p entry pflags prio : Z) (pname : option string) s s' : Prop := mk_created {
  cr_slot : 1 ≤ i < MAX_PROCESSES ∧ proc_table s !!! Z.to_nat i = 0;
  cr_first : ∀ j, 1 ≤ j < i → proc_table s !!! Z.to_nat j ≠ 0;
  cr_table : proc_table s' = <[Z.to_nat i := p]> (proc_table s);
  cr_next : next_pid s' = i + 1;
  cr_proc : ∃ x, procs s' = <[p := x]> (procs s) ∧ pid x = i ∧ state x = PROC_READY ∧
    name x = name_field (default "unnamed" pname) ∧ flags x = pflags ∧ priority x = prio ∧
    vruntime x = 0 ∧ next x = 0 ∧ prev x = 0 ∧ rip (context x) = entry ∧
    kernel_stack x mod PAGE_SIZE = 0 ∧ rsp (context x) = kernel_stack x + KERNEL_STACK_SIZE ∧
    (cs (context x) = if Z.testbit pflags 0 then 8 else 27);
  cr_queue : rq s' = rq s;
}.

Lemma proc_create_spec (fuel : nat) (pname : option string) (entry pflags prio : Z) s
    (bs : list blk) (Hheap : kheap_inv (mm_heap (sys_mmu s)) bs)
    (Hfuel : (length bs + 5 ≤ fuel)%nat)
    (Hcur : proc_current s = 0 ∨ is_Some (procs s !! proc_current s)) :
  match proc_create fuel pname entry pflags prio s with
  | Ok (p, s') =>
      ∃ bs', heap_grows 4 (mm_heap (sys_mmu s)) bs (mm_heap (sys_mmu s')) bs' ∧
        ((p = 0 ∧ procs s' = procs s ∧ proc_table s' = proc_table s ∧ rq s' = rq s) ∨
         (p ≠ 0 ∧ created (free_slot (proc_table s)) p entry pflags prio pname s s' ∧ in_use bs' p 1 ∧
          ∀ c, c ∈ used_blocks bs → b_data c ≠ p))
  | Panic _ => True
  | Undef _ => ∀ j, 1 ≤ j < MAX_PROCESSES → proc_table s !!! Z.to_nat j ≠ 0
  | Diverge => False
  end.
Proof.
  unfold proc_create. set (i := free_slot (proc_table s)).
  assert (0 < i) as Hi by (unfold i; destruct (free_slot_spec (proc_table s)) as [[? _]|[E _]]; lia).
  destruct (Z.ltb_spec i 0); [lia|].
  pose proof (kcalloc_spec fuel 1 PROCESS_SIZEOF (mm_heap (sys_mmu s)) bs Hheap
    ltac:(unfold PROCESS_SIZEOF; lia) ltac:(lia)) as Hk.
  destruct (kcalloc fuel 1 PROCESS_SIZEOF _) as [[p h]| | |]; try done.
  cbn [mbind outcome_bind].
  destruct Hk as [(-> & Hi0 & Hfr0)|(b & -> & Hp & Hal & _)].
  { exists bs. split; [by split; [|lia| |]|by left]. }
  destruct (allocated_grows _ _ _ _ _ _ Hal) as (bs1 & Hg1 & Hb & _ & _ & Hold).
  pose proof (hg_inv _ _ _ _ _ Hg1) as Hi1. pose proof (hg_len _ _ _ _ _ Hg1) as Hlen.
  destruct (Z.eqb_spec (b_data b) 0) as [|_]; [done|].
  set (s1 := with_mmu _ s).
  assert (∃ parent, (if proc_current s1 =? 0 then Ok 0
    else x ← deref (proc_current s1) s1; Ok (pid x)) = Ok parent) as [parent ->].
  { change (proc_current s1) with (proc_current s).
    destruct (Z.eqb_spec (proc_current s) 0); [by eexists|].
    destruct Hcur as [|[x Hx]]; [done|]. rewrite (deref_ok s1 _ x Hx). by eexists. }
  cbn [mbind outcome_bind].
  pose proof (alloc_pages_spec (KERNEL_STACK_SIZE / PAGE_SIZE) (kh_pages h) (ki_pages _ _ Hi1)
    ltac:(by unfold KERNEL_STACK_SIZE, PAGE_SIZE)) as Hg.
  change (mm_pages (sys_mmu s1)) with (kh_pages h).
  destruct (alloc_pages _ (kh_pages h)) as [[stack pa]| | |]; try done.
  cbn [mbind outcome_bind].
  pose proof (grabbed_grows h _ _ _ _ Hi1 Hg) as Hi2.
  set (m2 := on_heap (with_pages pa) (sys_mmu s1)).
  change (sys_mmu (with_mmu m2 s1)) with m2.
  pose proof (vmm_create_spec fuel m2 bs1 (hg_inv _ _ _ _ _ Hi2) ltac:(lia)) as Hv.
  destruct (vmm_create_address_space fuel m2) as [[as_ m3]| | |]; try done.
  cbn [mbind outcome_bind]. destruct Hv as (bs' & Hg3).
  assert (heap_grows 4 (mm_heap (sys_mmu s)) bs (mm_heap m3) bs') as Hgr.
  { apply (heap_grows_trans 2 2 4 _ _ _ _ _ _ Hg1); [|lia]. by apply (heap_grows_trans 0 2 2 _ _ _ _ _ _ Hi2). }
  destruct (free_slot_spec (proc_table s)) as [(Hr & Hz & Hlow)|(Ei & Hfull)];
    [fold i in Hr, Hz, Hlow|fold i in Ei].
  2: { rewrite Ei. exact Hfull. }
  unfold MAX_PROCESSES in Hr |- *. destruct (Z.leb_spec 1024 i); [lia|].
  exists bs'. split; [exact Hgr|]. right. split; [done|]. split.
  2: { split; [|intros c Hc; by apply Hold]. exists b. split_and!; [by apply Hg3|done|].
       pose proof (al_size _ _ _ _ _ _ Hal) as Hs. unfold PROCESS_SIZEOF in Hs. lia. }
  split; cbn [set_next_pid set_table with_procs with_mmu proc_table next_pid procs rq]; try done.
  - apply wrap32_small. lia.
  - eexists. split; [done|]. cbn [pid state name flags priority vruntime next prev context rip rsp cs kernel_stack].
    pose proof (grabbed_aligned _ _ _ _ Hg). pose proof (grabbed_low _ _ _ _ Hg).
    pose proof (grabbed_high _ _ _ _ Hg).
    split_and!; try done.
    + apply wrap64_small. unfold KERNEL_STACK_SIZE, PAGE_SIZE, PAGE_LIMIT in *.
      Z.div_mod_to_equations; lia.
    + unfold PROC_FLAG_KERNEL. by rewrite land_bit by lia.
Qed.

End Create.

(** ** A concrete system

    The idle process, the running process at 8 and a READY one at 24 in the
    queue, and a READY one at 40 outside it; the quantum of the running one ends
    with the next tick. *)
Definition sample_proc (i : Z) (st : proc_state) (ticks vr nx pv : Z) : process :=
  mk_process i 0 "p" st 1 (mk_ctx 0 0 8 16 514) 0 0 0 16384 0 ticks 0 10 vr nx pv.
Definition sample_sys : sys pmm := mk_sys
  (<[1 := sample_proc 0 PROC_READY 0 0 0 0]> (<[8 := sample_proc 1 PROC_RUNNING 9 2214 24 0]>
    (<[24 := sample_proc 2 PROC_READY 0 5 0 8]> (<[40 := sample_proc 3 PROC_READY 0 0 0 0]> ∅))))
  (1 :: 8 :: 24 :: 40 :: replicate 1020 0) 4 (mk_rq 8 24 2 8 9) []
  (mk_mmu sample_heap 20480 []).

Lemma sample_rq_wf : rq_wf sample_sys [8; 24].
Proof.
  split; [|reflexivity|reflexivity| |reflexivity].
  - split; [discriminate|]. split; [eexists; split; [reflexivity|by split]|].
    split; [discriminate|]. split; [eexists; split; [reflexivity|by split]|]. exact I.
  - apply NoDup_cons. split; [|apply NoDup_singleton].
    intros H%list_elem_of_singleton. discriminate H.
Qed.

Lemma sample_table_get i : 0 ≤ i → proc_get i sample_sys = 0 ∨ is_Some (procs sample_sys !! proc_get i sample_sys).
Proof.
  intros Hi. unfold proc_get. destruct (Z.leb_spec MAX_PROCESSES i) as [|Hlt]; [by left|].
  cbn [proc_table sample_sys]. unfold MAX_PROCESSES in Hlt.
  assert (Z.to_nat i < 1024)%nat as Hk by lia. revert Hk.
  destruct (Z.to_nat i) as [|[|[|[|k]]]]; intros Hk; [right; eexists; reflexivity..|left].
  change ((1 :: 8 :: 24 :: 40 :: replicate 1020 0) !!! S (S (S (S k)))) with (replicate 1020 0 !!! k).
  apply lookup_total_replicate_2. lia.
Qed.

Lemma sample_sched_inv : sched_inv sample_sys [8; 24].
Proof.
  split; [exact sample_rq_wf|right; eexists; reflexivity|discriminate|exact sample_table_get|].
  intros p x. cbn [sample_sys procs]. rewrite !lookup_insert_Some, lookup_empty.
  intros [(<- & <-)|(_ & [(<- & <-)|(_ & [(<- & <-)|(_ & [(<- & <-)|(_ & [=])])])])];
    cbn [state sample_proc]; (discriminate || reflexivity).
Qed.

Lemma sched_add_appends_witness :
  ∃ s', sched_add 40 sample_sys = Ok s' ∧ rq_wf s' [8; 24; 40].
Proof.
  destruct (sched_add_appends 40 (sample_proc 3 PROC_READY 0 0 0 0) sample_sys [8; 24] sample_rq_wf
    ltac:(discriminate) eq_refl) as (s' & E & _ & Hw).
  - intros [H|[H|H%elem_of_nil]%elem_of_cons]%elem_of_cons; [discriminate H|discriminate H|exact H].
  - reflexivity.
  - exists s'. split; [exact E|exact Hw].
Defined.

Lemma sched_remove_unlinks_witness :
  ∃ s', sched_remove 8 sample_sys = Ok s' ∧ rq_wf s' [24].
Proof.
  destruct (sched_remove_unlinks 8 sample_sys [] [24] sample_rq_wf) as (s' & E & _ & Hw).
  exists s'. split; [exact E|exact Hw].
Defined.

Lemma pick_next_least_vruntime_witness :
  ∃ r, pick_next 3 sample_sys = Ok r ∧
    ((none_ready (procs sample_sys) [8; 24] ∧ r = 1) ∨ first_least (procs sample_sys) [8; 24] r).
Proof.
  exact (pick_next_least_vruntime 3 sample_sys [8; 24] sample_rq_wf ltac:(simpl; lia)).
Defined.

Lemma sched_tick_correct_witness :
  ∃ s', sched_tick 3 sample_sys = Ok s' ∧ sched_inv s' [8; 24] ∧ tick (rq s') = 10.
Proof.
  destruct (sched_tick_correct 3 sample_sys [8; 24] (sample_proc 1 PROC_RUNNING 9 2214 24 0)
    sample_sched_inv ltac:(simpl; lia) ltac:(discriminate) eq_refl) as (s' & E & Hi & Ht & _).
  exists s'. split; [exact E|split; [exact Hi|exact Ht]].
Defined.

(** The tick above ends the quantum: 24 is chosen and switched to. *)
Example sample_tick_switches :
  (fun s => (current (rq s), switches s)) <$> sched_tick 3 sample_sys = Ok (24, [(8, 24)]).
Proof. vm_compute. reflexivity. Qed.

Lemma sched_ops_safe_witness :
  ∃ s' l', run_op 3 (OpSignal 2 19) sample_sys = Ok s' ∧ sched_inv s' l'.
Proof.
  exact (sched_ops_safe 3 (OpSignal 2 19) sample_sys [8; 24] sample_sched_inv
    ltac:(cbn; lia) ltac:(simpl; lia)).
Defined.

Lemma sched_sleep_leaves_ready_witness :
  ∃ s' y, sched_sleep 3 5000 sample_sys = Ok s' ∧ procs s' !! 8 = Some y ∧ state y = PROC_READY ∧
    sleep_until y = 5009.
Proof.
  exact (sched_sleep_leaves_ready 3 5000 sample_sys [8; 24] (sample_proc 1 PROC_RUNNING 9 2214 24 0)
    sample_sched_inv ltac:(simpl; lia) ltac:(discriminate) eq_refl).
Defined.

Lemma proc_exit_leaves_ready_witness :
  ∃ s' y, proc_exit 3 8 42 sample_sys = Ok s' ∧ procs s' !! 8 = Some y ∧ state y = PROC_READY ∧
    exit_code y = 42.
Proof.
  exact (proc_exit_leaves_ready 3 42 sample_sys [8; 24] (sample_proc 1 PROC_RUNNING 9 2214 24 0)
    sample_sched_inv ltac:(simpl; lia) ltac:(discriminate) eq_refl).
Defined.
