(* ===== verification/SchedFair.v ===== *)
(** * The scheduler serves everybody

    Only the timer runs here: no process sleeps, exits or yields.  A READY process of
    the queue then gets the processor within a number of ticks that depends only on
    how far the other processes are behind it ([response_bound]): each tick either
    brings one of them forward or uses up a quantum, and at the end of a quantum the
    process of least virtual runtime is next. *)
From S2P Require Import Prelude Mem LibString PageAlloc Pmm Kheap Paging Process ProcessSpec SchedSpec ProcCreateSpec.

Section Fair.
Context {A : Type}.
Implicit Types s : sys A.

(** [n] timer interrupts. *)
Fixpoint ticks (fuel n : nat) s : outcome (sys A) :=
  match n with O => Ok s | S n' => s ← sched_tick fuel s; ticks fuel n' s end.

(** What is left of the quantum of a process. *)
Definition left (x : process) : Z := 10 - runtime_ticks x mod SCHED_DEFAULT_QUANTUM.

(** How far a process is behind the virtual runtime [v], and all of [l] together. *)
Definition lag (m : gmap Z process) (v q : Z) : Z :=
  match m !! q with Some x => Z.max 0 (v + 1 - vruntime x) | None => 0 end.
Definition lags (m : gmap Z process) (v : Z) (l : list Z) : Z := foldr (fun q n => lag m v q + n) 0 l.

(** The bound on the wait behind [v]. *)
Definition response_bound (m : gmap Z process) (v : Z) (l : list Z) : Z := 20 * lags m v l + 20.

Lemma lag_nonneg m v q : 0 ≤ lag m v q.
Proof. unfold lag. destruct (m !! q); lia. Qed.

Lemma lags_nonneg m v l : 0 ≤ lags m v l.
Proof. induction l as [|q l IH]; [done|]. unfold lags in *. cbn [foldr]. pose proof (lag_nonneg m v q). lia. Qed.

Lemma lags_le m m' v l : (∀ q, lag m' v q ≤ lag m v q) → lags m' v l ≤ lags m v l.
Proof. intros H. induction l as [|q l IH]; [done|]. unfold lags in *. cbn [foldr]. pose proof (H q). lia. Qed.

Lemma lags_lt m m' v l c : c ∈ l → (∀ q, lag m' v q ≤ lag m v q) → lag m' v c < lag m v c → lags m' v l < lags m v l.
Proof.
  intros Hc Hle Hlt. apply list_elem_of_split in Hc as (l1 & l2 & ->).
  assert (∀ m l1 l2, lags m v (l1 ++ l2) = lags m v l1 + lags m v l2) as Happ.
  { intros m0 k1 k2. induction k1 as [|q k1 IH]; [done|]. unfold lags in *. cbn [app foldr]. lia. }
  rewrite !Happ. pose proof (lags_le m m' v l1 Hle). pose proof (lags_le m m' v l2 Hle).
  unfold lags in *. cbn [foldr]. lia.
Qed.

(** ** One tick *)

(** The 32-bit increment of a priority of one byte. *)
Definition weight (x : process) : Z := 256 - priority x.

Lemma charge_vruntime x :
  0 ≤ priority x ≤ 255 → 0 ≤ vruntime x → vruntime x + 256 < 4294967296 →
  vruntime (charge x) = vruntime x + weight x ∧ 1 ≤ weight x ≤ 256.
Proof.
  intros Hp Hv Hw. unfold charge, weight. cbn [set_times vruntime].
  rewrite (wrap32_small (255 - priority x)) by lia. rewrite (wrap32_small (255 - priority x + 1)) by lia.
  rewrite wrap32_small by lia. lia.
Qed.

(** What the accounting of a tick changes, and the rest of a tick does not. *)
Definition times (x : process) : Z * Z * Z := (runtime_ticks x, vruntime x, priority x).

Lemma wake_one_times t x : times (wake_one t x) = times x.
Proof. unfold wake_one. by destruct (_ && _). Qed.

Lemma demote_times x : times (demote x) = times x.
Proof. unfold demote. by destruct (bool_decide _). Qed.

Lemma ticked_at t c m l q x :
  m !! q = Some x → ∃ y, ticked t c m l q = Some y ∧
    times y = times (if decide (q = c) then charge x else x) ∧
    (state x = PROC_READY → state y = PROC_READY).
Proof.
  intros Hx. unfold ticked. rewrite Hx.
  assert (∀ z, state z = PROC_READY → state (wake_one t z) = PROC_READY) as Hw
    by (intros z Hz; unfold wake_one; rewrite Hz; done).
  destruct (decide (q = c)); cbn [fmap option_fmap option_map]; destruct (decide (q ∈ l));
    (eexists; split; [reflexivity|]); rewrite ?wake_one_times; (split; [done|]); auto.
Qed.

Lemma ticked_none t c m l q : m !! q = None → ticked t c m l q = None.
Proof. intros Hx. unfold ticked. rewrite Hx. by destruct (decide (q = c)), (decide (q ∈ l)). Qed.

(** The processes of [s'] are those of [s] after a tick accounted to [c]: their times
    are exact, and whoever was READY and is not chosen stays so. *)
Definition accounted (c : Z) s s' : Prop :=
  (∀ q, procs s !! q = None → procs s' !! q = None) ∧
  ∀ q x, procs s !! q = Some x → ∃ y, procs s' !! q = Some y ∧
    times y = times (if decide (q = c) then charge x else x) ∧
    (state x = PROC_READY → q ≠ c → q ≠ current (rq s') → state y = PROC_READY).

(** The end of a quantum serves a queued process that is not behind a waiting one. *)
Definition serves s s' (l : list Z) : Prop :=
  ∀ p v, p ∈ l → p ≠ current (rq s) → ready_at (procs s) p v →
    current (rq s') ∈ l ∧ ∃ y, procs s' !! current (rq s') = Some y ∧ vruntime y ≤ v.

(** Whoever runs at the address [p]. *)
Definition running s (p : Z) : Prop :=
  current (rq s) = p ∧ ∃ x, procs s !! p = Some x ∧ state x = PROC_RUNNING.

Lemma first_least_served m l r p v :
  first_least m l r → p ∈ l → ready_at m p v → r ∈ l ∧ ∃ x, m !! r = Some x ∧ vruntime x ≤ v.
Proof.
  intros [[vr Hr] (l1 & l2 & -> & Hmin)] Hp Hv.
  split; [apply elem_of_app; right; by left|]. destruct (Hmin vr Hr) as [H1 H2].
  destruct Hr as (x & Hx & Hxr & <-). exists x. split; [done|].
  apply elem_of_app in Hp as [Hp|[->|Hp]%elem_of_cons].
  - pose proof (H1 p v Hp Hv). lia.
  - destruct Hv as (y & Hy & _ & <-). assert (x = y) as -> by congruence. lia.
  - by apply (H2 p v Hp Hv).
Qed.

Lemma tick_accounts fuel s l x :
  sched_inv s l → (length l < fuel)%nat → current (rq s) ≠ 0 → procs s !! current (rq s) = Some x →
  ∃ s', sched_tick fuel s = Ok s' ∧ sched_inv s' l ∧ accounted (current (rq s)) s s' ∧
    (current (rq s') ≠ current (rq s) → running s' (current (rq s'))) ∧
    if (runtime_ticks x +₆₄ 1) mod SCHED_DEFAULT_QUANTUM =? 0 then serves s s' l
    else current (rq s') = current (rq s).
Proof.
  intros Hi Hf Hc Hx. destruct (sched_tick_spec fuel s l x Hi Hf Hc Hx) as (s' & -> & Hi' & _ & Hs').
  exists s'. split; [done|]. split; [done|]. set (c := current (rq s)) in *.
  set (t := tick (rq s) +₆₄ 1) in *.
  destruct (_ =? 0).
  - destruct Hs' as (r & m & Hm & Hpick & Hcur & _ & Hq).
    assert (∀ q x, procs s !! q = Some x → ∃ y, m !! q = Some y ∧
      times y = times (if decide (q = c) then charge x else x) ∧
      (state x = PROC_READY → q ≠ c → state y = PROC_READY)) as Hat.
    { intros q z Hz. destruct (ticked_at t c (procs s) l q z Hz) as (y & Hy & Ht & Hr).
      rewrite Hm, Hy. destruct (decide (q = c)) as [->|]; cbn [fmap option_fmap option_map];
        eexists; (split; [done|]); rewrite ?demote_times; auto. split; [done|]. by intros. }
    split; [split|].
    + intros q Hn. rewrite Hq, Hm, ticked_none by done.
      by destruct (decide (q = c)), ((q =? r) && negb (r =? c)).
    + intros q z Hz. destruct (Hat q z Hz) as (y & Hy & Ht & Hr). rewrite Hq, Hcur, Hy.
      destruct ((q =? r) && negb (r =? c)) eqn:E; eexists; (split; [reflexivity|]); [|by auto].
      split; [done|]. intros _ _ Hne. lia.
    + split.
      * rewrite Hcur. intros Hne. split; [done|]. rewrite Hq, Z.eqb_refl.
        destruct (Z.eqb_spec r c); [done|]. cbn [andb negb].
        destruct Hpick as [[_ ->]|[[vr (y & Hy & _)] _]]; [|rewrite Hy; by eexists].
        destruct (si_table _ _ Hi 0 ltac:(lia)) as [H0|[z Hz]]; [by destruct (si_idle _ _ Hi)|].
        destruct (Hat _ z Hz) as (y & -> & _). by eexists.
      * intros p v Hp Hpc (z & Hz & Hzr & <-). destruct (Hat p z Hz) as (y & Hy & Ht & Hr).
      rewrite decide_False in Ht by done. injection Ht as _ Hv _.
      destruct Hpick as [[Hnone _]|Hfl].
      { exfalso. apply (Hnone p y Hp Hy). auto. }
      destruct (first_least_served m l r p (vruntime z) Hfl Hp) as (Hrl & w & Hw & Hwv).
      { exists y. auto. }
      rewrite Hcur. split; [done|]. rewrite Hq, Hw.
      destruct ((r =? r) && negb (r =? c)); eexists; (split; [reflexivity|]); done.
  - destruct Hs' as (Hcur & _ & Hq). split; [split|by split].
    + intros q Hn. rewrite Hq. by apply ticked_none.
    + intros q z Hz. rewrite Hq. destruct (ticked_at t c (procs s) l q z Hz) as (y & Hy & Ht & Hr).
      exists y. auto.
Qed.

(** ** The wait *)

(** [p] waits in the queue with virtual runtime [v], and no counter is about to wrap. *)
Record waiting s (l : list Z) (p v : Z) : Prop := mk_waiting {
  wt_inv : sched_inv s l;
  wt_in : p ∈ l;
  wt_ready : ready_at (procs s) p v;
  wt_current : current (rq s) ≠ 0;
  wt_other : current (rq s) ≠ p;
  wt_range : ∀ q x, procs s !! q = Some x → 0 ≤ priority x ≤ 255 ∧ 0 ≤ vruntime x ∧ 0 ≤ runtime_ticks x;
  wt_v : v + 2560 < 4294967296;
  wt_vruntime : ∀ x, procs s !! current (rq s) = Some x → vruntime x + 256 * left x < 4294967296;
}.

(** Ticks that may still pass before [p] is served while [x] runs at the address [c]. *)
Definition behind (l : list Z) (v c : Z) (x : process) : bool := bool_decide (c ∈ l) && (vruntime x <=? v).
Definition patience (m : gmap Z process) (l : list Z) (v c : Z) (x : process) : Z :=
  20 * lags m v l + (if behind l v c x then 0 else 10) + left x.

Lemma left_bounds x : 1 ≤ left x ≤ 10.
Proof. unfold left, SCHED_DEFAULT_QUANTUM. pose proof (Z.mod_pos_bound (runtime_ticks x) 10 ltac:(lia)). lia. Qed.

Lemma charge_times x :
  0 ≤ priority x ≤ 255 → 0 ≤ vruntime x → vruntime x + 256 < 4294967296 →
  0 ≤ runtime_ticks x → runtime_ticks x + 1 < 18446744073709551616 →
  times (charge x) = (runtime_ticks x + 1, vruntime x + weight x, priority x) ∧ 1 ≤ weight x ≤ 256.
Proof.
  intros Hp Hv Hw Hr Hrw. unfold charge, weight, times. cbn [set_times vruntime runtime_ticks priority].
  rewrite (wrap32_small (255 - priority x)) by lia. rewrite (wrap32_small (255 - priority x + 1)) by lia.
  rewrite wrap32_small by lia. rewrite wrap64_small by lia. split; [do 2 f_equal; lia|lia].
Qed.

(** A tick does not throw anybody back, and brings the one that runs forward. *)
Lemma accounted_lag c s s' v q x :
  accounted c s s' → procs s !! c = Some x → times (charge x) = (runtime_ticks x + 1, vruntime x + weight x, priority x) →
  1 ≤ weight x → lag (procs s') v q ≤ lag (procs s) v q.
Proof.
  intros [Hno Hat] Hx Hch Hw. unfold lag. destruct (procs s !! q) as [z|] eqn:Hz; [|by rewrite (Hno q Hz)].
  destruct (Hat q z Hz) as (y & -> & Ht & _). destruct (decide (q = c)) as [->|].
  - assert (z = x) as -> by congruence. rewrite Hch in Ht. injection Ht as _ -> _. lia.
  - injection Ht as _ -> _. lia.
Qed.

Lemma accounted_lags c s s' l v x :
  accounted c s s' → procs s !! c = Some x → times (charge x) = (runtime_ticks x + 1, vruntime x + weight x, priority x) →
  1 ≤ weight x → lags (procs s') v l + (if behind l v c x then 1 else 0) ≤ lags (procs s) v l.
Proof.
  intros Ha Hx Hch Hw. pose proof (fun q => accounted_lag c s s' v q x Ha Hx Hch Hw) as Hle.
  unfold behind. destruct (bool_decide_reflect (c ∈ l)) as [Hc|]; cbn [andb];
    [|pose proof (lags_le _ _ v l Hle); lia].
  destruct (Z.leb_spec (vruntime x) v); [|pose proof (lags_le _ _ v l Hle); lia].
  enough (lags (procs s') v l < lags (procs s) v l) by lia.
  apply (lags_lt _ _ v l c Hc Hle). unfold lag. rewrite Hx.
  destruct Ha as [_ Hat]. destruct (Hat c x Hx) as (y & -> & Ht & _). rewrite decide_True, Hch in Ht by done.
  injection Ht as _ -> _. lia.
Qed.

Definition charged (x : process) : Prop :=
  times (charge x) = (runtime_ticks x + 1, vruntime x + weight x, priority x) ∧ 1 ≤ weight x ≤ 256.

(** Every process after the tick is one from before it, and not much further. *)
Lemma accounted_back c s s' x q y :
  accounted c s s' → procs s !! c = Some x → charged x → procs s' !! q = Some y →
  ∃ z, procs s !! q = Some z ∧ priority y = priority z ∧ vruntime z ≤ vruntime y ∧
    runtime_ticks z ≤ runtime_ticks y ≤ runtime_ticks z + 1.
Proof.
  intros [Hno Hat] Hx [Hch Hw] Hy. destruct (procs s !! q) as [z|] eqn:Hz; [|by rewrite (Hno q Hz) in Hy].
  exists z. split; [done|]. destruct (Hat q z Hz) as (y' & Hy' & Ht & _). assert (y' = y) as -> by congruence.
  destruct (decide (q = c)) as [->|].
  - assert (z = x) as -> by congruence. rewrite Hch in Ht. injection Ht as -> -> ->. lia.
  - injection Ht as -> -> ->. lia.
Qed.

(** The one that runs next, and the patience it leaves. *)
Lemma patience_drops s s' l p v x :
  waiting s l p v → procs s !! current (rq s) = Some x → charged x →
  0 ≤ runtime_ticks x → runtime_ticks x + 1 < 18446744073709551616 → accounted (current (rq s)) s s' →
  (if (runtime_ticks x +₆₄ 1) mod SCHED_DEFAULT_QUANTUM =? 0 then serves s s' l
   else current (rq s') = current (rq s)) →
  ∃ x', procs s' !! current (rq s') = Some x' ∧ current (rq s') ≠ 0 ∧
    vruntime x' + 256 * left x' < 4294967296 ∧
    patience (procs s') l v (current (rq s')) x' < patience (procs s) l v (current (rq s)) x.
Proof.
  intros [Hi Hp Hr Hc Hcp Hrange Hv Hvr] Hx [Hch Hw] Ht0 Hrt Ha Hend. specialize (Hvr x Hx).
  pose proof (left_bounds x) as Hleft. pose proof (accounted_lags _ s s' l v x Ha Hx Hch ltac:(lia)) as Hlag.
  unfold patience.
  destruct (Z.eqb_spec ((runtime_ticks x +₆₄ 1) mod SCHED_DEFAULT_QUANTUM) 0) as [He|He].
  - destruct (Hend p v Hp ltac:(done) Hr) as (Hin & x' & Hx' & Hle). exists x'.
    pose proof (left_bounds x'). split; [done|].
    pose proof (rw_linked _ _ (si_wf _ _ Hi)) as Hlk.
    apply (linked_lookup _ _ _ _ (current (rq s'))) in Hlk; [|done].
    split; [apply Hlk|]. split; [lia|].
    assert (behind l v (current (rq s')) x' = true) as ->.
    { unfold behind. rewrite bool_decide_eq_true_2 by done. by apply Z.leb_le. }
    destruct (behind l v (current (rq s)) x); lia.
  - rewrite Hend. destruct Ha as [_ Hat]. destruct (Hat _ x Hx) as (x' & Hx' & Ht & _).
    rewrite decide_True, Hch in Ht by done. injection Ht as Hrx Hvx _. exists x'. split; [done|]. split; [done|].
    assert (left x' = left x - 1) as Hl'.
    { rewrite wrap64_small in He by lia. unfold left, SCHED_DEFAULT_QUANTUM in *. rewrite Hrx.
      Z.to_euclidean_division_equations; lia. }
    split; [lia|]. destruct (behind l v (current (rq s)) x), (behind l v (current (rq s)) x'); lia.
Qed.

(** One tick: [p] is served, or waits on with less patience. *)
Lemma waiting_tick fuel s l p v x :
  waiting s l p v → (length l < fuel)%nat → procs s !! current (rq s) = Some x →
  (∀ q z, procs s !! q = Some z → runtime_ticks z + patience (procs s) l v (current (rq s)) x < 18446744073709551616) →
  ∃ s', sched_tick fuel s = Ok s' ∧
    (running s' p ∨
     ∃ x', waiting s' l p v ∧ procs s' !! current (rq s') = Some x' ∧
       patience (procs s') l v (current (rq s')) x' < patience (procs s) l v (current (rq s)) x ∧
       (∀ q z, procs s' !! q = Some z → runtime_ticks z + patience (procs s') l v (current (rq s')) x' < 18446744073709551616)).
Proof.
  intros Hwait Hf Hx Htk. pose proof Hwait as [Hi Hp Hr Hc Hcp Hrange Hv Hvr].
  pose proof (left_bounds x) as Hleft. pose proof (lags_nonneg (procs s) v l) as Hl0.
  destruct (Hrange _ x Hx) as (Hp0 & Hv0 & Ht0). specialize (Hvr x Hx).
  assert (runtime_ticks x + 1 < 18446744073709551616) as Hrt.
  { pose proof (Htk _ x Hx) as Htx. unfold patience in Htx. destruct (behind l v _ x); lia. }
  assert (charged x) as Hch by (apply charge_times; lia).
  destruct (tick_accounts fuel s l x Hi Hf Hc Hx) as (s' & -> & Hi' & Ha & Hrun & Hend).
  exists s'. split; [done|]. destruct (decide (current (rq s') = p)) as [<-|Hcp']; [left; by apply Hrun|right].
  destruct (patience_drops s s' l p v x Hwait Hx Hch Ht0 Hrt Ha Hend) as (x' & Hx' & Hc' & Hvr' & Hpat).
  pose proof (fun q y => accounted_back _ s s' x q y Ha Hx Hch) as Hback.
  exists x'. split; [|split; [done|split; [done|]]].
  - split; try done.
    + destruct Hr as (z & Hz & Hzr & <-). destruct Ha as [_ Hat]. destruct (Hat p z Hz) as (y & Hy & Ht & Hk).
      rewrite decide_False in Ht by done. injection Ht as _ Hvy _. exists y. auto.
    + intros q y Hy. destruct (Hback q y Hy) as (z & Hz & -> & ? & ?). destruct (Hrange q z Hz). lia.
    + intros x2 Hx2. assert (x2 = x') as -> by congruence. done.
  - intros q y Hy. destruct (Hback q y Hy) as (z & Hz & _ & _ & ?). specialize (Htk q z Hz). lia.
Qed.

Lemma served_within fuel k s l p v x :
  waiting s l p v → (length l < fuel)%nat → procs s !! current (rq s) = Some x →
  patience (procs s) l v (current (rq s)) x ≤ Z.of_nat k →
  (∀ q z, procs s !! q = Some z → runtime_ticks z + patience (procs s) l v (current (rq s)) x < 18446744073709551616) →
  ∃ n s', (n ≤ k)%nat ∧ ticks fuel n s = Ok s' ∧ running s' p.
Proof.
  revert s x. induction k as [|k IH]; intros s x Hw Hf Hx Hk Htk.
  { exfalso. pose proof (left_bounds x). pose proof (lags_nonneg (procs s) v l).
    unfold patience in Hk. destruct (behind l v _ x); lia. }
  destruct (waiting_tick fuel s l p v x Hw Hf Hx Htk) as (s1 & Hs1 & [Hrun|(x1 & Hw1 & Hx1 & Hlt & Htk1)]).
  - exists 1%nat, s1. split; [lia|]. cbn [ticks]. by rewrite Hs1.
  - destruct (IH s1 x1 Hw1 Hf Hx1 ltac:(lia) Htk1) as (n & s' & Hn & Hs' & Hrun).
    exists (S n), s'. split; [lia|]. cbn [ticks]. by rewrite Hs1.
Qed.

(** (C10) No starvation: while the timer alone runs, a READY process [p] of the
    queue gets the processor.  Whatever the priorities of the others (a byte each,
    so that a tick adds 1 to 256 to the virtual runtime of whoever runs), it is the
    current process and RUNNING after at most [response_bound] ticks: twenty for
    each unit of virtual runtime by which a queued process is behind [p], and
    twenty more.  The virtual runtimes and the tick counts must not be about to
    wrap, which is when the order they give is lost. *)
Theorem sched_no_starvation (fuel : nat) s (l : list Z) (p v : Z)
    (Hwait : waiting s l p v) (Hfuel : (length l < fuel)%nat)
    (Hticks : ∀ q z, procs s !! q = Some z →
      runtime_ticks z + response_bound (procs s) v l < 18446744073709551616) :
  ∃ n s', Z.of_nat n ≤ response_bound (procs s) v l ∧ ticks fuel n s = Ok s' ∧ running s' p.
Proof.
  destruct (si_current _ _ (wt_inv _ _ _ _ Hwait)) as [|[x Hx]]; [by destruct (wt_current _ _ _ _ Hwait)|].
  assert (patience (procs s) l v (current (rq s)) x ≤ response_bound (procs s) v l) as Hle.
  { pose proof (left_bounds x). unfold patience, response_bound. destruct (behind l v _ x); lia. }
  pose proof (lags_nonneg (procs s) v l) as Hl0. unfold response_bound in *.
  destruct (served_within fuel (Z.to_nat (20 * lags (procs s) v l + 20)) s l p v x Hwait Hfuel Hx)
    as (n & s' & Hn & Hs' & Hrun); [lia| |].
  { intros q z Hz. specialize (Hticks q z Hz). lia. }
  exists n, s'. split; [lia|]. done.
Qed.
End Fair.

(** ** A concrete wait

    The system of [sample_sys] with the running process at the start of a quantum and
    no virtual runtime yet, so that the READY process at 24 is six behind it. *)
Definition waiting_sys : sys pmm :=
  with_procs <[8 := set_times 0 0 0 (sample_proc 1 PROC_RUNNING 9 2214 24 0)]> sample_sys.

Lemma waiting_sample : waiting waiting_sys [8; 24] 24 5.
Proof.
  split; try (discriminate || reflexivity).
  - exact (proj2 (inv_update sample_sys [8; 24] 8 _ (set_times 0 0 0) sample_sched_inv eq_refl eq_refl (fun H => H))).
  - right. left.
  - eexists. split; [reflexivity|]. split; reflexivity.
  - intros q x. cbn [waiting_sys with_procs sample_sys procs]. rewrite !lookup_insert_Some, lookup_empty.
    intros H. repeat (destruct H as [[<- <-]|[_ H]]; [by vm_compute|]). discriminate H.
  - intros x Hx. vm_compute in Hx. injection Hx as <-. vm_compute. reflexivity.
Qed.

Lemma sched_no_starvation_witness :
  ∃ n s', Z.of_nat n ≤ 160 ∧ ticks 3 n waiting_sys = Ok s' ∧ running s' 24.
Proof.
  refine (sched_no_starvation 3 waiting_sys [8; 24] 24 5 waiting_sample ltac:(simpl; lia) _).
  intros q x. cbn [waiting_sys with_procs sample_sys procs]. rewrite !lookup_insert_Some, lookup_empty.
  intros H. repeat (destruct H as [[<- <-]|[_ H]]; [vm_compute; reflexivity|]). discriminate H.
Defined.

(** There it is the tenth tick that serves it. *)
Example waiting_served :
  (fun s => current (rq s)) <$> ticks 3 9 waiting_sys = Ok 8 ∧
  (fun s => current (rq s)) <$> ticks 3 10 waiting_sys = Ok 24.
Proof. split; vm_compute; reflexivity. Qed.
