(* ===== verification/Fs.v ===== *)
(** * kernel/fs/vfs.c and fs/tmpfs/tmpfs.c: the file system layer

    Inodes are typed objects in a store keyed by address (a [tmpfs_inode_t]
    starts with its [vfs_node_t]); file contents are bytes of the heap.  The
    only [vfs_ops] table of the kernel is [tmpfs_ops], so [ops] of a node is
    NULL ([false]) or that table ([true]), and a call through it is a call of
    the tmpfs function; its [rename], [truncate] and [ioctl] are NULL.

    A path or name is the list of its non-zero bytes. *)
From S2P Require Import Prelude Mem LibString PageAlloc Kheap.

Definition EINVAL : Z := 22.
Definition ENOENT : Z := 2.
Definition ENOSPC : Z := 28.
Definition ENOSYS : Z := 38.
Definition VFS_NAME_MAX : Z := 255.
Definition VFS_PATH_MAX : Z := 4096.
Definition MAX_FS : Z := 16.
Definition MAX_MOUNTS : Z := 32.
Definition VFS_DIRECTORY : Z := 2.
Definition TMPFS_MAX_CHILDREN : Z := 64.
Definition TMPFS_INODE_SIZEOF : Z := 896.
Definition SLASH : Z := 47.

Record inode : Type := mk_inode {
  i_name : list Z;
  i_type : Z;
  i_mode : Z;
  i_ino : Z;
  i_size : Z;
  i_ops : bool;
  i_refs : Z;
  i_data : Z;
  i_capacity : Z;
  i_children : list Z;      (* children[0 .. child_count) *)
}.

Definition set_i_file (sz data cap : Z) (x : inode) : inode :=
  mk_inode (i_name x) (i_type x) (i_mode x) (i_ino x) sz (i_ops x) (i_refs x) data cap (i_children x).
Definition set_i_refs (r : Z) (x : inode) : inode :=
  mk_inode (i_name x) (i_type x) (i_mode x) (i_ino x) (i_size x) (i_ops x) r (i_data x)
    (i_capacity x) (i_children x).
Definition set_i_children (c : list Z) (x : inode) : inode :=
  mk_inode (i_name x) (i_type x) (i_mode x) (i_ino x) (i_size x) (i_ops x) (i_refs x) (i_data x)
    (i_capacity x) c.

(** The static data of vfs.c and tmpfs.c, the inodes and the heap. *)
Record fs (A : Type) : Type := mk_fs {
  fs_heap : kheap A;
  inodes : gmap Z inode;
  tmpfs_inode_counter : Z;
  vfs_root : Z;
  mount_table : list (list Z * Z);   (* the first mount_count entries *)
  fs_registry : list Z;              (* the first fs_count entries *)
}.
Arguments mk_fs {A}.
Arguments fs_heap {A}.
Arguments inodes {A}.
Arguments tmpfs_inode_counter {A}.
Arguments vfs_root {A}.
Arguments mount_table {A}.
Arguments fs_registry {A}.

(** What [strncpy(dst, s, n)] leaves in a zeroed field of [n + 1] bytes. *)
Definition clip (n : Z) (s : list Z) : list Z := take (Z.to_nat n) s.

Section Base.
Context {A : Type}.
Implicit Types s : fs A.

Definition fs_with_heap (h : kheap A) s : fs A :=
  mk_fs h (inodes s) (tmpfs_inode_counter s) (vfs_root s) (mount_table s) (fs_registry s).
Definition fs_with_inodes (f : gmap Z inode → gmap Z inode) s : fs A :=
  mk_fs (fs_heap s) (f (inodes s)) (tmpfs_inode_counter s) (vfs_root s) (mount_table s) (fs_registry s).
Definition bump_counter s : fs A :=
  mk_fs (fs_heap s) (inodes s) (tmpfs_inode_counter s +₆₄ 1) (vfs_root s) (mount_table s) (fs_registry s).

(** [*node]. *)
Definition inode_at (node : Z) s : outcome inode :=
  match inodes s !! node with Some x => Ok x | None => Undef "not an inode" end.

(** ** tmpfs.c *)

Definition tmpfs_read (node offset size buf : Z) s : outcome (Z * fs A) :=
  x ← inode_at node s;
  if (i_data x =? 0) || (i_size x <=? wrap64 offset) then Ok (0, s)
  else
    let avail := i_size x -₆₄ wrap64 offset in
    let to_read := MIN size avail in
    Ok (signed64 to_read, fs_with_heap
      (with_mem (memcpy buf (i_data x +₆₄ offset) to_read) (fs_heap s)) s).

Definition tmpfs_stat (node : Z) s : outcome (Z * Z * Z * Z) :=
  x ← inode_at node s; Ok (i_ino x, i_size x, i_mode x, 1).

(** [*dirent] is the triple (name, inode, type); its last byte of [name] is
    zero before the call. *)
Definition dirent : Type := list Z * Z * Z.

Definition tmpfs_readdir (node index : Z) (d : dirent) s : outcome (Z * dirent) :=
  x ← inode_at node s;
  if Z.of_nat (length (i_children x)) <=? index then Ok (-1, d)
  else
    match i_children x !! Z.to_nat index with
    | None => Undef "children index"
    | Some ch =>
        c ← inode_at ch s;
        Ok (0, (clip VFS_NAME_MAX (i_name c), i_ino c, wrap8 (i_type c)))
    end.

(** The loop of [tmpfs_finddir] and [tmpfs_unlink]: the first child of that name. *)
Fixpoint find_child (children : list Z) (name : list Z) (i : nat) s : outcome (option (nat * Z)) :=
  match children with
  | [] => Ok None
  | c :: rest =>
      x ← inode_at c s;
      if bool_decide (i_name x = name) then Ok (Some (i, c)) else find_child rest name (S i) s
  end.

Definition tmpfs_finddir (node : Z) (name : list Z) s : outcome Z :=
  x ← inode_at node s;
  r ← find_child (i_children x) name 0 s;
  Ok (match r with Some (_, c) => c | None => 0 end).
End Base.

Section Tmpfs.
Context {A : Type} `{PageAlloc A}.
Implicit Types s : fs A.

(** Growing the buffer: [false] when [krealloc] fails. *)
Definition tmpfs_grow (fuel : nat) (node new_end : Z) s : outcome (bool * fs A) :=
  x ← inode_at node s;
  let new_cap := ALIGN_UP64 new_end 512 in
  '(new_data, h) ← krealloc fuel (i_data x) new_cap (fs_heap s);
  let s := fs_with_heap h s in
  if new_data =? 0 then Ok (false, s)
  else Ok (true, fs_with_inodes <[node := set_i_file (i_size x) new_data new_cap x]> s).

Definition tmpfs_store (node offset size buf new_end : Z) s : outcome (fs A) :=
  x ← inode_at node s;
  let s := fs_with_heap (with_mem (memcpy (i_data x +₆₄ offset) buf size) (fs_heap s)) s in
  Ok (if i_size x <? new_end
      then fs_with_inodes <[node := set_i_file new_end (i_data x) (i_capacity x) x]> s else s).

Definition tmpfs_write (fuel : nat) (node offset size buf : Z) s : outcome (Z * fs A) :=
  x ← inode_at node s;
  let new_end := wrap64 offset +₆₄ size in
  '(ok, s) ← (if i_capacity x <? new_end then tmpfs_grow fuel node new_end s else Ok (true, s));
  if negb ok then Ok (-12, s)
  else
    s ← tmpfs_store node offset size buf new_end s;
    Ok (signed64 size, s).

Definition tmpfs_mkdir (fuel : nat) (parent : Z) (name : list Z) (mode : Z) s : outcome (Z * fs A) :=
  p ← inode_at parent s;
  if TMPFS_MAX_CHILDREN <=? Z.of_nat (length (i_children p)) then Ok (-28, s)
  else
    '(child, h) ← kcalloc fuel 1 TMPFS_INODE_SIZEOF (fs_heap s);
    let s := fs_with_heap h s in
    if child =? 0 then Ok (-12, s)
    else
      let x := mk_inode (clip VFS_NAME_MAX name) VFS_DIRECTORY mode (tmpfs_inode_counter s)
        0 (i_ops p) 0 0 0 [] in
      let s := bump_counter s in
      let s := fs_with_inodes <[child := x]> s in
      Ok (0, fs_with_inodes <[parent := set_i_children (i_children p ++ [child]) p]> s).

Definition tmpfs_unlink (parent : Z) (name : list Z) s : outcome (Z * fs A) :=
  p ← inode_at parent s;
  r ← find_child (i_children p) name 0 s;
  match r with
  | None => Ok (-2, s)
  | Some (i, c) =>
      x ← inode_at c s;
      let s := fs_with_heap (kfree c (kfree (i_data x) (fs_heap s))) s in
      let s := fs_with_inodes (delete c) s in
      Ok (0, fs_with_inodes <[parent := set_i_children (delete i (i_children p)) p]> s)
  end.

Definition tmpfs_mount (fuel : nat) s : outcome (Z * fs A) :=
  '(root, h) ← kcalloc fuel 1 TMPFS_INODE_SIZEOF (fs_heap s);
  let s := fs_with_heap h s in
  if root =? 0 then Ok (0, s)
  else
    let x := mk_inode [116; 109; 112; 102; 115] VFS_DIRECTORY 493 (tmpfs_inode_counter s)
      0 true 0 0 0 [] in
    Ok (root, fs_with_inodes <[root := x]> (bump_counter s)).

Definition tmpfs_unmount (root : Z) s : Z * fs A :=
  (0, fs_with_inodes (delete root) (fs_with_heap (kfree root (fs_heap s)) s)).
End Tmpfs.

(** ** vfs.c *)

(** [strchr(tok, '/')]: the bytes before the slash and, if there is one, those
    after it. *)
Fixpoint split_slash (tok : list Z) : list Z * option (list Z) :=
  match tok with
  | [] => ([], None)
  | c :: rest =>
      if c =? SLASH then ([], Some rest)
      else let '(t, r) := split_slash rest in (c :: t, r)
  end.

(** [strrchr(path, '/')]: the bytes before and after the last slash. *)
Fixpoint split_last_slash (path : list Z) : option (list Z * list Z) :=
  match path with
  | [] => None
  | c :: rest =>
      match split_last_slash rest with
      | Some (d, b) => Some (c :: d, b)
      | None => if c =? SLASH then Some ([], rest) else None
      end
  end.

Section Vfs.
Context {A : Type}.
Implicit Types s : fs A.

Definition fs_with_mounts (r : Z) (t : list (list Z * Z)) s : fs A :=
  mk_fs (fs_heap s) (inodes s) (tmpfs_inode_counter s) r t (fs_registry s).

(** The tables are zeroed, the counts (0 at boot) are not. *)
Definition vfs_init s : fs A :=
  mk_fs (fs_heap s) (inodes s) (tmpfs_inode_counter s) (vfs_root s)
    ((fun _ => ([], 0)) <$> mount_table s) ((fun _ => 0) <$> fs_registry s).

Definition vfs_register_fs (f : Z) s : fs A :=
  if Z.of_nat (length (fs_registry s)) <? MAX_FS
  then mk_fs (fs_heap s) (inodes s) (tmpfs_inode_counter s) (vfs_root s) (mount_table s)
         (fs_registry s ++ [f])
  else s.

Definition vfs_mount (path : option (list Z)) (root : Z) s : Z * fs A :=
  match path with
  | None => (- EINVAL, s)
  | Some p =>
      if root =? 0 then (- EINVAL, s)
      else if MAX_MOUNTS <=? Z.of_nat (length (mount_table s)) then (- ENOSPC, s)
      else
        let r := if bool_decide (p = [SLASH]) then root else vfs_root s in
        (0, fs_with_mounts r (mount_table s ++ [(clip (VFS_PATH_MAX - 1) p, root)]) s)
  end.

Fixpoint remove_mount (path : list Z) (t : list (list Z * Z)) : option (list (list Z * Z)) :=
  match t with
  | [] => None
  | e :: t' =>
      if bool_decide (e.1 = path) then Some t'
      else match remove_mount path t' with Some t'' => Some (e :: t'') | None => None end
  end.

Definition vfs_unmount (path : list Z) s : Z * fs A :=
  match remove_mount path (mount_table s) with
  | Some t => (0, fs_with_mounts (vfs_root s) t s)
  | None => (- ENOENT, s)
  end.

(** The loop of [vfs_resolve_path] from [node]; 0 is NULL. *)
Fixpoint resolve_loop (fuel : nat) (node : Z) (tok : option (list Z)) s : outcome Z :=
  match fuel with
  | O => Diverge
  | S fuel' =>
      match tok with
      | None | Some [] => Ok node
      | Some t =>
          let '(name, rest) := split_slash t in
          x ← inode_at node s;
          if negb (i_ops x) then Ok 0
          else
            next ← tmpfs_finddir node name s;
            if next =? 0 then Ok 0 else resolve_loop fuel' next rest s
      end
  end.

(** [buf] is not initialised, so a path that does not leave a zero in its
    first [VFS_PATH_MAX - 1] bytes has no terminator. *)
Definition vfs_resolve_path (path : option (list Z)) s : outcome Z :=
  match path with
  | None => Ok 0
  | Some p =>
      if vfs_root s =? 0 then Ok 0
      else if bool_decide (p = [SLASH]) then Ok (vfs_root s)
      else if VFS_PATH_MAX - 1 <=? Z.of_nat (length p) then Undef "unterminated path buffer"
      else
        let tok := match p with c :: rest => if c =? SLASH then rest else p | [] => p end in
        resolve_loop (S (length p)) (vfs_root s) (Some tok) s
  end.

Definition vfs_open (path : option (list Z)) s : outcome (Z * fs A) :=
  node ← vfs_resolve_path path s;
  if node =? 0 then Ok (0, s)
  else
    x ← inode_at node s;
    Ok (node, fs_with_inodes <[node := set_i_refs (wrap32 (i_refs x + 1)) x]> s).

Definition vfs_close (node : Z) s : outcome (Z * fs A) :=
  if node =? 0 then Ok (- EINVAL, s)
  else
    x ← inode_at node s;
    Ok (0, if 0 <? i_refs x
           then fs_with_inodes <[node := set_i_refs (i_refs x - 1) x]> s else s).

Definition vfs_read (node offset size buf : Z) s : outcome (Z * fs A) :=
  if node =? 0 then Ok (- ENOSYS, s)
  else
    x ← inode_at node s;
    if i_ops x then tmpfs_read node offset size buf s else Ok (- ENOSYS, s).

(** [st] as (inode, size, mode); [nlinks] is 1 or not written. *)
Definition vfs_stat (path : option (list Z)) s : outcome (Z * option (Z * Z * Z)) :=
  node ← vfs_resolve_path path s;
  if node =? 0 then Ok (- ENOENT, None)
  else
    x ← inode_at node s;
    if i_ops x then '(ino, size, mode, _) ← tmpfs_stat node s; Ok (0, Some (ino, size, mode))
    else Ok (0, Some (i_ino x, i_size x, i_mode x)).

Definition vfs_rename (old_path new_path : list Z) s : Z * fs A := (- ENOSYS, s).

Definition vfs_finddir (dir : Z) (name : list Z) s : outcome Z :=
  if dir =? 0 then Ok 0
  else
    x ← inode_at dir s;
    if i_ops x then tmpfs_finddir dir name s else Ok 0.

Definition vfs_readdir (dir index : Z) (d : dirent) s : outcome (Z * dirent) :=
  if dir =? 0 then Ok (0, d)
  else
    x ← inode_at dir s;
    if negb (i_ops x) then Ok (0, d)
    else
      '(_, d) ← tmpfs_readdir dir index d s;
      node ← tmpfs_finddir dir d.1.1 s;
      Ok (node, d).
End Vfs.

(** Path utilities; [buf] has room for [bufsz] bytes. *)
Definition vfs_path_dirname (path : list Z) (bufsz : Z) : outcome (list Z) :=
  if bufsz - 1 <=? Z.of_nat (length path) then Undef "unterminated path buffer"
  else
    match split_last_slash path with
    | None => Ok [46]
    | Some ([], _) => Ok [SLASH]
    | Some (d, _) => Ok d
    end.

Definition vfs_path_basename (path : list Z) (bufsz : Z) : list Z :=
  clip (bufsz - 1) (match split_last_slash path with Some (_, b) => b | None => path end).

Definition vfs_path_canonicalize (path : list Z) (bufsz : Z) : Z * list Z :=
  (0, clip (bufsz - 1) path).

Section VfsAlloc.
Context {A : Type} `{PageAlloc A}.
Implicit Types s : fs A.

Definition vfs_write (fuel : nat) (node offset size buf : Z) s : outcome (Z * fs A) :=
  if node =? 0 then Ok (- ENOSYS, s)
  else
    x ← inode_at node s;
    if i_ops x then tmpfs_write fuel node offset size buf s else Ok (- ENOSYS, s).

Definition vfs_mkdir (fuel : nat) (path : list Z) (mode : Z) s : outcome (Z * fs A) :=
  dir ← vfs_path_dirname path VFS_PATH_MAX;
  let base := vfs_path_basename path VFS_PATH_MAX in
  parent ← vfs_resolve_path (Some dir) s;
  if parent =? 0 then Ok (- ENOENT, s)
  else
    x ← inode_at parent s;
    if i_ops x then tmpfs_mkdir fuel parent base mode s else Ok (- ENOSYS, s).

Definition vfs_unlink (path : list Z) s : outcome (Z * fs A) :=
  dir ← vfs_path_dirname path VFS_PATH_MAX;
  let base := vfs_path_basename path VFS_PATH_MAX in
  parent ← vfs_resolve_path (Some dir) s;
  if parent =? 0 then Ok (- ENOENT, s)
  else
    x ← inode_at parent s;
    if i_ops x then tmpfs_unlink parent base s else Ok (- ENOSYS, s).

Definition tmpfs_register (tmpfs_fs : Z) s : fs A := vfs_register_fs tmpfs_fs s.
Definition tmpfs_create_root (fuel : nat) s : outcome (Z * fs A) := tmpfs_mount fuel s.
End VfsAlloc.
