(* ===== verification/FsSpec.v ===== *)
(** * Properties of the file system layer

    [fs_wf s bs]: the heap holds the blocks [bs], every inode and every file
    buffer is a block in use of its own, and the tree hangs together.
    [walk] is the specification of path resolution. *)
From S2P Require Import Prelude Mem LibString PageAlloc Kheap KheapInv KheapSpec KmallocSpec KreallocSpec Pmm Fs.

(** ** Lookup and walk *)

Definition child_named (f : gmap Z inode) (children : list Z) (name : list Z) : option (nat * Z) :=
  list_find (fun c => i_name <$> f !! c = Some name) children.

Definition lookup_child (f : gmap Z inode) (node : Z) (name : list Z) : option Z :=
  x ← f !! node; snd <$> child_named f (i_children x) name.

Fixpoint walk (f : gmap Z inode) (node : Z) (comps : list (list Z)) : option Z :=
  match comps with
  | [] => Some node
  | c :: cs => n ← lookup_child f node c; walk f n cs
  end.

(** The path [/c1/c2/...]. *)
Fixpoint path_body (comps : list (list Z)) : list Z :=
  match comps with [] => [] | c :: cs => SLASH :: c ++ path_body cs end.

Definition no_slash (c : list Z) : Prop := SLASH ∉ c.
(** The last component is not empty. *)
Definition ends_named (comps : list (list Z)) : Prop := last comps ≠ Some [].

(** ** Well-formed file systems *)

Record tree_wf (f : gmap Z inode) (root : Z) : Prop := mk_tree_wf {
  tw_null : f !! 0 = None;
  tw_ops : ∀ a x, f !! a = Some x → i_ops x = true;
  tw_kids : ∀ a x, f !! a = Some x → Forall (fun c => is_Some (f !! c)) (i_children x);
  tw_room : ∀ a x, f !! a = Some x → Z.of_nat (length (i_children x)) ≤ TMPFS_MAX_CHILDREN;
  tw_root : root ≠ 0 → is_Some (f !! root);
}.

Record store_wf (f : gmap Z inode) (bs : list blk) : Prop := mk_store_wf {
  sw_node : ∀ a x, f !! a = Some x → in_use bs a TMPFS_INODE_SIZEOF;
  sw_data : ∀ a x, f !! a = Some x → i_data x ≠ 0 →
    in_use bs (i_data x) (i_capacity x) ∧ f !! i_data x = None;
  sw_nodata : ∀ a x, f !! a = Some x → i_data x = 0 → i_capacity x = 0;
  sw_size : ∀ a x, f !! a = Some x → 0 ≤ i_size x ≤ i_capacity x;
  sw_sep : ∀ a a' x x', f !! a = Some x → f !! a' = Some x' →
    i_data x ≠ 0 → i_data x = i_data x' → a = a';
}.

Record fs_wf {A} `{PageAlloc A} (s : fs A) (bs : list blk) : Prop := mk_fs_wf {
  fw_heap : kheap_inv (fs_heap s) bs;
  fw_tree : tree_wf (inodes s) (vfs_root s);
  fw_store : store_wf (inodes s) bs;
}.

(** ** Path resolution *)

Section Resolve.
Context {A : Type}.
Implicit Types s : fs A.

Lemma find_child_spec s children name i :
  Forall (fun c => is_Some (inodes s !! c)) children →
  find_child children name i s =
    Ok ((fun jc => (i + jc.1, jc.2)%nat) <$> child_named (inodes s) children name).
Proof.
  intros Hk. revert i. induction Hk as [|c l [x Hx] Hk IH]; intros i; [done|].
  cbn [find_child child_named list_find]. unfold inode_at. rewrite Hx.
  cbn [mbind outcome_bind fmap option_fmap option_map].
  destruct (decide (i_name x = name)) as [->|Hne].
  - rewrite bool_decide_true by done. rewrite decide_True by done. cbn. by rewrite Nat.add_0_r.
  - rewrite bool_decide_false by done. rewrite decide_False by congruence.
    rewrite IH. unfold child_named. destruct (list_find _ l) as [[j d]|]; [|done].
    cbn. do 3 f_equal. lia.
Qed.

Lemma finddir_spec s node name :
  tree_wf (inodes s) (vfs_root s) → is_Some (inodes s !! node) →
  tmpfs_finddir node name s = Ok (default 0 (lookup_child (inodes s) node name)).
Proof.
  intros Hwf [x Hx]. unfold tmpfs_finddir, lookup_child, inode_at. rewrite Hx.
  cbn [mbind outcome_bind option_bind].
  rewrite find_child_spec by (by eapply tw_kids).
  by destruct (child_named _ _ _) as [[j c]|].
Qed.

Lemma lookup_child_node f root node name c :
  tree_wf f root → lookup_child f node name = Some c →
  is_Some (f !! c) ∧ c ≠ 0 ∧ ∃ x, f !! node = Some x ∧ c ∈ i_children x.
Proof.
  intros Hwf Hl. unfold lookup_child in Hl.
  destruct (f !! node) as [x|] eqn:Hx; [|discriminate Hl].
  cbn [mbind option_bind] in Hl. unfold child_named in Hl.
  destruct (list_find _ _) as [[j d]|] eqn:E; [|discriminate Hl].
  injection Hl as <-. apply list_find_Some in E as (Hj & _).
  apply list_elem_of_lookup_2 in Hj as Hin.
  pose proof (tw_kids _ _ Hwf _ _ Hx) as Hk. rewrite Forall_forall in Hk.
  pose proof (Hk d Hin) as Hd. split_and!; [done| |by exists x].
  cbn. intros ->. rewrite (tw_null _ _ Hwf) in Hd. by destruct Hd.
Qed.

Lemma split_slash_comp c r :
  no_slash c → split_slash (c ++ SLASH :: r) = (c, Some r).
Proof.
  intros Hc. induction c as [|b c IH]; [done|]. cbn [app split_slash].
  apply not_elem_of_cons in Hc as [Hb Hc]. destruct (Z.eqb_spec b SLASH); [congruence|].
  by rewrite IH.
Qed.

Lemma split_slash_none c : no_slash c → split_slash c = (c, None).
Proof.
  intros Hc. induction c as [|b c IH]; [done|]. cbn [split_slash].
  apply not_elem_of_cons in Hc as [Hb Hc]. destruct (Z.eqb_spec b SLASH); [congruence|].
  by rewrite IH.
Qed.

(** What is left of a path behind its first slash. *)
Definition after_slash (l : list Z) : option (list Z) :=
  match l with [] => None | _ :: r => Some r end.

Lemma ends_named_cons c cs : ends_named (c :: cs) → (c ≠ [] ∨ cs ≠ []) ∧ ends_named cs.
Proof.
  unfold ends_named. destruct cs as [|d cs].
  - cbn. intros H. split; [left; congruence|done].
  - rewrite last_cons_cons. intros H. split; [by right|done].
Qed.

Lemma split_slash_path c cs tail :
  no_slash c → tail = [] ∨ tail = [SLASH] →
  split_slash (c ++ path_body cs ++ tail) = (c, after_slash (path_body cs ++ tail)).
Proof.
  intros Hc Ht. destruct cs as [|d cs].
  - destruct Ht as [-> | ->]; cbn [path_body app after_slash].
    + rewrite app_nil_r. by apply split_slash_none.
    + by apply split_slash_comp.
  - cbn [path_body app after_slash]. by apply split_slash_comp.
Qed.

Lemma resolve_loop_walk s comps node fuel tail :
  tree_wf (inodes s) (vfs_root s) → is_Some (inodes s !! node) →
  (length comps < fuel)%nat → Forall no_slash comps → ends_named comps →
  tail = [] ∨ tail = [SLASH] →
  resolve_loop fuel node (after_slash (path_body comps ++ tail)) s =
    Ok (default 0 (walk (inodes s) node comps)).
Proof.
  intros Hwf Hn Hf Hs He Ht. revert node fuel Hn Hf.
  induction comps as [|c cs IH]; intros node fuel Hn Hf; (destruct fuel as [|fuel]; [lia|]).
  - by destruct Ht as [-> | ->].
  - apply Forall_cons in Hs as [Hc Hs]. apply ends_named_cons in He as [Hne He].
    cbn [path_body app after_slash resolve_loop walk].
    rewrite <- app_assoc.
    destruct (c ++ path_body cs ++ tail) as [|z l] eqn:E.
    { exfalso. apply app_eq_nil in E as [-> E]. apply app_eq_nil in E as [E _].
      destruct Hne as [Hne|Hne]; [done|]. by destruct cs. }
    rewrite <- E, split_slash_path by done. unfold inode_at.
    pose proof Hn as [x Hx]. rewrite Hx. cbn [mbind outcome_bind].
    rewrite (tw_ops _ _ Hwf _ _ Hx). cbn [negb]. rewrite finddir_spec by done.
    cbn [mbind outcome_bind option_bind].
    destruct (lookup_child _ _ _) as [n|] eqn:El; [|done]. cbn [default option_bind].
    destruct (lookup_child_node _ _ _ _ _ Hwf El) as (Hi & Hz & _).
    cbn. destruct (Z.eqb_spec n 0); [done|]. apply IH; [done..|cbn [length] in Hf; lia].
Qed.

Lemma path_body_length comps : (length comps ≤ length (path_body comps))%nat.
Proof. induction comps as [|c cs IH]; cbn; [lia|]. rewrite length_app. lia. Qed.

Lemma resolve_spec s comps tail :
  tree_wf (inodes s) (vfs_root s) → vfs_root s ≠ 0 →
  Forall no_slash comps → ends_named comps → tail = [] ∨ tail = [SLASH] →
  Z.of_nat (length (path_body comps ++ tail)) < VFS_PATH_MAX - 1 →
  vfs_resolve_path (Some (path_body comps ++ tail)) s =
    Ok (default 0 (walk (inodes s) (vfs_root s) comps)).
Proof.
  intros Hwf Hr Hs He Ht Hlen. unfold vfs_resolve_path.
  destruct (Z.eqb_spec (vfs_root s) 0); [done|].
  case_bool_decide as Hp.
  { destruct comps as [|c cs]; [done|]. exfalso. cbn in Hp. injection Hp as Hp.
    apply app_eq_nil in Hp as [Hp _]. apply app_eq_nil in Hp as [-> Hp].
    apply ends_named_cons in He as [[He|He] _]; [done|]. by destruct cs. }
  destruct (Z.leb_spec (VFS_PATH_MAX - 1) (Z.of_nat (length (path_body comps ++ tail)))); [lia|].
  pose proof (path_body_length comps).
  destruct comps as [|c cs].
  - by destruct Ht as [-> | ->].
  - rewrite <- (resolve_loop_walk s (c :: cs) (vfs_root s)
      (S (length (path_body (c :: cs) ++ tail))) tail);
      [|done|by apply (tw_root _ _ Hwf)|rewrite length_app; lia|done..].
    cbn [path_body app]. by rewrite Z.eqb_refl.
Qed.

(** (C31) Path resolution: in a well-formed tree a path of components,
    with or without a trailing slash, resolves to the node reached by looking
    the components up one after the other from the root, and to NULL when one
    is missing; the fuel the model gives the loop is always enough.  An empty
    component (a double slash) is looked up like any other name. *)
Theorem vfs_resolve_path_walks (s : fs A) (comps : list (list Z)) (tail : list Z)
    (Hwf : tree_wf (inodes s) (vfs_root s)) (Hroot : vfs_root s ≠ 0)
    (Hslash : Forall no_slash comps) (Hend : ends_named comps)
    (Htail : tail = [] ∨ tail = [SLASH])
    (Hlen : Z.of_nat (length (path_body comps ++ tail)) < VFS_PATH_MAX - 1) :
  vfs_resolve_path (Some (path_body comps ++ tail)) s =
    Ok (default 0 (walk (inodes s) (vfs_root s) comps)).
Proof. by apply resolve_spec. Qed.

Lemma split_last_slash_path comps name :
  no_slash name → split_last_slash (path_body comps ++ SLASH :: name) = Some (path_body comps, name).
Proof.
  intros Hn.
  assert (∀ l, split_last_slash (l ++ SLASH :: name) = Some (l, name)) as H.
  { induction l as [|c l IH]; cbn [app split_last_slash]; [|by rewrite IH].
    assert (split_last_slash name = None) as ->; [|by rewrite Z.eqb_refl].
    clear -Hn. induction name as [|c l IH]; [done|].
    apply not_elem_of_cons in Hn as [Hc Hl]. cbn [split_last_slash]. rewrite IH by done.
    destruct (Z.eqb_spec c SLASH); [congruence|done]. }
  apply H.
Qed.

Lemma path_body_snoc comps name : path_body (comps ++ [name]) = path_body comps ++ SLASH :: name.
Proof.
  induction comps as [|c cs IH]; cbn; [by rewrite app_nil_r|]. by rewrite IH, <- app_assoc.
Qed.
End Resolve.

(** ** Adding a directory to the tree *)

Section Grow.
Implicit Types f : gmap Z inode.

Definition add_child (parent child : Z) (p x : inode) f : gmap Z inode :=
  <[parent := set_i_children (i_children p ++ [child]) p]> (<[child := x]> f).

Lemma child_named_ext f f' children name :
  Forall (fun c => i_name <$> f' !! c = i_name <$> f !! c) children →
  child_named f' children name = child_named f children name.
Proof.
  unfold child_named. induction 1 as [|c l Hc Hl IH]; [done|]. cbn [list_find]. rewrite IH, Hc.
  done.
Qed.

Lemma list_find_snoc {X} (P : X → Prop) `{∀ x, Decision (P x)} l x :
  list_find P (l ++ [x]) =
    match list_find P l with
    | Some r => Some r
    | None => if decide (P x) then Some (length l, x) else None
    end.
Proof.
  induction l as [|y l IH]; cbn; [by destruct (decide (P x))|].
  destruct (decide (P y)); [done|]. rewrite IH.
  destruct (list_find P l) as [[]|]; [done|]. by destruct (decide (P x)).
Qed.

Lemma child_named_snoc f l c name :
  child_named f (l ++ [c]) name =
    match child_named f l name with
    | Some r => Some r
    | None => if decide (i_name <$> f !! c = Some name) then Some (length l, c) else None
    end.
Proof. unfold child_named. by rewrite list_find_snoc. Qed.

Context (f : gmap Z inode) (root parent child : Z) (p x : inode).
Hypothesis Hwf : tree_wf f root.
Hypothesis Hp : f !! parent = Some p.
Hypothesis Hfresh : f !! child = None.
Hypothesis Hnz : child ≠ 0.
Hypothesis Hroom : Z.of_nat (length (i_children p)) < TMPFS_MAX_CHILDREN.
Hypothesis Hops : i_ops x = true.
Hypothesis Hempty : i_children x = [].

Lemma add_child_at a :
  add_child parent child p x f !! a =
    if decide (a = parent) then Some (set_i_children (i_children p ++ [child]) p)
    else if decide (a = child) then Some x else f !! a.
Proof.
  unfold add_child. destruct (decide (a = parent)) as [->|Hne].
  - by rewrite lookup_insert_eq.
  - rewrite lookup_insert_ne by done. destruct (decide (a = child)) as [->|Hne'].
    + by rewrite lookup_insert_eq.
    + by rewrite lookup_insert_ne.
Qed.

Lemma add_child_tree : tree_wf (add_child parent child p x f) root.
Proof.
  assert (∀ a, is_Some (f !! a) → is_Some (add_child parent child p x f !! a)) as Hmono.
  { intros a Ha. rewrite add_child_at. repeat case_decide; by eauto. }
  destruct Hwf as [Hn Ho Hk Hr Hroot]. split.
  - rewrite add_child_at. repeat case_decide; congruence.
  - intros a y. rewrite add_child_at.
    repeat case_decide; [intros [= <-]; cbn; eauto|intros [= <-]; done|apply Ho].
  - intros a y. rewrite add_child_at. repeat case_decide; [intros [= <-]|intros [= <-]|intros Hy].
    + cbn. apply Forall_app. split.
      * eapply Forall_impl; [by eapply Hk|]. eauto.
      * constructor; [|done]. rewrite add_child_at. repeat case_decide; by eauto.
    + rewrite Hempty. constructor.
    + eapply Forall_impl; [by eapply Hk|]. eauto.
  - intros a y. rewrite add_child_at. repeat case_decide; [intros [= <-]|intros [= <-]|apply Hr].
    + cbn. rewrite length_app. cbn. lia.
    + rewrite Hempty. done.
  - eauto.
Qed.

Lemma add_child_named children name :
  Forall (fun c => is_Some (f !! c)) children →
  child_named (add_child parent child p x f) children name = child_named f children name.
Proof.
  intros Hk. apply child_named_ext. eapply Forall_impl; [exact Hk|]. intros c [y Hy]. cbn in Hy |- *.
  rewrite add_child_at. repeat case_decide; subst; by rewrite ?Hp || congruence.
Qed.

Lemma add_child_lookup node name n :
  lookup_child f node name = Some n → lookup_child (add_child parent child p x f) node name = Some n.
Proof.
  intros Hl. unfold lookup_child in *. destruct (f !! node) as [y|] eqn:Hy; [|discriminate Hl].
  cbn [mbind option_bind] in Hl. rewrite add_child_at.
  pose proof (tw_kids _ _ Hwf _ _ Hy) as Hk.
  destruct (decide (node = parent)) as [->|_]; [|destruct (decide (node = child)) as [->|_]].
  - cbn [mbind option_bind]. rewrite Hp in Hy. injection Hy as <-. cbn [set_i_children i_children].
    rewrite child_named_snoc, add_child_named by done. by destruct (child_named f (i_children p) name).
  - congruence.
  - rewrite Hy. cbn [mbind option_bind]. by rewrite add_child_named.
Qed.

Lemma add_child_lookup_new :
  lookup_child f parent (i_name x) = None → parent ≠ child →
  lookup_child (add_child parent child p x f) parent (i_name x) = Some child.
Proof.
  intros Hl Hne. unfold lookup_child in *. rewrite Hp in Hl. cbn [mbind option_bind] in Hl.
  rewrite add_child_at, decide_True by done. cbn [mbind option_bind set_i_children i_children].
  rewrite child_named_snoc, add_child_named by (by eapply tw_kids).
  destruct (child_named f (i_children p) (i_name x)) as [[]|]; [discriminate Hl|].
  rewrite decide_True; [done|]. rewrite add_child_at.
  rewrite decide_False by done. by rewrite decide_True.
Qed.

Lemma add_child_walk node comps n :
  walk f node comps = Some n → walk (add_child parent child p x f) node comps = Some n.
Proof.
  revert node. induction comps as [|c cs IH]; intros node; [done|]. cbn [walk].
  destruct (lookup_child f node c) as [m|] eqn:E; [|discriminate]. cbn [mbind option_bind].
  intros H. rewrite (add_child_lookup _ _ _ E). cbn [option_bind]. by apply IH.
Qed.
End Grow.

Lemma walk_app f node l1 l2 : walk f node (l1 ++ l2) = n ← walk f node l1; walk f n l2.
Proof.
  revert node. induction l1 as [|c l IH]; intros node; [done|]. cbn.
  destruct (lookup_child f node c); [apply IH|done].
Qed.

Lemma walk_node f root node comps n :
  tree_wf f root → is_Some (f !! node) → walk f node comps = Some n → is_Some (f !! n) ∧ n ≠ 0.
Proof.
  intros Hwf. revert node. induction comps as [|c cs IH]; intros node Hn; cbn.
  - intros [= <-]. split; [done|]. intros ->. rewrite (tw_null _ _ Hwf) in Hn. by destruct Hn.
  - destruct (lookup_child f node c) as [m|] eqn:E; [|discriminate]. cbn.
    apply IH. by apply (lookup_child_node _ _ _ _ _ Hwf E).
Qed.

(** ** mkdir *)

Section Mkdir.
Context {A : Type} `{PageAllocSpec A}.
Implicit Types s : fs A.

Lemma store_wf_insert f bs bs' child x :
  store_wf f bs → (∀ c, c ∈ used_blocks bs → c ∈ used_blocks bs' ∧ b_data c ≠ child) →
  in_use bs' child TMPFS_INODE_SIZEOF → i_data x = 0 → i_capacity x = 0 → i_size x = 0 →
  store_wf (<[child := x]> f) bs'.
Proof.
  intros [Hn Hd Hnd Hs Hsep] Hu Hc Hx Hcap Hsz.
  assert (∀ a n, in_use bs a n → in_use bs' a n ∧ a ≠ child) as Hm.
  { intros a n (b & Hb & Ha & Hn'). destruct (Hu b Hb). split; [by exists b|congruence]. }
  split.
  - intros a y [[<- <-]|[_ Hy]]%lookup_insert_Some; [done|]. by eapply Hm, Hn.
  - intros a y [[<- <-]|[_ Hy]]%lookup_insert_Some Hnz; [congruence|].
    destruct (Hd _ _ Hy Hnz) as [Hd1 Hd2]. destruct (Hm _ _ Hd1) as [? Hne]. split; [done|].
    by rewrite lookup_insert_ne.
  - intros a y [[<- <-]|[_ Hy]]%lookup_insert_Some; [done|by apply (Hnd a)].
  - intros a y [[<- <-]|[_ Hy]]%lookup_insert_Some; [lia|by apply (Hs a)].
  - intros a a' y y' [[<- <-]|[Ha Hy]]%lookup_insert_Some [[<- <-]|[Ha' Hy']]%lookup_insert_Some Hnz Heq;
      [done|congruence|congruence|by eapply Hsep].
Qed.

Lemma store_wf_children f bs a x c :
  store_wf f bs → f !! a = Some x → store_wf (<[a := set_i_children c x]> f) bs.
Proof.
  intros [Hn Hd Hnd Hs Hsep] Hx.
  assert (∀ a' y, <[a := set_i_children c x]> f !! a' = Some y →
    ∃ y0, f !! a' = Some y0 ∧ i_data y = i_data y0 ∧ i_capacity y = i_capacity y0 ∧
      i_size y = i_size y0) as Hold.
  { intros a' y [[<- <-]|[_ Hy]]%lookup_insert_Some; [by exists x|by exists y]. }
  split.
  - intros a' y (y0 & Hy & _)%Hold. by eapply Hn.
  - intros a' y (y0 & Hy & -> & -> & _)%Hold Hnz. destruct (Hd _ _ Hy Hnz) as [? Hno]. split; [done|].
    rewrite lookup_insert_ne; [done|]. intros ->. congruence.
  - intros a' y (y0 & Hy & -> & -> & _)%Hold. by eapply Hnd.
  - intros a' y (y0 & Hy & _ & -> & ->)%Hold. by eapply Hs.
  - intros a1 a2 y y' (y0 & Hy & -> & _)%Hold (y0' & Hy' & -> & _)%Hold. by eapply Hsep.
Qed.

Definition new_dir (name : list Z) (mode ino : Z) : inode :=
  mk_inode (clip VFS_NAME_MAX name) VFS_DIRECTORY mode ino 0 true 0 0 0 [].

Lemma tmpfs_mkdir_spec fuel parent p name mode s bs :
  fs_wf s bs → inodes s !! parent = Some p → (length bs + 3 ≤ fuel)%nat →
  match tmpfs_mkdir fuel parent name mode s with
  | Ok (r, s') =>
      (r = -28 ∧ s' = s ∧ Z.of_nat (length (i_children p)) = TMPFS_MAX_CHILDREN) ∨
      (r = -12 ∧ fs_wf s' bs ∧ inodes s' = inodes s ∧ vfs_root s' = vfs_root s ∧
       heap_grows 2 (fs_heap s) bs (fs_heap s') bs) ∨
      ∃ child bs', r = 0 ∧ fs_wf s' bs' ∧ inodes s !! child = None ∧ child ≠ 0 ∧
        heap_grows 2 (fs_heap s) bs (fs_heap s') bs' ∧ (∀ c, c ∈ used_blocks bs → b_data c ≠ child) ∧
        vfs_root s' = vfs_root s ∧ Z.of_nat (length (i_children p)) < TMPFS_MAX_CHILDREN ∧
        tmpfs_inode_counter s' = wrap64 (tmpfs_inode_counter s + 1) ∧
        inodes s' = add_child parent child p (new_dir name mode (tmpfs_inode_counter s)) (inodes s)
  | Panic _ => True
  | _ => False
  end.
Proof.
  intros [Hh Ht Hs] Hp Hfuel. unfold tmpfs_mkdir, inode_at. rewrite Hp. cbn [mbind outcome_bind].
  pose proof (tw_room _ _ Ht _ _ Hp) as Hroom.
  destruct (Z.leb_spec TMPFS_MAX_CHILDREN (Z.of_nat (length (i_children p)))); [left; auto with lia|].
  pose proof (kcalloc_spec fuel 1 TMPFS_INODE_SIZEOF (fs_heap s) bs Hh
    ltac:(unfold TMPFS_INODE_SIZEOF; lia) Hfuel) as Hk.
  destruct (kcalloc _ _ _ _) as [[child h]| | |]; [|done..]. cbn [mbind outcome_bind].
  destruct Hk as [(-> & Hi & Hfr)|(b & -> & Hnz & Hal & _)].
  { right. left. split_and!; [done|done|done|done|]. by split; [|lia| |]. }
  destruct (Z.eqb_spec (b_data b) 0); [done|]. right. right.
  destruct (allocated_grows _ _ _ _ _ _ Hal) as (bs' & Hgr & Hbu & Hbs & _ & Hold).
  assert (in_use bs' (b_data b) TMPFS_INODE_SIZEOF) as Hin by (by exists b).
  assert (inodes s !! b_data b = None) as Hfresh.
  { destruct (inodes s !! b_data b) as [y|] eqn:Hy; [|done]. exfalso.
    destruct (sw_node _ _ Hs _ _ Hy) as (c & Hc & Hcb & _).
    by destruct (Hold c Hc) as (_ & ?). }
  assert (i_ops p = true) as Hops by (by eapply (tw_ops _ _ Ht)).
  exists (b_data b), bs'. split_and!; try done; [|intros c Hc; by apply Hold|by rewrite Hops].
  unfold fs_with_inodes, bump_counter, fs_with_heap.
  split; cbn [fs_heap inodes vfs_root]; [apply Hgr| |]; rewrite Hops.
  - by apply (add_child_tree (inodes s) (vfs_root s) parent (b_data b) p).
  - apply (store_wf_children _ _ _ p).
    + eapply store_wf_insert; [done| |exact Hin|done..].
      intros c Hc. split; [by apply Hgr|]. by destruct (Hold c Hc).
    + rewrite lookup_insert_ne by congruence. done.
Qed.

Lemma clip_small n (l : list Z) : Z.of_nat (length l) ≤ n → clip n l = l.
Proof. intros Hn. unfold clip. apply take_ge. lia. Qed.

(** The paths [vfs_mkdir] splits into a parent and a name. *)
Record creatable (comps : list (list Z)) (name : list Z) : Prop := mk_creatable {
  cr_dirs : Forall no_slash comps;
  cr_end : ends_named comps;
  cr_name : no_slash name;
  cr_named : name ≠ [];
  cr_len : Z.of_nat (length (path_body (comps ++ [name]))) < VFS_PATH_MAX - 1;
}.

Lemma dirname_spec comps name :
  creatable comps name →
  ∃ tail, (tail = [] ∨ tail = [SLASH]) ∧
    vfs_path_dirname (path_body (comps ++ [name])) VFS_PATH_MAX = Ok (path_body comps ++ tail) ∧
    Z.of_nat (length (path_body comps ++ tail)) < VFS_PATH_MAX - 1.
Proof.
  intros [Hd He Hn Hne Hlen]. unfold vfs_path_dirname.
  destruct (Z.leb_spec (VFS_PATH_MAX - 1) (Z.of_nat (length (path_body (comps ++ [name]))))); [lia|].
  rewrite path_body_snoc in *. rewrite length_app in Hlen. cbn [length] in Hlen.
  rewrite split_last_slash_path by done.
  destruct comps as [|c cs].
  - exists [SLASH]. split_and!; [by right|done|done].
  - exists []. split_and!; [by left|by rewrite app_nil_r|rewrite length_app; cbn [length]; lia].
Qed.

Lemma basename_spec comps name :
  creatable comps name → vfs_path_basename (path_body (comps ++ [name])) VFS_PATH_MAX = name.
Proof.
  intros [Hd He Hn Hne Hlen]. unfold vfs_path_basename. rewrite path_body_snoc in *.
  rewrite split_last_slash_path by done. apply clip_small.
  rewrite length_app in Hlen. cbn [length] in Hlen. lia.
Qed.

(** The path is split and its directory resolved. *)
Lemma vfs_mkdir_parent fuel comps name mode s bs parent p :
  fs_wf s bs → vfs_root s ≠ 0 → creatable comps name →
  walk (inodes s) (vfs_root s) comps = Some parent → inodes s !! parent = Some p →
  vfs_mkdir fuel (path_body (comps ++ [name])) mode s = tmpfs_mkdir fuel parent name mode s.
Proof.
  intros Hwf Hroot Hpath Hparent Hp. destruct (dirname_spec _ _ Hpath) as (tail & Ht & Hdir & Hlen).
  pose proof Hpath as [Hd He Hn Hne Hl]. unfold vfs_mkdir. rewrite Hdir, basename_spec by done.
  cbn [mbind outcome_bind]. pose proof (fw_tree _ _ Hwf) as Htree.
  rewrite resolve_spec, Hparent by done. cbn [default mbind outcome_bind].
  destruct (walk_node _ _ _ _ _ Htree (tw_root _ _ Htree Hroot) Hparent) as [_ Hnz].
  cbn [from_option id]. destruct (Z.eqb_spec parent 0); [done|]. unfold inode_at. rewrite Hp.
  cbn [mbind outcome_bind]. rewrite (tw_ops _ _ Htree _ _ Hp).
  done.
Qed.

Lemma vfs_mkdir_spec (fuel : nat) (comps : list (list Z)) (name : list Z) (mode : Z)
    (s : fs A) (bs : list blk) (parent : Z) (p : inode)
    (Hwf : fs_wf s bs) (Hroot : vfs_root s ≠ 0) (Hfuel : (length bs + 3 ≤ fuel)%nat)
    (Hpath : creatable comps name) (Hname : Z.of_nat (length name) ≤ VFS_NAME_MAX)
    (Hparent : walk (inodes s) (vfs_root s) comps = Some parent)
    (Hp : inodes s !! parent = Some p) :
  match vfs_mkdir fuel (path_body (comps ++ [name])) mode s with
  | Ok (r, s') =>
      (r = -28 ∧ s' = s ∧ Z.of_nat (length (i_children p)) = TMPFS_MAX_CHILDREN) ∨
      (r = -12 ∧ fs_wf s' bs ∧ inodes s' = inodes s ∧ vfs_root s' = vfs_root s ∧
       heap_grows 2 (fs_heap s) bs (fs_heap s') bs) ∨
      ∃ child bs', r = 0 ∧ fs_wf s' bs' ∧ heap_grows 2 (fs_heap s) bs (fs_heap s') bs' ∧ vfs_root s' = vfs_root s ∧
        (∀ c, c ∈ used_blocks bs → b_data c ≠ child) ∧ inodes s !! child = None ∧
        tmpfs_inode_counter s' = wrap64 (tmpfs_inode_counter s + 1) ∧
        inodes s' = add_child parent child p (new_dir name mode (tmpfs_inode_counter s)) (inodes s) ∧
        (∀ cs n, walk (inodes s) (vfs_root s) cs = Some n →
                 walk (inodes s') (vfs_root s') cs = Some n) ∧
        (walk (inodes s) (vfs_root s) (comps ++ [name]) = None →
         vfs_resolve_path (Some (path_body (comps ++ [name]))) s' = Ok child)
  | Panic _ => True
  | _ => False
  end.
Proof.
  rewrite (vfs_mkdir_parent fuel comps name mode s bs parent p) by done.
  pose proof Hpath as [Hd He Hn Hne Hl]. pose proof (fw_tree _ _ Hwf) as Htree.
  destruct (walk_node _ _ _ _ _ Htree (tw_root _ _ Htree Hroot) Hparent) as [_ Hnz].
  pose proof (tmpfs_mkdir_spec fuel parent p name mode s bs Hwf Hp Hfuel) as Hk.
  destruct (tmpfs_mkdir _ _ _ _ _) as [[r s']| | |]; [|done..].
  destruct Hk as [?|[?|(child & bs' & -> & Hwf' & Hfr & Hcnz & Hg & Hnew & Hr & Hroom & Hcnt & Hi)]]; [by left|by right; left|].
  right. right. exists child, bs'.
  assert (∀ cs n, walk (inodes s) (vfs_root s) cs = Some n →
                  walk (inodes s') (vfs_root s') cs = Some n) as Hkeep.
  { intros cs0 n0 Hcs. rewrite Hi, Hr. by eapply add_child_walk. }
  split_and!; try done. intros Hnone.
  rewrite <- (app_nil_r (path_body _)), resolve_spec; [|by apply (fw_tree _ _ Hwf')|by rewrite Hr| | |by left|by rewrite app_nil_r].
  - rewrite walk_app, (Hkeep _ _ Hparent). cbn [mbind option_bind walk].
    rewrite walk_app, Hparent in Hnone. cbn [mbind option_bind walk] in Hnone.
    assert (lookup_child (inodes s') parent name = Some child) as ->; [|done].
    rewrite Hi. rewrite <- (clip_small VFS_NAME_MAX name Hname) at 2.
    apply (add_child_lookup_new _ (vfs_root s)); try done.
    + cbn [new_dir i_name]. rewrite clip_small by done.
      by destruct (lookup_child (inodes s) parent name).
    + congruence.
  - apply Forall_app. split; [done|]. by repeat constructor.
  - unfold ends_named. rewrite last_snoc. congruence.
Qed.

(** (C11) [vfs_mkdir] of a path whose parent directory exists, on a
    well-formed file system, either fails (the parent has 64 entries, or no
    memory) and changes no inode, or returns 0: then the file system is
    well-formed again, exactly one new inode appears, an empty directory with the
    given name and mode and the next inode number, appended to the parent's
    children; every path that resolved before still resolves to the same node,
    and if the path did not exist it now resolves to the new directory. *)
Theorem vfs_mkdir_correct (fuel : nat) (comps : list (list Z)) (name : list Z) (mode : Z)
    (s : fs A) (bs : list blk) (parent : Z) (p : inode)
    (Hwf : fs_wf s bs) (Hroot : vfs_root s ≠ 0) (Hfuel : (length bs + 3 ≤ fuel)%nat)
    (Hpath : creatable comps name) (Hname : Z.of_nat (length name) ≤ VFS_NAME_MAX)
    (Hparent : walk (inodes s) (vfs_root s) comps = Some parent)
    (Hp : inodes s !! parent = Some p) :
  match vfs_mkdir fuel (path_body (comps ++ [name])) mode s with
  | Ok (r, s') =>
      (r = -28 ∧ s' = s ∧ Z.of_nat (length (i_children p)) = TMPFS_MAX_CHILDREN) ∨
      (r = -12 ∧ fs_wf s' bs ∧ inodes s' = inodes s) ∨
      ∃ child bs', r = 0 ∧ fs_wf s' bs' ∧ inodes s !! child = None ∧
        tmpfs_inode_counter s' = wrap64 (tmpfs_inode_counter s + 1) ∧
        inodes s' = add_child parent child p (new_dir name mode (tmpfs_inode_counter s)) (inodes s) ∧
        (∀ cs n, walk (inodes s) (vfs_root s) cs = Some n →
                 walk (inodes s') (vfs_root s') cs = Some n) ∧
        (walk (inodes s) (vfs_root s) (comps ++ [name]) = None →
         vfs_resolve_path (Some (path_body (comps ++ [name]))) s' = Ok child)
  | Panic _ => True
  | _ => False
  end.
Proof.
  pose proof (vfs_mkdir_spec fuel comps name mode s bs parent p Hwf Hroot Hfuel Hpath Hname Hparent Hp) as H1.
  destruct (vfs_mkdir _ _ _ _) as [[r s']| | |]; [|done..].
  destruct H1 as [?|[(? & ? & ? & _)|(child & bs' & ? & ? & _ & _ & _ & ?)]]; [by left|by right; left|].
  right. right. by exists child, bs'.
Qed.
End Mkdir.

(** ** Writing and reading a file *)

Lemma tree_wf_file f root a x y :
  tree_wf f root → f !! a = Some x → i_children y = i_children x → i_ops y = i_ops x →
  tree_wf (<[a := y]> f) root.
Proof.
  intros [Hn Ho Hk Hr Hroot] Hx Hc Hops.
  assert (∀ c, is_Some (f !! c) → is_Some (<[a := y]> f !! c)) as Hm.
  { intros c Hc'. destruct (decide (a = c)) as [->|]; [by rewrite lookup_insert_eq|].
    by rewrite lookup_insert_ne. }
  split.
  - rewrite lookup_insert_ne; [done|]. congruence.
  - intros c z [[<- <-]|[_ Hz]]%lookup_insert_Some; [rewrite Hops|]; by eapply Ho.
  - intros c z [[<- <-]|[_ Hz]]%lookup_insert_Some; [rewrite Hc|];
      (eapply Forall_impl; [by eapply Hk|]); eauto.
  - intros c z [[<- <-]|[_ Hz]]%lookup_insert_Some; [rewrite Hc|]; by eapply Hr.
  - eauto.
Qed.

Lemma store_wf_file f bs bs' a x d cap sz :
  store_wf f bs → (∀ c, c ∈ used_blocks bs → i_data x = 0 ∨ b_data c ≠ i_data x → c ∈ used_blocks bs') →
  f !! a = Some x → in_use bs' d cap → d ≠ 0 → f !! d = None → 0 ≤ sz ≤ cap →
  (∀ a' y, a' ≠ a → f !! a' = Some y → i_data y ≠ d) →
  store_wf (<[a := set_i_file sz d cap x]> f) bs'.
Proof.
  intros [Hn Hd Hnd Hs Hsep] Hm Hx Hin Hnz Hno Hsz Hother.
  assert (∀ c, f !! c = None → <[a := set_i_file sz d cap x]> f !! c = None) as Hnone.
  { intros c Hc. rewrite lookup_insert_ne; [done|]. congruence. }
  assert (∀ b n, in_use bs b n → i_data x = 0 ∨ b ≠ i_data x → in_use bs' b n) as Hmono.
  { intros b n (c & Hc & <- & Hcn) Hb. exists c. auto. }
  assert (∀ c y, f !! c = Some y → i_data x = 0 ∨ c ≠ i_data x) as Hnode.
  { intros c y Hy. destruct (decide (i_data x = 0)) as [|Hxd]; [by left|right]. intros ->.
    destruct (Hd _ _ Hx Hxd). congruence. }
  split.
  - intros c y [[<- <-]|[_ Hy]]%lookup_insert_Some; apply Hmono; eauto.
  - intros c y [[<- <-]|[Hne Hy]]%lookup_insert_Some Hz; cbn; [auto|].
    destruct (Hd _ _ Hy Hz). split; [|auto]. apply Hmono; [done|].
    destruct (decide (i_data x = 0)) as [|Hxd]; [by left|right]. intros E. apply Hne.
    apply (Hsep a c x y); congruence.
  - intros c y [[<- <-]|[_ Hy]]%lookup_insert_Some; [done|by apply (Hnd c)].
  - intros c y [[<- <-]|[_ Hy]]%lookup_insert_Some; [done|by apply (Hs c)].
  - intros c c' y y' [[<- <-]|[Hc Hy]]%lookup_insert_Some [[<- <-]|[Hc' Hy']]%lookup_insert_Some Hz;
      cbn; [done| | |by eapply Hsep].
    + intros Heq. by destruct (Hother c' y').
    + intros Heq. by destruct (Hother c y).
Qed.

Section ReadWrite.
Context {A : Type} `{PageAllocSpec A}.
Implicit Types s : fs A.

(** [src .. src + n) lies in the payload of a block in use other than [d]. *)
Definition buffer (bs : list blk) (d src n : Z) : Prop :=
  ∃ c, c ∈ used_blocks bs ∧ b_data c ≠ d ∧ b_data c ≤ src ∧ src + n ≤ b_data c + b_size c.

Definition byte_at s (a : Z) : Z := kh_mem (fs_heap s) a.

(** Copying between two different blocks in use. *)
Lemma copy_between (h : kheap A) bs d cap dst src n :
  kheap_inv h bs → in_use bs d cap → d ≤ dst → dst + n ≤ d + cap → 0 ≤ n →
  buffer bs d src n →
  let h' := with_mem (memcpy dst src n) h in
  kheap_inv h' bs ∧
  ∀ x, kh_mem h' x = if (dst <=? x) && (x <? dst + n)
                     then kh_mem h (src + (x - dst)) else kh_mem h x.
Proof.
  intros Hi (b & Hb & <- & Hcap) Hlo Hhi Hn (c & Hc & Hne & Hsl & Hsh) h'.
  pose proof (used_disj _ _ _ _ Hi Hb Hc ltac:(congruence)) as Hd.
  assert (∀ x, memcpy dst src n (kh_mem h) x =
    if (dst <=? x) && (x <? dst + n) then kh_mem h (src + (x - dst)) else kh_mem h x) as Hm.
  { intros x. apply memcpy_at; [done| |by apply (ki_bytes _ _ Hi)].
    unfold blk_disj, b_end, b_data in *. lia. }
  split; [|exact Hm].
  apply list_elem_of_filter in Hb as [_ (l1 & l2 & ->)%list_elem_of_split].
  apply (payload_write_inv h (memcpy dst src n (kh_mem h)) l1 b l2 Hi).
  - intros x. rewrite Hm. destruct (_ && _); apply (ki_bytes _ _ Hi).
  - intros x Hx. rewrite Hm. destruct (Z.leb_spec dst x), (Z.ltb_spec x (dst + n)); (done || lia).
Qed.

(** The file is ready for a write that ends at [new_end]: its bytes are in a
    buffer that is large enough, and all other blocks are as before. *)
Record ready (node new_end : Z) (s s1 : fs A) (bs bs1 : list blk) (x x1 : inode) : Prop := mk_ready {
  rd_wf : fs_wf s1 bs1;
  rd_inodes : inodes s1 = <[node := x1]> (inodes s);
  rd_file : x1 = set_i_file (i_size x) (i_data x1) (i_capacity x1) x;
  rd_cap : new_end ≤ i_capacity x1;
  rd_data : i_data x1 ≠ 0;
  rd_mono : ∀ c, c ∈ used_blocks bs → b_data c ≠ i_data x → c ∈ used_blocks bs1;
  rd_kept : ∀ c, c ∈ used_blocks bs → b_data c ≠ i_data x → payload_kept (kh_mem (fs_heap s)) (kh_mem (fs_heap s1)) c;
  rd_apart : ∀ c, c ∈ used_blocks bs → b_data c ≠ i_data x → b_data c ≠ i_data x1;
  rd_old : ∀ i, 0 ≤ i < i_size x → byte_at s1 (i_data x1 + i) = byte_at s (i_data x + i);
}.

(** The buffer [d] may be moved: it is NULL, or the blocks next to it in the list
    that are free touch it. *)
Definition movable (bs : list blk) (d : Z) : Prop :=
  d = 0 ∨ ∃ l1 b l2, bs = l1 ++ b :: l2 ∧ b_free b = false ∧ b_data b = d ∧ touching l1 b l2.

(** The growth to [new_end] bytes is refused: the heap would pass its limit; no inode and
    no byte of memory changes. *)
Definition refused_growth (new_end : Z) (s s1 : fs A) (bs : list blk) : Prop :=
  past_limit (grow_need (ALIGN_UP64 new_end 512)) (fs_heap s) ∧
  fs_wf s1 bs ∧ inodes s1 = inodes s ∧ ∀ a, byte_at s1 a = byte_at s a.

(** The page allocator has not the pages for a buffer of [new_end] bytes. *)
Definition no_pages (new_end : Z) (s : fs A) : Prop :=
  no_run (pages_for (grow_need (ALIGN_UP64 new_end 512))) (kh_pages (fs_heap s)).

Lemma align512 n : 0 < n ≤ 4294967296 → n ≤ ALIGN_UP64 n 512 ≤ 4294967808.
Proof.
  intros Hn. change 512 with (2 ^ 9). rewrite align_up64_div by lia. change (2 ^ 9) with 512.
  rewrite wrap64_small by lia. Z.div_mod_to_equations; lia.
Qed.

Lemma size_zero s bs node x : fs_wf s bs → inodes s !! node = Some x → i_data x = 0 → i_size x = 0.
Proof.
  intros [_ _ Hs] Hx Hd. pose proof (sw_size _ _ Hs _ _ Hx). pose proof (sw_nodata _ _ Hs _ _ Hx Hd). lia.
Qed.

Lemma tmpfs_grow_new fuel node new_end s bs x :
  fs_wf s bs → inodes s !! node = Some x → i_data x = 0 → 0 < new_end ≤ 4294967296 →
  (length bs + 3 ≤ fuel)%nat →
  match tmpfs_grow fuel node new_end s with
  | Ok (true, s1) => ∃ bs1 x1, ready node new_end s s1 bs bs1 x x1
  | Ok (false, s1) => refused_growth new_end s s1 bs
  | Panic _ => no_pages new_end s
  | _ => False
  end.
Proof.
  intros Hwf Hx Hd Hend Hfuel. pose proof (size_zero _ _ _ _ Hwf Hx Hd) as Hz. destruct Hwf as [Hh Ht Hs].
  unfold tmpfs_grow, inode_at. rewrite Hx. cbn [mbind outcome_bind]. rewrite Hd. unfold krealloc. cbn [Z.eqb].
  pose proof (align512 new_end Hend) as Hal. set (cap := ALIGN_UP64 new_end 512) in *.
  pose proof (kmalloc_spec fuel cap (fs_heap s) bs Hh ltac:(lia) Hfuel) as Hk.
  destruct (kmalloc fuel cap (fs_heap s)) as [[d h]| | |]; [|apply Hk|done..]. cbn [mbind outcome_bind].
  destruct Hk as [(-> & [_ Hlim] & Hm & Hi & _)|(b & -> & Hall & _)].
  { split; [exact Hlim|]. split_and!; [by split|done|]. intros a. unfold byte_at. cbn. by rewrite Hm. }
  destruct (allocated_grows _ _ _ _ _ _ Hall) as (bs1 & [Hi _ Hmono _] & Hbu & Hbs & Hnz & Hold).
  assert (in_use bs1 (b_data b) cap) as Hin by (by exists b).
  destruct (Z.eqb_spec (b_data b) 0); [done|].
  assert (∀ a y, inodes s !! a = Some y → i_data y ≠ b_data b) as Hdiff.
  { intros a y Hy Heq. destruct (sw_data _ _ Hs _ _ Hy ltac:(congruence)) as [(c & Hc & Hcb & _) _].
    destruct (Hold c Hc) as (_ & ?). congruence. }
  exists bs1, (set_i_file (i_size x) (b_data b) cap x). split; try done.
  - split; [exact Hi|by eapply tree_wf_file|].
    eapply store_wf_file; [exact Hs|intros c Hc _; by apply Hmono|exact Hx|exact Hin|done| |lia|by intros a y _; apply Hdiff].
    destruct (inodes s !! b_data b) as [y|] eqn:Hy; [|done]. exfalso.
    destruct (sw_node _ _ Hs _ _ Hy) as (c & Hc & Hcb & _). by destruct (Hold c Hc) as (_ & ?).
  - cbn. lia.
  - intros c Hc _. by apply Hmono.
  - intros c Hc _. by apply (al_kept _ _ _ _ _ _ Hall).
  - intros c Hc _. by apply Hold.
  - rewrite Hz. lia.
Qed.

(** The buffer stays where it is or moves to a new block. *)
Lemma tmpfs_grow_move fuel node new_end s l1 b l2 x :
  fs_wf s (l1 ++ b :: l2) → inodes s !! node = Some x → i_data x = b_data b → b_free b = false →
  touching l1 b l2 → i_capacity x < new_end ≤ 4294967296 → (length (l1 ++ b :: l2) + 3 ≤ fuel)%nat →
  match tmpfs_grow fuel node new_end s with
  | Ok (true, s1) => ∃ bs1 x1, ready node new_end s s1 (l1 ++ b :: l2) bs1 x x1
  | Ok (false, s1) => refused_growth new_end s s1 (l1 ++ b :: l2)
  | Panic _ => no_pages new_end s
  | _ => False
  end.
Proof.
  intros [Hh Ht Hs] Hx Hd Hb Htouch Hend Hfuel. set (bs := l1 ++ b :: l2) in *.
  unfold tmpfs_grow, inode_at. rewrite Hx. cbn [mbind outcome_bind]. rewrite Hd.
  pose proof (sw_size _ _ Hs _ _ Hx) as Hsz. pose proof (align512 new_end ltac:(lia)) as Hal. set (cap := ALIGN_UP64 new_end 512) in *.
  pose proof (krealloc_spec fuel cap (fs_heap s) l1 l2 b Hh Hb ltac:(lia) Hfuel) as Hk.
  destruct (krealloc fuel (b_data b) cap (fs_heap s)) as [[d h]| | |]; [|apply Hk|done..]. cbn [mbind outcome_bind].
  assert (b ∈ used_blocks bs) as Hbu by (apply used_middle; by left).
  destruct (listed_block _ _ b Hh ltac:(apply elem_middle; by left)) as (_ & Hnz & _ & _).
  destruct (sw_data _ _ Hs _ _ Hx ltac:(congruence)) as [(b' & Hb' & Hbd & Hcapb) Hno]. rewrite Hd in Hbd, Hno.
  rewrite <- (used_by_data _ _ _ _ Hh Hbu Hb' (eq_sym Hbd)) in *. clear b' Hb' Hbd.
  assert (∀ a y, a ≠ node → inodes s !! a = Some y → i_data y ≠ b_data b) as Hsole.
  { intros a y Hne Hy Heq. apply Hne. apply (sw_sep _ _ Hs a node y x); congruence. }
  destruct Hk as [(Hle & -> & ->)|(Hlt & [(-> & [_ Hlim] & Hi & Hm)|(nb & -> & _ & Hnbs & Hnbf & Hfresh & Hmv)])].
  - destruct (Z.eqb_spec (b_data b) 0); [done|].
    exists bs, (set_i_file (i_size x) (b_data b) cap x). split; try done.
    + split; [exact Hh|by eapply tree_wf_file|].
      by eapply store_wf_file; [exact Hs|intros c Hc _; exact Hc|exact Hx|exists b|done|done|lia|].
    + cbn. lia.
    + by rewrite Hd.
    + intros i Hi. unfold byte_at. cbn [fs_heap fs_with_heap fs_with_inodes i_data set_i_file]. by rewrite Hd.
  - rewrite Z.eqb_refl. split; [exact Hlim|]. split_and!; [by split|done|]. intros a. unfold byte_at. cbn. by rewrite Hm.
  - destruct (Hmv Htouch) as [bs1 [Hi Hu Hbytes Hkept]].
    assert (∀ c, c ∈ used_blocks bs → b_data c ≠ b_data b → c ∈ used_blocks (l1 ++ l2)) as Hrest.
    { intros c [[_ ->]|Hc]%used_middle Hne; [congruence|done]. }
    assert (nb ∈ used_blocks bs1) as Hnbu by (apply Hu; by left).
    destruct (listed_block _ _ nb Hi ltac:(by apply used_in in Hnbu as [? _])) as (_ & Hnz' & _ & _).
    destruct (Z.eqb_spec (b_data nb) 0); [done|].
    assert (in_use bs1 (b_data nb) cap) as Hin by (by exists nb).
    exists bs1, (set_i_file (i_size x) (b_data nb) cap x). split; try done.
    + split; [exact Hi|by eapply tree_wf_file|].
      eapply store_wf_file; [exact Hs| |exact Hx|exact Hin|done| |lia|].
      * intros c Hc Hne. apply Hu. right. apply Hrest; [done|]. destruct Hne; congruence.
      * destruct (inodes s !! b_data nb) as [y|] eqn:Hy; [|done]. exfalso.
        destruct (sw_node _ _ Hs _ _ Hy) as (c & Hc & Hcb & _). by destruct (Hfresh c Hc).
      * intros a y _ Hy Heq. destruct (sw_data _ _ Hs _ _ Hy ltac:(congruence)) as [(c & Hc & Hcb & _) _].
        destruct (Hfresh c Hc). congruence.
    + cbn. lia.
    + rewrite Hd. intros c Hc Hne. apply Hu. right. by apply Hrest.
    + rewrite Hd. intros c Hc Hne. by apply Hkept, Hrest.
    + intros c Hc _. by apply Hfresh.
    + intros i Hi'. unfold byte_at. cbn [fs_heap fs_with_heap fs_with_inodes i_data set_i_file]. rewrite Hd. apply Hbytes. lia.
Qed.

Lemma tmpfs_grow_spec fuel node new_end s bs x :
  fs_wf s bs → inodes s !! node = Some x → movable bs (i_data x) → i_capacity x < new_end ≤ 4294967296 →
  (length bs + 3 ≤ fuel)%nat →
  match tmpfs_grow fuel node new_end s with
  | Ok (true, s1) => ∃ bs1 x1, ready node new_end s s1 bs bs1 x x1
  | Ok (false, s1) => refused_growth new_end s s1 bs
  | Panic _ => no_pages new_end s
  | _ => False
  end.
Proof.
  intros Hwf Hx [Hd|(l1 & b & l2 & -> & Hb & Hd & Ht)] Hend Hfuel; [|by apply tmpfs_grow_move].
  apply tmpfs_grow_new; try done. pose proof (sw_size _ _ (fw_store _ _ Hwf) _ _ Hx). lia.
Qed.

Lemma ready_now node new_end s bs x :
  fs_wf s bs → inodes s !! node = Some x → 0 < new_end ≤ i_capacity x →
  ready node new_end s s bs bs x x.
Proof.
  intros Hwf Hx Hend.
  assert (i_data x ≠ 0) as Hnz.
  { intros Hd. pose proof (sw_nodata _ _ (fw_store _ _ Hwf) _ _ Hx Hd). lia. }
  split; try done; [by rewrite insert_id|by destruct x|lia].
Qed.

Lemma payload_byte (m m' : mem) c x :
  payload_kept m m' c → b_data c ≤ x < b_data c + b_size c → m' x = m x.
Proof. intros Hk Hx. by apply Hk. Qed.

Lemma ready_node node new_end s s1 bs bs1 x x1 :
  ready node new_end s s1 bs bs1 x x1 → inodes s1 !! node = Some x1.
Proof. intros Hr. rewrite (rd_inodes _ _ _ _ _ _ _ _ Hr). apply lookup_insert_eq. Qed.

Lemma buffer_ready node new_end s s1 bs bs1 x x1 src n :
  ready node new_end s s1 bs bs1 x x1 → 0 ≤ n → buffer bs (i_data x) src n →
  buffer bs1 (i_data x1) src n ∧
  ∀ i, 0 ≤ i < n → byte_at s1 (src + i) = byte_at s (src + i).
Proof.
  intros Hr Hn (c & Hc & Hne & Hlo & Hhi). split.
  - exists c. split_and!; [by apply (rd_mono _ _ _ _ _ _ _ _ Hr)|by apply (rd_apart _ _ _ _ _ _ _ _ Hr)|done|done].
  - intros i Hi. eapply payload_byte; [by apply (rd_kept _ _ _ _ _ _ _ _ Hr)|lia].
Qed.

Lemma tmpfs_store_spec node offset size buf s s1 bs bs1 x x1 :
  ready node (offset + size) s s1 bs bs1 x x1 → 0 ≤ offset → 0 < size →
  buffer bs (i_data x) buf size →
  ∃ s2 x2, tmpfs_store node offset size buf (offset + size) s1 = Ok s2 ∧
    x2 = set_i_file (Z.max (i_size x) (offset + size)) (i_data x1) (i_capacity x1) x ∧
    fs_wf s2 bs1 ∧ inodes s2 = <[node := x2]> (inodes s) ∧
    ∀ a, byte_at s2 a =
      if (i_data x1 + offset <=? a) && (a <? i_data x1 + offset + size)
      then byte_at s (buf + (a - (i_data x1 + offset))) else byte_at s1 a.
Proof.
  intros Hr Hoff Hsize Hbuf.
  pose proof (ready_node _ _ _ _ _ _ _ _ Hr) as Hx1.
  destruct (buffer_ready _ _ _ _ _ _ _ _ _ _ Hr (Z.lt_le_incl _ _ Hsize) Hbuf) as [Hbuf1 Hsrc].
  pose proof Hr as [[Hh Ht Hs] Hino Hfile Hcap Hnz _ _ _ _].
  destruct (sw_data _ _ Hs _ _ Hx1 Hnz) as [Hin Hno].
  pose proof (sw_size _ _ Hs _ _ Hx1) as Hsz.
  assert (is_u64 (i_data x1 + offset)) as Hu.
  { destruct Hin as (b & Hb & <- & Hcb). apply list_elem_of_filter in Hb as [_ Hb].
    pose proof (hl_ok _ _ (ki_list _ _ Hh)) as Hok. rewrite Forall_forall in Hok.
    destruct (Hok _ Hb) as [? _ ? ?]. unfold is_u64, b_data, b_end in *. lia. }
  unfold tmpfs_store, inode_at. rewrite Hx1. cbn [mbind outcome_bind].
  rewrite (wrap64_small (i_data x1 + offset)) by exact Hu.
  destruct (copy_between (fs_heap s1) bs1 (i_data x1) (i_capacity x1) (i_data x1 + offset) buf size
    Hh Hin ltac:(lia) ltac:(lia) ltac:(lia) Hbuf1) as [Hh2 Hm2].
  set (h2 := with_mem _ _) in *.
  assert (Hmax : (if i_size x1 <? offset + size
      then fs_with_inodes <[node := set_i_file (offset + size) (i_data x1) (i_capacity x1) x1]>
             (fs_with_heap h2 s1) else fs_with_heap h2 s1) =
    mk_fs h2 (<[node := set_i_file (Z.max (i_size x) (offset + size)) (i_data x1) (i_capacity x1) x]>
      (inodes s)) (tmpfs_inode_counter s1) (vfs_root s1) (mount_table s1) (fs_registry s1)).
  { assert (i_size x1 = i_size x) as -> by (by rewrite Hfile).
    unfold fs_with_inodes, fs_with_heap. cbn [inodes fs_heap tmpfs_inode_counter vfs_root mount_table fs_registry].
    rewrite Hino. destruct (Z.ltb_spec (i_size x) (offset + size)).
    - rewrite insert_insert_eq, Z.max_r by lia. do 2 f_equal. rewrite Hfile. by destruct x.
    - rewrite Z.max_l by lia. f_equal. by rewrite <- Hfile. }
  rewrite Hmax. eexists _, _. split_and!; [reflexivity|reflexivity| |reflexivity|].
  - assert (∀ y, set_i_file y (i_data x1) (i_capacity x1) x = set_i_file y (i_data x1) (i_capacity x1) x1) as Hfx
      by (intros y; by rewrite Hfile).
    assert (∀ y, <[node := y]> (inodes s) = <[node := y]> (inodes s1)) as Hins
      by (intros y; by rewrite Hino, insert_insert_eq).
    rewrite Hfx, Hins.
    assert (i_size x1 = i_size x) as Hsx by (by rewrite Hfile).
    split; cbn [fs_heap inodes vfs_root]; [exact Hh2|by eapply tree_wf_file|].
    eapply store_wf_file; [exact Hs|by intros c Hc _|exact Hx1|exact Hin|done|done|lia|].
    intros a' y Hne Hy Heq. apply Hne. symmetry. by eapply (sw_sep _ _ Hs).
  - intros a. unfold byte_at. cbn [fs_heap]. rewrite Hm2.
    destruct (Z.leb_spec (i_data x1 + offset) a), (Z.ltb_spec a (i_data x1 + offset + size)); cbn; try done.
    apply Hsrc. lia.
Qed.

Lemma tmpfs_read_spec node offset size out s bs x :
  fs_wf s bs → inodes s !! node = Some x → 0 ≤ offset → 0 < size < 9223372036854775808 →
  offset + size ≤ i_size x → buffer bs (i_data x) out size →
  ∃ s', tmpfs_read node offset size out s = Ok (size, s') ∧
    ∀ i, 0 ≤ i < size → byte_at s' (out + i) = byte_at s (i_data x + offset + i).
Proof.
  intros [Hh Ht Hs] Hx Hoff Hsize Hend Hout. unfold tmpfs_read, inode_at. rewrite Hx.
  cbn [mbind outcome_bind]. pose proof (sw_size _ _ Hs _ _ Hx) as Hsz.
  assert (i_data x ≠ 0) as Hnz.
  { intros Hd. pose proof (sw_nodata _ _ Hs _ _ Hx Hd). lia. }
  destruct (sw_data _ _ Hs _ _ Hx Hnz) as [(b & Hb & Hbd & Hcb) Hno].
  pose proof Hout as (c & Hc & Hcne & Hlo & Hhi).
  pose proof (used_disj _ _ _ _ Hh Hb Hc ltac:(congruence)) as Hdj.
  assert (b_end b ≤ 4294967296 ∧ 0 < b_addr b) as [Hbe Hba].
  { apply list_elem_of_filter in Hb as [_ Hb].
    pose proof (hl_ok _ _ (ki_list _ _ Hh)) as Hok. rewrite Forall_forall in Hok.
    by destruct (Hok _ Hb). }
  assert (i_data x + i_capacity x < 4294967296) as Hbound by (unfold b_end, b_data in *; lia).
  assert (0 < i_data x) by (unfold b_data in Hbd; lia).
  rewrite (wrap64_small offset) by lia.
  destruct (Z.eqb_spec (i_data x) 0); [done|]. destruct (Z.leb_spec (i_size x) offset); [lia|].
  cbn [orb]. rewrite (wrap64_small (i_size x - offset)), (wrap64_small (i_data x + offset)) by lia.
  unfold MIN. assert ((if size <? i_size x - offset then size else i_size x - offset) = size) as ->.
  { destruct (Z.ltb_spec size (i_size x - offset)); lia. }
  rewrite (signed64_small size) by lia.
  eexists. split; [reflexivity|]. intros i Hi. unfold byte_at, fs_with_heap, with_mem.
  cbn [fs_heap kh_mem]. rewrite memcpy_at; [|lia| |by apply (ki_bytes _ _ Hh)].
  - destruct (Z.leb_spec out (out + i)), (Z.ltb_spec (out + i) (out + size)); try lia. cbn. f_equal. lia.
  - unfold blk_disj, b_end, b_data in *. lia.
Qed.

Lemma vfs_rw_unfold fuel node offset size buf out s bs x :
  fs_wf s bs → inodes s !! node = Some x →
  vfs_write fuel node offset size buf s = tmpfs_write fuel node offset size buf s ∧
  vfs_read node offset size out s = tmpfs_read node offset size out s.
Proof.
  intros [_ Ht _] Hx. unfold vfs_write, vfs_read, inode_at. rewrite Hx. cbn [mbind outcome_bind].
  rewrite (tw_ops _ _ Ht _ _ Hx). destruct (Z.eqb_spec node 0) as [->|]; [|done].
  rewrite (tw_null _ _ Ht) in Hx. discriminate Hx.
Qed.

(** (C20) Writing [size] bytes at [offset] to a file of a well-formed file system, up to
    offset 2^32, from a buffer in a heap block other than the file's.  The write fits in
    the capacity of the file's buffer, or this buffer may be moved: the free neighbours
    of its block in the free list touch it in memory (otherwise [krealloc] frees it by
    merging across the gap, see [kfree_merges_across_gap]).  Three outcomes.  When the
    file must grow and the page allocator has no run of pages for the new buffer, the
    kernel panics.  When the heap would pass its limit, -12 is returned and no inode and
    no byte of memory changes.  Otherwise [size] is returned, the file system is
    well-formed again, only this inode changes, its size becomes the maximum of the old
    size and the end of the write, the old bytes outside the written range are kept even
    if the buffer had to move, and reading the range back yields the bytes that were
    written. *)
Theorem vfs_write_read_roundtrip (fuel : nat) (node offset size buf out : Z)
    (s : fs A) (bs : list blk) (x : inode)
    (Hwf : fs_wf s bs) (Hx : inodes s !! node = Some x) (Hfuel : (length bs + 3 ≤ fuel)%nat)
    (Hoff : 0 ≤ offset) (Hsize : 0 < size) (Hend : offset + size ≤ 4294967296)
    (Hroom : offset + size ≤ i_capacity x ∨ movable bs (i_data x))
    (Hbuf : buffer bs (i_data x) buf size) (Hout : buffer bs (i_data x) out size) :
  match vfs_write fuel node offset size buf s with
  | Ok (r, s1) =>
      (r = -12 ∧ i_capacity x < offset + size ∧ refused_growth (offset + size) s s1 bs) ∨
      ∃ bs1 x1 s2, r = size ∧ fs_wf s1 bs1 ∧ inodes s1 = <[node := x1]> (inodes s) ∧
        i_size x1 = Z.max (i_size x) (offset + size) ∧
        (∀ i, 0 ≤ i < i_size x → i < offset ∨ offset + size ≤ i →
           byte_at s1 (i_data x1 + i) = byte_at s (i_data x + i)) ∧
        vfs_read node offset size out s1 = Ok (size, s2) ∧
        ∀ i, 0 ≤ i < size → byte_at s2 (out + i) = byte_at s (buf + i)
  | Panic _ => i_capacity x < offset + size ∧ no_pages (offset + size) s
  | _ => False
  end.
Proof.
  rewrite (proj1 (vfs_rw_unfold fuel node offset size buf out s bs x Hwf Hx)).
  unfold tmpfs_write. unfold inode_at at 1. rewrite Hx. cbn [mbind outcome_bind].
  rewrite (wrap64_small offset), (wrap64_small (offset + size)) by lia.
  assert (Hprep : match (if i_capacity x <? offset + size
                   then tmpfs_grow fuel node (offset + size) s else Ok (true, s)) with
    | Ok (true, s1) => ∃ bs1 x1, ready node (offset + size) s s1 bs bs1 x x1
    | Ok (false, s1) => i_capacity x < offset + size ∧ refused_growth (offset + size) s s1 bs
    | Panic _ => i_capacity x < offset + size ∧ no_pages (offset + size) s
    | _ => False end).
  { destruct (Z.ltb_spec (i_capacity x) (offset + size)).
    - pose proof (tmpfs_grow_spec fuel node (offset + size) s bs x Hwf Hx) as Hg.
      destruct (tmpfs_grow _ _ _ _) as [[[] ?]| | |]; [|split; [done|]..| |]; apply Hg; (done || lia || (by destruct Hroom; [lia|])).
    - exists bs, x. by apply ready_now; [..|lia]. }
  destruct (if i_capacity x <? offset + size then _ else _) as [[[] s1]| | |]; [| |done..];
    cbn [mbind outcome_bind negb]; [|by left].
  destruct Hprep as (bs1 & x1 & Hr).
  destruct (tmpfs_store_spec _ _ _ _ _ _ _ _ _ _ Hr Hoff Hsize Hbuf)
    as (s2 & x2 & -> & Hx2 & Hwf2 & Hi2 & Hb2).
  cbn [mbind outcome_bind]. rewrite signed64_small by lia. right.
  assert (inodes s2 !! node = Some x2) as Hn2 by (rewrite Hi2; apply lookup_insert_eq).
  assert (Hd2 : i_data x2 = i_data x1) by (by rewrite Hx2).
  destruct (buffer_ready _ _ _ _ _ _ _ _ _ _ Hr (Z.lt_le_incl _ _ Hsize) Hout) as [Hout2 _].
  destruct (tmpfs_read_spec node offset size out s2 bs1 x2 Hwf2 Hn2 Hoff) as (s3 & Hread & Hb3);
    [lia|rewrite Hx2; cbn; lia|by rewrite Hd2|].
  exists bs1, x2, s3. split_and!; try done.
  - by rewrite Hx2.
  - intros i Hi Hout'. rewrite Hb2, Hd2.
    pose proof (rd_old _ _ _ _ _ _ _ _ Hr i Hi) as Hold.
    destruct (Z.leb_spec (i_data x1 + offset) (i_data x1 + i)),
      (Z.ltb_spec (i_data x1 + i) (i_data x1 + offset + size)); cbn; (lia || exact Hold).
  - by rewrite (proj2 (vfs_rw_unfold fuel node offset size buf out s2 bs1 x2 Hwf2 Hn2)).
  - intros i Hi. rewrite Hb3, Hb2, Hd2 by done.
    destruct (Z.leb_spec (i_data x1 + offset) (i_data x1 + offset + i)),
      (Z.ltb_spec (i_data x1 + offset + i) (i_data x1 + offset + size)); cbn; try lia.
    f_equal. lia.
Qed.
End ReadWrite.

(** ** A concrete file system

    One heap page with three blocks in use: the root directory and two
    buffers; the rest of the page is free. *)
Definition fs_blocks : list blk :=
  [mk_blk 1048576 896 false; mk_blk 1049528 64 false; mk_blk 1049648 64 false;
   mk_blk 1049768 2848 true].
Definition fs_mem : mem :=
  take_fit 64 1049648 (take_fit 64 1049528 (take_fit 896 1048576 sample_page)).
Definition sample_root : inode := mk_inode [114] VFS_DIRECTORY 493 1 0 true 0 0 0 [].
Definition sample_fs : fs pmm :=
  mk_fs (mk_kheap fs_mem sample_pmm 1048576 1048576 1052672 2097152)
    {[1048616 := sample_root]} 2 1048616 [([SLASH], 1048616)] [].

Lemma fs_heap_list : heap_list fs_mem fs_blocks ∧ mem_bytes fs_mem.
Proof.
  assert (blk_ok (mk_blk 1048576 4040 true)) as Hb
    by (split; unfold b_end; cbn [b_addr b_size]; (lia || reflexivity)).
  destruct (single_block_spec (fun _ => 0) _ Hb eq_refl) as [H0 _].
  destruct (take_fit_spec sample_page [] _ [] 896 H0 eq_refl) as [H1 _];
    [split; [lia|reflexivity]|cbn [b_size]; lia|].
  destruct (take_fit_spec _ [mk_blk 1048576 896 false] (mk_blk 1049528 3088 true) [] 64 H1 eq_refl)
    as [H2 _]; [split; [lia|reflexivity]|cbn [b_size]; lia|].
  destruct (take_fit_spec _ [mk_blk 1048576 896 false; mk_blk 1049528 64 false]
    (mk_blk 1049648 2968 true) [] 64 H2 eq_refl) as [H3 _];
    [split; [lia|reflexivity]|cbn [b_size]; lia|].
  split; [exact H3|].
  by repeat apply take_fit_bytes; apply set_next_bytes, set_prev_bytes, write_block_bytes, zero_bytes.
Qed.

Lemma sample_fs_wf : fs_wf sample_fs fs_blocks.
Proof.
  destruct fs_heap_list as [Hl Hb].
  assert (∀ a x, inodes sample_fs !! a = Some x → a = 1048616 ∧ x = sample_root) as Hone.
  { intros a x Hx. unfold sample_fs in Hx. cbn [inodes] in Hx.
    apply lookup_singleton_Some in Hx as [<- <-]. done. }
  split; [|split|split].
  - split; unfold sample_fs; cbn [fs_heap kh_mem kh_pages heap_head];
      [exact Hb|reflexivity|exact Hl| |exact sample_pmm_inv|apply sample_page_owned].
    assert (∀ b, 1048576 ≤ b_addr b → b_end b ≤ 1052672 → owned sample_pmm b) as Ho.
    { intros b Hlo Hhi x Hx. destruct sample_page_owned as [Hp _].
      replace (x / PAGE_SIZE) with 256; [exact Hp|]. unfold PAGE_SIZE. Z.div_mod_to_equations; lia. }
    repeat constructor; apply Ho; unfold b_end; cbn [b_addr b_size]; lia.
  - reflexivity.
  - by intros a x [-> ->]%Hone.
  - intros a x [-> ->]%Hone. constructor.
  - intros a x [-> ->]%Hone. done.
  - intros _. by exists sample_root.
  - intros a x [-> ->]%Hone. exists (mk_blk 1048576 896 false).
    split_and!; [apply list_elem_of_filter; split; [done|left]|done|done].
  - by intros a x [-> ->]%Hone.
  - by intros a x [-> ->]%Hone.
  - intros a x [-> ->]%Hone. cbn. lia.
  - by intros a a' x x' [-> ->]%Hone [-> ->]%Hone.
Qed.

Lemma sample_buffers : buffer fs_blocks 0 1049568 10 ∧ buffer fs_blocks 0 1049688 10.
Proof.
  split.
  - exists (mk_blk 1049528 64 false). split_and!; try (unfold b_data; cbn; lia).
    apply list_elem_of_filter. split; [done|]. right. left.
  - exists (mk_blk 1049648 64 false). split_and!; try (unfold b_data; cbn; lia).
    apply list_elem_of_filter. split; [done|]. right. right. left.
Qed.

(** "etc", "motd" *)
Definition etc : list Z := [101; 116; 99].

Lemma etc_creatable : creatable [] etc.
Proof.
  split; [constructor|done| |done|done]. unfold no_slash, etc, SLASH. intros Hin.
  repeat (apply elem_of_cons in Hin as [Hin|Hin]; [discriminate Hin|]).
  by apply elem_of_nil in Hin.
Qed.

Lemma vfs_resolve_path_walks_witness :
  tree_wf (inodes sample_fs) (vfs_root sample_fs) ∧
  vfs_resolve_path (Some (path_body [etc] ++ [SLASH])) sample_fs = Ok 0.
Proof.
  split; [exact (fw_tree _ _ sample_fs_wf)|].
  apply (vfs_resolve_path_walks sample_fs [etc] [SLASH] (fw_tree _ _ sample_fs_wf));
    [discriminate|repeat constructor; apply etc_creatable|discriminate|by right|reflexivity].
Defined.

Lemma vfs_mkdir_correct_witness :
  fs_wf sample_fs fs_blocks ∧
  (fst <$> vfs_mkdir 8 (path_body [etc]) 493 sample_fs) = Ok 0 ∧
  match vfs_mkdir 8 (path_body [etc]) 493 sample_fs with
  | Ok (_, s') => ∃ child, vfs_resolve_path (Some (path_body [etc])) s' = Ok child
  | _ => False
  end.
Proof.
  split; [exact sample_fs_wf|].
  assert (fst <$> vfs_mkdir 8 (path_body [etc]) 493 sample_fs = Ok 0) as E
    by (vm_compute; reflexivity).
  split; [exact E|].
  pose proof (vfs_mkdir_correct 8 [] etc 493 sample_fs fs_blocks 1048616 sample_root
    sample_fs_wf ltac:(discriminate) ltac:(cbn; lia) etc_creatable ltac:(unfold VFS_NAME_MAX; cbn; lia) eq_refl eq_refl) as Hk.
  cbn [app] in Hk. apply fst_ok in E as [s' E]. rewrite E in Hk |- *.
  destruct Hk as [(Hr & _)|[(Hr & _)|(child & bs' & _ & _ & _ & _ & _ & _ & Hres)]];
    [discriminate Hr|discriminate Hr|].
  exists child. apply Hres. vm_compute. reflexivity.
Defined.

Lemma vfs_write_read_roundtrip_witness :
  fs_wf sample_fs fs_blocks ∧
  (fst <$> vfs_write 8 1048616 5 10 1049568 sample_fs) = Ok 10 ∧
  match vfs_write 8 1048616 5 10 1049568 sample_fs with
  | Ok (_, s1) => ∃ s2, vfs_read 1048616 5 10 1049688 s1 = Ok (10, s2) ∧
      ∀ i, 0 ≤ i < 10 → byte_at s2 (1049688 + i) = byte_at sample_fs (1049568 + i)
  | _ => False
  end.
Proof.
  split; [exact sample_fs_wf|].
  assert (fst <$> vfs_write 8 1048616 5 10 1049568 sample_fs = Ok 10) as E
    by (vm_compute; reflexivity).
  split; [exact E|]. destruct sample_buffers as [Hb Ho].
  pose proof (vfs_write_read_roundtrip 8 1048616 5 10 1049568 1049688 sample_fs fs_blocks sample_root
    sample_fs_wf eq_refl ltac:(cbn; lia) ltac:(lia) ltac:(lia) ltac:(lia) (or_intror (or_introl eq_refl)) Hb Ho) as Hk.
  apply fst_ok in E as [s1 E]. rewrite E in Hk |- *.
  destruct Hk as [(Hr & _)|(bs1 & x1 & s2 & _ & _ & _ & _ & _ & Hread & Hbytes)]; [discriminate Hr|].
  exists s2. exact (conj Hread Hbytes).
Defined.

(** A second write far behind the first moves the buffer to a new block; the first
    ten bytes move with it. *)
Example grown_file :
  (fun r => (fst (fst r), i_data <$> inodes (snd r) !! 1048616, snd (fst r))) <$>
    ('(r1, s) ← vfs_write 8 1048616 5 10 1049568 sample_fs;
     let d1 := i_data <$> inodes s !! 1048616 in
     '(r2, s) ← vfs_write 8 1048616 600 10 1049568 s;
     let d2 := i_data <$> inodes s !! 1048616 in
     '(r3, s) ← vfs_read 1048616 5 10 1049688 s;
     Ok ((r1, r2, r3), bool_decide (d1 = d2), s)) =
  Ok ((10, 10, 10), Some 1050376, false).
Proof. vm_compute. reflexivity. Qed.

(** A double slash is not skipped: the empty component is looked up and is
    normally missing, so that [/a//b] does not resolve where [/a/b] does. *)
Definition twin_fs : fs pmm :=
  mk_fs (fs_heap sample_fs)
    (add_child 1048616 2000 sample_root (new_dir etc 493 2) (inodes sample_fs)) 3 1048616 [] [].
Example double_slash_fails :
  vfs_resolve_path (Some (SLASH :: etc)) twin_fs = Ok 2000 ∧
  vfs_resolve_path (Some (SLASH :: SLASH :: etc)) twin_fs = Ok 0.
Proof. split; vm_compute; reflexivity. Qed.
