(* ===== verification/UnlinkSpec.v ===== *)
(** * Removing files: [tmpfs_unlink] and [vfs_unlink]

    The tree without the victim, and the heap with its two blocks freed. *)
From S2P Require Import Prelude Mem LibString PageAlloc Pmm Kheap KheapInv KheapSpec KmallocSpec KreallocSpec Fs FsSpec.

(** ** The tree *)

Section Tree.
Context (f : gmap Z inode) (root parent victim : Z) (i : nat) (p : inode).
Hypothesis Hwf : tree_wf f root.
Hypothesis Hp : f !! parent = Some p.
Hypothesis Hi : i_children p !! i = Some victim.

(** Only the parent has the victim for a child, and only once. *)
Record sole_entry : Prop := mk_sole_entry {
  se_parent : victim ≠ parent;
  se_root : victim ≠ root;
  se_once : NoDup (i_children p);
  se_only : ∀ a x, f !! a = Some x → victim ∈ i_children x → a = parent;
}.

Definition unlinked : gmap Z inode :=
  <[parent := set_i_children (delete i (i_children p)) p]> (delete victim f).

Hypothesis Hse : sole_entry.

Lemma unlinked_at a :
  unlinked !! a =
    if decide (a = parent) then Some (set_i_children (delete i (i_children p)) p)
    else if decide (a = victim) then None else f !! a.
Proof.
  unfold unlinked. repeat case_decide; subst.
  - by rewrite lookup_insert_eq.
  - by rewrite lookup_insert_ne, lookup_delete_eq by done.
  - by rewrite lookup_insert_ne, lookup_delete_ne by done.
Qed.

Lemma remaining_child c : c ∈ delete i (i_children p) → c ∈ i_children p ∧ c ≠ victim.
Proof.
  intros Hc. pose proof (se_once Hse) as Hnd. rewrite delete_take_drop in Hc.
  rewrite <- (take_drop_middle _ _ _ Hi) in Hnd |- *. apply elem_of_app in Hc as Hc'.
  apply NoDup_app in Hnd as (_ & Hd & [Hv _]%NoDup_cons). rewrite elem_of_app, elem_of_cons.
  split; [tauto|]. intros ->. destruct Hc' as [Hc'|]; [|done]. apply (Hd _ Hc'). by left.
Qed.

Lemma unlinked_some a : a ≠ victim → is_Some (f !! a) → is_Some (unlinked !! a).
Proof. intros Hne Ha. rewrite unlinked_at. destruct (decide (a = parent)); [by eexists|]. by rewrite decide_False. Qed.

Lemma unlinked_tree : tree_wf unlinked root.
Proof.
  destruct Hwf as [Hn Ho Hk Hr Hroot]. split.
  - rewrite unlinked_at. repeat case_decide; subst; congruence.
  - intros a y. rewrite unlinked_at. repeat case_decide; [intros [= <-]; exact (Ho _ _ Hp)|done|apply Ho].
  - intros a y. rewrite unlinked_at. repeat case_decide; [intros [= <-]|done|intros Hy].
    + cbn [set_i_children i_children]. rewrite Forall_forall. intros c [Hc Hne]%remaining_child.
      apply unlinked_some; [done|]. pose proof (Hk _ _ Hp) as Hf. rewrite Forall_forall in Hf. by apply Hf.
    + rewrite Forall_forall. intros c Hc. apply unlinked_some.
      * intros ->. by pose proof (se_only Hse _ _ Hy Hc).
      * pose proof (Hk _ _ Hy) as Hf. rewrite Forall_forall in Hf. by apply Hf.
  - intros a y. rewrite unlinked_at. repeat case_decide; [intros [= <-]|done|apply Hr].
    cbn [set_i_children i_children]. pose proof (Hr _ _ Hp). rewrite length_delete by (by eexists). lia.
  - intros Hz. apply unlinked_some; [apply not_eq_sym, Hse|by apply Hroot].
Qed.

(** Names that lead to other nodes are found as before. *)
Lemma unlinked_name c : c ≠ victim → i_name <$> unlinked !! c = i_name <$> f !! c.
Proof. intros Hne. rewrite unlinked_at. repeat case_decide; subst; [by rewrite Hp|done|done]. Qed.

Lemma list_find_delete {X} (P : X → Prop) `{∀ x, Decision (P x)} l k v j w :
  l !! k = Some v → list_find P l = Some (j, w) → w ≠ v → ∃ j', list_find P (delete k l) = Some (j', w).
Proof.
  revert k j. induction l as [|x l IH]; intros k j Hk Hf Hne; [done|]. destruct k as [|k]; cbn in Hk, Hf.
  - change (delete 0%nat (x :: l)) with l. injection Hk as ->. destruct (decide (P v)); [by injection Hf as <- <-|].
    destruct (list_find P l) as [[j' w']|]; [|done]. cbn in Hf. injection Hf as <- <-. by eexists.
  - change (delete (S k) (x :: l)) with (x :: delete k l). cbn [list_find].
    destruct (decide (P x)); [injection Hf as <- <-; by eexists|].
    destruct (list_find P l) as [[j' w']|] eqn:E; [|done]. cbn in Hf. injection Hf as <- <-.
    destruct (IH k j' Hk eq_refl Hne) as [j'' ->]. by eexists.
Qed.

Lemma unlinked_lookup node name c :
  node ≠ victim → c ≠ victim → lookup_child f node name = Some c → lookup_child unlinked node name = Some c.
Proof.
  intros Hnode Hc Hl. unfold lookup_child in *. destruct (f !! node) as [y|] eqn:Hy; [|done].
  cbn [mbind option_bind] in Hl. destruct (child_named f (i_children y) name) as [[j d]|] eqn:E; [|done].
  injection Hl as ->. rewrite unlinked_at. destruct (decide (node = parent)) as [->|Hnp]; cbn [option_bind mbind].
  - assert (y = p) as -> by congruence. cbn [set_i_children i_children].
    rewrite (child_named_ext f); [|rewrite Forall_forall; intros d [_ Hd]%remaining_child; by apply unlinked_name].
    destruct (list_find_delete _ _ _ _ _ _ Hi E Hc) as [j' E']. unfold child_named. by rewrite E'.
  - rewrite decide_False, Hy by done. cbn [mbind option_bind].
    rewrite (child_named_ext f); [by rewrite E|]. rewrite Forall_forall. intros d Hd. apply unlinked_name.
    intros ->. by pose proof (se_only Hse _ _ Hy Hd).
Qed.
End Tree.

(** ** The heap *)

(** Freeing [ptr], NULL or a block in use whose free neighbours touch it. *)
Inductive frees (bs : list blk) : Z → list blk → Prop :=
  | frees_null : frees bs 0 bs
  | frees_block l1 b l2 :
      bs = l1 ++ b :: l2 → b_free b = false → touching l1 b l2 → frees bs (b_data b) (freed_list l1 b l2).

Section Unlink.
Context {A : Type} `{PageAllocSpec A}.
Implicit Types s : fs A.

Lemma kfree_frees (h : kheap A) bs ptr bs' :
  kheap_inv h bs → frees bs ptr bs' →
  kheap_inv (kfree ptr h) bs' ∧ ∀ a n, in_use bs a n → a ≠ ptr → in_use bs' a n.
Proof.
  intros Hi [|l1 b l2 -> Hb Ht]; [done|].
  destruct (kfree_spec h l1 l2 b Hi Hb Ht) as (Hi' & Hu & _). split; [done|].
  intros a n (c & Hc & Ha & Hn) Hne. exists c. rewrite Hu. split; [|done].
  apply used_middle in Hc as [[_ ->]|Hc]; [congruence|done].
Qed.

Lemma unlinked_store f root parent victim i p x bs bs' :
  tree_wf f root → f !! parent = Some p → f !! victim = Some x → victim ≠ parent → store_wf f bs →
  (∀ a n, in_use bs a n → a ≠ i_data x → a ≠ victim → in_use bs' a n) →
  store_wf (unlinked f parent victim i p) bs'.
Proof.
  intros Ht Hp Hx Hvp [Hn Hd Hnd Hs Hsep] Hkeep.
  assert (∀ a y, unlinked f parent victim i p !! a = Some y →
    a ≠ victim ∧ ∃ y0, f !! a = Some y0 ∧ i_data y = i_data y0 ∧ i_capacity y = i_capacity y0 ∧ i_size y = i_size y0) as Hold.
  { intros a y. unfold unlinked.
    intros [[<- <-]|[_ [? Hy]%lookup_delete_Some]]%lookup_insert_Some;
      (split; [congruence|]); [by exists p|by exists y]. }
  split.
  - intros a y (Hav & y0 & Hy & _)%Hold. apply Hkeep; [by eapply Hn| |done]. intros ->.
    destruct (decide (i_data x = 0)) as [E|Hnz]; [rewrite E, (tw_null _ _ Ht) in Hy; done|].
    destruct (Hd _ _ Hx Hnz) as [_ ?]. congruence.
  - intros a y (Hav & y0 & Hy & -> & -> & _)%Hold Hnz. destruct (Hd _ _ Hy Hnz) as [Hin Hno]. split.
    + apply Hkeep; [done| |congruence]. intros E. apply Hav. symmetry. apply (Hsep victim a x y0); congruence.
    + unfold unlinked. rewrite lookup_insert_ne by congruence. by rewrite lookup_delete_ne by congruence.
  - intros a y (_ & y0 & Hy & -> & -> & _)%Hold. by apply (Hnd a).
  - intros a y (_ & y0 & Hy & _ & -> & ->)%Hold. by apply (Hs a).
  - intros a a' y y' (_ & y0 & Hy & -> & _)%Hold (_ & y0' & Hy' & -> & _)%Hold. by eapply Hsep.
Qed.

Lemma tmpfs_unlink_spec s bs parent p name :
  fs_wf s bs → inodes s !! parent = Some p →
  tmpfs_unlink parent name s =
    match child_named (inodes s) (i_children p) name with
    | None => Ok (-2, s)
    | Some (i, c) =>
        Ok (0, mk_fs (kfree c (kfree (default 0 (i_data <$> inodes s !! c)) (fs_heap s)))
                 (unlinked (inodes s) parent c i p) (tmpfs_inode_counter s) (vfs_root s) (mount_table s) (fs_registry s))
    end.
Proof.
  intros Hwf Hp. pose proof (fw_tree _ _ Hwf) as Ht. pose proof (tw_kids _ _ Ht _ _ Hp) as Hk.
  assert (inode_at parent s = Ok p) as Hpa by (unfold inode_at; by rewrite Hp).
  unfold tmpfs_unlink. rewrite Hpa. cbn [mbind outcome_bind].
  rewrite find_child_spec by done. cbn [mbind outcome_bind].
  destruct (child_named _ _ _) as [[i c]|] eqn:E; cbn [fmap option_fmap option_map fst snd Nat.add]; [|done].
  apply list_find_Some in E as (Hi & _). rewrite Forall_forall in Hk.
  destruct (Hk c ltac:(apply list_elem_of_lookup; by exists i)) as [x Hx].
  unfold inode_at. by rewrite Hx.
Qed.

(** (C22) [vfs_unlink] of a path whose parent exists, to an inode with this one
    directory entry ([sole_entry]; the kernel has no hard links): -ENOENT and no
    change when the parent has no entry of that name; otherwise 0, the first such
    entry is removed, its buffer and its inode are passed to [kfree], the buffer of
    every other inode is where it was, and every other entry of every directory is
    found as before.  The file system, its heap included, is well formed afterwards if
    at each of the two calls of [kfree] the free neighbours of the freed block touch
    it ([frees]); otherwise [kfree] merges blocks across the gap between two regions
    and the heap is damaged ([kfree_merges_across_gap]; kheap.c:157). *)
Theorem vfs_unlink_correct (comps : list (list Z)) (name : list Z) s (bs : list blk) (parent : Z) (p : inode)
    (Hwf : fs_wf s bs) (Hroot : vfs_root s ≠ 0) (Hpath : creatable comps name)
    (Hparent : walk (inodes s) (vfs_root s) comps = Some parent) (Hp : inodes s !! parent = Some p)
    (Hentry : ∀ i c, child_named (inodes s) (i_children p) name = Some (i, c) →
       sole_entry (inodes s) (vfs_root s) parent c p) :
  match child_named (inodes s) (i_children p) name with
  | None => vfs_unlink (path_body (comps ++ [name])) s = Ok (-2, s)
  | Some (_, c) =>
      ∃ x s', inodes s !! c = Some x ∧ vfs_unlink (path_body (comps ++ [name])) s = Ok (0, s') ∧
        (∀ bs1 bs2, frees bs (i_data x) bs1 → frees bs1 c bs2 → fs_wf s' bs2) ∧
        fs_heap s' = kfree c (kfree (i_data x) (fs_heap s)) ∧ vfs_root s' = vfs_root s ∧
        inodes s' !! c = None ∧
        (∀ a, a ≠ c → i_data <$> inodes s' !! a = i_data <$> inodes s !! a) ∧
        (∀ node nm d, node ≠ c → d ≠ c → lookup_child (inodes s) node nm = Some d → lookup_child (inodes s') node nm = Some d)
  end.
Proof.
  pose proof (fw_tree _ _ Hwf) as Ht. destruct (dirname_spec _ _ Hpath) as (tail & Htail & Hdir & Hlen).
  pose proof Hpath as [Hd He Hn Hne Hl].
  assert (vfs_unlink (path_body (comps ++ [name])) s = tmpfs_unlink parent name s) as ->.
  { unfold vfs_unlink. rewrite Hdir, basename_spec by done. cbn [mbind outcome_bind].
    rewrite resolve_spec, Hparent by done. cbn [default mbind outcome_bind from_option id].
    destruct (walk_node _ _ _ _ _ Ht (tw_root _ _ Ht Hroot) Hparent) as [_ Hnz].
    destruct (Z.eqb_spec parent 0); [done|]. unfold inode_at. rewrite Hp. cbn [mbind outcome_bind].
    by rewrite (tw_ops _ _ Ht _ _ Hp). }
  rewrite (tmpfs_unlink_spec s bs parent p name Hwf Hp).
  destruct (child_named _ _ _) as [[i c]|] eqn:E; [|done].
  pose proof E as E'. apply list_find_Some in E' as (Hi & _).
  pose proof (tw_kids _ _ Ht _ _ Hp) as Hk. rewrite Forall_forall in Hk.
  destruct (Hk c ltac:(apply list_elem_of_lookup; by exists i)) as [x Hx].
  pose proof (Hentry i c eq_refl) as Hse. rewrite Hx. cbn [default fmap option_fmap option_map from_option id].
  pose proof (se_parent _ _ _ _ _ Hse) as Hcp.
  exists x. eexists. split; [done|]. split; [reflexivity|].
  split_and!; cbn [fs_heap inodes vfs_root]; try done.
  - intros bs1 bs2 Hf1 Hf2. destruct (kfree_frees _ _ _ _ (fw_heap _ _ Hwf) Hf1) as [Hi1 Hu1].
    destruct (kfree_frees _ _ _ _ Hi1 Hf2) as [Hi2 Hu2].
    split; cbn [fs_heap inodes vfs_root]; [done|by apply (unlinked_tree _ (vfs_root s))|].
    apply (unlinked_store _ (vfs_root s) parent c i p x bs); try done; [apply Hwf|].
    intros a n Ha H1 H2. by apply Hu2; [apply Hu1|].
  - unfold unlinked. by rewrite lookup_insert_ne, lookup_delete_eq by done.
  - intros a Ha. unfold unlinked. destruct (decide (a = parent)) as [->|Hap]; [by rewrite lookup_insert_eq, Hp|].
    by rewrite lookup_insert_ne, lookup_delete_ne by done.
  - intros node nm d. by apply (unlinked_lookup _ (vfs_root s)).
Qed.
End Unlink.

(** ** A root directory with one empty directory, the rest of the page free *)

Definition full_blocks : list blk :=
  [mk_blk 1048576 896 false; mk_blk 1049528 896 false; mk_blk 1050480 2136 true].
Definition full_fs : fs pmm :=
  mk_fs (mk_kheap (take_fit 896 1049528 (take_fit 896 1048576 sample_page)) sample_pmm 1048576 1048576 1052672 2097152)
    (add_child 1048616 1049568 sample_root (new_dir etc 493 2) (inodes sample_fs)) 3 1048616 [] [].

Lemma full_heap_inv : kheap_inv (fs_heap full_fs) full_blocks.
Proof.
  assert (blk_ok (mk_blk 1048576 4040 true)) as Hb
    by (split; unfold b_end; cbn [b_addr b_size]; (lia || reflexivity)).
  destruct (single_block_spec (fun _ => 0) _ Hb eq_refl) as [H0 _].
  destruct (take_fit_spec sample_page [] _ [] 896 H0 eq_refl) as [H1 _];
    [split; [lia|reflexivity]|cbn [b_size]; lia|].
  destruct (take_fit_spec _ [mk_blk 1048576 896 false] (mk_blk 1049528 3088 true) [] 896 H1 eq_refl)
    as [H2 _]; [split; [lia|reflexivity]|cbn [b_size]; lia|].
  split; unfold full_fs; cbn [fs_heap kh_mem kh_pages heap_head].
  - by repeat apply take_fit_bytes; apply set_next_bytes, set_prev_bytes, write_block_bytes, zero_bytes.
  - reflexivity.
  - exact H2.
  - assert (∀ b, 1048576 ≤ b_addr b → b_end b ≤ 1052672 → owned sample_pmm b) as Ho.
    { intros b Hlo Hhi x Hx. destruct sample_page_owned as [Hp _].
      replace (x / PAGE_SIZE) with 256; [exact Hp|]. unfold PAGE_SIZE. Z.div_mod_to_equations; lia. }
    repeat constructor; apply Ho; unfold b_end; cbn [b_addr b_size]; lia.
  - exact sample_pmm_inv.
  - apply sample_page_owned.
Qed.

Lemma full_fs_wf : fs_wf full_fs full_blocks.
Proof.
  destruct sample_fs_wf as [_ Ht _]. split; [exact full_heap_inv| |].
  - apply (add_child_tree (inodes sample_fs) 1048616 1048616 1049568 sample_root); try done.
  - assert (in_use full_blocks 1048616 896 ∧ in_use full_blocks 1049568 896) as [Hr Hc].
    { split; eexists; (split; [apply list_elem_of_filter; split; [|]|]); [|left|done| |right; left|done]; done. }
    assert (store_wf (inodes sample_fs) [mk_blk 1048576 896 false]) as Hs.
    { assert (∀ a x, inodes sample_fs !! a = Some x → a = 1048616 ∧ x = sample_root) as Hone.
      { intros a x Hx. change (inodes sample_fs) with ({[1048616 := sample_root]} : gmap Z inode) in Hx.
        by apply lookup_singleton_Some in Hx as [<- <-]. }
      split.
      - intros a x [-> ->]%Hone. exists (mk_blk 1048576 896 false).
        split; [by apply list_elem_of_filter; split; [|left]|done].
      - by intros a x [-> ->]%Hone.
      - by intros a x [-> ->]%Hone.
      - intros a x [-> ->]%Hone. cbn. lia.
      - by intros a a' x x' [-> ->]%Hone [-> ->]%Hone. }
    apply (store_wf_children _ _ _ sample_root).
    + apply (store_wf_insert _ [mk_blk 1048576 896 false]); try done.
      intros c [_ Hin]%list_elem_of_filter. apply list_elem_of_singleton in Hin as ->.
      split; [by apply list_elem_of_filter; split; [|left]|done].
    + reflexivity.
Qed.

Lemma vfs_unlink_correct_witness :
  ∃ s' bs', vfs_unlink (path_body [etc]) full_fs = Ok (0, s') ∧ fs_wf s' bs' ∧ inodes s' !! 1049568 = None.
Proof.
  set (root := set_i_children [1049568] sample_root).
  set (bs2 := freed_list [mk_blk 1048576 896 false] (mk_blk 1049528 896 false) [mk_blk 1050480 2136 true]).
  pose proof (vfs_unlink_correct [] etc full_fs full_blocks 1048616 root full_fs_wf
    ltac:(discriminate) etc_creatable eq_refl eq_refl) as H.
  assert (child_named (inodes full_fs) (i_children root) etc = Some (0%nat, 1049568)) as E by (vm_compute; reflexivity).
  rewrite E in H. destruct H as (x & s' & Hx & E' & Hw & _ & _ & Hc & _).
  - intros i c [= <- <-].
    split; [discriminate|discriminate|apply NoDup_singleton|].
    intros a x Hx Hin. change (inodes full_fs) with
      (add_child 1048616 1049568 sample_root (new_dir etc 493 2) (inodes sample_fs)) in Hx.
    rewrite add_child_at in Hx. destruct (decide (a = 1048616)) as [->|]; [reflexivity|].
    destruct (decide (a = 1049568)); [injection Hx as <-; by apply elem_of_nil in Hin|].
    cbn [sample_fs inodes] in Hx. rewrite lookup_singleton_ne in Hx by congruence. discriminate Hx.
  - exists s', bs2. split; [exact E'|]. split; [|exact Hc].
    change (Some (new_dir etc 493 2) = Some x) in Hx. injection Hx as <-.
    apply (Hw full_blocks bs2); [apply frees_null|].
    apply (frees_block full_blocks [mk_blk 1048576 896 false] (mk_blk 1049528 896 false) [mk_blk 1050480 2136 true]);
      [reflexivity|reflexivity|].
    split; [intros n t [= <- <-] _; reflexivity|intros q r [= <- <-] Hf; discriminate Hf].
Defined.
