(* ===== verification/MountSpec.v ===== *)
(** * Mounting and unmounting

    The table of mounts as a list of path and root: each call's result and effect on
    it, and what the mounts are good for.  Path resolution reads [vfs_root] only,
    which a mount at the root directory sets and nothing resets. *)
From S2P Require Import Prelude Mem PageAlloc Pmm Kheap KmallocSpec Fs FsSpec.

Section Mounts.
Context {A : Type}.
Implicit Types s : fs A.

Inductive mount_op : Type := Mount (path : option (list Z)) (root : Z) | Unmount (path : list Z).

Definition mount_step (op : mount_op) s : Z * fs A :=
  match op with Mount p r => vfs_mount p r s | Unmount p => vfs_unmount p s end.
Fixpoint mount_run (ops : list mount_op) s : list Z * fs A :=
  match ops with
  | [] => ([], s)
  | op :: ops' => let '(r, s1) := mount_step op s in let '(rs, s2) := mount_run ops' s1 in (r :: rs, s2)
  end.

(** [s'] is [s] but for the mounts and the root. *)
Definition only_mounts s s' : Prop := s' = fs_with_mounts (vfs_root s') (mount_table s') s.

Lemma only_mounts_refl s : only_mounts s s.
Proof. by destruct s. Qed.

Lemma only_mounts_trans s1 s2 s3 : only_mounts s1 s2 → only_mounts s2 s3 → only_mounts s1 s3.
Proof.
  unfold only_mounts. intros H1 H2. transitivity (fs_with_mounts (vfs_root s3) (mount_table s3) s2); [exact H2|].
  rewrite H1. done.
Qed.

(** ** Unmounting takes the first entry of the path *)

Lemma remove_mount_spec path (t : list (list Z * Z)) :
  match remove_mount path t with
  | None => path ∉ t.*1
  | Some t' => ∃ t1 r t2, t = t1 ++ (path, r) :: t2 ∧ t' = t1 ++ t2 ∧ path ∉ t1.*1
  end.
Proof.
  induction t as [|[q r] t IH]; cbn [remove_mount fmap list_fmap fst]; [by apply not_elem_of_nil|].
  destruct (bool_decide_reflect (q = path)) as [->|Hne].
  { exists [], r, t. split_and!; [done|done|apply not_elem_of_nil]. }
  destruct (remove_mount path t) as [t'|].
  - destruct IH as (t1 & r1 & t2 & -> & -> & Hn). exists ((q, r) :: t1), r1, t2. split_and!; [done|done|].
    cbn [fmap list_fmap fst]. by intros [->|?]%elem_of_cons.
  - by intros [->|?]%elem_of_cons.
Qed.

(** What a call does to the table [t]. *)
Definition mount_effect (op : mount_op) (t : list (list Z * Z)) (r : Z) (t' : list (list Z * Z)) : Prop :=
  match op with
  | Mount path root =>
      match path with
      | Some p => if bool_decide (root = 0) then r = - EINVAL ∧ t' = t
                  else if bool_decide (length t < 32)%nat
                  then r = 0 ∧ t' = t ++ [(clip 4095 p, root)]
                  else r = - ENOSPC ∧ t' = t
      | None => r = - EINVAL ∧ t' = t
      end
  | Unmount path =>
      (r = - ENOENT ∧ t' = t ∧ path ∉ t.*1) ∨
      (r = 0 ∧ ∃ t1 root t2, t = t1 ++ (path, root) :: t2 ∧ t' = t1 ++ t2 ∧ path ∉ t1.*1)
  end.

(** The calls that set [vfs_root]. *)
Definition sets_root (op : mount_op) (r : Z) : option Z :=
  match op with Mount (Some p) root => if bool_decide (p = [SLASH] ∧ r = 0) then Some root else None | _ => None end.

Lemma mount_step_spec op s :
  ∃ r s', mount_step op s = (r, s') ∧ only_mounts s s' ∧ mount_effect op (mount_table s) r (mount_table s') ∧
    vfs_root s' = default (vfs_root s) (sets_root op r).
Proof.
  destruct op as [[p|] root|path]; cbn [mount_step mount_effect sets_root].
  - unfold vfs_mount. destruct (Z.eqb_spec root 0) as [->|Hr].
    { eexists _, _. split; [reflexivity|]. rewrite bool_decide_eq_true_2 by done. rewrite bool_decide_eq_false_2 by (intros [_ E]; discriminate E).
      split_and!; try done. apply only_mounts_refl. }
    rewrite (bool_decide_eq_false_2 (root = 0)) by done.
    destruct (Z.leb_spec MAX_MOUNTS (Z.of_nat (length (mount_table s)))) as [Hm|Hm]; unfold MAX_MOUNTS in Hm.
    { eexists _, _. split; [reflexivity|]. rewrite !bool_decide_eq_false_2 by (lia || (intros [_ E]; discriminate E)).
      split_and!; try done. apply only_mounts_refl. }
    eexists _, _. split; [reflexivity|]. rewrite (bool_decide_eq_true_2 (_ < _)%nat) by lia.
    split; [done|]. split; [done|]. cbn [fs_with_mounts vfs_root]. destruct (decide (p = [SLASH])) as [->|Hp].
    + by rewrite !bool_decide_eq_true_2.
    + rewrite !bool_decide_eq_false_2; [done|by intros []|done].
  - eexists _, _. split_and!; try done. apply only_mounts_refl.
  - unfold vfs_unmount. pose proof (remove_mount_spec path (mount_table s)) as Hs.
    destruct (remove_mount path (mount_table s)) as [t'|].
    + eexists _, _. split_and!; try done. right. done.
    + eexists _, _. split_and!; try done; [apply only_mounts_refl|by left].
Qed.

(** ** Whole runs *)

(** The effects of a run, one call after another. *)
Fixpoint mount_trace (ops : list mount_op) (rs : list Z) (t : list (list Z * Z)) (t' : list (list Z * Z)) : Prop :=
  match ops, rs with
  | [], [] => t' = t
  | op :: ops', r :: rs' => ∃ t1, mount_effect op t r t1 ∧ mount_trace ops' rs' t1 t'
  | _, _ => False
  end.

(** The root after it: the last successful mount at the root directory. *)
Fixpoint root_after (ops : list mount_op) (rs : list Z) (root : Z) : Z :=
  match ops, rs with op :: ops', r :: rs' => root_after ops' rs' (default root (sets_root op r)) | _, _ => root end.

Lemma mount_run_spec ops s :
  ∃ rs s', mount_run ops s = (rs, s') ∧ only_mounts s s' ∧ mount_trace ops rs (mount_table s) (mount_table s') ∧
    vfs_root s' = root_after ops rs (vfs_root s).
Proof.
  revert s. induction ops as [|op ops IH]; intros s; cbn [mount_run].
  { exists [], s. split_and!; try done. apply only_mounts_refl. }
  destruct (mount_step_spec op s) as (r & s1 & -> & Ho & He & Hr). destruct (IH s1) as (rs & s' & -> & Ho' & Ht & Hr').
  exists (r :: rs), s'. split_and!; [done|by eapply only_mounts_trans|by exists (mount_table s1)|].
  cbn [root_after]. by rewrite <- Hr.
Qed.

Lemma find_child_mounts children name i r t s :
  find_child children name i (fs_with_mounts r t s) = find_child children name i s.
Proof.
  revert i. induction children as [|c children IH]; intros i; [done|]. cbn [find_child].
  change (inode_at c (fs_with_mounts r t s)) with (inode_at c s). destruct (inode_at c s); [|done..].
  cbn [mbind outcome_bind]. by rewrite IH.
Qed.

Lemma resolve_loop_mounts fuel node tok r t s :
  resolve_loop fuel node tok (fs_with_mounts r t s) = resolve_loop fuel node tok s.
Proof.
  revert node tok. induction fuel as [|fuel IH]; intros node tok; [done|]. cbn [resolve_loop].
  destruct tok as [[|c tok]|]; [done| |done]. destruct (split_slash (c :: tok)) as [name rest].
  unfold tmpfs_finddir. change (inode_at node (fs_with_mounts r t s)) with (inode_at node s).
  destruct (inode_at node s); [|done..]. cbn [mbind outcome_bind]. rewrite find_child_mounts.
  destruct (negb _); [done|]. destruct (find_child _ name 0 s) as [o| | |]; [|done..]. cbn [mbind outcome_bind].
  destruct (_ =? 0); [done|apply IH].
Qed.

Lemma resolve_mounts path t s :
  vfs_resolve_path path (fs_with_mounts (vfs_root s) t s) = vfs_resolve_path path s.
Proof.
  unfold vfs_resolve_path. cbn [fs_with_mounts vfs_root]. destruct path as [p|]; [|done].
  repeat (case_match; [done|]). apply resolve_loop_mounts.
Qed.

(** (Property) Mounting and unmounting.  Over every sequence of calls, each returns the code
    its case asks for: -EINVAL without a path or a root, -ENOSPC with 32 mounts,
    -ENOENT for a path that is not mounted; a mount appends one entry, with the first
    4095 bytes of the path, and an unmount removes the oldest entry of its path and
    keeps the order of the others.  Nothing else changes but the root, which is the
    one last mounted at the root directory: unmounting does not reset it. *)
Theorem mounts_refine_table (ops : list mount_op) s :
  ∃ rs s', mount_run ops s = (rs, s') ∧ only_mounts s s' ∧ mount_trace ops rs (mount_table s) (mount_table s') ∧
    vfs_root s' = root_after ops rs (vfs_root s).
Proof. apply mount_run_spec. Qed.

(** (Property) No path leads into a mounted file system: as long as nothing is mounted at
    the root directory, every path resolves after any sequence of mounts and unmounts
    to what it resolved to before. *)
Theorem mounts_never_followed (ops : list mount_op) s (path : option (list Z))
    (Hops : ∀ root, Mount (Some [SLASH]) root ∉ ops) :
  vfs_resolve_path path (mount_run ops s).2 = vfs_resolve_path path s.
Proof.
  destruct (mount_run_spec ops s) as (rs & s' & -> & Ho & _ & Hr). cbn [snd].
  assert (∀ r, root_after ops rs r = r) as Hroot.
  { clear -Hops. revert rs. induction ops as [|op ops IH]; intros [|r0 rs] r; try done. cbn [root_after].
    assert (sets_root op r0 = None) as ->.
    { destruct op as [[p|] root|]; [|done..]. cbn. case_bool_decide as E; [|done]. destruct E as [-> _].
      exfalso. apply (Hops root). by left. }
    apply IH. intros root Hin. apply (Hops root). by right. }
  rewrite Hroot in Hr. unfold only_mounts in Ho. rewrite Ho, Hr. apply resolve_mounts.
Qed.

End Mounts.

(** A file system with the directory [mnt] (address 8) in the root (4096), and another
    root directory at 8192 mounted on it and unmounted twice. *)
Definition mount_sample : fs pmm :=
  let dir n i l := mk_inode n VFS_DIRECTORY 493 i 0 true 0 0 0 l in
  mk_fs sample_heap (<[4096 := dir [116; 109; 112; 102; 115] 1 [4608]]> (<[4608 := dir (codes "mnt") 2 []]>
    (<[8192 := dir [116; 109; 112; 102; 115] 3 []]> ∅))) 4 4096 [([SLASH], 4096)] [].
Definition mnt : list Z := codes "/mnt".

Example mount_sample_results :
  (mount_run [Mount (Some mnt) 8192; Mount (Some mnt) 4096; Mount None 8192; Unmount mnt; Unmount [SLASH]; Unmount [SLASH]]
     mount_sample).1 = [0; 0; - EINVAL; 0; 0; - ENOENT] ∧
  mount_table (mount_run [Mount (Some mnt) 8192; Mount (Some mnt) 4096; Unmount mnt] mount_sample).2 =
    [([SLASH], 4096); (mnt, 4096)].
Proof. split; vm_compute; reflexivity. Qed.

Lemma mounts_never_followed_witness :
  vfs_resolve_path (Some mnt) (mount_run [Mount (Some mnt) 8192] mount_sample).2 = Ok 4608.
Proof.
  transitivity (vfs_resolve_path (Some mnt) mount_sample); [|vm_compute; reflexivity].
  apply (mounts_never_followed [Mount (Some mnt) 8192]). intros root [H|H%elem_of_nil]%elem_of_cons; [discriminate H|exact H].
Defined.

(** The root that was unmounted is still the root. *)
Example unmounted_root_stays :
  vfs_resolve_path (Some mnt) (mount_run [Unmount [SLASH]] mount_sample).2 = Ok 4608.
Proof. vm_compute. reflexivity. Qed.
