(* ===== verification/Keyboard.v ===== *)
(** * drivers/keyboard/keyboard.c: the PS/2 keyboard

    [keyboard_irq_handler] takes the byte [inb(KBD_DATA_PORT)] returns.  The
    module [Spec] is what the driver promises: a decoder of scan codes in front
    of a queue of at most 255 events; every interleaving of interrupts and polls
    refines it. *)
From S2P Require Import Prelude.

Definition KBD_BUFFER_SIZE : Z := 256.
Definition KEY_CTRL : Z := 29.
Definition KEY_LSHIFT : Z := 42.
Definition KEY_RSHIFT : Z := 54.
Definition KEY_ALT : Z := 56.
Definition KEY_CAPS : Z := 58.

Definition scancode_normal : list Z :=
  [0; 27] ++ codes "1234567890-=" ++ [8; 9] ++ codes "qwertyuiop[]" ++ [10; 0] ++
  codes "asdfghjkl;'`" ++ [0] ++ codes "\zxcvbnm,./" ++ [0; 42; 0; 32] ++ replicate 70 0.

Definition scancode_shift : list Z :=
  [0; 27] ++ codes "!@#$%^&*()_+" ++ [8; 9] ++ codes "QWERTYUIOP{}" ++ [10; 0] ++
  codes "ASDFGHJKL:" ++ [34; 126; 0] ++ codes "|ZXCVBNM<>?" ++ [0; 42; 0; 32] ++ replicate 70 0.

Record key_event : Type := mk_key_event {
  ev_scancode : Z;
  ev_ascii : Z;
  ev_pressed : bool;
  ev_shift : bool;
  ev_ctrl : bool;
  ev_alt : bool;
  ev_extended : bool;
}.
#[export] Instance key_event_inhabited : Inhabited key_event :=
  populate (mk_key_event 0 0 false false false false false).

Record modifiers : Type := mk_modifiers {
  shift_pressed : bool;
  ctrl_pressed : bool;
  alt_pressed : bool;
  caps_lock : bool;
  extended_pending : bool;
}.

Record kbd : Type := mk_kbd {
  kbd_buffer : list key_event;
  kbd_head : Z;
  kbd_tail : Z;
  kbd_mods : modifiers;
}.

Definition kbd_static : kbd :=
  mk_kbd (replicate 256 inhabitant) 0 0 (mk_modifiers false false false false false).

Definition set_mods (m : modifiers) (k : kbd) : kbd :=
  mk_kbd (kbd_buffer k) (kbd_head k) (kbd_tail k) m.

(** "Buffer the event". *)
Definition kbd_push (event : key_event) (k : kbd) : kbd :=
  let next_tail := (kbd_tail k +₃₂ 1) mod KBD_BUFFER_SIZE in
  if next_tail =? kbd_head k then k
  else mk_kbd (<[Z.to_nat (kbd_tail k) := event]> (kbd_buffer k)) (kbd_head k) next_tail (kbd_mods k).

Definition keyboard_irq_handler (data : Z) (k : kbd) : kbd :=
  let '(mk_modifiers shift ctrl alt caps ext) := kbd_mods k in
  if data =? 224 then set_mods (mk_modifiers shift ctrl alt caps true) k
  else
    let extended := ext in
    let released := negb (Z.land data 128 =? 0) in
    let scancode := Z.land data 127 in
    let k := set_mods (mk_modifiers shift ctrl alt caps false) k in
    if negb extended && ((scancode =? KEY_LSHIFT) || (scancode =? KEY_RSHIFT))
    then set_mods (mk_modifiers (negb released) ctrl alt caps false) k
    else if negb extended && (scancode =? KEY_CTRL)
    then set_mods (mk_modifiers shift (negb released) alt caps false) k
    else if negb extended && (scancode =? KEY_ALT)
    then set_mods (mk_modifiers shift ctrl (negb released) caps false) k
    else if negb extended && (scancode =? KEY_CAPS) && negb released
    then set_mods (mk_modifiers shift ctrl alt (negb caps) false) k
    else if released then k
    else
      let use_shift := xorb shift caps in
      let ascii :=
        if negb extended && (scancode <? 128)
        then (if use_shift then scancode_shift else scancode_normal) !!! Z.to_nat scancode
        else 0 in
      kbd_push (mk_key_event scancode ascii (negb released) shift ctrl alt extended) k.

Definition keyboard_poll (k : kbd) : option key_event * kbd :=
  if kbd_head k =? kbd_tail k then (None, k)
  else (Some (kbd_buffer k !!! Z.to_nat (kbd_head k)),
        mk_kbd (kbd_buffer k) ((kbd_head k +₃₂ 1) mod KBD_BUFFER_SIZE) (kbd_tail k) (kbd_mods k)).

(** The loop of [keyboard_getchar] up to the first [hlt] on an empty buffer,
    where it waits for an interrupt ([None]). *)
Fixpoint keyboard_getchar (fuel : nat) (k : kbd) : outcome (option Z * kbd) :=
  match fuel with
  | O => Diverge
  | S fuel' =>
      match keyboard_poll k with
      | (None, k) => Ok (None, k)
      | (Some ev, k) =>
          if (ev_ascii ev =? 0) || ev_extended ev then keyboard_getchar fuel' k
          else Ok (Some (ev_ascii ev), k)
      end
  end.

(** ** The specification: a decoder and a bounded queue *)
Module Spec.
Record state : Type := mk_state { mods : modifiers; queue : list key_event }.

(** What one scan code does to the modifiers, and the event it produces. *)
Definition decode (data : Z) (m : modifiers) : modifiers * option key_event :=
  let base := mk_modifiers (shift_pressed m) (ctrl_pressed m) (alt_pressed m) (caps_lock m) false in
  if data =? 224 then
    (mk_modifiers (shift_pressed m) (ctrl_pressed m) (alt_pressed m) (caps_lock m) true, None)
  else
    let down := data <? 128 in
    let key := data mod 128 in
    if extended_pending m then
      (base, if down then Some (mk_key_event key 0 true (shift_pressed m) (ctrl_pressed m)
                                  (alt_pressed m) true) else None)
    else if (key =? 42) || (key =? 54) then
      (mk_modifiers down (ctrl_pressed m) (alt_pressed m) (caps_lock m) false, None)
    else if key =? 29 then
      (mk_modifiers (shift_pressed m) down (alt_pressed m) (caps_lock m) false, None)
    else if key =? 56 then
      (mk_modifiers (shift_pressed m) (ctrl_pressed m) down (caps_lock m) false, None)
    else if negb down then (base, None)
    else if key =? 58 then
      (mk_modifiers (shift_pressed m) (ctrl_pressed m) (alt_pressed m) (negb (caps_lock m)) false, None)
    else
      (base, Some (mk_key_event key
         ((if xorb (shift_pressed m) (caps_lock m) then scancode_shift else scancode_normal)
            !!! Z.to_nat key)
         true (shift_pressed m) (ctrl_pressed m) (alt_pressed m) false)).

Definition irq (data : Z) (s : state) : state :=
  let '(m, e) := decode data (mods s) in
  mk_state m (match e with
    | Some ev => if (length (queue s) <? 255)%nat then queue s ++ [ev] else queue s
    | None => queue s
    end).

Definition poll (s : state) : option key_event * state :=
  match queue s with
  | [] => (None, s)
  | e :: q => (Some e, mk_state (mods s) q)
  end.
End Spec.

(** Steps of the driver: an interrupt with a data byte, or a poll. *)
Inductive kbd_op : Type :=
  | Irq (data : Z)
  | Poll.

Definition kbd_step (op : kbd_op) (k : kbd) : option key_event * kbd :=
  match op with Irq d => (None, keyboard_irq_handler d k) | Poll => keyboard_poll k end.
Definition spec_step (op : kbd_op) (s : Spec.state) : option key_event * Spec.state :=
  match op with Irq d => (None, Spec.irq d s) | Poll => Spec.poll s end.

(** The results of a sequence of steps, and the final state. *)
Fixpoint kbd_run (ops : list kbd_op) (k : kbd) : list (option key_event) * kbd :=
  match ops with
  | [] => ([], k)
  | op :: ops' => let '(r, k) := kbd_step op k in let '(rs, k) := kbd_run ops' k in (r :: rs, k)
  end.
Fixpoint spec_run (ops : list kbd_op) (s : Spec.state) : list (option key_event) * Spec.state :=
  match ops with
  | [] => ([], s)
  | op :: ops' => let '(r, s) := spec_step op s in let '(rs, s) := spec_run ops' s in (r :: rs, s)
  end.

(** ** The refinement *)

Record kbd_inv (k : kbd) : Prop := mk_kbd_inv {
  kb_len : length (kbd_buffer k) = 256%nat;
  kb_head : 0 ≤ kbd_head k < 256;
  kb_tail : 0 ≤ kbd_tail k < 256;
}.

Definition kbd_used (k : kbd) : Z := (kbd_tail k - kbd_head k) mod 256.
Definition kbd_queue (k : kbd) : list key_event :=
  (fun i => kbd_buffer k !!! Z.to_nat ((kbd_head k + Z.of_nat i) mod 256)) <$>
    seq 0 (Z.to_nat (kbd_used k)).
Definition kbd_abs (k : kbd) : Spec.state := Spec.mk_state (kbd_mods k) (kbd_queue k).

Lemma kbd_queue_length k : length (kbd_queue k) = Z.to_nat (kbd_used k).
Proof. unfold kbd_queue. by rewrite length_fmap, length_seq. Qed.

Lemma wrap32_mod256 x : 0 ≤ x < 256 → (x +₃₂ 1) mod KBD_BUFFER_SIZE = (x + 1) mod 256.
Proof. intros Hx. unfold KBD_BUFFER_SIZE. by rewrite wrap32_small by lia. Qed.

Lemma kbd_push_spec ev k :
  kbd_inv k →
  kbd_inv (kbd_push ev k) ∧ kbd_mods (kbd_push ev k) = kbd_mods k ∧
  kbd_queue (kbd_push ev k) =
    (if (length (kbd_queue k) <? 255)%nat then kbd_queue k ++ [ev] else kbd_queue k).
Proof.
  intros [Hl Hh Ht]. unfold kbd_push. rewrite wrap32_mod256 by done. rewrite kbd_queue_length.
  destruct (Z.eqb_spec ((kbd_tail k + 1) mod 256) (kbd_head k)) as [He|He].
  - split_and!; [by split|done|]. destruct (Nat.ltb_spec (Z.to_nat (kbd_used k)) 255); [|done].
    unfold kbd_used in *. exfalso. Z.div_mod_to_equations; lia.
  - assert (kbd_used k < 255) as Hu.
    { unfold kbd_used. Z.div_mod_to_equations; lia. }
    assert (0 ≤ kbd_used k) as Hu0 by (unfold kbd_used; Z.div_mod_to_equations; lia).
    destruct (Nat.ltb_spec (Z.to_nat (kbd_used k)) 255); [|lia].
    split_and!; [split; cbn; [by rewrite length_insert|done|Z.div_mod_to_equations; lia]|done|].
    unfold kbd_queue at 1. cbn [kbd_buffer kbd_head kbd_tail].
    assert (kbd_used (mk_kbd (<[Z.to_nat (kbd_tail k) := ev]> (kbd_buffer k)) (kbd_head k)
      ((kbd_tail k + 1) mod 256) (kbd_mods k)) = kbd_used k + 1) as ->.
    { unfold kbd_used in *. cbn. Z.div_mod_to_equations; lia. }
    rewrite Z2Nat.inj_add by lia. change (Z.to_nat 1) with 1%nat.
    rewrite seq_app, fmap_app. cbn. f_equal.
    + unfold kbd_queue. apply list_fmap_ext. intros j i [-> Hi]%lookup_seq.
      rewrite list_lookup_total_insert_ne; [done|].
      unfold kbd_used in *. intros Heq. apply Z2Nat.inj in Heq; Z.div_mod_to_equations; lia.
    + f_equal. replace (Z.to_nat ((kbd_head k + Z.of_nat (Z.to_nat (kbd_used k))) mod 256))
        with (Z.to_nat (kbd_tail k)).
      * rewrite list_lookup_total_insert_eq; [done|lia].
      * unfold kbd_used in *. f_equal. Z.div_mod_to_equations; lia.
Qed.

Lemma set_mods_spec m k :
  kbd_inv k → kbd_inv (set_mods m k) ∧ kbd_queue (set_mods m k) = kbd_queue k.
Proof. intros [? ? ?]. split; [by split|done]. Qed.

Lemma land_127 x : 0 ≤ x < 256 → Z.land x 127 = x mod 128.
Proof. intros Hx. change 127 with (Z.ones 7). by rewrite Z.land_ones by lia. Qed.

Lemma land_128 x : 0 ≤ x < 256 → negb (Z.land x 128 =? 0) = negb (x <? 128).
Proof.
  intros Hx. change 128 with (BIT 7) at 1. rewrite land_bit by lia.
  rewrite Z.testbit_odd, Z.shiftr_div_pow2 by lia. change (2 ^ 7) with 128.
  destruct (Z.ltb_spec x 128).
  - by rewrite Z.div_small by lia.
  - replace (x / 128) with 1 by (Z.div_mod_to_equations; lia). done.
Qed.

Lemma kbd_irq_refines d k :
  0 ≤ d < 256 → kbd_inv k →
  kbd_inv (keyboard_irq_handler d k) ∧
  kbd_abs (keyboard_irq_handler d k) = Spec.irq d (kbd_abs k).
Proof.
  intros Hd Hk. unfold keyboard_irq_handler, Spec.irq, Spec.decode, kbd_abs.
  cbn [Spec.mods Spec.queue]. rewrite land_127, land_128, negb_involutive by done.
  destruct (kbd_mods k) as [sh ct al ca ex] eqn:Em. cbn [shift_pressed ctrl_pressed alt_pressed caps_lock extended_pending].
  assert (∀ m, kbd_inv (set_mods m k) ∧
    Spec.mk_state m (kbd_queue (set_mods m k)) = Spec.mk_state m (kbd_queue k)) as Hset.
  { intros m. destruct (set_mods_spec m k Hk) as [? ->]. done. }
  assert (∀ m ev, kbd_inv (kbd_push ev (set_mods m k)) ∧
    Spec.mk_state (kbd_mods (kbd_push ev (set_mods m k))) (kbd_queue (kbd_push ev (set_mods m k))) =
    Spec.mk_state m (if (length (kbd_queue k) <? 255)%nat then kbd_queue k ++ [ev] else kbd_queue k)) as Hpush.
  { intros m ev. destruct (set_mods_spec m k Hk) as [Hi Hq].
    destruct (kbd_push_spec ev _ Hi) as (? & -> & ->). by rewrite Hq. }
  assert (d mod 128 < 128) as Hlt by (Z.div_mod_to_equations; lia).
  apply Z.ltb_lt in Hlt. rewrite Hlt. unfold KEY_LSHIFT, KEY_RSHIFT, KEY_CTRL, KEY_ALT, KEY_CAPS.
  destruct (d =? 224); [apply Hset|].
  destruct ex; cbn [negb andb]; [destruct (d <? 128); cbn [negb]; [apply Hpush|apply Hset]|].
  destruct ((d mod 128 =? 42) || (d mod 128 =? 54)); [apply Hset|].
  destruct (d mod 128 =? 29); [apply Hset|]. destruct (d mod 128 =? 56); [apply Hset|].
  destruct (d <? 128); cbn [negb]; rewrite ?andb_true_r, ?andb_false_r; [|apply Hset].
  destruct (d mod 128 =? 58); [apply Hset|apply Hpush].
Qed.

Lemma kbd_poll_refines k :
  kbd_inv k →
  kbd_inv (keyboard_poll k).2 ∧
  ((keyboard_poll k).1, kbd_abs (keyboard_poll k).2) = Spec.poll (kbd_abs k).
Proof.
  intros [Hl Hh Ht]. unfold keyboard_poll, Spec.poll, kbd_abs. cbn [Spec.mods Spec.queue].
  destruct (Z.eqb_spec (kbd_head k) (kbd_tail k)) as [He|He].
  - split; [by split|]. assert (kbd_queue k = []) as Hq
      by (unfold kbd_queue, kbd_used; by rewrite He, Z.sub_diag).
    cbn [fst snd]. by rewrite Hq.
  - rewrite wrap32_mod256 by done. cbn [fst snd].
    split; [split; cbn; [done|Z.div_mod_to_equations; lia|done]|].
    assert (Z.to_nat (kbd_used k) = S (Z.to_nat (kbd_used k - 1))) as Hu.
    { unfold kbd_used. Z.div_mod_to_equations; lia. }
    unfold kbd_queue at 2. rewrite Hu. cbn [seq fmap list_fmap]. rewrite Z.add_0_r.
    rewrite (Z.mod_small (kbd_head k)) by lia. f_equal. f_equal.
    unfold kbd_queue. cbn [kbd_buffer kbd_head kbd_tail].
    assert (kbd_used (mk_kbd (kbd_buffer k) ((kbd_head k + 1) mod 256) (kbd_tail k) (kbd_mods k)) =
      kbd_used k - 1) as ->.
    { unfold kbd_used in *. cbn. Z.div_mod_to_equations; lia. }
    rewrite <- fmap_S_seq, <- list_fmap_compose. apply list_fmap_ext. intros j i _. cbn.
    rewrite Zplus_mod_idemp_l. do 3 f_equal. lia.
Qed.

Definition op_ok (op : kbd_op) : Prop := match op with Irq d => 0 ≤ d < 256 | Poll => True end.

Lemma kbd_run_spec ops k :
  Forall op_ok ops → kbd_inv k →
  kbd_inv (kbd_run ops k).2 ∧
  ((kbd_run ops k).1, kbd_abs (kbd_run ops k).2) = spec_run ops (kbd_abs k).
Proof.
  intros Hops. revert k. induction Hops as [|op ops Hop Hops IH]; intros k Hk; [done|].
  cbn [kbd_run spec_run].
  assert (kbd_inv (kbd_step op k).2 ∧
    ((kbd_step op k).1, kbd_abs (kbd_step op k).2) = spec_step op (kbd_abs k)) as [Hi Hs].
  { destruct op as [d|]; cbn [kbd_step spec_step fst snd].
    - destruct (kbd_irq_refines d k Hop Hk) as [? ->]. done.
    - by apply kbd_poll_refines. }
  rewrite <- Hs. destruct (kbd_step op k) as [r k1]. cbn [fst snd] in *.
  destruct (IH k1 Hi) as [Hi2 Hs2]. rewrite <- Hs2.
  destruct (kbd_run ops k1) as [rs k2]. done.
Qed.

(** (C25) The keyboard driver refines its specification: over every
    interleaving of interrupts and polls from the boot state, the polls return
    exactly what a decoder in front of a first-in first-out queue of at most 255
    events returns, each key-down of a character or extended key once and in
    order, with the modifiers in force when it was pressed; a full queue drops
    the newest event; the ring indices stay below 256. *)
Theorem keyboard_refines_queue (ops : list kbd_op) (Hops : Forall op_ok ops) :
  kbd_inv (kbd_run ops kbd_static).2 ∧
  (kbd_run ops kbd_static).1 =
    (spec_run ops (Spec.mk_state (mk_modifiers false false false false false) [])).1 ∧
  kbd_abs (kbd_run ops kbd_static).2 =
    (spec_run ops (Spec.mk_state (mk_modifiers false false false false false) [])).2.
Proof.
  destruct (kbd_run_spec ops kbd_static Hops ltac:(split; [done|cbn; lia..])) as [Hi Hs].
  change (kbd_abs kbd_static) with (Spec.mk_state (mk_modifiers false false false false false) []) in Hs.
  rewrite <- Hs. done.
Qed.

(** Shift down, [a] down and up, shift up, [a] down, an arrow key. *)
Definition typing : list kbd_op := [Irq 42; Irq 30; Irq 158; Irq 170; Irq 30; Irq 224; Irq 72; Poll; Poll; Poll; Poll].
Lemma keyboard_refines_queue_witness :
  Forall op_ok typing ∧
  map (option_map ev_ascii) (kbd_run typing kbd_static).1 =
    [None; None; None; None; None; None; None; Some 65; Some 97; Some 0; None].
Proof.
  assert (Forall op_ok typing) as Hok by (repeat constructor; cbn; lia).
  split; [exact Hok|].
  destruct (keyboard_refines_queue typing Hok) as (_ & E & _). rewrite E.
  vm_compute. reflexivity.
Defined.

(** Caps lock also shifts the digit keys: caps lock, then [1], reads as [!]. *)
Example caps_lock_shifts_digits :
  map (option_map ev_ascii) (kbd_run [Irq 58; Irq 2; Poll] kbd_static).1 = [None; None; Some 33].
Proof. vm_compute. reflexivity. Qed.
