(* ===== verification/Driver.v ===== *)
(** * drivers/driver.c: the driver registry

    Drivers are nodes of a singly linked list threaded through the [next] field
    of [driver_t].  [dlist] says which list the registry holds; registering and
    unregistering act on that list, and the lookups search it.  A [probe] function
    is given by the value it returns ([None] for NULL). *)
From S2P Require Import Prelude.

Definition DRIVER_DISPLAY : Z := 3.
Definition DRIVER_INPUT : Z := 4.
Definition DRIVER_UNLOADED : Z := 0.
Definition DRIVER_RUNNING : Z := 2.
Definition DRIVER_ERROR : Z := 3.

Record driver : Type := mk_driver {
  d_name : list Z;
  d_type : Z;
  d_state : Z;
  d_probe : option Z;
  d_next : Z;
}.
Definition set_d_next (n : Z) (x : driver) : driver :=
  mk_driver (d_name x) (d_type x) (d_state x) (d_probe x) n.
Definition set_d_state (st : Z) (x : driver) : driver :=
  mk_driver (d_name x) (d_type x) st (d_probe x) (d_next x).

Record registry : Type := mk_registry {
  drivers : gmap Z driver;
  driver_list_head : Z;
}.

Definition driver_at (r : registry) (d : Z) : outcome driver :=
  match drivers r !! d with Some x => Ok x | None => Undef "not a driver" end.

Definition put_driver (d : Z) (x : driver) (r : registry) : registry :=
  mk_registry (<[d := x]> (drivers r)) (driver_list_head r).

Definition driver_register (drv : Z) (r : registry) : outcome registry :=
  if drv =? 0 then Ok r
  else
    x ← driver_at r drv;
    Ok (mk_registry (<[drv := set_d_next (driver_list_head r) x]> (drivers r)) drv).

(** [pp] is the address of the head ([None]) or of the [next] field of a node. *)
Definition read_pp (r : registry) (pp : option Z) : outcome Z :=
  match pp with
  | None => Ok (driver_list_head r)
  | Some d => x ← driver_at r d; Ok (d_next x)
  end.
Definition write_pp (v : Z) (pp : option Z) (r : registry) : outcome registry :=
  match pp with
  | None => Ok (mk_registry (drivers r) v)
  | Some d => x ← driver_at r d; Ok (put_driver d (set_d_next v x) r)
  end.

Fixpoint unregister_loop (fuel : nat) (drv : Z) (pp : option Z) (r : registry) : outcome registry :=
  match fuel with
  | O => Diverge
  | S fuel' =>
      cur ← read_pp r pp;
      if cur =? 0 then Ok r
      else if cur =? drv then x ← driver_at r drv; write_pp (d_next x) pp r
      else unregister_loop fuel' drv (Some cur) r
  end.
Definition driver_unregister (fuel : nat) (drv : Z) (r : registry) : outcome registry :=
  unregister_loop fuel drv None r.

Fixpoint find_loop (fuel : nat) (name : list Z) (d : Z) (r : registry) : outcome Z :=
  match fuel with
  | O => Diverge
  | S fuel' =>
      if d =? 0 then Ok 0
      else
        x ← driver_at r d;
        if bool_decide (d_name x = name) then Ok d else find_loop fuel' name (d_next x) r
  end.
Definition driver_find (fuel : nat) (name : list Z) (r : registry) : outcome Z :=
  find_loop fuel name (driver_list_head r) r.

Fixpoint type_loop (fuel : nat) (type index count d : Z) (r : registry) : outcome Z :=
  match fuel with
  | O => Diverge
  | S fuel' =>
      if d =? 0 then Ok 0
      else
        x ← driver_at r d;
        if d_type x =? type then
          if count =? index then Ok d
          else type_loop fuel' type index (count +₃₂ 1) (d_next x) r
        else type_loop fuel' type index count (d_next x) r
  end.
Definition driver_find_by_type (fuel : nat) (type index : Z) (r : registry) : outcome Z :=
  type_loop fuel type index 0 (driver_list_head r) r.

Fixpoint probe_loop (fuel : nat) (d ok fail : Z) (r : registry) : outcome (Z * Z * registry) :=
  match fuel with
  | O => Diverge
  | S fuel' =>
      if d =? 0 then Ok (ok, fail, r)
      else
        x ← driver_at r d;
        match d_probe x with
        | Some ret =>
            if ret =? 0
            then probe_loop fuel' (d_next x) (ok + 1) fail (put_driver d (set_d_state DRIVER_RUNNING x) r)
            else probe_loop fuel' (d_next x) ok (fail + 1) (put_driver d (set_d_state DRIVER_ERROR x) r)
        | None =>
            probe_loop fuel' (d_next x) (ok + 1) fail (put_driver d (set_d_state DRIVER_RUNNING x) r)
        end
  end.
Definition drivers_probe_all (fuel : nat) (r : registry) : outcome (Z * Z * registry) :=
  probe_loop fuel (driver_list_head r) 0 0 r.

(** ** The list the registry holds *)

Fixpoint dlist (m : gmap Z driver) (h : Z) (l : list Z) : Prop :=
  match l with
  | [] => h = 0
  | p :: l' => h = p ∧ p ≠ 0 ∧ ∃ x, m !! p = Some x ∧ dlist m (d_next x) l'
  end.

Record registered (r : registry) (l : list Z) : Prop := mk_registered {
  rg_list : dlist (drivers r) (driver_list_head r) l;
  rg_nodup : NoDup l;
}.

Definition static_info (x : driver) : list Z * Z * option Z := (d_name x, d_type x, d_probe x).
(** [r'] has the same drivers as [r]; only links and states may differ. *)
Definition same_drivers (r r' : registry) : Prop :=
  ∀ p, static_info <$> drivers r' !! p = static_info <$> drivers r !! p.

Lemma dlist_insert m h l p x : p ∉ l → dlist m h l → dlist (<[p := x]> m) h l.
Proof.
  revert h. induction l as [|q l IH]; intros h Hp; cbn; [done|].
  apply not_elem_of_cons in Hp as [Hq Hp]. intros (-> & Hz & y & Hy & Hl).
  split_and!; [done|done|]. exists y. rewrite lookup_insert_ne by done. auto.
Qed.

Lemma driver_register_spec drv r l :
  registered r l → drv ≠ 0 → drv ∉ l → is_Some (drivers r !! drv) →
  ∃ r', driver_register drv r = Ok r' ∧ registered r' (drv :: l) ∧ same_drivers r r'.
Proof.
  intros [Hl Hnd] Hz Hni [x Hx]. unfold driver_register, driver_at. rewrite Hx.
  destruct (Z.eqb_spec drv 0); [done|]. eexists. split; [reflexivity|]. split; [split|].
  - cbn. split_and!; [done|done|]. eexists. rewrite lookup_insert_eq. split; [done|].
    by apply dlist_insert.
  - by constructor.
  - intros p. cbn. destruct (decide (drv = p)) as [<-|]; [|by rewrite lookup_insert_ne].
    by rewrite lookup_insert_eq, Hx.
Qed.

(** The segment of the list that starts where [pp] points. *)
Definition pp_list (r : registry) (pp : option Z) (l : list Z) : Prop :=
  match pp with
  | None => dlist (drivers r) (driver_list_head r) l
  | Some d => ∃ x, drivers r !! d = Some x ∧ ¬ (d ∈ l) ∧ dlist (drivers r) (d_next x) l
  end.

Definition remove (drv : Z) (l : list Z) : list Z := filter (fun p => p ≠ drv) l.

Lemma remove_notin drv l : drv ∉ l → remove drv l = l.
Proof.
  intros H. unfold remove. induction l as [|p l IH]; [done|].
  apply not_elem_of_cons in H as [Hp H]. by rewrite filter_cons_True, IH by done.
Qed.

Lemma pp_list_read r pp l : pp_list r pp l → read_pp r pp = Ok (hd 0 l).
Proof.
  destruct pp as [d|]; cbn.
  - intros (x & Hx & _ & Hl). unfold driver_at. rewrite Hx. cbn. f_equal. destruct l; [exact Hl|exact (proj1 Hl)].
  - intros Hl. f_equal. destruct l; [exact Hl|exact (proj1 Hl)].
Qed.

(** The nodes from [pp] on: [drv] is taken out, what is before is kept. *)
Lemma unregister_loop_spec fuel drv pp r l :
  pp_list r pp l → NoDup l → (length l < fuel)%nat →
  ∃ r', unregister_loop fuel drv pp r = Ok r' ∧ pp_list r' pp (remove drv l) ∧
    same_drivers r r' ∧ (∀ q, Some q ≠ pp → q ∉ l → drivers r' !! q = drivers r !! q) ∧
    (pp ≠ None → driver_list_head r' = driver_list_head r).
Proof.
  revert fuel pp. induction l as [|p l IH]; intros fuel pp Hl Hnd Hf; (destruct fuel as [|fuel]; [lia|]);
    cbn [unregister_loop]; rewrite (pp_list_read _ _ _ Hl); cbn [mbind outcome_bind hd].
  - exists r. rewrite Z.eqb_refl. split_and!; done.
  - apply NoDup_cons in Hnd as [Hni Hnd].
    assert (p ≠ 0 ∧ ∃ x, drivers r !! p = Some x ∧ dlist (drivers r) (d_next x) l) as (Hz & x & Hx & Hl').
    { destruct pp as [d|]; [destruct Hl as (y & _ & _ & _ & Hz & Hp)|destruct Hl as (_ & Hz & Hp)]; by split. }
    destruct (Z.eqb_spec p 0); [done|]. destruct (Z.eqb_spec p drv) as [<-|Hne].
    + unfold driver_at at 1. rewrite Hx. cbn [mbind outcome_bind].
      unfold remove. rewrite filter_cons_False by tauto. fold (remove p l). rewrite remove_notin by done.
      destruct pp as [d|]; cbn [write_pp].
      * destruct Hl as (y & Hy & Hdl & _). apply not_elem_of_cons in Hdl as [Hdp Hdl].
        unfold driver_at. rewrite Hy. cbn [mbind outcome_bind]. eexists. split; [reflexivity|].
        split_and!.
        -- cbn. eexists. rewrite lookup_insert_eq. split_and!; [done|done|]. by apply dlist_insert.
        -- intros q. cbn. destruct (decide (d = q)) as [<-|]; [|by rewrite lookup_insert_ne].
           by rewrite lookup_insert_eq, Hy.
        -- intros q Hq _. cbn. apply lookup_insert_ne. congruence.
        -- done.
      * eexists. split; [reflexivity|]. split_and!; done.
    + unfold remove. rewrite filter_cons_True by done. fold (remove drv l).
      destruct (IH fuel (Some p)) as (r' & E & Hpl & Hsame & Hframe & Hhead);
        [by exists x|done|cbn in Hf; lia|].
      exists r'. split; [done|].
      assert (pp_list r' pp (p :: remove drv l)) as Hpp.
      { destruct Hpl as (x' & Hx' & Hni' & Hl2).
        assert (dlist (drivers r') p (p :: remove drv l)) as Hd by (cbn; eauto).
        destruct pp as [d|]; cbn.
        - destruct Hl as (y & Hy & Hdl & Hd0). exists y. apply not_elem_of_cons in Hdl as [Hdp Hdl].
          rewrite Hframe by (congruence || done). split; [done|]. split.
          + intros [->|Hin]%elem_of_cons; [done|]. by apply list_elem_of_filter in Hin as [_ ?].
          + destruct Hd0 as [-> _]. exact Hd.
        - rewrite Hhead by done. destruct Hl as [-> _]. exact Hd. }
      split_and!; [exact Hpp|done| |by intros; apply Hhead].
      intros q Hq [Hqp Hql]%not_elem_of_cons. apply Hframe; [congruence|done].
Qed.

Lemma driver_unregister_spec fuel drv r l :
  registered r l → (length l < fuel)%nat →
  ∃ r', driver_unregister fuel drv r = Ok r' ∧ registered r' (remove drv l) ∧ same_drivers r r'.
Proof.
  intros [Hl Hnd] Hf. destruct (unregister_loop_spec fuel drv None r l Hl Hnd Hf) as (r' & E & Hpl & Hs & _).
  exists r'. split_and!; [done| |done]. split; [done|]. by apply NoDup_filter.
Qed.

(** The first driver of the list with a property. *)
Definition first_with (r : registry) (P : driver → bool) (l : list Z) : Z :=
  default 0 (snd <$> list_find (fun p => from_option P false (drivers r !! p) = true) l).

Lemma first_with_cons r P p l x :
  drivers r !! p = Some x →
  first_with r P (p :: l) = if P x then p else first_with r P l.
Proof.
  intros Hx. unfold first_with. cbn. rewrite Hx. cbn. destruct (P x) eqn:E; cbn.
  - by rewrite decide_True.
  - rewrite decide_False by done. by destruct (list_find _ l) as [[]|].
Qed.

Lemma find_loop_spec fuel name r h l :
  dlist (drivers r) h l → (length l < fuel)%nat →
  find_loop fuel name h r = Ok (first_with r (fun x => bool_decide (d_name x = name)) l).
Proof.
  revert fuel h. induction l as [|p l IH]; intros fuel h Hl Hf; (destruct fuel as [|fuel]; [lia|]); cbn [find_loop].
  - by rewrite Hl.
  - destruct Hl as (-> & Hz & x & Hx & Hl). destruct (Z.eqb_spec p 0); [done|].
    unfold driver_at. rewrite Hx. cbn [mbind outcome_bind]. rewrite (first_with_cons _ _ _ _ x) by done.
    case_bool_decide; [done|]. apply IH; [done|cbn in Hf; lia].
Qed.

(** ** The registry as a list *)

Inductive reg_op : Type := Register (drv : Z) | Unregister (drv : Z).

Definition reg_step (fuel : nat) (op : reg_op) (r : registry) : outcome registry :=
  match op with
  | Register d => driver_register d r
  | Unregister d => driver_unregister fuel d r
  end.
Fixpoint reg_run (fuel : nat) (ops : list reg_op) (r : registry) : outcome registry :=
  match ops with [] => Ok r | op :: ops' => r ← reg_step fuel op r; reg_run fuel ops' r end.

(** The specification: a stack of distinct drivers. *)
Definition spec_reg (op : reg_op) (l : list Z) : list Z :=
  match op with Register d => d :: l | Unregister d => remove d l end.
Definition reg_final (ops : list reg_op) (l : list Z) : list Z :=
  fold_left (fun l op => spec_reg op l) ops l.

(** No driver is registered while it is already registered. *)
Fixpoint reg_allowed (m : gmap Z driver) (ops : list reg_op) (l : list Z) : Prop :=
  match ops with
  | [] => True
  | op :: ops' =>
      (match op with Register d => d ≠ 0 ∧ ¬ (d ∈ l) ∧ is_Some (m !! d) | Unregister _ => True end) ∧
      reg_allowed m ops' (spec_reg op l)
  end.

Lemma reg_run_spec fuel ops r l :
  registered r l → reg_allowed (drivers r) ops l → (length l + length ops < fuel)%nat →
  ∃ r', reg_run fuel ops r = Ok r' ∧ registered r' (reg_final ops l) ∧ same_drivers r r'.
Proof.
  revert r l. induction ops as [|op ops IH]; intros r l Hr Ha Hf; cbn.
  { exists r. by split_and!. }
  destruct Ha as [Hop Ha]. cbn in Hf.
  assert (∃ r1, reg_step fuel op r = Ok r1 ∧ registered r1 (spec_reg op l) ∧ same_drivers r r1)
    as (r1 & E & Hr1 & Hs1).
  { destruct op as [d|d]; cbn; [destruct Hop as (? & ? & ?); by apply driver_register_spec|].
    apply driver_unregister_spec; [done|lia]. }
  rewrite E. cbn.
  assert (length (spec_reg op l) ≤ S (length l))%nat as Hlen.
  { destruct op; cbn; [done|]. unfold remove. pose proof (length_filter (fun p => p ≠ drv) l). lia. }
  destruct (IH r1 (spec_reg op l) Hr1) as (r' & E' & Hr' & Hs'); [|lia|].
  - clear -Ha Hs1. revert Ha. generalize (spec_reg op l). induction ops as [|o ops IH]; intros l' Ha; [done|].
    destruct Ha as [Ho Ha]. split; [|by apply IH]. destruct o as [d|d]; [|done].
    destruct Ho as (? & ? & [x Hx]). split_and!; [done|done|].
    pose proof (Hs1 d) as Hd. rewrite Hx in Hd. destruct (drivers r1 !! d); [by eexists|done].
  - exists r'. split_and!; [done|done|]. intros p. by rewrite Hs', Hs1.
Qed.

(** (C34) The driver registry refines a list of drivers: from an empty
    registry, over any sequence of registrations of drivers that are not already
    registered and of unregistrations of any drivers, every call returns, the
    linked list holds exactly the registered drivers, the most recent first, no
    driver's own data changes, and looking up a name returns the most recently
    registered driver of that name or NULL. *)
Theorem driver_registry_refines (fuel : nat) (ops : list reg_op) (r : registry) (name : list Z)
    (Hempty : driver_list_head r = 0) (Hops : reg_allowed (drivers r) ops [])
    (Hfuel : (length ops < fuel)%nat) :
  ∃ r', reg_run fuel ops r = Ok r' ∧ registered r' (reg_final ops []) ∧ same_drivers r r' ∧
    driver_find (S (length (reg_final ops []))) name r' =
      Ok (first_with r' (fun x => bool_decide (d_name x = name)) (reg_final ops [])).
Proof.
  destruct (reg_run_spec fuel ops r []) as (r' & E & Hr' & Hs'); [by split; [|constructor]|done|cbn; lia|].
  exists r'. split_and!; [done..|]. unfold driver_find. apply find_loop_spec; [apply Hr'|lia].
Qed.

(** Two drivers, "kb" and "fb". *)
Definition two_drivers : registry :=
  mk_registry {[4096 := mk_driver [107; 98] 4 0 (Some 0) 0; 8192 := mk_driver [102; 98] 3 0 (Some 0) 0]} 0.

Lemma driver_registry_refines_witness :
  reg_allowed (drivers two_drivers) [Register 4096; Register 8192; Unregister 8192] [] ∧
  ∃ r', reg_run 8 [Register 4096; Register 8192; Unregister 8192] two_drivers = Ok r' ∧
    registered r' [4096] ∧ driver_find 2 [107; 98] r' = Ok 4096.
Proof.
  assert (reg_allowed (drivers two_drivers) [Register 4096; Register 8192; Unregister 8192] []) as Ha.
  { cbn. split_and!; try done; try (by eexists).
    - apply not_elem_of_nil.
    - intros Hin%list_elem_of_singleton. discriminate Hin. }
  split; [exact Ha|].
  destruct (driver_registry_refines 8 _ two_drivers [107; 98] eq_refl Ha ltac:(cbn; lia))
    as (r' & E & Hr & _ & _).
  exists r'. split_and!; [exact E|exact Hr|].
  vm_compute in E. injection E as <-. vm_compute. reflexivity.
Defined.

(** Registering a driver twice makes it its own successor: looking up a name
    it does not have never returns, however long it runs. *)
Lemma double_register_loops fuel r x name :
  drivers r !! 4096 = Some x → d_name x ≠ name → driver_list_head r = 4096 →
  ∃ r', driver_register 4096 r = Ok r' ∧ driver_find fuel name r' = Diverge.
Proof.
  intros Hx Hn Hh. unfold driver_register, driver_at. rewrite Hx. cbn. rewrite Hh.
  eexists. split; [reflexivity|]. unfold driver_find. cbn [driver_list_head].
  induction fuel as [|fuel IH]; [done|]. cbn [find_loop Z.eqb]. unfold driver_at. cbn [drivers].
  rewrite lookup_insert_eq. cbn [mbind outcome_bind]. rewrite bool_decide_false by done. exact IH.
Qed.
