(* ===== verification/Printk.v ===== *)
(** * lib/printk.c: formatted output

    [vprintk] returns the bytes it sends to [serial_write_char].  A format is
    the list of its non-zero bytes; reading it past its end gives the terminating
    zero, and moving past the zero is undefined.  A variadic argument is an
    integer or pointer ([AInt]) or a string ([AStr]).

    The specification of a format is a list of [piece]s: literal bytes and
    conversions with their arguments. *)
From S2P Require Import Prelude.

Definition PERCENT : Z := 37.

Definition hex_digit (upper : bool) (d : Z) : Z :=
  if d <? 10 then 48 + d else (if upper then 55 else 87) + d.

(** [print_str]; NULL prints as "(null)". *)
Definition print_str (s : option (list Z)) : list Z :=
  default [40; 110; 117; 108; 108; 41] s.

(** The division loop of [print_uint]; [room] is what is left of [tmp[65]], and
    [tmp] is in output order. *)
Fixpoint digit_loop (room : nat) (val base : Z) (upper : bool) (tmp : list Z) : outcome (list Z) :=
  if val =? 0 then Ok tmp
  else match room with
  | O => Undef "print_uint: tmp overflows"
  | S room' => digit_loop room' (val / base) base upper (hex_digit upper (val mod base) :: tmp)
  end.

Definition print_uint (val base width pad : Z) (upper : bool) : outcome (list Z) :=
  if (base <? 2) || (16 <? base) then Ok [63]
  else
    tmp ← (if val =? 0 then Ok [48] else digit_loop 65 val base upper []);
    Ok (replicate (Z.to_nat (width - Z.of_nat (length tmp))) pad ++ tmp).

(** [val] is an [int64_t]; negating the least one overflows. *)
Definition print_int (val width pad : Z) : outcome (list Z) :=
  if val <? 0 then
    if val =? -9223372036854775808 then Undef "print_int: signed overflow"
    else
      let width := if 0 <? width then width - 1 else width in
      out ← print_uint (wrap64 (- val)) 10 width pad false; Ok (45 :: out)
  else print_uint (wrap64 val) 10 width pad false.

Inductive arg : Type :=
  | AInt (v : Z)
  | AStr (s : option (list Z)).

Inductive length_mod : Type := LenInt | LenLong | LenLongLong | LenSize.
Definition is_long (l : length_mod) : bool := match l with LenInt => false | _ => true end.

(** [va_arg] of an integer type, and of [const char *]. *)
Definition next_int (conv : Z → Z) (args : list arg) : outcome (Z * list arg) :=
  match args with AInt v :: args' => Ok (conv v, args') | _ => Undef "va_arg" end.
Definition next_str (args : list arg) : outcome (option (list Z) * list arg) :=
  match args with AStr s :: args' => Ok (s, args') | _ => Undef "va_arg" end.

Definition to_int (v : Z) : Z := signed32 (wrap32 v).
Definition to_long (v : Z) : Z := signed64 (wrap64 v).
Definition signed_arg (len : length_mod) : Z → Z := if is_long len then to_long else to_int.
Definition unsigned_arg (len : length_mod) : Z → Z := if is_long len then wrap64 else wrap32.

Definition parse_flag (fmt : list Z) : Z * list Z :=
  match fmt with c :: rest => if c =? 48 then (48, rest) else (32, fmt) | [] => (32, []) end.

Fixpoint parse_width (fmt : list Z) (width : Z) : outcome (Z * list Z) :=
  match fmt with
  | c :: rest =>
      if (48 <=? c) && (c <=? 57) then
        let width := width * 10 + (c - 48) in
        if 2147483647 <? width then Undef "vprintk: width overflows" else parse_width rest width
      else Ok (width, fmt)
  | [] => Ok (width, [])
  end.

Definition parse_length (fmt : list Z) : length_mod * list Z :=
  match fmt with
  | c :: rest =>
      if c =? 108 then
        match rest with
        | c' :: rest' => if c' =? 108 then (LenLongLong, rest') else (LenLong, rest)
        | [] => (LenLong, rest)
        end
      else if c =? 122 then (LenSize, rest)
      else (LenInt, fmt)
  | [] => (LenInt, [])
  end.

(** The [switch] on the conversion character. *)
Definition convert (c pad width : Z) (len : length_mod) (args : list arg) :
    outcome (list Z * list arg) :=
  if (c =? 100) || (c =? 105) then
    '(v, args) ← next_int (signed_arg len) args;
    out ← print_int v width pad; Ok (out, args)
  else if c =? 117 then
    '(v, args) ← next_int (unsigned_arg len) args;
    out ← print_uint v 10 width pad false; Ok (out, args)
  else if c =? 120 then
    '(v, args) ← next_int (unsigned_arg len) args;
    out ← print_uint v 16 width pad false; Ok (out, args)
  else if c =? 88 then
    '(v, args) ← next_int (unsigned_arg len) args;
    out ← print_uint v 16 width pad true; Ok (out, args)
  else if c =? 111 then
    '(v, args) ← next_int wrap32 args;
    out ← print_uint v 8 width pad false; Ok (out, args)
  else if c =? 98 then
    '(v, args) ← next_int wrap32 args;
    out ← print_uint v 2 width pad false; Ok (out, args)
  else if c =? 112 then
    '(v, args) ← next_int wrap64 args;
    out ← print_uint v 16 16 48 false; Ok (48 :: 120 :: out, args)
  else if c =? 99 then
    '(v, args) ← next_int wrap8 args; Ok ([v], args)
  else if c =? 115 then
    '(s, args) ← next_str args; Ok (print_str s, args)
  else if c =? PERCENT then Ok ([PERCENT], args)
  else Ok ([PERCENT; c], args).

Fixpoint vprintk_loop (fuel : nat) (fmt : list Z) (args : list arg) : outcome (list Z) :=
  match fuel with
  | O => Diverge
  | S fuel' =>
      match fmt with
      | [] => Ok []
      | c :: rest =>
          if negb (c =? PERCENT) then out ← vprintk_loop fuel' rest args; Ok (c :: out)
          else
            let '(pad, fmt) := parse_flag rest in
            '(width, fmt) ← parse_width fmt 0;
            let '(len, fmt) := parse_length fmt in
            match fmt with
            | [] => Undef "vprintk: reads past the end of the format"
            | c :: rest =>
                '(out1, args) ← convert c pad width len args;
                out2 ← vprintk_loop fuel' rest args;
                Ok (out1 ++ out2)
            end
      end
  end.
Definition vprintk (fmt : list Z) (args : list arg) : outcome (list Z) :=
  vprintk_loop (S (length fmt)) fmt args.
Definition printk : list Z → list arg → outcome (list Z) := vprintk.

(** ** Log levels and the panic banner *)

Definition log_prefixes : list string :=
  ["[EMERG]  "; "[ALERT]  "; "[CRIT]   "; "[ERROR]  "; "[WARN]   "; "[NOTICE] "; "[INFO]   "; "[DEBUG]  "]%string.
(** [pr_emerg] (level 0) to [pr_debug] (level 7). *)
Definition pr_level (level : Z) (fmt : list Z) (args : list arg) : outcome (list Z) :=
  printk (codes (log_prefixes !!! Z.to_nat level) ++ fmt) args.

Definition text_line (s : string) : list Z := codes s ++ [10].

(** What [kernel_panic] prints before it halts. *)
Definition panic_banner (msg : list Z) : outcome (list Z) :=
  o1 ← printk [10; 10] [];
  o2 ← printk (text_line "╔══════════════════════════════════════════════════════╗") [];
  o3 ← printk (text_line "║             *** HEROOS KERNEL PANIC ***              ║") [];
  o4 ← printk (text_line "╠══════════════════════════════════════════════════════╣") [];
  o5 ← printk (text_line "║ %s") [AStr (Some msg)];
  o6 ← printk (text_line "╚══════════════════════════════════════════════════════╝") [];
  o7 ← printk (text_line "System halted. Please reset your machine.") [];
  Ok (o1 ++ o2 ++ o3 ++ o4 ++ o5 ++ o6 ++ o7).

(** ** Numerals *)

Definition value (base : Z) (ds : list Z) : Z := fold_left (fun acc d => acc * base + d) ds 0.

(** [ds] are the digits of [n] without leading zeros. *)
Record numeral (base n : Z) (ds : list Z) : Prop := mk_numeral {
  nu_digits : Forall (fun d => 0 ≤ d < base) ds;
  nu_value : value base ds = n;
  nu_canonical : if n =? 0 then ds = [0] else ∃ d ds', ds = d :: ds' ∧ d ≠ 0;
}.

(** [ds] right-aligned in a field of [width]. *)
Definition padded (width pad : Z) (upper : bool) (ds : list Z) : list Z :=
  replicate (Z.to_nat (width - Z.of_nat (length ds))) pad ++ (hex_digit upper <$> ds).

Lemma digit_loop_spec room val base upper tmp :
  2 ≤ base ≤ 16 → 0 < val < 2 ^ Z.of_nat room →
  ∃ ds, digit_loop room val base upper tmp = Ok ((hex_digit upper <$> ds) ++ tmp) ∧
    Forall (fun d => 0 ≤ d < base) ds ∧ value base ds = val ∧ (∃ d ds', ds = d :: ds' ∧ d ≠ 0).
Proof.
  intros Hb. revert val tmp. induction room as [|room IH]; intros val tmp Hv.
  { change (2 ^ Z.of_nat 0) with 1 in Hv. lia. }
  cbn [digit_loop]. destruct (Z.eqb_spec val 0); [lia|].
  rewrite Nat2Z.inj_succ, Z.pow_succ_r in Hv by lia.
  pose proof (Z.mod_pos_bound val base ltac:(lia)) as Hmod.
  pose proof (Z.div_mod val base ltac:(lia)) as Hdm.
  assert (val / base < 2 ^ Z.of_nat room) as Hq.
  { apply Z.div_lt_upper_bound; [lia|].
    assert (2 * 2 ^ Z.of_nat room ≤ base * 2 ^ Z.of_nat room) by (apply Z.mul_le_mono_nonneg_r; lia).
    lia. }
  pose proof (Z.div_pos val base ltac:(lia) ltac:(lia)) as Hp.
  destruct (Z.eq_dec (val / base) 0) as [Hz|Hnz].
  - exists [val mod base]. rewrite Hz in Hdm |- *. split_and!.
    + by destruct room.
    + by constructor.
    + unfold value. cbn. lia.
    + exists (val mod base), []. split; [done|lia].
  - destruct (IH (val / base) (hex_digit upper (val mod base) :: tmp)) as (ds & E & Hf & Hval & (d & ds' & -> & Hd));
      [lia|].
    exists ((d :: ds') ++ [val mod base]). split_and!.
    + rewrite E, fmap_app, <- app_assoc. done.
    + apply Forall_app. split; [done|]. by constructor.
    + unfold value in *. rewrite fold_left_app, Hval. cbn [fold_left]. lia.
    + by exists d, (ds' ++ [val mod base]).
Qed.

Lemma digit_loop_room room val base upper tmp l :
  digit_loop room val base upper tmp = Ok l → digit_loop (S room) val base upper tmp = Ok l.
Proof.
  revert val tmp. induction room as [|room IH]; intros val tmp E.
  - cbn in E |- *. by destruct (val =? 0).
  - change (digit_loop (S (S room)) val base upper tmp) with (if val =? 0 then Ok tmp else
      digit_loop (S room) (val / base) base upper (hex_digit upper (val mod base) :: tmp)).
    change (digit_loop (S room) val base upper tmp) with (if val =? 0 then Ok tmp else
      digit_loop room (val / base) base upper (hex_digit upper (val mod base) :: tmp)) in E.
    destruct (val =? 0); [done|]. by apply IH.
Qed.

Lemma print_uint_spec val base width pad upper :
  2 ≤ base ≤ 16 → is_u64 val →
  ∃ ds, numeral base val ds ∧ print_uint val base width pad upper = Ok (padded width pad upper ds).
Proof.
  intros Hb Hval. unfold print_uint.
  destruct (Z.ltb_spec base 2); [lia|]. destruct (Z.ltb_spec 16 base); [lia|]. cbn [orb].
  destruct (Z.eqb_spec val 0) as [->|Hnz].
  - exists [0]. split; [|done]. split; [constructor; [lia|done]|done|done].
  - destruct (digit_loop_spec 64 val base upper []) as (ds & E & Hf & Hv & Hc); [done| |].
    { unfold is_u64 in Hval. change (2 ^ Z.of_nat 64) with 18446744073709551616. lia. }
    rewrite app_nil_r in E. apply digit_loop_room in E. rewrite E. cbn [mbind outcome_bind].
    exists ds. split.
    + split; [done|done|]. by destruct (Z.eqb_spec val 0).
    + unfold padded. by rewrite length_fmap.
Qed.

(** ** Pieces *)

(** The flags of a conversion: the zero flag, the digits of the width, the
    length modifier. *)
Record flags : Type := mk_flags { f_zero : bool; f_width : list Z; f_len : length_mod }.

Definition width_ok (wd : list Z) : Prop :=
  Forall (fun d => 0 ≤ d < 10) wd ∧ (∀ d, head wd = Some d → d ≠ 0) ∧ value 10 wd ≤ 2147483647.
Definition f_pad (f : flags) : Z := if f_zero f then 48 else 32.
Definition f_field (f : flags) : Z := value 10 (f_width f).

Inductive piece : Type :=
  | Lit (c : Z)
  | Signed (f : flags) (c v : Z)
  | Unsigned (f : flags) (c v : Z)
  | Pointer (f : flags) (v : Z)
  | Char (f : flags) (v : Z)
  | Str (f : flags) (s : option (list Z))
  | Percent (f : flags).

Definition len_bytes (l : length_mod) : list Z :=
  match l with LenInt => [] | LenLong => [108] | LenLongLong => [108; 108] | LenSize => [122] end.
Definition spec_bytes (f : flags) (c : Z) : list Z :=
  PERCENT :: (if f_zero f then [48] else []) ++ ((fun d => 48 + d) <$> f_width f) ++
    len_bytes (f_len f) ++ [c].

(** The bytes of the format and the arguments of a piece. *)
Definition piece_fmt (p : piece) : list Z :=
  match p with
  | Lit c => [c]
  | Signed f c _ | Unsigned f c _ => spec_bytes f c
  | Pointer f _ => spec_bytes f 112
  | Char f _ => spec_bytes f 99
  | Str f _ => spec_bytes f 115
  | Percent f => spec_bytes f PERCENT
  end.
Definition piece_args (p : piece) : list arg :=
  match p with
  | Signed _ _ v | Unsigned _ _ v | Pointer _ v | Char _ v => [AInt v]
  | Str _ s => [AStr s]
  | _ => []
  end.

(** The base, case and argument width of an unsigned conversion. *)
Definition unsigned_conv (c : Z) (len : length_mod) : option (Z * bool * bool) :=
  if c =? 117 then Some (10, false, is_long len)
  else if c =? 120 then Some (16, false, is_long len)
  else if c =? 88 then Some (16, true, is_long len)
  else if c =? 111 then Some (8, false, false)
  else if c =? 98 then Some (2, false, false)
  else None.

Definition flags_ok (f : flags) : Prop := width_ok (f_width f).

Definition piece_ok (p : piece) : Prop :=
  match p with
  | Lit c => c ≠ PERCENT
  | Signed f c v => flags_ok f ∧ (c = 100 ∨ c = 105) ∧
      if is_long (f_len f) then -9223372036854775808 < v < 9223372036854775808
      else -2147483648 ≤ v < 2147483648
  | Unsigned f c v => flags_ok f ∧
      match unsigned_conv c (f_len f) with
      | Some (_, _, long) => if long : bool then is_u64 v else is_u32 v
      | None => False
      end
  | Pointer f v => flags_ok f ∧ is_u64 v
  | Char f v => flags_ok f ∧ 0 ≤ v < 256
  | Str f _ | Percent f => flags_ok f
  end.

(** What the piece prints as. *)
Inductive renders : piece → list Z → Prop :=
  | render_lit c : renders (Lit c) [c]
  | render_pos f c v ds :
      0 ≤ v → numeral 10 v ds → renders (Signed f c v) (padded (f_field f) (f_pad f) false ds)
  | render_neg f c v ds :
      v < 0 → numeral 10 (- v) ds →
      renders (Signed f c v) (45 :: padded (f_field f - 1) (f_pad f) false ds)
  | render_unsigned f c v base upper long ds :
      unsigned_conv c (f_len f) = Some (base, upper, long) → numeral base v ds →
      renders (Unsigned f c v) (padded (f_field f) (f_pad f) upper ds)
  | render_pointer f v ds :
      numeral 16 v ds → renders (Pointer f v) ([48; 120] ++ padded 16 48 false ds)
  | render_char f v : renders (Char f v) [v]
  | render_str f s : renders (Str f s) (print_str s)
  | render_percent f : renders (Percent f) [PERCENT].

Lemma value_nonneg wd : Forall (fun d => 0 ≤ d < 10) wd → 0 ≤ value 10 wd.
Proof.
  induction wd as [|d wd IH] using rev_ind; intros H; [done|].
  apply Forall_app in H as [H1 [H2 _]%Forall_cons]. unfold value in *. rewrite fold_left_app. cbn [fold_left].
  specialize (IH H1). lia.
Qed.

Lemma parse_width_spec wd tail w :
  Forall (fun d => 0 ≤ d < 10) wd → 0 ≤ w →
  fold_left (fun acc d => acc * 10 + d) wd w ≤ 2147483647 →
  (∀ c, head tail = Some c → c < 48 ∨ 57 < c) →
  parse_width (((fun d => 48 + d) <$> wd) ++ tail) w =
    Ok (fold_left (fun acc d => acc * 10 + d) wd w, tail).
Proof.
  intros Hwd. revert w. induction Hwd as [|d wd Hd Hwd IH]; intros w Hw Hmax Ht.
  - cbn. destruct tail as [|c tail]; [done|]. cbn.
    destruct (Z.leb_spec 48 c), (Z.leb_spec c 57); cbn; try done. destruct (Ht c eq_refl); lia.
  - cbn [fmap list_fmap app parse_width fold_left] in *.
    destruct (Z.leb_spec 48 (48 + d)); [|lia]. destruct (Z.leb_spec (48 + d) 57); [|lia]. cbn [andb].
    replace (48 + d - 48) with d by lia.
    assert (w * 10 + d ≤ 2147483647) as Hle.
    { etransitivity; [|exact Hmax]. clear -Hw Hd Hwd.
      assert (0 ≤ w * 10 + d) as Hx by lia. revert Hx. generalize (w * 10 + d).
      induction Hwd as [|e wd He Hwd IH]; intros z Hz; cbn [fold_left]; [lia|].
      etransitivity; [|apply IH; lia]. lia. }
    destruct (Z.ltb_spec 2147483647 (w * 10 + d)); [lia|]. apply IH; [lia|done|done].
Qed.

Definition not_flag (c : Z) : Prop := (c < 48 ∨ 57 < c) ∧ c ≠ 108 ∧ c ≠ 122.

Lemma parse_spec f c rest :
  flags_ok f → not_flag c →
  ∃ fmt, parse_flag (tl (spec_bytes f c) ++ rest) = (f_pad f, fmt) ∧
    ∃ fmt', parse_width fmt 0 = Ok (f_field f, fmt') ∧ parse_length fmt' = (f_len f, c :: rest).
Proof.
  intros (Hd & Hh & Hmax) (Hc & Hl & Hz). unfold spec_bytes, f_pad. cbn [tl].
  exists (((fun d => 48 + d) <$> f_width f) ++ len_bytes (f_len f) ++ c :: rest).
  rewrite <- !app_assoc. split.
  - destruct (f_zero f); [done|]. cbn [app].
    destruct (f_width f) as [|d wd]; cbn.
    + destruct (f_len f); cbn; try done. destruct (Z.eqb_spec c 48); [lia|done].
    + destruct (Z.eqb_spec (48 + d) 48); [|done]. destruct (Hh d eq_refl). lia.
  - exists (len_bytes (f_len f) ++ c :: rest). split.
    + apply (parse_width_spec (f_width f)); [done|lia|done|].
      destruct (f_len f); cbn; intros c' [= <-]; lia.
    + destruct (f_len f); cbn; try done.
      * destruct (Z.eqb_spec c 108); [done|]. by destruct (Z.eqb_spec c 122).
      * by destruct (Z.eqb_spec c 108).
Qed.

Lemma print_int_spec f c v :
  -9223372036854775808 < v < 9223372036854775808 →
  ∃ out, print_int v (f_field f) (f_pad f) = Ok out ∧ renders (Signed f c v) out.
Proof.
  intros Hv. unfold print_int. destruct (Z.ltb_spec v 0).
  - destruct (Z.eqb_spec v (-9223372036854775808)); [lia|]. rewrite wrap64_small by lia.
    destruct (print_uint_spec (- v) 10 (if 0 <? f_field f then f_field f - 1 else f_field f) (f_pad f) false)
      as (ds & Hn & ->); [lia|unfold is_u64; lia|].
    eexists. split; [reflexivity|].
    assert (padded (if 0 <? f_field f then f_field f - 1 else f_field f) (f_pad f) false ds =
            padded (f_field f - 1) (f_pad f) false ds) as ->; [|by apply render_neg].
    destruct (Z.ltb_spec 0 (f_field f)); [done|]. unfold padded. f_equal. f_equal. lia.
  - rewrite wrap64_small by lia.
    destruct (print_uint_spec v 10 (f_field f) (f_pad f) false) as (ds & Hn & ->);
      [lia|unfold is_u64; lia|].
    eexists. split; [reflexivity|]. by apply render_pos.
Qed.

Lemma signed_arg_id len v :
  (if is_long len then -9223372036854775808 < v < 9223372036854775808
   else -2147483648 ≤ v < 2147483648) → signed_arg len v = v.
Proof.
  unfold signed_arg, to_long, to_int, signed64, signed32.
  destruct (is_long len); intros Hv.
  - destruct (Z.ltb_spec (wrap64 v) 9223372036854775808); word_lia.
  - destruct (Z.ltb_spec (wrap32 v) 2147483648); word_lia.
Qed.

Lemma unsigned_arg_id len v :
  (if is_long len then is_u64 v else is_u32 v) → unsigned_arg len v = v.
Proof. unfold unsigned_arg. destruct (is_long len); intros Hv; word_lia. Qed.

(** The conversion of one piece. *)
Lemma convert_spec p f c args :
  piece_ok p → piece_fmt p = spec_bytes f c →
  match p with
  | Lit _ => False
  | Signed f' c' _ | Unsigned f' c' _ => f' = f ∧ c' = c
  | Pointer f' _ => f' = f ∧ c = 112
  | Char f' _ => f' = f ∧ c = 99
  | Str f' _ => f' = f ∧ c = 115
  | Percent f' => f' = f ∧ c = PERCENT
  end →
  ∃ out, convert c (f_pad f) (f_field f) (f_len f) (piece_args p ++ args) = Ok (out, args) ∧
    renders p out.
Proof.
  intros Hp _. unfold convert.
  destruct p as [?|f' c' v|f' c' v|f' v|f' v|f' s|f']; [done|intros [-> ->]..].
  - destruct Hp as (_ & Hc & Hv).
    assert ((c =? 100) || (c =? 105) = true) as -> by (destruct Hc as [-> | ->]; done).
    cbn [piece_args app next_int mbind outcome_bind]. rewrite signed_arg_id by done.
    destruct (print_int_spec f c v) as (out & -> & Hr); [destruct (is_long (f_len f)); lia|].
    by exists out.
  - destruct Hp as (_ & Hv). cbn [piece_args app next_int].
    destruct (unsigned_conv c (f_len f)) as [[[base upper] long]|] eqn:E; [|done].
    assert (2 ≤ base ≤ 16 ∧ is_u64 v) as [Hb Hu].
    { unfold unsigned_conv in E. unfold is_u64, is_u32 in *.
      split; repeat (case_match; simplify_eq; try lia). }
    destruct (print_uint_spec v base (f_field f) (f_pad f) upper Hb Hu) as (ds & Hn & Hout).
    exists (padded (f_field f) (f_pad f) upper ds).
    split; [|by eapply render_unsigned].
    unfold unsigned_conv in E.
    destruct (Z.eqb_spec c 117) as [->|]; [|destruct (Z.eqb_spec c 120) as [->|];
      [|destruct (Z.eqb_spec c 88) as [->|]; [|destruct (Z.eqb_spec c 111) as [->|];
      [|destruct (Z.eqb_spec c 98) as [->|]; [|done]]]]]; injection E as <- <- <-; cbn [Z.eqb Pos.eqb orb];
      cbn [mbind outcome_bind]; rewrite ?unsigned_arg_id, ?wrap32_small by done; by rewrite Hout.
  - destruct Hp as (_ & Hv). cbn [piece_args app next_int Z.eqb Pos.eqb orb mbind outcome_bind].
    rewrite wrap64_small by exact Hv.
    destruct (print_uint_spec v 16 16 48 false) as (ds & Hn & ->); [lia|done|].
    eexists. split; [reflexivity|]. by apply (render_pointer f v ds).
  - destruct Hp as (_ & Hv). cbn [piece_args app next_int Z.eqb Pos.eqb orb mbind outcome_bind].
    rewrite wrap8_byte by done. eexists. split; [reflexivity|]. constructor.
  - eexists. split; [reflexivity|]. constructor.
  - eexists. split; [reflexivity|]. constructor.
Qed.

(** Every piece but a literal is a conversion. *)
Lemma piece_cases p :
  piece_ok p →
  (∃ c, p = Lit c ∧ c ≠ PERCENT) ∨
  ∃ f c, piece_fmt p = spec_bytes f c ∧ flags_ok f ∧ not_flag c ∧
    ∀ args, ∃ out, convert c (f_pad f) (f_field f) (f_len f) (piece_args p ++ args) = Ok (out, args) ∧
      renders p out.
Proof.
  intros Hp. destruct p as [c|f c v|f c v|f v|f v|f s|f]; [left; by exists c|right..].
  - exists f, c. split_and!; [done|apply Hp| |intros args; by apply (convert_spec (Signed f c v) f c args)].
    destruct Hp as (_ & [-> | ->] & _); unfold not_flag; lia.
  - exists f, c. split_and!; [done|apply Hp| |intros args; by apply (convert_spec (Unsigned f c v) f c args)].
    destruct Hp as (_ & Hp). unfold unsigned_conv in Hp. unfold not_flag.
    destruct (Z.eqb_spec c 117); [lia|]. destruct (Z.eqb_spec c 120); [lia|]. destruct (Z.eqb_spec c 88); [lia|].
    destruct (Z.eqb_spec c 111); [lia|]. destruct (Z.eqb_spec c 98); [lia|done].
  - exists f, 112. split_and!; [done|apply Hp|unfold not_flag; lia|intros args; by apply (convert_spec (Pointer f v))].
  - exists f, 99. split_and!; [done|apply Hp|unfold not_flag; lia|intros args; by apply (convert_spec (Char f v))].
  - exists f, 115. split_and!; [done|apply Hp|unfold not_flag; lia|intros args; by apply (convert_spec (Str f s))].
  - exists f, PERCENT. split_and!; [done|apply Hp|unfold not_flag, PERCENT; lia|intros args; by apply (convert_spec (Percent f))].
Qed.

Lemma spec_bytes_cons f c : spec_bytes f c = PERCENT :: tl (spec_bytes f c).
Proof. done. Qed.

Lemma vprintk_loop_spec ps fuel :
  Forall piece_ok ps → (length ps < fuel)%nat →
  ∃ outs, Forall2 renders ps outs ∧
    vprintk_loop fuel (concat (piece_fmt <$> ps)) (concat (piece_args <$> ps)) = Ok (concat outs).
Proof.
  intros Hps. revert fuel. induction Hps as [|p ps Hp Hps IH]; intros fuel Hf;
    (destruct fuel as [|fuel]; [lia|]).
  { exists []. by split. }
  destruct (IH fuel ltac:(cbn in Hf; lia)) as (outs & Hr & E).
  destruct (piece_cases p Hp) as [(c & -> & Hc)|(f & c & Hfmt & Hfl & Hnf & Hconv)].
  - exists ([c] :: outs). split; [constructor; [constructor|done]|].
    cbn. destruct (Z.eqb_spec c PERCENT); [done|]. cbn. rewrite E. done.
  - destruct (Hconv (concat (piece_args <$> ps))) as (out & Hout & Hren).
    exists (out :: outs). split; [by constructor|].
    cbn [fmap list_fmap concat]. rewrite Hfmt, spec_bytes_cons. cbn [app vprintk_loop].
    rewrite Z.eqb_refl. cbn [negb].
    destruct (parse_spec f c (concat (piece_fmt <$> ps)) Hfl Hnf) as (fmt & -> & fmt' & -> & Hlen).
    cbn [mbind outcome_bind]. rewrite Hlen, Hout. cbn [mbind outcome_bind]. by rewrite E.
Qed.

Lemma vprintk_spec (ps : list piece) (Hps : Forall piece_ok ps) :
  ∃ outs, Forall2 renders ps outs ∧
    vprintk (concat (piece_fmt <$> ps)) (concat (piece_args <$> ps)) = Ok (concat outs).
Proof.
  apply vprintk_loop_spec; [done|].
  assert (length ps ≤ length (concat (piece_fmt <$> ps)))%nat; [|lia].
  clear Hps. induction ps as [|p ps IH]; cbn; [lia|]. rewrite length_app.
  assert (1 ≤ length (piece_fmt p))%nat by (destruct p; cbn; lia). lia.
Qed.

(** (C27) [vprintk] of a format made of literal bytes and supported
    conversions with matching arguments prints the concatenation of what each
    piece stands for: the literal byte, the decimal, hexadecimal, octal or binary
    numeral of the argument without superfluous zeros, padded on the left to the
    field width, the pointer as [0x] and at least 16 digits, the character, the
    string or [(null)]; the minus sign comes before the padding. *)
Theorem vprintk_pieces (ps : list piece) (Hps : Forall piece_ok ps) :
  ∃ outs, Forall2 renders ps outs ∧
    vprintk (concat (piece_fmt <$> ps)) (concat (piece_args <$> ps)) = Ok (concat outs).
Proof. by apply vprintk_spec. Qed.

(** "a%05d %lx" with -42 and 48879: "a-0042 beef". *)
Definition sample_pieces : list piece :=
  [Lit 97; Signed (mk_flags true [5] LenInt) 100 (-42); Lit 32;
   Unsigned (mk_flags false [] LenLong) 120 48879].

Lemma vprintk_pieces_witness :
  Forall piece_ok sample_pieces ∧
  ∃ outs, Forall2 renders sample_pieces outs ∧
    Ok (concat outs) = vprintk [97; 37; 48; 53; 100; 32; 37; 108; 120] [AInt (-42); AInt 48879] ∧
    concat outs = [97; 45; 48; 48; 52; 50; 32; 98; 101; 101; 102].
Proof.
  assert (Forall piece_ok sample_pieces) as Hok.
  { repeat constructor; cbn; try lia; try done; intros d [= <-]; done. }
  split; [exact Hok|]. destruct (vprintk_pieces sample_pieces Hok) as (outs & Hr & E).
  exists outs. split; [exact Hr|]. split; [symmetry; exact E|].
  apply Ok_inj. rewrite <- E. vm_compute. reflexivity.
Defined.

(** A format that ends in a single [%] is read past its terminator; the left
    alignment flag is not known, so that [%-4u] prints as text and does not take
    its argument. *)
Example vprintk_trailing_percent : is_ok (vprintk [97; 37] []) = false.
Proof. reflexivity. Qed.
Example vprintk_left_align : vprintk [37; 45; 52; 117] [AInt 7] = Ok [37; 45; 52; 117].
Proof. vm_compute. reflexivity. Qed.

(** ** Log lines and the panic banner *)

Lemma renders_literal l outs : Forall2 renders (Lit <$> l) outs → concat outs = l.
Proof.
  revert outs. induction l as [|c l IH]; intros outs H; inversion H as [|? ? ? ? Hc Hl]; subst; [done|].
  inversion Hc; subst. cbn. f_equal. by apply IH.
Qed.

Lemma literal_format l ps : concat (piece_fmt <$> ((Lit <$> l) ++ ps)) = l ++ concat (piece_fmt <$> ps).
Proof. induction l as [|c l IH]; [done|]. cbn. by f_equal. Qed.
Lemma literal_args l ps : concat (piece_args <$> ((Lit <$> l) ++ ps)) = concat (piece_args <$> ps).
Proof. induction l as [|c l IH]; [done|]. exact IH. Qed.

Lemma log_prefix_plain level : 0 ≤ level < 8 → Forall (fun c => c ≠ PERCENT) (codes (log_prefixes !!! Z.to_nat level)).
Proof.
  intros Hl. assert (Z.to_nat level < 8)%nat as Hk by lia. revert Hk. generalize (Z.to_nat level). intros k Hk.
  do 8 (destruct k as [|k]; [apply (bool_decide_unpack _); vm_compute; exact I|]). lia.
Qed.

Lemma pr_level_spec (level : Z) (ps : list piece) (Hl : 0 ≤ level < 8) (Hps : Forall piece_ok ps) :
  ∃ outs, Forall2 renders ps outs ∧
    pr_level level (concat (piece_fmt <$> ps)) (concat (piece_args <$> ps)) =
      Ok (codes (log_prefixes !!! Z.to_nat level) ++ concat outs).
Proof.
  pose proof (log_prefix_plain level Hl) as Hp. set (l := codes _) in *.
  destruct (vprintk_spec ((Lit <$> l) ++ ps)) as (outs & Ho & E).
  { apply Forall_app. split; [|done]. apply Forall_fmap. eapply Forall_impl; [exact Hp|done]. }
  apply Forall2_app_inv_l in Ho as (o1 & o2 & H1 & H2 & ->).
  exists o2. split; [done|]. unfold pr_level, printk. fold l. rewrite literal_format, literal_args in E.
  by rewrite E, concat_app, (renders_literal l o1).
Qed.

(** (Property) A log line of any level is its prefix and then the rendered format. *)
Theorem pr_level_prints (level : Z) (ps : list piece) (Hl : 0 ≤ level < 8) (Hps : Forall piece_ok ps) :
  ∃ outs, Forall2 renders ps outs ∧
    pr_level level (concat (piece_fmt <$> ps)) (concat (piece_args <$> ps)) =
      Ok (codes (log_prefixes !!! Z.to_nat level) ++ concat outs).
Proof. by apply pr_level_spec. Qed.

(** What the reader of the serial line sees of a panic. *)
Lemma panic_banner_prints (msg : list Z) :
  panic_banner msg = Ok ([10; 10] ++ text_line "╔══════════════════════════════════════════════════════╗" ++
    text_line "║             *** HEROOS KERNEL PANIC ***              ║" ++
    text_line "╠══════════════════════════════════════════════════════╣" ++
    (codes "║ " ++ msg ++ [10]) ++
    text_line "╚══════════════════════════════════════════════════════╝" ++
    text_line "System halted. Please reset your machine.").
Proof. reflexivity. Qed.
