(* ===== verification/Rtc.v ===== *)
(** * arch/x86_64/drivers/pit.c: interval timer and real-time clock

    The timer is its divisor and its tick counter.  The CMOS clock is a device:
    [dev t r] is the byte its data port gives to the [t]-th read, with register
    [r] selected; reads are counted in program order. *)
From S2P Require Import Prelude.

(** ** PIT *)

Definition PIT_BASE_FREQ : Z := 1193180.
Definition PIT_TARGET_HZ : Z := 1000.
Definition PIT_COMMAND : Z := 67.
Definition PIT_CHANNEL0 : Z := 64.

(** The [outb] calls of [pit_init], as (port, value). *)
Definition pit_divisor (frequency_hz : Z) : Z :=
  wrap32 (PIT_BASE_FREQ / (if frequency_hz =? 0 then PIT_TARGET_HZ else frequency_hz)).
Definition pit_init (frequency_hz : Z) : list (Z * Z) :=
  let divisor := pit_divisor frequency_hz in
  [(PIT_COMMAND, 52); (PIT_CHANNEL0, wrap8 (Z.land divisor 255));
   (PIT_CHANNEL0, wrap8 (Z.land (Z.shiftr divisor 8) 255))].

Definition pit_tick (pit_ticks : Z) : Z := pit_ticks +₆₄ 1.

(** [pit_sleep_ms] waits for interrupts until the counter reaches the target:
    the number of ticks it sees before it returns. *)
Fixpoint pit_sleep_loop (fuel : nat) (target ticks : Z) (seen : nat) : outcome nat :=
  match fuel with
  | O => Diverge
  | S fuel' => if ticks <? target then pit_sleep_loop fuel' target (pit_tick ticks) (S seen) else Ok seen
  end.
Definition pit_sleep_ms (fuel : nat) (ms ticks : Z) : outcome nat :=
  pit_sleep_loop fuel (ticks +₆₄ ms) ticks 0.

(** ** RTC *)

Record rtc_time : Type := mk_rtc_time {
  seconds : Z; minutes : Z; hours : Z; day : Z; month : Z; year : Z; weekday : Z;
}.

Definition bcd_to_bin (bcd : Z) : Z := wrap8 (Z.shiftr bcd 4 * 10 + Z.land bcd 15).

(** [rtc_read] after the registers have been read. *)
Definition rtc_decode (status_b sec min hour wday mday mon year_raw century : Z) : rtc_time :=
  let binary_mode := negb (Z.land status_b 4 =? 0) in
  let hour24 := negb (Z.land status_b 2 =? 0) in
  let conv := if binary_mode then id else bcd_to_bin in
  let hour := if binary_mode then hour else bcd_to_bin (Z.land hour 127) in
  let year_raw := conv year_raw in
  let century := conv century in
  let hour :=
    if negb hour24 && negb (Z.land hour 128 =? 0) then wrap8 (Z.land hour 127 + 12) else hour in
  mk_rtc_time (conv sec) (conv min) hour (conv mday) (conv mon)
    (wrap16 ((if century =? 0 then 2000 else century * 100) + year_raw)) (conv wday).

Definition days_before_month : list Z := [0; 31; 59; 90; 120; 151; 181; 212; 243; 273; 304; 334].

Definition is_leap (y : Z) : bool :=
  (y mod 4 =? 0) && (negb (y mod 100 =? 0) || (y mod 400 =? 0)).

(** [rtc_timestamp] after [rtc_read]: the days up to the first of the month, and
    the whole stamp. *)
Definition stamp_days (t_year t_month : Z) : Z :=
  let y := wrap32 (t_year - 1970) in
  let leap_days := (y / 4 -₃₂ y / 100) +₃₂ y / 400 in
  let days := (y *₃₂ 365) +₃₂ leap_days in
  let days :=
    if (0 <? t_month) && (t_month <=? 12)
    then days +₃₂ (days_before_month !!! Z.to_nat (t_month - 1)) else days in
  if is_leap t_year && (2 <? t_month) then days +₃₂ 1 else days.

Definition rtc_stamp (t : rtc_time) : Z :=
  let days := stamp_days (year t) (month t) +₃₂ (day t - 1) in
  (days *₆₄ 86400) +₆₄ hours t * 3600 +₆₄ minutes t * 60 +₆₄ seconds t.

Section Device.
Context (dev : nat → Z → Z).

Definition rtc_read_reg (reg : Z) : kop nat Z := fun t => Ok (dev t reg, S t).

Definition rtc_updating : kop nat bool := fun t => Ok (negb (Z.land (dev t 10) 128 =? 0), S t).

(** [while (rtc_updating());] *)
Fixpoint rtc_wait (fuel : nat) : kop nat unit :=
  match fuel with
  | O => fun _ => Diverge
  | S fuel' => busy ← rtc_updating; if busy : bool then rtc_wait fuel' else mret tt
  end.

Definition rtc_read (fuel : nat) : kop nat rtc_time :=
  _ ← rtc_wait fuel;
  status_b ← rtc_read_reg 11;
  sec ← rtc_read_reg 0;
  min ← rtc_read_reg 2;
  hour ← rtc_read_reg 4;
  wday ← rtc_read_reg 6;
  mday ← rtc_read_reg 7;
  mon ← rtc_read_reg 8;
  year_raw ← rtc_read_reg 9;
  century ← rtc_read_reg 50;
  mret (rtc_decode status_b sec min hour wday mday mon year_raw century).

Definition rtc_timestamp (fuel : nat) : kop nat Z :=
  t ← rtc_read fuel; mret (rtc_stamp t).
End Device.

(** ** The calendar *)

Definition days_in_month (y m : Z) : Z :=
  if m =? 2 then (if is_leap y then 29 else 28)
  else if (m =? 4) || (m =? 6) || (m =? 9) || (m =? 11) then 30 else 31.

(** Days of the [n] months before month [n + 1]. *)
Fixpoint months_days (y : Z) (n : nat) : Z :=
  match n with O => 0 | S n' => months_days y n' + days_in_month y (Z.of_nat n) end.

(** Days from 1 January 1970 to the first of month [m] of year [y], and seconds
    to a date and time. *)
Definition true_days (y m : Z) : Z :=
  365 * (y - 1970) + count_if is_leap 1970 (Z.to_nat (y - 1970)) + months_days y (Z.to_nat (m - 1)).
Definition true_stamp (t : rtc_time) : Z :=
  86400 * (true_days (year t) (month t) + day t - 1) + 3600 * hours t + 60 * minutes t + seconds t.

(** The years in which the code is one day behind. *)
Definition behind (y : Z) : Z := if y mod 4 =? 1 then 1 else 0.

(** A statement on [lo, lo + n) checked by evaluation. *)
Fixpoint all_from (P : Z → bool) (lo : Z) (n : nat) : bool :=
  match n with O => true | S n' => P lo && all_from P (lo + 1) n' end.
Lemma all_from_spec P lo n x :
  all_from P lo n = true → lo ≤ x < lo + Z.of_nat n → P x = true.
Proof.
  revert lo. induction n as [|n IH]; intros lo H Hx; [lia|]. cbn in H.
  apply andb_true_iff in H as [H1 H2]. destruct (Z.eq_dec x lo) as [->|]; [done|].
  apply (IH (lo + 1)); [done|lia].
Qed.

Lemma stamp_days_true y m :
  1970 ≤ y < 2070 → 1 ≤ m ≤ 12 →
  stamp_days y m = true_days y m - behind y ∧ 0 ≤ true_days y m - behind y ≤ 40000.
Proof.
  intros Hy Hm.
  assert (all_from (fun y => all_from (fun m =>
    (stamp_days y m =? true_days y m - behind y) &&
    (0 <=? true_days y m - behind y) && (true_days y m - behind y <=? 40000)) 1 12) 1970 100 = true) as H
    by (vm_compute; reflexivity).
  pose proof (all_from_spec _ _ _ y H ltac:(lia)) as Hy'.
  pose proof (all_from_spec _ _ _ m Hy' ltac:(lia)) as Hm'. cbn beta in Hm'. lia.
Qed.

(** How the chip encodes a number below 100, by the mode bit of status B. *)
Definition bcd (n : Z) : Z := n / 10 * 16 + n mod 10.
Definition encode (status_b n : Z) : Z := if Z.land status_b 4 =? 0 then bcd n else n.

Lemma bcd_facts n : 0 ≤ n < 100 → bcd_to_bin (bcd n) = n.
Proof.
  intros Hn.
  assert (all_from (fun n => bcd_to_bin (bcd n) =? n) 0 100 = true) as H by (vm_compute; reflexivity).
  pose proof (all_from_spec _ _ _ n H ltac:(lia)) as H'. cbn beta in H'. lia.
Qed.

Lemma hour_facts n : 0 ≤ n < 24 → bcd_to_bin (Z.land (bcd n) 127) = n.
Proof.
  intros Hn.
  assert (all_from (fun n => bcd_to_bin (Z.land (bcd n) 127) =? n) 0 24 = true) as H
    by (vm_compute; reflexivity).
  pose proof (all_from_spec _ _ _ n H ltac:(lia)) as H'. cbn beta in H'. lia.
Qed.

(** A date and time the clock can show. *)
Record civil (t : rtc_time) : Prop := mk_civil {
  cv_year : 1970 ≤ year t < 2070;
  cv_month : 1 ≤ month t ≤ 12;
  cv_day : 1 ≤ day t ≤ 31;
  cv_hours : 0 ≤ hours t < 24;
  cv_minutes : 0 ≤ minutes t < 60;
  cv_seconds : 0 ≤ seconds t < 60;
  cv_weekday : 0 ≤ weekday t < 8;
}.

Lemma rtc_decode_encode sb t :
  civil t → Z.land sb 2 ≠ 0 →
  rtc_decode sb (encode sb (seconds t)) (encode sb (minutes t)) (encode sb (hours t))
    (encode sb (weekday t)) (encode sb (day t)) (encode sb (month t))
    (encode sb (year t mod 100)) (encode sb (year t / 100)) = t.
Proof.
  intros [? ? ? ? ? ? ?] Hh. unfold rtc_decode, encode.
  destruct (Z.eqb_spec (Z.land sb 2) 0); [done|]. cbn [negb andb].
  assert (19 ≤ year t / 100 ≤ 20) as Hc by (Z.div_mod_to_equations; lia).
  assert (0 ≤ year t mod 100 < 100) as Hy by (Z.div_mod_to_equations; lia).
  assert (wrap16 ((if year t / 100 =? 0 then 2000 else year t / 100 * 100) + year t mod 100) = year t) as Hw.
  { destruct (Z.eqb_spec (year t / 100) 0); [lia|]. word_lia. }
  destruct (Z.land sb 4 =? 0); cbn [negb andb id].
  - rewrite !bcd_facts, hour_facts by lia. rewrite Hw. by destruct t.
  - unfold id. rewrite Hw. by destruct t.
Qed.

(** The register the clock shows [t] in. *)
Record shows (regs : Z → Z) (t : rtc_time) : Prop := mk_shows {
  sh_mode : Z.land (regs 11) 2 ≠ 0;
  sh_regs : regs 0 = encode (regs 11) (seconds t) ∧ regs 2 = encode (regs 11) (minutes t) ∧
    regs 4 = encode (regs 11) (hours t) ∧ regs 6 = encode (regs 11) (weekday t) ∧
    regs 7 = encode (regs 11) (day t) ∧ regs 8 = encode (regs 11) (month t) ∧
    regs 9 = encode (regs 11) (year t mod 100) ∧ regs 50 = encode (regs 11) (year t / 100);
}.

(** The update flag is clear at the [k]-th poll for the first time, and the
    registers are stable from then on. *)
Record settles (dev : nat → Z → Z) (k : nat) (regs : Z → Z) : Prop := mk_settles {
  se_busy : ∀ t, (t < k)%nat → Z.land (dev t 10) 128 ≠ 0;
  se_clear : Z.land (dev k 10) 128 = 0;
  se_stable : ∀ t r, (k < t)%nat → dev t r = regs r;
}.

Lemma rtc_wait_spec dev k regs fuel t :
  settles dev k regs → (t ≤ k)%nat → (k - t < fuel)%nat →
  rtc_wait dev fuel t = Ok (tt, S k).
Proof.
  intros [Hb Hc _]. revert t. induction fuel as [|fuel IH]; intros t Ht Hf; [lia|].
  cbn [rtc_wait]. unfold mbind, kop_bind, rtc_updating.
  destruct (decide (t = k)) as [->|Hne].
  - rewrite Hc. done.
  - pose proof (Hb t ltac:(lia)) as Hbt. destruct (Z.eqb_spec (Z.land (dev t 10) 128) 0); [done|].
    cbn [negb]. apply IH; lia.
Qed.

Lemma rtc_stamp_spec t : civil t → rtc_stamp t = true_stamp t - 86400 * behind (year t).
Proof.
  intros [Hy Hm Hd Hh Hmi Hs Hw]. unfold rtc_stamp, true_stamp.
  destruct (stamp_days_true (year t) (month t) Hy Hm) as [-> Hb].
  assert (behind (year t) = 0 ∨ behind (year t) = 1) as Hbe
    by (unfold behind; destruct (_ =? _); auto).
  set (d := true_days (year t) (month t)) in *.
  rewrite (wrap32_small (d - behind (year t) + (day t - 1))) by lia.
  rewrite (wrap64_small ((d - behind (year t) + (day t - 1)) * 86400)) by lia.
  rewrite (wrap64_small (_ + hours t * 3600)) by lia.
  rewrite (wrap64_small (_ + minutes t * 60)) by lia. rewrite wrap64_small by lia. lia.
Qed.

Lemma rtc_read_spec dev k fuel regs t :
  settles dev k regs → shows regs t → civil t → (k < fuel)%nat →
  ∃ n, rtc_read dev fuel 0%nat = Ok (t, n).
Proof.
  intros Hdev [Hmode (R0 & R2 & R4 & R6 & R7 & R8 & R9 & R50)] Ht Hfuel. unfold rtc_read.
  erewrite kop_bind_step; [|apply (rtc_wait_spec _ _ _ _ _ Hdev); lia].
  unfold rtc_read_reg, mbind, kop_bind. rewrite !(se_stable _ _ _ Hdev) by lia.
  rewrite R0, R2, R4, R6, R7, R8, R9, R50, rtc_decode_encode by done. eexists. reflexivity.
Qed.

(** (C37) [rtc_timestamp] waits for the clock to finish its update and
    returns the Unix time of the date it shows, in BCD or binary mode with a
    24-hour clock, for every date from 1970 to 2069, except that it is one day
    behind in every year that follows a leap year (1973, ..., 2021, 2025, ...):
    the leap days are counted as [(year - 1970) / 4]. *)
Theorem rtc_timestamp_correct (dev : nat → Z → Z) (k fuel : nat) (regs : Z → Z) (t : rtc_time)
    (Hdev : settles dev k regs) (Hregs : shows regs t) (Ht : civil t) (Hfuel : (k < fuel)%nat) :
  ∃ n, rtc_timestamp dev fuel 0%nat =
    Ok (true_stamp t - (if year t mod 4 =? 1 then 86400 else 0), n).
Proof.
  destruct (rtc_read_spec dev k fuel regs t Hdev Hregs Ht Hfuel) as [n Hr].
  exists n. unfold rtc_timestamp. erewrite kop_bind_step by exact Hr.
  rewrite rtc_stamp_spec by done. unfold behind, mret, kop_ret.
  destruct (year t mod 4 =? 1); do 3 f_equal; lia.
Qed.

(** 1 June 2025, 12:30:45, shown in BCD after two busy polls. *)
Definition june : rtc_time := mk_rtc_time 45 30 12 1 6 2025 1.
Definition june_regs (r : Z) : Z :=
  if r =? 11 then 2 else
  bcd (if r =? 0 then 45 else if r =? 2 then 30 else if r =? 4 then 12 else if r =? 6 then 1
       else if r =? 7 then 1 else if r =? 8 then 6 else if r =? 9 then 25 else if r =? 50 then 20 else 0).
Definition june_dev (t : nat) (r : Z) : Z :=
  if (t <? 2)%nat then 128 else if (t =? 2)%nat then 0 else june_regs r.

Lemma rtc_timestamp_correct_witness :
  true_stamp june = 1748781045 ∧
  ∃ n, rtc_timestamp june_dev 5 0%nat = Ok (1748781045 - 86400, n).
Proof.
  assert (settles june_dev 2 june_regs) as Hs.
  { split.
    - intros t Ht. unfold june_dev. destruct (Nat.ltb_spec t 2); [discriminate|lia].
    - reflexivity.
    - intros t r Ht. unfold june_dev. destruct (Nat.ltb_spec t 2); [lia|].
      destruct (Nat.eqb_spec t 2); [lia|done]. }
  assert (shows june_regs june) as Hsh by (split; [discriminate|by split_and!]).
  assert (civil june) as Hc by (split; cbn; lia).
  split; [vm_compute; reflexivity|].
  exact (rtc_timestamp_correct june_dev 2 5 june_regs june Hs Hsh Hc ltac:(lia)).
Defined.

(** In BCD mode with a 12-hour clock the PM bit is masked off before it is
    tested, so that 1 PM (81h) reads as 1 AM. *)
Example rtc_pm_lost : hours (rtc_decode 0 0 0 129 0 0 0 0 32) = 1.
Proof. vm_compute. reflexivity. Qed.

(** ** Timer *)

(** [pit_sleep_ms] returns after exactly [ms] ticks when the target does not
    wrap around. *)
Lemma pit_sleep_exact fuel ms ticks :
  0 ≤ ms → 0 ≤ ticks → ticks + ms < UINT64_MOD → (Z.to_nat ms < fuel)%nat →
  pit_sleep_ms fuel ms ticks = Ok (Z.to_nat ms).
Proof.
  intros Hms Ht Hw Hf. unfold pit_sleep_ms. rewrite wrap64_small by lia.
  enough (∀ d fuel ticks seen, (d < fuel)%nat → 0 ≤ ticks → ticks + Z.of_nat d < UINT64_MOD →
    pit_sleep_loop fuel (ticks + Z.of_nat d) ticks seen = Ok (seen + d)%nat) as Hloop.
  { specialize (Hloop (Z.to_nat ms) fuel ticks 0%nat Hf Ht). rewrite Z2Nat.id in Hloop by lia.
    by apply Hloop. }
  clear. induction d as [|d IH]; intros fuel ticks seen Hf Ht Hw; (destruct fuel as [|fuel]; [lia|]); cbn [pit_sleep_loop].
  - destruct (Z.ltb_spec ticks (ticks + Z.of_nat 0)); [lia|]. by rewrite Nat.add_0_r.
  - destruct (Z.ltb_spec ticks (ticks + Z.of_nat (S d))); [|lia]. unfold pit_tick.
    rewrite wrap64_small by lia. replace (ticks + Z.of_nat (S d)) with (ticks + 1 + Z.of_nat d) by lia.
    rewrite IH by lia. f_equal. lia.
Qed.

(** The divisor of 1000 Hz, as two bytes. *)
Example pit_init_1000 : pit_init 1000 = [(67, 52); (64, 169); (64, 4)].
Proof. vm_compute. reflexivity. Qed.
