(* ===== verification/PortIO.v ===== *)
(** * Port input and output

    The [outb] and [inb] helpers that every x86 driver defines for itself.  A
    device answers a read with a byte that depends on the port and on how many
    reads came before; the log keeps all accesses in program order. *)
From S2P Require Import Prelude.

Inductive io : Type :=
  | In (port val : Z)
  | Out (port val : Z).

Record ports : Type := mk_ports {
  io_reads : nat;
  io_log : list io;     (* oldest first *)
}.

Definition outb (port val : Z) : kop ports unit := fun s =>
  Ok (tt, mk_ports (io_reads s) (io_log s ++ [Out port val])).

Section Device.
Context (dev : nat → Z → Z).

Definition inb (port : Z) : kop ports Z := fun s =>
  let v := dev (io_reads s) port in
  Ok (v, mk_ports (S (io_reads s)) (io_log s ++ [In port v])).
End Device.

(** A run that only adds to the log. *)
Definition logs (s s' : ports) (tr : list io) : Prop := io_log s' = io_log s ++ tr.

Lemma logs_trans s1 s2 s3 a b : logs s1 s2 a → logs s2 s3 b → logs s1 s3 (a ++ b).
Proof. unfold logs. intros H1 H2. by rewrite H2, H1, app_assoc. Qed.

(** One access after another. *)
Definition logged (e : io) (s : ports) : ports := mk_ports (io_reads s) (io_log s ++ [e]).
Definition logged_in (e : io) (s : ports) : ports := mk_ports (S (io_reads s)) (io_log s ++ [e]).

Lemma outb_bind {A} p v (f : unit → kop ports A) s : (outb p v ≫= f) s = f tt (logged (Out p v) s).
Proof. done. Qed.
Lemma inb_bind {A} dev p (f : Z → kop ports A) s :
  (inb dev p ≫= f) s = f (dev (io_reads s) p) (logged_in (In p (dev (io_reads s) p)) s).
Proof. done. Qed.
Lemma outb_run p v s : outb p v s = Ok (tt, logged (Out p v) s).
Proof. done. Qed.

Lemma logs_nil s : logs s s [].
Proof. unfold logs. by rewrite app_nil_r. Qed.
Lemma logs_step s s' e tr : logs (logged e s) s' tr → logs s s' (e :: tr).
Proof. unfold logs. intros ->. cbn. by rewrite <- app_assoc. Qed.
Lemma logs_step_in s s' e tr : logs (logged_in e s) s' tr → logs s s' (e :: tr).
Proof. unfold logs. intros ->. cbn. by rewrite <- app_assoc. Qed.
