(* ===== verification/Serial.v ===== *)
(** * arch/x86_64/drivers/serial.c: the 16550 serial port

    The driver programs the line and then sends and receives by polling the line
    status register.  [uart] is the register file of the chip as its data sheet
    gives it: bit 7 of the line control register (DLAB) selects whether the first
    two ports are the baud rate divisor. *)
From S2P Require Import Prelude PortIO.

Definition SERIAL_COM1 : Z := 1016.
Definition SERIAL_BAUD_115200 : Z := 1.

(** [port + k] as the [uint16_t] argument of [outb] and [inb]. *)
Definition reg (port k : Z) : Z := wrap16 (port + k).

Definition serial_init (port baud_divisor : Z) : kop ports unit :=
  _ ← outb (reg port 1) 0;
  _ ← outb (reg port 3) 128;
  _ ← outb (reg port 0) (wrap8 (Z.land baud_divisor 255));
  _ ← outb (reg port 1) (wrap8 (Z.shiftr baud_divisor 8));
  _ ← outb (reg port 3) 3;
  _ ← outb (reg port 2) 199;
  _ ← outb (reg port 4) 11;
  outb (reg port 4) 15.

Definition serial_early_init : kop ports unit := serial_init SERIAL_COM1 SERIAL_BAUD_115200.

Section Device.
Context (dev : nat → Z → Z).

Definition serial_received (port : Z) : kop ports bool :=
  v ← inb dev (reg port 5); mret (negb (Z.land v 1 =? 0)).
Definition serial_transmit_empty (port : Z) : kop ports bool :=
  v ← inb dev (reg port 5); mret (negb (Z.land v 32 =? 0)).

(** [while (!test(port));] *)
Fixpoint serial_wait (fuel : nat) (test : Z → kop ports bool) (port : Z) : kop ports unit :=
  match fuel with
  | O => fun _ => Diverge
  | S fuel' => ok ← test port; if ok : bool then mret tt else serial_wait fuel' test port
  end.

Definition serial_putc (fuel : nat) (port c : Z) : kop ports unit :=
  _ ← serial_wait fuel serial_transmit_empty port;
  _ ← (if c =? 10 then
         _ ← outb port 13; serial_wait fuel serial_transmit_empty port
       else mret tt);
  outb port (wrap8 c).

Fixpoint serial_puts (fuel : nat) (port : Z) (s : list Z) : kop ports unit :=
  match s with
  | [] => mret tt
  | c :: s' => _ ← serial_putc fuel port c; serial_puts fuel port s'
  end.

Definition serial_getc (fuel : nat) (port : Z) : kop ports Z :=
  _ ← serial_wait fuel serial_received port; inb dev port.

Definition serial_write_char (fuel : nat) (c : Z) : kop ports unit := serial_putc fuel SERIAL_COM1 c.
End Device.

(** ** Programming the chip *)

Record uart : Type := mk_uart { dll : Z; dlm : Z; ier : Z; fcr : Z; lcr : Z; mcr : Z }.

Definition dlab (u : uart) : bool := Z.testbit (lcr u) 7.

(** A write to one of the registers of the chip at [base]. *)
Definition uart_write (base : Z) (u : uart) (e : io) : uart :=
  match e with
  | In _ _ => u
  | Out p v =>
      if p =? base then
        if dlab u then mk_uart v (dlm u) (ier u) (fcr u) (lcr u) (mcr u) else u
      else if p =? base + 1 then
        if dlab u then mk_uart (dll u) v (ier u) (fcr u) (lcr u) (mcr u)
        else mk_uart (dll u) (dlm u) v (fcr u) (lcr u) (mcr u)
      else if p =? base + 2 then mk_uart (dll u) (dlm u) (ier u) v (lcr u) (mcr u)
      else if p =? base + 3 then mk_uart (dll u) (dlm u) (ier u) (fcr u) v (mcr u)
      else if p =? base + 4 then mk_uart (dll u) (dlm u) (ier u) (fcr u) (lcr u) v
      else u
  end.

Lemma reg_small port k : 0 ≤ port → 0 ≤ k → port + k < 65536 → reg port k = port + k.
Proof. unfold reg. intros. word_lia. Qed.

Lemma byte_split d : 0 ≤ d < 65536 →
  wrap8 (Z.land d 255) + 256 * wrap8 (Z.shiftr d 8) = d.
Proof.
  intros Hd. change 255 with (Z.ones 8). rewrite Z.land_ones, Z.shiftr_div_pow2 by lia.
  change (2 ^ 8) with 256. word_lia.
Qed.

Ltac uart_reg := intros; cbn [uart_write];
  repeat match goal with |- context [?a =? ?b] => destruct (Z.eqb_spec a b) end; (done || lia).

(** Each register on its own; [l] decides what the first two ports mean. *)
Lemma uart_dll base a b i f l m v :
  Z.testbit l 7 = true → uart_write base (mk_uart a b i f l m) (Out base v) = mk_uart v b i f l m.
Proof. intros H. cbn [uart_write]. unfold dlab. cbn [lcr]. rewrite H. uart_reg. Qed.
Lemma uart_dlm base a b i f l m v :
  Z.testbit l 7 = true → uart_write base (mk_uart a b i f l m) (Out (base + 1) v) = mk_uart a v i f l m.
Proof. intros H. cbn [uart_write]. unfold dlab. cbn [lcr]. rewrite H. uart_reg. Qed.
Lemma uart_ier base a b i f l m v :
  Z.testbit l 7 = false → uart_write base (mk_uart a b i f l m) (Out (base + 1) v) = mk_uart a b v f l m.
Proof. intros H. cbn [uart_write]. unfold dlab. cbn [lcr]. rewrite H. uart_reg. Qed.
Lemma uart_fcr base a b i f l m v : uart_write base (mk_uart a b i f l m) (Out (base + 2) v) = mk_uart a b i v l m.
Proof. uart_reg. Qed.
Lemma uart_lcr base a b i f l m v : uart_write base (mk_uart a b i f l m) (Out (base + 3) v) = mk_uart a b i f v m.
Proof. uart_reg. Qed.
Lemma uart_mcr base a b i f l m v : uart_write base (mk_uart a b i f l m) (Out (base + 4) v) = mk_uart a b i f l v.
Proof. uart_reg. Qed.

(** The writes of [serial_init]. *)
Definition init_trace (port div : Z) : list io :=
  [Out (reg port 1) 0; Out (reg port 3) 128; Out (reg port 0) (wrap8 (Z.land div 255));
   Out (reg port 1) (wrap8 (Z.shiftr div 8)); Out (reg port 3) 3; Out (reg port 2) 199;
   Out (reg port 4) 11; Out (reg port 4) 15].

Lemma serial_init_run port div s :
  serial_init port div s = Ok (tt, mk_ports (io_reads s) (io_log s ++ init_trace port div)).
Proof.
  unfold serial_init, mbind, kop_bind, outb. cbn [io_reads io_log].
  by rewrite <- !app_assoc.
Qed.

(** (Property) [serial_init] leaves the chip with the wanted divisor, 8 data
    bits, no parity and one stop bit, the divisor latch closed again, the FIFOs on
    and all interrupts off, whatever its registers held, as long as the divisor
    latch was closed before. *)
Theorem serial_init_programs (port div : Z) (u : uart) (s : ports)
    (Hport : 0 ≤ port < 65528) (Hdiv : 0 ≤ div < 65536) (Hu : dlab u = false) :
  ∃ s' tr, serial_init port div s = Ok (tt, s') ∧ logs s s' tr ∧
    let u' := fold_left (uart_write port) tr u in
    dll u' + 256 * dlm u' = div ∧ ier u' = 0 ∧ lcr u' = 3 ∧ dlab u' = false ∧ fcr u' = 199 ∧ mcr u' = 15.
Proof.
  eexists _, (init_trace port div). split; [apply serial_init_run|].
  split; [reflexivity|]. cbv zeta.
  unfold init_trace. rewrite !reg_small by lia. rewrite Z.add_0_r. cbn [fold_left].
  destruct u as [a b i f l m]. cbn in Hu.
  rewrite uart_ier, uart_lcr, uart_dll, uart_dlm, uart_lcr, uart_fcr, !uart_mcr by done.
  split_and!; try done. by apply byte_split.
Qed.

Definition idle_uart : uart := mk_uart 12 0 1 0 0 0.
Definition no_io : ports := mk_ports 0 [].

Lemma serial_init_programs_witness :
  ∃ s' tr, serial_init SERIAL_COM1 SERIAL_BAUD_115200 no_io = Ok (tt, s') ∧ logs no_io s' tr ∧
    let u' := fold_left (uart_write SERIAL_COM1) tr idle_uart in
    dll u' + 256 * dlm u' = 1 ∧ ier u' = 0 ∧ lcr u' = 3 ∧ dlab u' = false ∧ fcr u' = 199 ∧ mcr u' = 15.
Proof.
  apply (serial_init_programs SERIAL_COM1 SERIAL_BAUD_115200 idle_uart no_io); [done|done|reflexivity].
Defined.

(** ** Sending by polling *)

(** A run of the polling loop: status reads without the bit, then one with it. *)
Inductive polled (port bit : Z) : list io → Prop :=
  | polled_ready v : Z.land v bit ≠ 0 → polled port bit [In (reg port 5) v]
  | polled_busy v tr : Z.land v bit = 0 → polled port bit tr → polled port bit (In (reg port 5) v :: tr).

(** The accesses that send the bytes: each one is written right after a status
    read that showed the transmitter empty. *)
Inductive delivery (port : Z) : list io → list Z → Prop :=
  | delivery_nil : delivery port [] []
  | delivery_byte poll b tr bs :
      polled port 32 poll → delivery port tr bs →
      delivery port (poll ++ Out port b :: tr) (b :: bs).

Lemma delivery_app port t1 b1 t2 b2 :
  delivery port t1 b1 → delivery port t2 b2 → delivery port (t1 ++ t2) (b1 ++ b2).
Proof.
  induction 1 as [|poll b tr bs Hp _ IH]; intros H2; [done|].
  rewrite <- app_assoc. cbn. constructor; auto.
Qed.

(** What the line carries: a carriage return before every line feed. *)
Definition crlf (s : list Z) : list Z := s ≫= fun c => if c =? 10 then [13; 10] else [c].

Section Polling.
Context (dev : nat → Z → Z) (port : Z).

(** The chip sets the status bit within [k] reads, again and again. *)
Definition responsive (bit : Z) (k : nat) : Prop :=
  ∀ t, ∃ j, (j < k)%nat ∧ Z.land (dev (t + j) (reg port 5)) bit ≠ 0.

Lemma serial_wait_spec bit test k fuel s :
  (∀ st, test port st = (v ← inb dev (reg port 5); mret (negb (Z.land v bit =? 0))) st) →
  (∃ j, (j < k)%nat ∧ Z.land (dev (io_reads s + j) (reg port 5)) bit ≠ 0) → (k ≤ fuel)%nat →
  ∃ s' tr, serial_wait fuel test port s = Ok (tt, s') ∧ logs s s' tr ∧ polled port bit tr.
Proof.
  intros Htest. revert k s. induction fuel as [|fuel IH]; intros k s (j & Hj & Hb) Hk; [lia|].
  cbn [serial_wait]. rewrite (kop_bind_step _ _ s (negb (Z.land (dev (io_reads s) (reg port 5)) bit =? 0)) _ (Htest s)).
  set (v := dev (io_reads s) (reg port 5)). set (s1 := mk_ports _ _).
  assert (logs s s1 [In (reg port 5) v]) as Hl by reflexivity.
  destruct (Z.eqb_spec (Z.land v bit) 0) as [Hz|Hnz]; cbn [negb].
  - destruct j as [|j]; [rewrite Nat.add_0_r in Hb; done|].
    destruct (IH (pred k) s1) as (s' & tr & E & Hl' & Hp).
    { exists j. split; [lia|]. unfold s1. cbn [io_reads]. by rewrite Nat.add_succ_comm. }
    { lia. }
    exists s', (In (reg port 5) v :: tr). split_and!; [done|by apply (logs_trans s s1 s' [_] tr)|].
    by apply polled_busy.
  - exists s1, [In (reg port 5) v]. split_and!; [done|done|by constructor].
Qed.

Lemma serial_transmit_wait k fuel s :
  responsive 32 k → (k ≤ fuel)%nat →
  ∃ s' tr, serial_wait fuel (serial_transmit_empty dev) port s = Ok (tt, s') ∧ logs s s' tr ∧ polled port 32 tr.
Proof. intros Hr Hk. by apply (serial_wait_spec 32 _ k). Qed.

Lemma serial_putc_spec k fuel c s :
  responsive 32 k → (k ≤ fuel)%nat → 0 ≤ c < 256 →
  ∃ s' tr, serial_putc dev fuel port c s = Ok (tt, s') ∧ logs s s' tr ∧ delivery port tr (crlf [c]).
Proof.
  intros Hr Hk Hc. unfold serial_putc. destruct (serial_transmit_wait k fuel s Hr Hk) as (s1 & t1 & E1 & L1 & P1).
  rewrite (kop_bind_step _ _ _ _ _ E1). unfold crlf. cbn [mbind list_bind].
  rewrite wrap8_byte by done.
  destruct (Z.eqb_spec c 10) as [->|Hn].
  - destruct (serial_transmit_wait k fuel (mk_ports (io_reads s1) (io_log s1 ++ [Out port 13])) Hr Hk)
      as (s2 & t2 & E2 & L2 & P2).
    eexists _, (t1 ++ Out port 13 :: t2 ++ [Out port 10]). split_and!.
    + unfold mbind, kop_bind, outb. rewrite E2. reflexivity.
    + unfold logs in *. cbn. rewrite L2. cbn. rewrite L1. rewrite <- !app_assoc. done.
    + constructor; [done|]. constructor; [done|]. constructor.
  - eexists _, (t1 ++ [Out port c]). split_and!; [reflexivity| |constructor; [done|constructor]].
    unfold logs in *. cbn. by rewrite L1, <- app_assoc.
Qed.

Lemma serial_puts_spec k fuel bs s :
  responsive 32 k → (k ≤ fuel)%nat → Forall (fun c => 0 ≤ c < 256) bs →
  ∃ s' tr, serial_puts dev fuel port bs s = Ok (tt, s') ∧ logs s s' tr ∧ delivery port tr (crlf bs).
Proof.
  intros Hr Hk Hbs. revert s. induction Hbs as [|c bs Hc _ IH]; intros s.
  { exists s, []. split_and!; [done|unfold logs; by rewrite app_nil_r|constructor]. }
  cbn [serial_puts]. destruct (serial_putc_spec k fuel c s Hr Hk Hc) as (s1 & t1 & E1 & L1 & D1).
  rewrite (kop_bind_step _ _ _ _ _ E1). destruct (IH s1) as (s2 & t2 & E2 & L2 & D2).
  exists s2, (t1 ++ t2). split_and!; [done|by eapply logs_trans|].
  replace (crlf (c :: bs)) with (crlf [c] ++ crlf bs) by (unfold crlf; cbn; by rewrite app_nil_r).
  by apply delivery_app.
Qed.
End Polling.

(** (C39) Sending always finishes on a chip that keeps becoming ready, and
    delivers: [serial_puts] writes exactly the bytes of the string to the data
    port, in order, a carriage return before each line feed, and every byte right
    after a status read that showed the transmitter empty. *)
Theorem serial_puts_delivers (dev : nat → Z → Z) (port : Z) (k fuel : nat) (bs : list Z) (s : ports)
    (Hr : responsive dev port 32 k) (Hfuel : (k ≤ fuel)%nat) (Hbs : Forall (fun c => 0 ≤ c < 256) bs) :
  ∃ s' tr, serial_puts dev fuel port bs s = Ok (tt, s') ∧ logs s s' tr ∧ delivery port tr (crlf bs).
Proof. by apply (serial_puts_spec _ _ k). Qed.

(** The transmitter is busy at every other read. *)
Definition slow_dev (t : nat) (p : Z) : Z := if Nat.even t then 0 else 32.

Lemma slow_dev_responsive : responsive slow_dev SERIAL_COM1 32 2.
Proof.
  intros t. unfold slow_dev. destruct (Nat.even t) eqn:E.
  - exists 1%nat. split; [lia|]. rewrite Nat.even_add, E. done.
  - exists 0%nat. split; [lia|]. rewrite Nat.add_0_r, E. done.
Qed.

Lemma serial_puts_delivers_witness :
  responsive slow_dev SERIAL_COM1 32 2 ∧
  ∃ s' tr, serial_puts slow_dev 2 SERIAL_COM1 [104; 105; 10] no_io = Ok (tt, s') ∧
    logs no_io s' tr ∧ delivery SERIAL_COM1 tr [104; 105; 13; 10].
Proof.
  split; [exact slow_dev_responsive|].
  apply (serial_puts_delivers slow_dev SERIAL_COM1 2 2 [104; 105; 10] no_io slow_dev_responsive); [lia|].
  repeat constructor; lia.
Defined.

(** (Property) Receiving waits for the data-ready bit and then returns the byte
    of the data port. *)
Theorem serial_getc_waits (dev : nat → Z → Z) (port : Z) (k fuel : nat) (s : ports)
    (Hr : responsive dev port 1 k) (Hfuel : (k ≤ fuel)%nat) :
  ∃ s' poll v, serial_getc dev fuel port s = Ok (v, s') ∧ polled port 1 poll ∧
    logs s s' (poll ++ [In port v]).
Proof.
  destruct (serial_wait_spec dev port 1 (serial_received dev) k fuel s) as (s1 & t1 & E1 & L1 & P1); [done|apply Hr|done|].
  unfold serial_getc. rewrite (kop_bind_step _ _ _ _ _ E1). eexists _, t1, _.
  split_and!; [reflexivity|done|]. unfold logs in *. cbn. by rewrite L1, <- app_assoc.
Qed.
