(* ===== verification/Gdt.v ===== *)
(** * arch/x86_64/cpu/gdt.c: segment descriptors and the task state segment

    The table is a list of descriptors with the fields of [gdt_entry_t].  The
    processor reads a descriptor as one 64-bit word; [desc_word] is that word and
    [seg_base], [seg_limit], [seg_access] and [seg_flags] are the fields the
    architecture defines in it. *)
From S2P Require Import Prelude.

Definition GDT_KERNEL_CODE : Z := 8.
Definition GDT_KERNEL_DATA : Z := 16.
Definition GDT_USER_CODE : Z := 24.
Definition GDT_USER_DATA : Z := 32.
Definition GDT_TSS : Z := 40.
Definition GDT_ACCESS_PRESENT : Z := 128.
Definition GDT_ACCESS_RING3 : Z := 96.
Definition GDT_ACCESS_SYSTEM : Z := 16.
Definition GDT_ACCESS_EXEC : Z := 8.
Definition GDT_ACCESS_RW : Z := 2.
Definition GDT_FLAG_GRANULARITY : Z := 128.
Definition GDT_FLAG_SIZE : Z := 64.
Definition GDT_FLAG_LONG : Z := 32.

Record gdt_entry : Type := mk_gdt_entry {
  limit_low : Z;
  base_low : Z;
  base_mid : Z;
  access : Z;
  limit_high_flags : Z;
  base_high : Z;
}.

#[export] Instance gdt_entry_inhabited : Inhabited gdt_entry := populate (mk_gdt_entry 0 0 0 0 0 0).

(** [tss_t]; the reserved fields are only ever zeroed. *)
Record tss : Type := mk_tss { tss_rsp : list Z; tss_ist : list Z; iomap_base : Z }.
Definition TSS_SIZEOF : Z := 104.
Definition zero_tss : tss := mk_tss (replicate 3 0) (replicate 7 0) 0.

(** The static variables, and what [lgdt] and [ltr] loaded (limit, base; selector). *)
Record gdt_state : Type := mk_gdt_state {
  gdt : list gdt_entry;
  kernel_tss : tss;
  gdtr : Z * Z;
  task_register : Z;
}.

Definition with_gdt (f : list gdt_entry → list gdt_entry) (s : gdt_state) : gdt_state :=
  mk_gdt_state (f (gdt s)) (kernel_tss s) (gdtr s) (task_register s).
Definition with_tss (t : tss) (s : gdt_state) : gdt_state :=
  mk_gdt_state (gdt s) t (gdtr s) (task_register s).

(** The entry [gdt_set_entry] stores. *)
Definition make_entry (base limit acc flags : Z) : gdt_entry :=
  mk_gdt_entry (wrap16 (Z.land limit 65535)) (wrap16 (Z.land base 65535))
    (wrap8 (Z.land (Z.shiftr base 16) 255)) acc
    (wrap8 (Z.lor (Z.land (Z.shiftr limit 16) 15) (Z.land flags 240)))
    (wrap8 (Z.land (Z.shiftr base 24) 255)).

Definition gdt_set_entry (index : Z) (base limit acc flags : Z) (s : gdt_state) : gdt_state :=
  with_gdt <[Z.to_nat index := make_entry base limit acc flags]> s.

(** Two 32-bit words stored over an entry. *)
Definition entry_of_words (w0 w1 : Z) : gdt_entry :=
  mk_gdt_entry (wrap16 w0) (wrap16 (w0 / 65536)) (wrap8 w1) (wrap8 (w1 / 256))
    (wrap8 (w1 / 65536)) (wrap8 (w1 / 16777216)).

Definition gdt_set_tss (index : Z) (base limit : Z) (s : gdt_state) : gdt_state :=
  let low := mk_gdt_entry (wrap16 (Z.land limit 65535)) (wrap16 (Z.land base 65535))
    (wrap8 (Z.land (Z.shiftr base 16) 255)) 137
    (wrap8 (Z.land (Z.shiftr limit 16) 15)) (wrap8 (Z.land (Z.shiftr base 24) 255)) in
  let s := with_gdt <[Z.to_nat index := low]> s in
  with_gdt <[Z.to_nat (index + 1) := entry_of_words (wrap32 (Z.shiftr base 32)) 0]> s.

(** [gdt_addr] and [tss_addr] are the addresses of the two static objects. *)
Definition gdt_init (gdt_addr tss_addr : Z) (s : gdt_state) : gdt_state :=
  let s := gdt_set_entry 0 0 0 0 0 s in
  let s := gdt_set_entry 1 0 1048575
    (Z.lor (Z.lor (Z.lor GDT_ACCESS_PRESENT GDT_ACCESS_SYSTEM) GDT_ACCESS_EXEC) GDT_ACCESS_RW)
    (Z.lor GDT_FLAG_GRANULARITY GDT_FLAG_LONG) s in
  let s := gdt_set_entry 2 0 1048575
    (Z.lor (Z.lor GDT_ACCESS_PRESENT GDT_ACCESS_SYSTEM) GDT_ACCESS_RW)
    (Z.lor GDT_FLAG_GRANULARITY GDT_FLAG_SIZE) s in
  let s := gdt_set_entry 3 0 1048575
    (Z.lor (Z.lor (Z.lor (Z.lor GDT_ACCESS_PRESENT GDT_ACCESS_RING3) GDT_ACCESS_SYSTEM)
       GDT_ACCESS_EXEC) GDT_ACCESS_RW)
    (Z.lor GDT_FLAG_GRANULARITY GDT_FLAG_LONG) s in
  let s := gdt_set_entry 4 0 1048575
    (Z.lor (Z.lor (Z.lor GDT_ACCESS_PRESENT GDT_ACCESS_RING3) GDT_ACCESS_SYSTEM) GDT_ACCESS_RW)
    (Z.lor GDT_FLAG_GRANULARITY GDT_FLAG_SIZE) s in
  let s := with_tss (mk_tss (replicate 3 0) (replicate 7 0) TSS_SIZEOF) s in
  let s := gdt_set_tss 5 tss_addr (TSS_SIZEOF - 1) s in
  mk_gdt_state (gdt s) (kernel_tss s) (wrap16 (7 * 8 - 1), gdt_addr) GDT_TSS.

Definition gdt_set_kernel_stack (stack_top : Z) (s : gdt_state) : gdt_state :=
  with_tss (mk_tss (<[0%nat := stack_top]> (tss_rsp (kernel_tss s))) (tss_ist (kernel_tss s))
    (iomap_base (kernel_tss s))) s.

(** ** What the processor reads *)

Definition desc_word (e : gdt_entry) : Z :=
  limit_low e + base_low e * 2 ^ 16 + base_mid e * 2 ^ 32 + access e * 2 ^ 40
  + limit_high_flags e * 2 ^ 48 + base_high e * 2 ^ 56.

Definition seg_base (d : Z) : Z := d / 2 ^ 16 mod 2 ^ 24 + d / 2 ^ 56 mod 2 ^ 8 * 2 ^ 24.
Definition seg_limit (d : Z) : Z := d mod 2 ^ 16 + d / 2 ^ 48 mod 2 ^ 4 * 2 ^ 16.
Definition seg_access (d : Z) : Z := d / 2 ^ 40 mod 2 ^ 8.
Definition seg_flags (d : Z) : Z := d / 2 ^ 52 mod 2 ^ 4.

(** Privilege level, and the kinds of segment. *)
Definition seg_dpl (d : Z) : Z := seg_access d / 32 mod 4.
Definition seg_present (d : Z) : bool := Z.testbit (seg_access d) 7.
Definition seg_is_code (d : Z) : bool := Z.testbit (seg_access d) 4 && Z.testbit (seg_access d) 3.
Definition seg_writable (d : Z) : bool := Z.testbit (seg_access d) 1.
Definition seg_is_data (d : Z) : bool := Z.testbit (seg_access d) 4 && negb (Z.testbit (seg_access d) 3).
Definition seg_is_long (d : Z) : bool := Z.testbit (seg_flags d) 1.

(** A 64-bit system descriptor is two entries. *)
Definition sys_base (lo hi : Z) : Z := seg_base lo + hi mod 2 ^ 32 * 2 ^ 32.

(** The fields of an entry are bytes and 16-bit words. *)
Record entry_wf (e : gdt_entry) : Prop := mk_entry_wf {
  ew_limit : 0 ≤ limit_low e < 65536;
  ew_base : 0 ≤ base_low e < 65536;
  ew_mid : 0 ≤ base_mid e < 256;
  ew_access : 0 ≤ access e < 256;
  ew_flags : 0 ≤ limit_high_flags e < 256;
  ew_high : 0 ≤ base_high e < 256;
}.

Ltac mod_lia := Z.div_mod_to_equations; lia.

(** Every field can be read off the word. *)
Lemma desc_word_fields e :
  entry_wf e →
  desc_word e mod 2 ^ 16 = limit_low e ∧ desc_word e / 2 ^ 16 mod 2 ^ 24 = base_low e + base_mid e * 65536 ∧
  desc_word e / 2 ^ 40 mod 2 ^ 8 = access e ∧ desc_word e / 2 ^ 48 mod 2 ^ 4 = limit_high_flags e mod 16 ∧
  desc_word e / 2 ^ 52 mod 2 ^ 4 = limit_high_flags e / 16 ∧ desc_word e / 2 ^ 56 mod 2 ^ 8 = base_high e.
Proof. intros []. unfold desc_word. split_and!; mod_lia. Qed.

Lemma land_ones16 x : Z.land x 65535 = x mod 65536.
Proof. change 65535 with (Z.ones 16). by rewrite Z.land_ones. Qed.
Lemma land_ones8 x : Z.land x 255 = x mod 256.
Proof. change 255 with (Z.ones 8). by rewrite Z.land_ones. Qed.
Lemma land_ones4 x : Z.land x 15 = x mod 16.
Proof. change 15 with (Z.ones 4). by rewrite Z.land_ones. Qed.

(** The limit's high nibble and the flags share a byte. *)
Lemma nibbles x f : 0 ≤ f < 256 → Z.lor (Z.land x 15) (Z.land f 240) = x mod 16 + f / 16 * 16.
Proof.
  intros Hf. rewrite land_ones4.
  replace (Z.land f 240) with (f / 16 * 16).
  - rewrite <- Z.add_lor_land.
    assert (Z.land (x mod 16) (f / 16 * 16) = 0) as ->; [|lia].
    apply Z.bits_inj'. intros i Hi. rewrite Z.land_spec, Z.bits_0.
    change 16 with (2 ^ 4). rewrite <- Z.shiftl_mul_pow2 by lia.
    destruct (Z.lt_ge_cases i 4).
    + rewrite Z.shiftl_spec_low by lia. apply andb_false_r.
    + rewrite Z.mod_pow2_bits_high by lia. done.
  - change 240 with (Z.land 255 (Z.lnot (2 ^ 4 - 1))). rewrite Z.land_assoc, land_lnot_ones by lia.
    rewrite land_ones8, Z.mod_small by lia. done.
Qed.

Lemma make_entry_wf base limit acc flags :
  0 ≤ acc < 256 → 0 ≤ flags < 256 → entry_wf (make_entry base limit acc flags).
Proof. intros Ha Hf. split; cbn; rewrite ?nibbles by done; word_lia. Qed.

Lemma make_entry_decodes base limit acc flags :
  is_u32 base → 0 ≤ limit < 2 ^ 20 → 0 ≤ acc < 256 → 0 ≤ flags < 256 →
  let d := desc_word (make_entry base limit acc flags) in
  seg_base d = base ∧ seg_limit d = limit ∧ seg_access d = acc ∧ seg_flags d = flags / 16.
Proof.
  intros Hb Hl Ha Hf. cbv zeta. unfold seg_base, seg_limit, seg_access, seg_flags.
  destruct (desc_word_fields _ (make_entry_wf base limit acc flags Ha Hf)) as (-> & -> & -> & -> & -> & ->).
  cbn [limit_low base_low base_mid access limit_high_flags base_high make_entry].
  rewrite nibbles by done. rewrite !land_ones16, !land_ones8, !Z.shiftr_div_pow2 by lia.
  unfold is_u32 in Hb. unfold wrap8, wrap16. split_and!; mod_lia.
Qed.

(** (Property) A descriptor stored by [gdt_set_entry] is read by the processor as
    the base, the 20-bit limit, the access byte and the flags it was made from, and
    no other entry of the table changes. *)
Theorem gdt_set_entry_decodes (index : Z) (base limit acc flags : Z) (s : gdt_state)
    (Hi : 0 ≤ index < Z.of_nat (length (gdt s))) (Hb : is_u32 base) (Hl : 0 ≤ limit < 2 ^ 20)
    (Ha : 0 ≤ acc < 256) (Hf : 0 ≤ flags < 256) :
  let s' := gdt_set_entry index base limit acc flags s in
  (∃ e, gdt s' !! Z.to_nat index = Some e ∧ entry_wf e ∧
     seg_base (desc_word e) = base ∧ seg_limit (desc_word e) = limit ∧
     seg_access (desc_word e) = acc ∧ seg_flags (desc_word e) = flags / 16) ∧
  (∀ j, j ≠ Z.to_nat index → gdt s' !! j = gdt s !! j).
Proof.
  cbv zeta. unfold gdt_set_entry, with_gdt. cbn [gdt]. split.
  - exists (make_entry base limit acc flags). split; [apply list_lookup_insert_eq; lia|].
    split; [by apply make_entry_wf|]. by apply make_entry_decodes.
  - intros j Hj. by apply list_lookup_insert_ne.
Qed.

Definition blank_gdt : gdt_state := mk_gdt_state (replicate 7 (mk_gdt_entry 0 0 0 0 0 0)) zero_tss (0, 0) 0.

Lemma gdt_set_entry_decodes_witness :
  let s' := gdt_set_entry 3 4276993775 65536 250 160 blank_gdt in
  (∃ e, gdt s' !! 3%nat = Some e ∧ entry_wf e ∧
     seg_base (desc_word e) = 4276993775 ∧ seg_limit (desc_word e) = 65536 ∧
     seg_access (desc_word e) = 250 ∧ seg_flags (desc_word e) = 160 / 16) ∧
  (∀ j, j ≠ 3%nat → gdt s' !! j = gdt blank_gdt !! j).
Proof.
  apply (gdt_set_entry_decodes 3 4276993775 65536 250 160 blank_gdt);
    [cbn; lia|unfold is_u32; lia|lia|lia|lia].
Defined.

(** ** The table [gdt_init] builds *)

(** A flat code or data segment of the given privilege level. *)
Definition code_segment (ring : Z) (d : Z) : bool :=
  seg_present d && seg_is_code d && seg_is_long d && (seg_dpl d =? ring) &&
  (seg_base d =? 0) && (seg_limit d =? 1048575).
Definition data_segment (ring : Z) (d : Z) : bool :=
  seg_present d && seg_is_data d && seg_writable d && (seg_dpl d =? ring) &&
  (seg_base d =? 0) && (seg_limit d =? 1048575).

(** The descriptor a selector names; bits 0 to 2 of a selector are not an index. *)
Definition desc_of (s : gdt_state) (sel : Z) : Z := desc_word (gdt s !!! Z.to_nat (sel / 8)).

Lemma gdt_init_table ga ta s :
  length (gdt s) = 7%nat →
  gdt (gdt_init ga ta s) =
    [make_entry 0 0 0 0; make_entry 0 1048575 154 160; make_entry 0 1048575 146 192;
     make_entry 0 1048575 250 160; make_entry 0 1048575 242 192;
     mk_gdt_entry 103 (wrap16 (Z.land ta 65535)) (wrap8 (Z.land (Z.shiftr ta 16) 255)) 137 0
       (wrap8 (Z.land (Z.shiftr ta 24) 255));
     entry_of_words (wrap32 (Z.shiftr ta 32)) 0].
Proof.
  destruct s as [t ts gr tr]. cbn [gdt]. intros Hl.
  do 7 (destruct t as [|? t]; [discriminate Hl|]). destruct t; [|discriminate Hl]. reflexivity.
Qed.

Lemma entry_of_words_desc w :
  is_u32 w → desc_word (entry_of_words w 0) = w.
Proof.
  intros Hw. unfold desc_word, entry_of_words.
  cbn [limit_low base_low base_mid access limit_high_flags base_high].
  unfold is_u32 in Hw. unfold wrap16, wrap8. mod_lia.
Qed.

Lemma tss_desc ta :
  is_u64 ta →
  let d := desc_word (mk_gdt_entry 103 (wrap16 (Z.land ta 65535)) (wrap8 (Z.land (Z.shiftr ta 16) 255)) 137 0
       (wrap8 (Z.land (Z.shiftr ta 24) 255))) in
  sys_base d (desc_word (entry_of_words (wrap32 (Z.shiftr ta 32)) 0)) = ta ∧
  seg_limit d = 103 ∧ seg_access d = 137.
Proof.
  intros Ht. cbv zeta. rewrite entry_of_words_desc by apply wrap32_range.
  set (e := mk_gdt_entry _ _ _ _ _ _).
  assert (entry_wf e) as Hwf by (split; cbn; word_lia).
  unfold sys_base, seg_base, seg_limit, seg_access.
  destruct (desc_word_fields e Hwf) as (-> & -> & -> & -> & _ & ->).
  cbn [limit_low base_low base_mid access limit_high_flags base_high e].
  rewrite !land_ones16, !land_ones8, !Z.shiftr_div_pow2 by lia.
  unfold is_u64 in Ht. unfold wrap8, wrap16, wrap32. split_and!; mod_lia.
Qed.

(** (C38) [gdt_init] makes the table the rest of the kernel relies on: the
    null descriptor, flat 64-bit code segments and writable data segments for rings 0 and 3
    under the four selectors, a present 64-bit TSS descriptor with the address and
    the limit of the TSS; it loads both.  All stack pointers of the TSS are zero,
    the interrupt stack table included. *)
Theorem gdt_init_segments (ga ta : Z) (s : gdt_state) (Hlen : length (gdt s) = 7%nat) (Hta : is_u64 ta) :
  let s' := gdt_init ga ta s in
  desc_of s' 0 = 0 ∧
  code_segment 0 (desc_of s' GDT_KERNEL_CODE) = true ∧ data_segment 0 (desc_of s' GDT_KERNEL_DATA) = true ∧
  code_segment 3 (desc_of s' GDT_USER_CODE) = true ∧ data_segment 3 (desc_of s' GDT_USER_DATA) = true ∧
  sys_base (desc_of s' GDT_TSS) (desc_of s' (GDT_TSS + 8)) = ta ∧
  seg_limit (desc_of s' GDT_TSS) = TSS_SIZEOF - 1 ∧ seg_access (desc_of s' GDT_TSS) = 137 ∧
  gdtr s' = (8 * Z.of_nat (length (gdt s')) - 1, ga) ∧ task_register s' = GDT_TSS ∧
  kernel_tss s' = mk_tss [0; 0; 0] [0; 0; 0; 0; 0; 0; 0] TSS_SIZEOF.
Proof.
  cbv zeta. pose proof (tss_desc ta Hta) as (H1 & H2 & H3). unfold desc_of.
  rewrite gdt_init_table by done.
  split_and!; [reflexivity|reflexivity|reflexivity|reflexivity|reflexivity|exact H1|exact H2|exact H3| |reflexivity|reflexivity].
  reflexivity.
Qed.

Lemma gdt_init_segments_witness :
  let s' := gdt_init 1052672 18446744071562067968 blank_gdt in
  desc_of s' 0 = 0 ∧
  code_segment 0 (desc_of s' GDT_KERNEL_CODE) = true ∧ data_segment 0 (desc_of s' GDT_KERNEL_DATA) = true ∧
  code_segment 3 (desc_of s' GDT_USER_CODE) = true ∧ data_segment 3 (desc_of s' GDT_USER_DATA) = true ∧
  sys_base (desc_of s' GDT_TSS) (desc_of s' (GDT_TSS + 8)) = 18446744071562067968 ∧
  seg_limit (desc_of s' GDT_TSS) = TSS_SIZEOF - 1 ∧ seg_access (desc_of s' GDT_TSS) = 137 ∧
  gdtr s' = (8 * Z.of_nat (length (gdt s')) - 1, 1052672) ∧ task_register s' = GDT_TSS ∧
  kernel_tss s' = mk_tss [0; 0; 0] [0; 0; 0; 0; 0; 0; 0] TSS_SIZEOF.
Proof. apply (gdt_init_segments 1052672 18446744071562067968 blank_gdt); [reflexivity|unfold is_u64; lia]. Defined.

(** [gdt_set_kernel_stack] changes the ring 0 stack and nothing else. *)
Lemma gdt_set_kernel_stack_ist top s :
  tss_ist (kernel_tss (gdt_set_kernel_stack top s)) = tss_ist (kernel_tss s).
Proof. done. Qed.
