(* ===== verification/Idt.v ===== *)
(** * arch/x86_64/cpu/idt.c: interrupt gates, the PIC and the common handlers

    The addresses of the assembly stubs [isr0 .. isr128] and [irq0 .. irq15] are
    the functions [isr] and [irq].  A handler is known by its address; what a call
    of it does is the parameter [call] of the dispatcher.  [pic] is the
    initialisation sequence of the 8259A as its data sheet gives it. *)
From S2P Require Import Prelude PortIO Gdt.

Definition PIC1_COMMAND : Z := 32.
Definition PIC1_DATA : Z := 33.
Definition PIC2_COMMAND : Z := 160.
Definition PIC2_DATA : Z := 161.
Definition PIC_EOI : Z := 32.
Definition IDT_ENTRY_COUNT : Z := 256.
Definition IDT_GATE_INTERRUPT : Z := 142.
Definition IDT_GATE_TRAP : Z := 143.
Definition IDT_GATE_USER : Z := 238.
Definition IRQ_BASE : Z := 32.
Definition IRQ_COUNT : Z := 16.
Definition IRQ (n : Z) : Z := IRQ_BASE + n.

Record idt_entry : Type := mk_idt_entry {
  offset_low : Z;
  selector : Z;
  ist : Z;
  type_attr : Z;
  offset_mid : Z;
  offset_high : Z;
  reserved : Z;
}.
Definition zero_gate : idt_entry := mk_idt_entry 0 0 0 0 0 0 0.
#[export] Instance idt_entry_inhabited : Inhabited idt_entry := populate zero_gate.

(** [interrupt_frame_t]. *)
Record interrupt_frame : Type := mk_frame {
  f_r15 : Z; f_r14 : Z; f_r13 : Z; f_r12 : Z; f_r11 : Z; f_r10 : Z; f_r9 : Z; f_r8 : Z;
  f_rbp : Z; f_rdi : Z; f_rsi : Z; f_rdx : Z; f_rcx : Z; f_rbx : Z; f_rax : Z;
  f_int_no : Z;
  f_err_code : Z;
  f_rip : Z; f_cs : Z; f_rflags : Z; f_rsp : Z; f_ss : Z;
}.

Definition set_rax (v : Z) (f : interrupt_frame) : interrupt_frame :=
  mk_frame (f_r15 f) (f_r14 f) (f_r13 f) (f_r12 f) (f_r11 f) (f_r10 f) (f_r9 f) (f_r8 f)
    (f_rbp f) (f_rdi f) (f_rsi f) (f_rdx f) (f_rcx f) (f_rbx f) v (f_int_no f) (f_err_code f)
    (f_rip f) (f_cs f) (f_rflags f) (f_rsp f) (f_ss f).

(** The static variables, what [lidt] loaded (limit, base), and the ports. *)
Record cpu : Type := mk_cpu {
  idt : list idt_entry;
  irq_handlers : list Z;
  idtr : Z * Z;
  cpu_ports : ports;
}.

Definition with_idt (f : list idt_entry → list idt_entry) (c : cpu) : cpu :=
  mk_cpu (f (idt c)) (irq_handlers c) (idtr c) (cpu_ports c).
Definition with_handlers (f : list Z → list Z) (c : cpu) : cpu :=
  mk_cpu (idt c) (f (irq_handlers c)) (idtr c) (cpu_ports c).
Definition with_ports (p : ports) (c : cpu) : cpu :=
  mk_cpu (idt c) (irq_handlers c) (idtr c) p.
Definition on_ports {A} : kop ports A → kop cpu A := kzoom cpu_ports with_ports.

(** ** The PIC *)

Definition io_wait : kop ports unit := outb 128 0.

Definition pic_remap (dev : nat → Z → Z) (offset1 offset2 : Z) : kop ports unit :=
  mask1 ← inb dev PIC1_DATA;
  mask2 ← inb dev PIC2_DATA;
  _ ← outb PIC1_COMMAND 17; _ ← io_wait;
  _ ← outb PIC2_COMMAND 17; _ ← io_wait;
  _ ← outb PIC1_DATA offset1; _ ← io_wait;
  _ ← outb PIC2_DATA offset2; _ ← io_wait;
  _ ← outb PIC1_DATA 4; _ ← io_wait;
  _ ← outb PIC2_DATA 2; _ ← io_wait;
  _ ← outb PIC1_DATA 1; _ ← io_wait;
  _ ← outb PIC2_DATA 1; _ ← io_wait;
  _ ← outb PIC1_DATA mask1;
  outb PIC2_DATA mask2.

Definition pic_send_eoi (irq : Z) : kop ports unit :=
  _ ← (if 8 <=? irq then outb PIC2_COMMAND PIC_EOI else mret tt);
  outb PIC1_COMMAND PIC_EOI.

(** ** Gates *)

Definition make_gate (handler attr i : Z) : idt_entry :=
  mk_idt_entry (wrap16 (Z.land handler 65535)) GDT_KERNEL_CODE (Z.land i 7) attr
    (wrap16 (Z.land (Z.shiftr handler 16) 65535))
    (wrap32 (Z.land (Z.shiftr handler 32) 4294967295)) 0.

Definition idt_set_handler (vector handler attr i : Z) (c : cpu) : cpu :=
  with_idt <[Z.to_nat vector := make_gate handler attr i]> c.

(** The calls of [idt_init] as (vector, stub, type, stack), in program order. *)
Definition idt_gates (isr irq : Z → Z) : list (Z * Z * Z * Z) :=
  [(0, isr 0, IDT_GATE_TRAP, 0); (1, isr 1, IDT_GATE_TRAP, 0); (2, isr 2, IDT_GATE_INTERRUPT, 0);
   (3, isr 3, IDT_GATE_TRAP, 0); (4, isr 4, IDT_GATE_TRAP, 0); (5, isr 5, IDT_GATE_TRAP, 0);
   (6, isr 6, IDT_GATE_TRAP, 0); (7, isr 7, IDT_GATE_TRAP, 0); (8, isr 8, IDT_GATE_INTERRUPT, 1);
   (10, isr 10, IDT_GATE_TRAP, 0); (11, isr 11, IDT_GATE_TRAP, 0); (12, isr 12, IDT_GATE_TRAP, 0);
   (13, isr 13, IDT_GATE_TRAP, 0); (14, isr 14, IDT_GATE_TRAP, 0); (15, isr 15, IDT_GATE_TRAP, 0);
   (16, isr 16, IDT_GATE_TRAP, 0); (17, isr 17, IDT_GATE_TRAP, 0); (18, isr 18, IDT_GATE_INTERRUPT, 0);
   (19, isr 19, IDT_GATE_TRAP, 0); (20, isr 20, IDT_GATE_TRAP, 0);
   (128, isr 128, IDT_GATE_USER, 0);
   (IRQ 0, irq 0, IDT_GATE_INTERRUPT, 0); (IRQ 1, irq 1, IDT_GATE_INTERRUPT, 0);
   (IRQ 2, irq 2, IDT_GATE_INTERRUPT, 0); (IRQ 3, irq 3, IDT_GATE_INTERRUPT, 0);
   (IRQ 4, irq 4, IDT_GATE_INTERRUPT, 0); (IRQ 5, irq 5, IDT_GATE_INTERRUPT, 0);
   (IRQ 6, irq 6, IDT_GATE_INTERRUPT, 0); (IRQ 7, irq 7, IDT_GATE_INTERRUPT, 0);
   (IRQ 8, irq 8, IDT_GATE_INTERRUPT, 0); (IRQ 9, irq 9, IDT_GATE_INTERRUPT, 0);
   (IRQ 10, irq 10, IDT_GATE_INTERRUPT, 0); (IRQ 11, irq 11, IDT_GATE_INTERRUPT, 0);
   (IRQ 12, irq 12, IDT_GATE_INTERRUPT, 0); (IRQ 13, irq 13, IDT_GATE_INTERRUPT, 0);
   (IRQ 14, irq 14, IDT_GATE_INTERRUPT, 0); (IRQ 15, irq 15, IDT_GATE_INTERRUPT, 0)].

Definition install (g : Z * Z * Z * Z) (c : cpu) : cpu :=
  let '(v, h, attr, i) := g in idt_set_handler v h attr i c.

(** [idt_addr] is the address of the table. *)
Definition idt_init (dev : nat → Z → Z) (isr irq : Z → Z) (idt_addr : Z) : kop cpu unit := fun c =>
  let c := with_idt (fun _ => replicate 256 zero_gate) c in
  let c := with_handlers (fun _ => replicate 16 0) c in
  '(_, c) ← on_ports (pic_remap dev IRQ_BASE (IRQ_BASE + 8)) c;
  let c := fold_left (fun c g => install g c) (idt_gates isr irq) c in
  Ok (tt, mk_cpu (idt c) (irq_handlers c) (wrap16 (256 * 16 - 1), idt_addr) (cpu_ports c)).

(** ** Handlers *)

Definition irq_register_handler (irq handler : Z) (c : cpu) : cpu :=
  if irq <? IRQ_COUNT then with_handlers <[Z.to_nat irq := handler]> c else c.
Definition irq_unregister_handler (irq : Z) (c : cpu) : cpu :=
  if irq <? IRQ_COUNT then with_handlers <[Z.to_nat irq := 0]> c else c.

Definition exception_names : list string :=
  ["Divide by Zero"; "Debug"; "Non-Maskable Interrupt"; "Breakpoint"; "Overflow";
   "Bound Range Exceeded"; "Invalid Opcode"; "Device Not Available"; "Double Fault";
   "Coprocessor Seg Overrun"; "Invalid TSS"; "Segment Not Present"; "Stack-Segment Fault";
   "General Protection"; "Page Fault"; "Reserved"; "x87 FPU Exception"; "Alignment Check";
   "Machine Check"; "SIMD Exception"; "Virtualization Exception"]%string.

Section Dispatch.
Context {S : Type} (get : S → cpu) (put : cpu → S → S).

(** [syscall] stands for [syscall_handler] (kernel/syscall/syscall.c); the
    registers are printed before the panic. *)
Definition isr_common_handler (syscall : interrupt_frame → kop S interrupt_frame)
    (frame : interrupt_frame) : kop S interrupt_frame :=
  if f_int_no frame =? 128 then syscall frame
  else kpanic (if f_int_no frame <? 21
               then exception_names !!! Z.to_nat (f_int_no frame) else "Unknown Exception"%string).

(** [call] runs a handler and says whether it came back.  One that switched to another
    process has not: the end of interrupt is then sent when the process it interrupted
    runs again.  The result says whether the interrupted code goes on. *)
Definition irq_common_handler (call : Z → interrupt_frame → kop S bool)
    (frame : interrupt_frame) : kop S bool :=
  let irq := wrap8 (f_int_no frame - IRQ_BASE) in
  h ← kget (fun s => irq_handlers (get s) !!! Z.to_nat irq);
  back ← (if (irq <? IRQ_COUNT) && negb (h =? 0) then call h frame else mret true);
  if back : bool then
    _ ← kzoom get put (on_ports (pic_send_eoi irq));
    mret true
  else mret false.
End Dispatch.

(** ** What the processor reads from a gate *)

Definition gate_offset (e : idt_entry) : Z :=
  offset_low e + offset_mid e * 2 ^ 16 + offset_high e * 2 ^ 32.
Definition gate_present (e : idt_entry) : bool := Z.testbit (type_attr e) 7.
Definition gate_dpl (e : idt_entry) : Z := type_attr e / 32 mod 4.
(** A trap gate leaves interrupts on. *)
Definition gate_is_trap (e : idt_entry) : bool := type_attr e mod 16 =? 15.

Lemma make_gate_offset handler attr i :
  is_u64 handler → gate_offset (make_gate handler attr i) = handler.
Proof.
  intros Hh. unfold gate_offset, make_gate. cbn [offset_low offset_mid offset_high].
  change 65535 with (Z.ones 16). change 4294967295 with (Z.ones 32).
  rewrite !Z.land_ones, !Z.shiftr_div_pow2 by lia. unfold is_u64 in Hh.
  unfold wrap16, wrap32. Z.div_mod_to_equations. lia.
Qed.

(** ** The table [idt_init] builds *)

(** What a vector is for. *)
Definition vector_gate (isr irq : Z → Z) (v : Z) : option (Z * Z * Z) :=
  if (v <? 21) && negb (v =? 9) then
    Some (isr v, (if (v =? 2) || (v =? 8) || (v =? 18) then IDT_GATE_INTERRUPT else IDT_GATE_TRAP),
      if v =? 8 then 1 else 0)
  else if (32 <=? v) && (v <? 48) then Some (irq (v - 32), IDT_GATE_INTERRUPT, 0)
  else if v =? 128 then Some (isr 128, IDT_GATE_USER, 0)
  else None.

Definition gate_of (isr irq : Z → Z) (v : Z) : idt_entry :=
  match vector_gate isr irq v with
  | Some (h, attr, i) => make_gate h attr i
  | None => zero_gate
  end.

Lemma install_fold gates c :
  idt (fold_left (fun c g => install g c) gates c) =
    fold_left (fun t g => <[Z.to_nat g.1.1.1 := make_gate g.1.1.2 g.1.2 g.2]> t) gates (idt c) ∧
  irq_handlers (fold_left (fun c g => install g c) gates c) = irq_handlers c ∧
  cpu_ports (fold_left (fun c g => install g c) gates c) = cpu_ports c.
Proof.
  revert c. induction gates as [|[[[v h] a] i] gates IH]; intros c; [done|].
  cbn [fold_left]. destruct (IH (install (v, h, a, i) c)) as (-> & -> & ->). done.
Qed.

Lemma idt_table isr irq :
  fold_left (fun t g => <[Z.to_nat g.1.1.1 := make_gate g.1.1.2 g.1.2 g.2]> t) (idt_gates isr irq)
    (replicate 256 zero_gate) = gate_of isr irq ∘ Z.of_nat <$> seq 0 256.
Proof. reflexivity. Qed.

(** ** Programming the PIC *)

(** The registers of one 8259A; [icw] is 0 in operation, otherwise the number of
    the initialisation word it expects. *)
Record pic : Type := mk_pic { icw : Z; offset : Z; cascade : Z; mode : Z; mask : Z }.

Definition pic_write (cmd data : Z) (p : pic) (e : io) : pic :=
  match e with
  | In _ _ => p
  | Out q v =>
      if q =? cmd then
        if Z.testbit v 4 then mk_pic 2 (offset p) (cascade p) (mode p) 0 else p
      else if q =? data then
        if icw p =? 2 then mk_pic 3 v (cascade p) (mode p) (mask p)
        else if icw p =? 3 then mk_pic 4 (offset p) v (mode p) (mask p)
        else if icw p =? 4 then mk_pic 0 (offset p) (cascade p) v (mask p)
        else mk_pic (icw p) (offset p) (cascade p) (mode p) v
      else p
  end.

(** (Property) [pic_remap] moves the interrupts of the two controllers to the
    given vectors, cascades the second on line 2 of the first, selects 8086 mode and
    puts back the interrupt masks that it read, whatever the controllers held. *)
Theorem pic_remap_programs (dev : nat → Z → Z) (o1 o2 : Z) (p1 p2 : pic) (s : ports)  :
  ∃ s' tr, pic_remap dev o1 o2 s = Ok (tt, s') ∧ logs s s' tr ∧
    fold_left (pic_write PIC1_COMMAND PIC1_DATA) tr p1 = mk_pic 0 o1 4 1 (dev (io_reads s) PIC1_DATA) ∧
    fold_left (pic_write PIC2_COMMAND PIC2_DATA) tr p2 = mk_pic 0 o2 2 1 (dev (S (io_reads s)) PIC2_DATA).
Proof.
  unfold pic_remap, io_wait. rewrite !inb_bind. cbn [io_reads logged_in].
  eexists _, _. split; [rewrite !outb_bind; apply outb_run|].
  split; [do 2 apply logs_step_in; do 18 apply logs_step; apply logs_nil|].
  split; reflexivity.
Qed.

Lemma pic_remap_runs dev o1 o2 s : ∃ s', pic_remap dev o1 o2 s = Ok (tt, s').
Proof. unfold pic_remap, io_wait. rewrite !inb_bind, !outb_bind. by eexists. Qed.

Lemma idt_init_spec dev isr irq idt_addr c :
  ∃ p, idt_init dev isr irq idt_addr c =
    Ok (tt, mk_cpu (gate_of isr irq ∘ Z.of_nat <$> seq 0 256) (replicate 16 0) (4095, idt_addr) p).
Proof.
  unfold idt_init, on_ports, kzoom.
  destruct (pic_remap_runs dev IRQ_BASE (IRQ_BASE + 8) (cpu_ports c)) as [p Hp].
  change (cpu_ports (with_handlers _ (with_idt _ c))) with (cpu_ports c). rewrite Hp.
  cbn [mbind outcome_bind]. exists p.
  set (c1 := with_ports p _). destruct (install_fold (idt_gates isr irq) c1) as (-> & -> & ->).
  change (idt c1) with (replicate 256 zero_gate). by rewrite idt_table.
Qed.

Lemma gate_table isr irq v :
  0 ≤ v < 256 → (gate_of isr irq ∘ Z.of_nat <$> seq 0 256) !! Z.to_nat v = Some (gate_of isr irq v).
Proof.
  intros Hv. rewrite list_lookup_fmap, lookup_seq_lt by lia. cbn. by rewrite Z2Nat.id by lia.
Qed.

(** The vectors by kind. *)
Lemma vector_gate_cases isr irq v h attr i :
  vector_gate isr irq v = Some (h, attr, i) →
  (v = 128 ∧ attr = IDT_GATE_USER ∧ i = 0) ∨
  (v ≠ 128 ∧ (attr = IDT_GATE_INTERRUPT ∨ attr = IDT_GATE_TRAP) ∧ i = (if v =? 8 then 1 else 0)).
Proof.
  unfold vector_gate.
  destruct (Z.ltb_spec v 21), (Z.eqb_spec v 9), (Z.leb_spec 32 v), (Z.ltb_spec v 48), (Z.eqb_spec v 128);
    cbn [negb andb]; try lia; try discriminate; intros [= <- <- <-];
    try (left; split_and!; done);
    right; (split; [done|]); (split; [|destruct (Z.eqb_spec v 8); lia]); auto;
    destruct ((v =? 2) || _ || _); auto.
Qed.

(** (C33) After [idt_init] every gate of the table is exactly what its vector
    is for: exceptions 0 to 20 but 9, the sixteen interrupt lines and vector 128 lead
    to their own stub in the kernel code segment, every other vector is not present.
    User code can enter the kernel through vector 128 only, the hardware interrupts
    do not nest, and only the double fault switches to an interrupt stack.  No
    interrupt handler is registered. *)
Theorem idt_init_gates (dev : nat → Z → Z) (isr irq : Z → Z) (idt_addr : Z) (c : cpu)
    (Hisr : ∀ v, is_u64 (isr v)) (Hirq : ∀ v, is_u64 (irq v)) :
  ∃ c', idt_init dev isr irq idt_addr c = Ok (tt, c') ∧
    length (idt c') = 256%nat ∧ idtr c' = (16 * 256 - 1, idt_addr) ∧ irq_handlers c' = replicate 16 0 ∧
    ∀ v, 0 ≤ v < 256 → ∃ e, idt c' !! Z.to_nat v = Some e ∧
      match vector_gate isr irq v with
      | None => gate_present e = false
      | Some (h, _, _) =>
          gate_present e = true ∧ gate_offset e = h ∧ selector e = GDT_KERNEL_CODE ∧
          (gate_dpl e = 3 ↔ v = 128) ∧ (32 ≤ v < 48 → gate_is_trap e = false) ∧
          (ist e ≠ 0 ↔ v = 8)
      end.
Proof.
  destruct (idt_init_spec dev isr irq idt_addr c) as [p ->]. eexists. split; [reflexivity|].
  cbn [idt idtr irq_handlers]. split_and!; [by rewrite length_fmap, length_seq|done|done|].
  intros v Hv. exists (gate_of isr irq v). split; [by apply gate_table|]. unfold gate_of.
  destruct (vector_gate isr irq v) as [[[h attr] i]|] eqn:E; [|done].
  pose proof (vector_gate_cases _ _ _ _ _ _ E) as Hc.
  assert (is_u64 h) as Hh.
  { unfold vector_gate in E. repeat case_match; simplify_eq; auto. }
  split; [|split; [by apply make_gate_offset|split; [done|]]].
  - destruct Hc as [(_ & -> & _)|(_ & [-> | ->] & _)]; done.
  - unfold gate_dpl, gate_is_trap. cbn [type_attr ist make_gate].
    destruct Hc as [(-> & -> & ->)|(Hne & Ha & ->)].
    + split_and!; [done|lia|done].
    + split_and!.
      * destruct Ha as [-> | ->]; (split; [discriminate|done]).
      * intros Hr. unfold vector_gate in E. destruct (Z.ltb_spec v 21); [lia|]. cbn [andb] in E.
        destruct (Z.leb_spec 32 v), (Z.ltb_spec v 48); try lia. by injection E as <- <- _.
      * destruct (Z.eqb_spec v 8); split; (done || lia).
Qed.

Definition sample_cpu : cpu := mk_cpu [] [] (0, 0) (mk_ports 0 []).
Lemma idt_init_gates_witness :
  ∃ c', idt_init (fun _ _ => 255) (fun v => 1048576 + v mod 256) (fun v => 1052672 + v mod 256) 2097152 sample_cpu
      = Ok (tt, c') ∧
    ∃ e, idt c' !! 128%nat = Some e ∧ gate_offset e = 1048704 ∧ gate_dpl e = 3.
Proof.
  destruct (idt_init_gates (fun _ _ => 255) (fun v => 1048576 + v mod 256) (fun v => 1052672 + v mod 256) 2097152
    sample_cpu) as (c' & E & _ & _ & _ & H).
  - intros v. unfold is_u64. Z.div_mod_to_equations. lia.
  - intros v. unfold is_u64. Z.div_mod_to_equations. lia.
  - exists c'. split; [exact E|]. destruct (H 128) as (e & He & Hg); [lia|].
    exists e. split; [exact He|]. destruct Hg as (_ & Ho & _ & Hd & _). split; [exact Ho|]. by apply Hd.
Defined.

(** The double fault gate asks for interrupt stack 1, which [gdt_init] leaves
    at address 0, and [gdt_set_kernel_stack] does not set. *)
Theorem double_fault_stack_null (dev : nat → Z → Z) (isr irq : Z → Z) (idt_addr ga ta top : Z) (c : cpu)
    (s : gdt_state) :
  ∃ c' e, idt_init dev isr irq idt_addr c = Ok (tt, c') ∧ idt c' !! 8%nat = Some e ∧ ist e = 1 ∧
    tss_ist (kernel_tss (gdt_set_kernel_stack top (gdt_init ga ta s))) !! Z.to_nat (ist e - 1) = Some 0.
Proof.
  destruct (idt_init_spec dev isr irq idt_addr c) as [p ->]. eexists _, (gate_of isr irq 8).
  split; [reflexivity|]. split; [by apply (gate_table isr irq 8)|]. split; reflexivity.
Qed.

(** ** Interrupt lines *)

Section Irq.
Context {S : Type} (get : S → cpu) (put : cpu → S → S).

(** The end-of-interrupt commands of a line. *)
Definition eoi (n : Z) : list io :=
  (if 8 <=? n then [Out PIC2_COMMAND PIC_EOI] else []) ++ [Out PIC1_COMMAND PIC_EOI].

Definition add_log (tr : list io) (c : cpu) : cpu :=
  with_ports (mk_ports (io_reads (cpu_ports c)) (io_log (cpu_ports c) ++ tr)) c.

Lemma pic_send_eoi_spec n s :
  pic_send_eoi n s = Ok (tt, mk_ports (io_reads s) (io_log s ++ eoi n)).
Proof. unfold pic_send_eoi, eoi. destruct (8 <=? n); [|done].
  rewrite outb_bind, outb_run. unfold logged. cbn [io_reads io_log]. by rewrite <- app_assoc. Qed.

Lemma irq_common_handler_spec call frame n s :
  f_int_no frame = IRQ n → 0 ≤ n < 16 →
  irq_common_handler get put call frame s =
    match (let h := irq_handlers (get s) !!! Z.to_nat n in
           if h =? 0 then Ok (true, s) else call h frame s) with
    | Ok (true, s1) => Ok (true, put (add_log (eoi n) (get s1)) s1)
    | Ok (false, s1) => Ok (false, s1)
    | Panic msg => Panic msg
    | Undef why => Undef why
    | Diverge => Diverge
    end.
Proof.
  intros Hf Hn. unfold irq_common_handler. rewrite Hf. unfold IRQ, IRQ_COUNT.
  replace (wrap8 (IRQ_BASE + n - IRQ_BASE)) with n by (unfold IRQ_BASE; word_lia).
  unfold mbind at 1, kop_bind at 1, kget. destruct (Z.ltb_spec n 16); [|lia]. cbn [andb].
  assert (∀ s1, kzoom get put (on_ports (pic_send_eoi n)) s1 = Ok (tt, put (add_log (eoi n) (get s1)) s1)) as He.
  { intros s1. unfold kzoom, on_ports, kzoom. rewrite pic_send_eoi_spec. done. }
  cbv zeta. destruct (_ =? 0); cbn [negb]; unfold mbind, kop_bind, mret, kop_ret; [by rewrite He|].
  destruct (call _ frame s) as [[[] s1]| | |]; [by rewrite He|done..].
Qed.
End Irq.
