(* ===== verification/Report.v ===== *)
(** * What the kernel prints about itself

    The report of a CPU exception (arch/x86_64/cpu/idt.c), the memory line and the
    banner of kernel/kmain.c, the heap statistics of kernel/mm/kheap.c, and the
    listings of processes (kernel/proc/process.c) and of drivers (drivers/driver.c),
    all through [vprintk].  The two listings use a [-] flag that [vprintk] does not
    know. *)
From S2P Require Import Prelude Mem PageAlloc Pmm Kheap KheapInv KheapSpec KmallocSpec Paging Process ProcessSpec SchedSpec ProcCreateSpec.
From S2P Require Import Driver Printk Keyboard PortIO Idt.

Definition EXC_PAGE_FAULT : Z := 14.

(** ** Exceptions *)

(** A call of [printk], [pr_err] or [pr_info] with a literal and its line feed. *)
Definition call : Type := list Z * list arg.
Fixpoint pr_lines (level : Z) (calls : list call) : outcome (list Z) :=
  match calls with
  | [] => Ok []
  | (fmt, args) :: calls' =>
      o ← pr_level level fmt args;
      o' ← pr_lines level calls';
      Ok (o ++ o')
  end.

Definition exception_name (frame : interrupt_frame) : string :=
  if f_int_no frame <? 21 then exception_names !!! Z.to_nat (f_int_no frame) else "Unknown Exception"%string.

Definition flag_name (err bit : Z) (set clear : string) : arg :=
  AStr (Some (codes (if negb (Z.land err bit =? 0) then set else clear))).

(** The [pr_err] calls of [isr_common_handler]; [cr2] is the control register. *)
Definition register_calls (frame : interrupt_frame) : list call :=
  [(text_line "=== CPU EXCEPTION #%llu: %s ===", [AInt (f_int_no frame); AStr (Some (codes (exception_name frame)))]);
   (text_line "  Error code : 0x%016llx", [AInt (f_err_code frame)]);
   (text_line "  RIP        : 0x%016llx", [AInt (f_rip frame)]);
   (text_line "  CS         : 0x%04llx", [AInt (f_cs frame)]);
   (text_line "  RFLAGS     : 0x%016llx", [AInt (f_rflags frame)]);
   (text_line "  RSP        : 0x%016llx", [AInt (f_rsp frame)]);
   (text_line "  SS         : 0x%04llx", [AInt (f_ss frame)]);
   (text_line "  RAX=0x%llx RBX=0x%llx RCX=0x%llx RDX=0x%llx",
     [AInt (f_rax frame); AInt (f_rbx frame); AInt (f_rcx frame); AInt (f_rdx frame)])].
Definition fault_calls (frame : interrupt_frame) (cr2 : Z) : list call :=
  let err := f_err_code frame in
  [(text_line "  CR2 (fault address): 0x%016llx", [AInt cr2]);
   (text_line "  Fault flags: %s %s %s %s",
     [flag_name err 1 "PRESENT" "NOT_PRESENT"; flag_name err 2 "WRITE" "READ";
      flag_name err 4 "USER" "KERNEL"; flag_name err 8 "RSVD_WRITE" ""])].

(** Everything printed from the exception to the halt. *)
Definition exception_report (frame : interrupt_frame) (cr2 : Z) : outcome (list Z) :=
  o1 ← pr_lines 3 (register_calls frame);
  o2 ← (if f_int_no frame =? EXC_PAGE_FAULT then pr_lines 3 (fault_calls frame cr2) else Ok []);
  o3 ← panic_banner (codes (exception_name frame));
  Ok (o1 ++ o2 ++ o3).

(** ** Listings *)

Definition state_name (x : proc_state) : string :=
  match x with
  | PROC_CREATED => "CREATED" | PROC_READY => "READY" | PROC_RUNNING => "RUNNING" | PROC_BLOCKED => "BLOCKED"
  | PROC_SLEEPING => "SLEEPING" | PROC_ZOMBIE => "ZOMBIE" | PROC_DEAD => "DEAD"
  end.

Section Listings.
Context {A : Type}.

Fixpoint dump_loop (table : list Z) (s : sys A) : outcome (list Z) :=
  match table with
  | [] => Ok []
  | p :: table' =>
      if p =? 0 then dump_loop table' s
      else
        x ← deref p s;
        o ← printk (text_line "%-4u %-10s %-4u %s")
              [AInt (pid x); AStr (Some (codes (state_name (state x)))); AInt (priority x); AStr (Some (codes (name x)))];
        o' ← dump_loop table' s;
        Ok (o ++ o')
  end.
Definition proc_dump_all (s : sys A) : outcome (list Z) :=
  o1 ← printk (text_line "PID  STATE      PRI  NAME") [];
  o2 ← printk (text_line "---- ---------- ---- ----------------") [];
  o3 ← dump_loop (proc_table s) s;
  Ok (o1 ++ o2 ++ o3).

(** The message of [kheap_dump_stats]. *)
Definition kheap_stats_text (fuel : nat) (s : kheap A) : outcome (list Z) :=
  '(blocks, used, free) ← kheap_dump_stats fuel s;
  printk (text_line "Heap stats: %zu blocks, %zu KiB used, %zu KiB free")
    [AInt blocks; AInt (used / 1024); AInt (free / 1024)].
End Listings.

Definition type_name (t : Z) : string :=
  ["CHAR"; "BLOCK"; "NET"; "DISPLAY"; "INPUT"; "BUS"; "MISC"]%string !!! Z.to_nat (if t <? 7 then t else 6).
Definition driver_state_name (st : Z) : string :=
  ["UNLOADED"; "LOADED"; "RUNNING"; "ERROR"]%string !!! Z.to_nat (if st <? 4 then st else 0).

Fixpoint list_loop (fuel : nat) (d : Z) (r : registry) : outcome (list Z) :=
  match fuel with
  | O => Diverge
  | S fuel' =>
      if d =? 0 then Ok []
      else
        x ← driver_at r d;
        o ← printk (text_line "%-20s  %-5s  %s")
              [AStr (Some (d_name x)); AStr (Some (codes (type_name (d_type x))));
               AStr (Some (codes (driver_state_name (d_state x))))];
        o' ← list_loop fuel' (d_next x) r;
        Ok (o ++ o')
  end.
Definition drivers_list (fuel : nat) (r : registry) : outcome (list Z) :=
  o1 ← printk (text_line "NAME                  TYPE   STATE") [];
  o2 ← printk (text_line "--------------------  -----  -------") [];
  o3 ← list_loop fuel (driver_list_head r) r;
  Ok (o1 ++ o2 ++ o3).

(** ** kmain.c *)

Fixpoint print_all (ls : list (list Z)) : outcome (list Z) :=
  match ls with
  | [] => Ok []
  | l :: ls' => o ← printk (l ++ [10]) []; o' ← print_all ls'; Ok (o ++ o')
  end.

Definition banner_lines : list (list Z) :=
  (codes <$> ["";
     "  ██╗  ██╗███████╗██████╗  ██████╗  ██████╗ ███████╗";
     "  ██║  ██║██╔════╝██╔══██╗██╔═══██╗██╔═══██╗██╔════╝";
     "  ███████║█████╗  ██████╔╝██║   ██║██║   ██║███████╗";
     "  ██╔══██║██╔══╝  ██╔══██╗██║   ██║██║   ██║╚════██║";
     "  ██║  ██║███████╗██║  ██║╚██████╔╝╚██████╔╝███████║";
     "  ╚═╝  ╚═╝╚══════╝╚═╝  ╚═╝ ╚═════╝  ╚═════╝ ╚══════╝";
     "";
     "  HeroOS v0.1.0 — One OS, Many Platforms";
     "  Developer-Centric | Lightweight | Blazing Fast";
     "  x86_64 | ARM/AArch64 | RISC-V64";
     ""]%string) ++
  [codes "  " ++ [34] ++ codes "Code without limits. Build without walls." ++ [34]] ++
  (codes <$> [""; "─────────────────────────────────────────────────────"]%string).
Definition print_banner : outcome (list Z) := print_all banner_lines.

(** The line of memory sizes, in MiB. *)
Definition memory_line (s : pmm) : outcome (list Z) :=
  let stats := pmm_get_stats s in
  let mib n := Z.shiftr (n *₆₄ PAGE_SIZE) 20 in
  pr_level 6 (text_line "Memory: %llu MiB total, %llu MiB free, %llu MiB used")
    [AInt (mib (total_pages stats)); AInt (mib (free_pages stats)); AInt (mib (used_pages stats))].

(** ** What is printed *)

(** Lines as lists of pieces. *)
Definition call_of (ps : list piece) : call := (concat (piece_fmt <$> ps), concat (piece_args <$> ps)).
Definition lit (s : string) : list piece := Lit <$> codes s.
Definition dec (v : Z) : piece := Unsigned (mk_flags false [] LenLongLong) 117 v.
Definition hex (width : list Z) (v : Z) : piece := Unsigned (mk_flags (bool_decide (width ≠ [])) width LenLongLong) 120 v.
Definition str (s : string) : piece := Str (mk_flags false [] LenInt) (Some (codes s)).

Lemma pr_lines_spec level (lines : list (list piece)) :
  0 ≤ level < 8 → Forall (Forall piece_ok) lines →
  ∃ outs, Forall2 (Forall2 renders) lines outs ∧
    pr_lines level (call_of <$> lines) =
      Ok (concat ((fun o => codes (log_prefixes !!! Z.to_nat level) ++ concat o) <$> outs)).
Proof.
  intros Hl. induction 1 as [|ps lines Hps _ (outs & Ho & E)]; [by exists []|].
  destruct (pr_level_spec level ps Hl Hps) as (o & Hr & Eo). exists (o :: outs). split; [by constructor|].
  cbn [fmap list_fmap pr_lines]. unfold call_of at 1. rewrite Eo. cbn [mbind outcome_bind].
  change (list_fmap _ _ call_of lines) with (call_of <$> lines). by rewrite E.
Qed.

(** The report as its reader sees it. *)
Definition register_lines (frame : interrupt_frame) : list (list piece) :=
  [lit "=== CPU EXCEPTION #" ++ [dec (f_int_no frame)] ++ lit ": " ++ [str (exception_name frame)] ++ lit " ===" ++ [Lit 10];
   lit "  Error code : 0x" ++ [hex [1; 6] (f_err_code frame); Lit 10];
   lit "  RIP        : 0x" ++ [hex [1; 6] (f_rip frame); Lit 10];
   lit "  CS         : 0x" ++ [hex [4] (f_cs frame); Lit 10];
   lit "  RFLAGS     : 0x" ++ [hex [1; 6] (f_rflags frame); Lit 10];
   lit "  RSP        : 0x" ++ [hex [1; 6] (f_rsp frame); Lit 10];
   lit "  SS         : 0x" ++ [hex [4] (f_ss frame); Lit 10];
   lit "  RAX=0x" ++ [hex [] (f_rax frame)] ++ lit " RBX=0x" ++ [hex [] (f_rbx frame)] ++
     lit " RCX=0x" ++ [hex [] (f_rcx frame)] ++ lit " RDX=0x" ++ [hex [] (f_rdx frame); Lit 10]].

Definition fault_lines (frame : interrupt_frame) (cr2 : Z) : list (list piece) :=
  let bit i := Z.testbit (f_err_code frame) i in
  if f_int_no frame =? EXC_PAGE_FAULT then
    [lit "  CR2 (fault address): 0x" ++ [hex [1; 6] cr2; Lit 10];
     lit "  Fault flags: " ++ [str (if bit 0 then "PRESENT" else "NOT_PRESENT")] ++ lit " " ++
       [str (if bit 1 then "WRITE" else "READ")] ++ lit " " ++ [str (if bit 2 then "USER" else "KERNEL")] ++ lit " " ++
       [str (if bit 3 then "RSVD_WRITE" else ""); Lit 10]]
  else [].

Lemma register_calls_lines frame : register_calls frame = call_of <$> register_lines frame.
Proof. reflexivity. Qed.

Lemma flag_name_bit err i set clear :
  0 ≤ i → 0 ≤ err → flag_name err (2 ^ i) set clear = AStr (Some (codes (if Z.testbit err i then set else clear))).
Proof.
  intros Hi He. unfold flag_name. do 3 f_equal. replace (2 ^ i) with (BIT i); [by rewrite land_bit|].
  unfold BIT. by rewrite Z.shiftl_1_l.
Qed.

Lemma fault_calls_lines frame cr2 :
  is_u64 (f_err_code frame) →
  (if f_int_no frame =? EXC_PAGE_FAULT then pr_lines 3 (fault_calls frame cr2) else Ok []) =
    pr_lines 3 (call_of <$> fault_lines frame cr2).
Proof.
  intros He. unfold fault_lines. destruct (_ =? _); [|done]. unfold fault_calls. unfold is_u64 in He.
  rewrite (flag_name_bit _ 0), (flag_name_bit _ 1), (flag_name_bit _ 2), (flag_name_bit _ 3) by lia. reflexivity.
Qed.

(** The registers of a frame are 64-bit values. *)
Definition frame_u64 (frame : interrupt_frame) : Prop :=
  Forall is_u64 [f_int_no frame; f_err_code frame; f_rip frame; f_cs frame; f_rflags frame; f_rsp frame; f_ss frame;
    f_rax frame; f_rbx frame; f_rcx frame; f_rdx frame].

Lemma lit_ok s : Forall (fun c => c ≠ PERCENT) (codes s) → Forall piece_ok (lit s).
Proof. intros H. apply Forall_fmap. eapply Forall_impl; [exact H|done]. Qed.

Lemma hex_ok width v : width_ok width → is_u64 v → piece_ok (hex width v).
Proof. intros Hw Hv. by split. Qed.

Lemma width_0_ok : width_ok [].
Proof. split_and!; [constructor|done|done]. Qed.

Lemma dec_ok v : is_u64 v → piece_ok (dec v).
Proof. intros Hv. split; [apply width_0_ok|exact Hv]. Qed.

(** Decides that a line of literals and conversions is well formed. *)
Ltac pieces_ok :=
  repeat lazymatch goal with
    | |- Forall _ [] => apply Forall_nil; exact I
    | |- Forall _ (lit _) => apply lit_ok, (bool_decide_unpack _); vm_compute; exact I
    | |- Forall _ (_ ++ _) => apply Forall_app; split
    | |- Forall _ (_ :: _) => apply Forall_cons; split
    | |- piece_ok (hex _ _) => apply hex_ok
    | |- piece_ok (dec _) => apply dec_ok
    end.

Lemma width_16_ok : width_ok [1; 6].
Proof. split_and!; [repeat constructor; lia|by intros d [= <-]|done]. Qed.
Lemma width_4_ok : width_ok [4].
Proof. split_and!; [repeat constructor; lia|by intros d [= <-]|done]. Qed.
Lemma register_lines_ok frame : frame_u64 frame → Forall (Forall piece_ok) (register_lines frame).
Proof.
  unfold frame_u64. rewrite !Forall_cons. intros (H1 & H2 & H3 & H4 & H5 & H6 & H7 & H8 & H9 & H10 & H11 & _).
  unfold register_lines. pieces_ok; try done; auto using width_16_ok, width_4_ok, width_0_ok.
Qed.

Lemma fault_lines_ok frame cr2 : is_u64 cr2 → Forall (Forall piece_ok) (fault_lines frame cr2).
Proof.
  intros Hc. unfold fault_lines. destruct (_ =? _); [|constructor]. pieces_ok; try done; auto using width_16_ok, width_0_ok.
Qed.

(** (Property) The report of an exception: for every register content it is
    printed in full, one line at a time with the [ERROR] prefix: the exception's
    number and name, error code, instruction pointer, segments, flags, stack pointer
    and general registers as numerals of exactly their values, for a page fault also
    the faulting address and the four bits of the error code by name; then the panic
    banner with the name. *)
Theorem exception_report_prints (frame : interrupt_frame) (cr2 : Z)
    (Hframe : frame_u64 frame) (Hcr2 : is_u64 cr2) :
  ∃ outs banner, Forall2 (Forall2 renders) (register_lines frame ++ fault_lines frame cr2) outs ∧
    panic_banner (codes (exception_name frame)) = Ok banner ∧
    exception_report frame cr2 = Ok (concat ((fun o => codes "[ERROR]  " ++ concat o) <$> outs) ++ banner).
Proof.
  destruct (pr_lines_spec 3 (register_lines frame) ltac:(lia) (register_lines_ok frame Hframe)) as (o1 & H1 & E1).
  destruct (pr_lines_spec 3 (fault_lines frame cr2) ltac:(lia) (fault_lines_ok frame cr2 Hcr2)) as (o2 & H2 & E2).
  change (codes (log_prefixes !!! Z.to_nat 3)) with (codes "[ERROR]  ") in E1, E2.
  exists (o1 ++ o2). eexists. split; [by apply Forall2_app|]. split; [apply panic_banner_prints|].
  unfold exception_report. rewrite register_calls_lines, E1, fault_calls_lines, E2, panic_banner_prints.
  - cbn [mbind outcome_bind]. rewrite fmap_app, concat_app. by rewrite <- (app_assoc (concat (_ <$> o1))).
  - unfold frame_u64 in Hframe. by rewrite !Forall_cons in Hframe; destruct Hframe as (_ & ? & _).
Qed.

(** A page fault by a write to address 0. *)
Definition fault_frame : interrupt_frame :=
  mk_frame 0 0 0 0 0 0 0 0 0 0 0 0 0 0 48879 14 2 1052672 8 66 8392704 16.

Lemma exception_report_prints_witness :
  frame_u64 fault_frame ∧
  ∃ outs banner, Forall2 (Forall2 renders) (register_lines fault_frame ++ fault_lines fault_frame 0) outs ∧
    exception_report fault_frame 0 = Ok (concat ((fun o => codes "[ERROR]  " ++ concat o) <$> outs) ++ banner).
Proof.
  assert (frame_u64 fault_frame) as Hf by (repeat constructor; cbn; lia). split; [exact Hf|].
  destruct (exception_report_prints fault_frame 0 Hf ltac:(unfold is_u64; lia)) as (outs & banner & H & _ & E).
  exists outs, banner. exact (conj H E).
Defined.

(** ** The memory line *)

Definition memory_pieces (t f u : Z) : list piece :=
  lit "Memory: " ++ [dec t] ++ lit " MiB total, " ++ [dec f] ++ lit " MiB free, " ++ [dec u] ++ lit " MiB used" ++ [Lit 10].

Lemma pages_to_mib n : 0 ≤ n < 4503599627370496 → Z.shiftr (n *₆₄ PAGE_SIZE) 20 = n / 256 ∧ is_u64 (n / 256).
Proof.
  intros Hn. unfold PAGE_SIZE, is_u64. rewrite wrap64_small by lia. rewrite Z.shiftr_div_pow2 by lia.
  change (2 ^ 20) with 1048576. split; Z.div_mod_to_equations; lia.
Qed.

Lemma dec_renders v o : renders (dec v) o → ∃ ds, numeral 10 v ds ∧ o = hex_digit false <$> ds.
Proof.
  inversion 1 as [| | |f c v' base upper long ds E Hn| | | |]; subst. injection E as <- <- _. exists ds. split; [done|].
  unfold padded. change (f_field _) with 0. by replace (Z.to_nat (0 - Z.of_nat (length ds))) with 0%nat by lia.
Qed.

Lemma lit_renders s rest outs :
  Forall2 renders (lit s ++ rest) outs → ∃ outs', Forall2 renders rest outs' ∧ concat outs = codes s ++ concat outs'.
Proof.
  intros H. apply Forall2_app_inv_l in H as (o1 & o2 & H1 & H2 & ->). exists o2. split; [done|].
  by rewrite concat_app, (renders_literal _ _ H1).
Qed.

(** (Property) The memory line shows the sizes in MiB, rounded down. *)
Theorem memory_line_prints (s : pmm)
    (Hfree : 0 ≤ pmm_free_phys_pages s ≤ pmm_total_phys_pages s) (Htotal : pmm_total_phys_pages s < 4503599627370496) :
  ∃ t f u, numeral 10 (pmm_total_phys_pages s / 256) t ∧ numeral 10 (pmm_free_phys_pages s / 256) f ∧
    numeral 10 ((pmm_total_phys_pages s - pmm_free_phys_pages s) / 256) u ∧
    memory_line s = Ok (codes "[INFO]   Memory: " ++ (hex_digit false <$> t) ++ codes " MiB total, " ++
      (hex_digit false <$> f) ++ codes " MiB free, " ++ (hex_digit false <$> u) ++ codes " MiB used" ++ [10]).
Proof.
  unfold memory_line, pmm_get_stats. cbn [total_pages free_pages used_pages].
  rewrite (wrap64_small (_ - _)) by lia.
  destruct (pages_to_mib (pmm_total_phys_pages s)) as [-> H1]; [lia|].
  destruct (pages_to_mib (pmm_free_phys_pages s)) as [-> H2]; [lia|].
  destruct (pages_to_mib (pmm_total_phys_pages s - pmm_free_phys_pages s)) as [-> H3]; [lia|].
  revert H1 H2 H3. generalize (pmm_total_phys_pages s / 256) as t, (pmm_free_phys_pages s / 256) as f,
    ((pmm_total_phys_pages s - pmm_free_phys_pages s) / 256) as u. clear Hfree Htotal. intros t f u H1 H2 H3.
  destruct (pr_level_spec 6 (memory_pieces t f u)) as (outs & Hr & E); [lia| |].
  { unfold memory_pieces. pieces_ok; done. }
  assert (pr_level 6 (text_line "Memory: %llu MiB total, %llu MiB free, %llu MiB used") [AInt t; AInt f; AInt u] =
    Ok (codes "[INFO]   " ++ concat outs)) as -> by exact E. clear E.
  unfold memory_pieces in Hr. apply lit_renders in Hr as (o1 & Hr & ->).
  apply Forall2_cons_inv_l in Hr as (x1 & o2 & (t' & Ht & ->)%dec_renders & Hr & ->).
  apply lit_renders in Hr as (o3 & Hr & E3).
  apply Forall2_cons_inv_l in Hr as (x2 & o4 & (f' & Hf & ->)%dec_renders & Hr & ->).
  apply lit_renders in Hr as (o5 & Hr & E5).
  apply Forall2_cons_inv_l in Hr as (x3 & o6 & (u' & Hu & ->)%dec_renders & Hr & ->).
  apply lit_renders in Hr as (o7 & Hr & E7). pose proof (renders_literal [10] o7 Hr) as E8.
  exists t', f', u'. split_and!; [done..|]. cbn [concat] in *. rewrite E3. cbn [concat]. rewrite E5. cbn [concat]. rewrite E7, E8. done.
Qed.

Lemma memory_line_prints_witness :
  ∃ t f u, numeral 10 512 t ∧ numeral 10 500 f ∧ numeral 10 11 u ∧
    memory_line (mk_pmm [] 131072 128033 0) = Ok (codes "[INFO]   Memory: " ++ (hex_digit false <$> t) ++ codes " MiB total, " ++
      (hex_digit false <$> f) ++ codes " MiB free, " ++ (hex_digit false <$> u) ++ codes " MiB used" ++ [10]).
Proof. exact (memory_line_prints (mk_pmm [] 131072 128033 0) ltac:(cbn; lia) ltac:(cbn; lia)). Defined.

(** ** The listings *)

(** The first conversion that takes an argument is [%s], and the first argument is
    the pid. *)
Lemma dump_line_undef (x : process) :
  printk (text_line "%-4u %-10s %-4u %s")
    [AInt (pid x); AStr (Some (codes (state_name (state x)))); AInt (priority x); AStr (Some (codes (name x)))] =
  Undef "va_arg".
Proof. reflexivity. Qed.

(** (Property) [proc_dump_all] never works: on every well-formed system, where at least
    the idle process is registered, it reads a pid as the address of a string,
    because [vprintk] prints [%-4u] as text without taking its argument. *)
Theorem proc_dump_all_undefined {A : Type} (s : sys A) (l : list Z)
    (Hinv : sched_inv s l) (Htable : length (proc_table s) = 1024%nat) :
  proc_dump_all s = Undef "va_arg".
Proof.
  pose proof (si_idle _ _ Hinv) as Hidle. pose proof (si_table _ _ Hinv 0 ltac:(lia)) as Htab.
  unfold proc_get in *. change (MAX_PROCESSES <=? 0) with false in *. change (Z.to_nat 0) with 0%nat in *.
  unfold proc_dump_all. destruct (proc_table s) as [|p table]; [done|]. cbn in Hidle, Htab.
  destruct Htab as [|[x Hx]]; [done|]. cbn [dump_loop]. destruct (Z.eqb_spec p 0); [done|].
  rewrite (deref_ok s p x Hx). reflexivity.
Qed.

Lemma proc_dump_all_undefined_witness : proc_dump_all sample_sys = Undef "va_arg".
Proof. exact (proc_dump_all_undefined sample_sys [8; 24] sample_sched_inv eq_refl). Defined.

(** The line of a driver. *)
Definition driver_line (x : driver) : list Z := codes "%-20s  %-5s  " ++ d_name x ++ [10].

Lemma list_line_prints (x : driver) :
  printk (text_line "%-20s  %-5s  %s")
    [AStr (Some (d_name x)); AStr (Some (codes (type_name (d_type x))));
     AStr (Some (codes (driver_state_name (d_state x))))] = Ok (driver_line x).
Proof. reflexivity. Qed.

Lemma list_loop_spec fuel r h l :
  dlist (drivers r) h l → (length l < fuel)%nat →
  ∃ xs, Forall2 (fun d x => drivers r !! d = Some x) l xs ∧ list_loop fuel h r = Ok (concat (driver_line <$> xs)).
Proof.
  revert fuel h. induction l as [|d l IH]; intros fuel h Hd Hf; (destruct fuel as [|fuel]; [cbn in Hf; lia|]); cbn [list_loop].
  - cbn in Hd. subst h. by exists [].
  - destruct Hd as (-> & Hz & x & Hx & Hd). destruct (Z.eqb_spec d 0); [done|]. unfold driver_at. rewrite Hx.
    cbn [mbind outcome_bind]. rewrite list_line_prints. cbn [mbind outcome_bind].
    destruct (IH fuel (d_next x) Hd ltac:(cbn in Hf; lia)) as (xs & Hxs & ->). exists (x :: xs). split; [by constructor|done].
Qed.

(** (Property) [drivers_list] prints one line per registered driver, the most recent first,
    but shows its name in the third column, behind the unknown conversions as text,
    and neither its type nor its state. *)
Theorem drivers_list_prints (fuel : nat) (r : registry) (l : list Z)
    (Hreg : registered r l) (Hfuel : (length l < fuel)%nat) :
  ∃ xs, Forall2 (fun d x => drivers r !! d = Some x) l xs ∧
    drivers_list fuel r = Ok (text_line "NAME                  TYPE   STATE" ++
      text_line "--------------------  -----  -------" ++ concat (driver_line <$> xs)).
Proof.
  destruct (list_loop_spec fuel r _ l (rg_list _ _ Hreg) Hfuel) as (xs & Hxs & E). exists xs. split; [done|].
  unfold drivers_list. rewrite E. reflexivity.
Qed.

Definition one_driver : registry := mk_registry {[4096 := mk_driver (codes "ps2-keyboard") 4 2 (Some 0) 0]} 4096.
Lemma drivers_list_prints_witness :
  ∃ xs, Forall2 (fun d x => drivers one_driver !! d = Some x) [4096] xs ∧
    drivers_list 2 one_driver = Ok (text_line "NAME                  TYPE   STATE" ++
      text_line "--------------------  -----  -------" ++ concat (driver_line <$> xs)).
Proof.
  apply (drivers_list_prints 2 one_driver [4096]); [|cbn; lia]. split; [|by repeat constructor; apply not_elem_of_nil].
  cbn. split_and!; [done|done|]. eexists. split; [reflexivity|done].
Defined.

(** ** The heap statistics *)

Definition free_blocks (bs : list blk) : list blk := filter (fun b => b_free b = true) bs.
Definition total (bs : list blk) : Z := foldr (fun b n => b_size b + n) 0 bs.

(** The bytes the blocks cover, headers and footers included. *)
Definition extent (bs : list blk) : Z := foldr (fun b n => 56 + b_size b + n) 0 bs.

Lemma total_cons b bs : total (b :: bs) = b_size b + total bs.
Proof. done. Qed.
Lemma extent_cons b bs : extent (b :: bs) = 56 + b_size b + extent bs.
Proof. done. Qed.

Lemma extent_app l1 l2 : extent (l1 ++ l2) = extent l1 + extent l2.
Proof. induction l1 as [|b l1 IH]; [done|]. cbn [app]. rewrite !extent_cons. lia. Qed.

Lemma highest_block (bs : list blk) : bs ≠ [] → ∃ b, b ∈ bs ∧ ∀ c, c ∈ bs → b_addr c ≤ b_addr b.
Proof.
  induction bs as [|b bs IH]; [done|]. intros _. destruct (decide (bs = [])) as [->|Hne].
  { exists b. split; [by left|]. intros c ->%list_elem_of_singleton. lia. }
  destruct (IH Hne) as (d & Hd & Hmax). destruct (Z.le_gt_cases (b_addr b) (b_addr d)).
  - exists d. split; [by right|]. intros c [->|Hc]%elem_of_cons; auto.
  - exists b. split; [by left|]. intros c [->|Hc]%elem_of_cons; [lia|]. specialize (Hmax c Hc). lia.
Qed.

(** Disjoint blocks below [M] cover no more than [M] bytes. *)
Lemma extent_bound n bs M :
  length bs = n → blocks_disj bs → 0 ≤ M →
  (∀ b, b ∈ bs → 0 < b_addr b ∧ 0 ≤ b_size b ∧ b_end b ≤ M) → extent bs ≤ M.
Proof.
  revert bs M. induction n as [|n IH]; intros bs M Hn Hd HM Hok.
  { apply nil_length_inv in Hn as ->. done. }
  destruct (highest_block bs) as (b & Hb & Hmax); [by destruct bs|].
  apply list_elem_of_split in Hb as (l1 & l2 & ->). rewrite length_app in Hn. cbn [length] in Hn.
  apply blocks_disj_middle in Hd as [Hd Hbd]. rewrite Forall_forall in Hbd.
  destruct (Hok b ltac:(apply elem_middle; by left)) as (Ha & Hs & He).
  assert (extent (l1 ++ l2) ≤ b_addr b) as Hrest.
  { apply IH; [rewrite length_app; lia|done|lia|]. intros c Hc.
    destruct (Hok c ltac:(apply elem_middle; by right)) as (Ha' & Hs' & He'). split_and!; [done..|].
    specialize (Hmax c ltac:(apply elem_middle; by right)).
    destruct (Hbd c Hc) as [Hx|Hx]; unfold b_end in *; lia. }
  rewrite extent_app, extent_cons. rewrite extent_app in Hrest. unfold b_end in He. lia.
Qed.

Lemma total_parts bs :
  Forall blk_ok bs →
  0 ≤ total (used_blocks bs) ∧ 0 ≤ total (free_blocks bs) ∧
  total (used_blocks bs) + total (free_blocks bs) + 56 * Z.of_nat (length bs) = extent bs.
Proof.
  induction 1 as [|b bs [_ _ Hs _] _ IH]; [done|]. unfold used_blocks, free_blocks in *.
  rewrite !filter_cons, extent_cons. cbn [length]. destruct (b_free b);
    repeat first [rewrite decide_True by done|rewrite decide_False by done]; rewrite total_cons; lia.
Qed.

Lemma heap_stats_spec fuel m prev bs n u f :
  chain m prev bs 0 → Forall blk_ok bs → (length bs < fuel)%nat → 0 ≤ n → 0 ≤ u → 0 ≤ f →
  n + u + f + extent bs < 18446744073709551616 →
  heap_stats fuel m (head_addr bs 0) n u f =
    Ok (n + Z.of_nat (length bs), u + total (used_blocks bs), f + total (free_blocks bs)).
Proof.
  revert fuel prev n u f. induction bs as [|b bs IH]; intros fuel prev n u f Hc Hok Hf Hn Hu Hfr Hb;
    (destruct fuel as [|fuel]; [cbn in Hf; lia|]); cbn [heap_stats head_addr].
  { rewrite Z.eqb_refl. cbn. by rewrite !Z.add_0_r. }
  destruct Hc as [Hba Hc]. apply Forall_cons in Hok as [[Ha _ Hs _] Hok]. destruct (Z.eqb_spec (b_addr b) 0); [lia|].
  rewrite (hdr_free_at _ _ _ _ Hba), (ba_size _ _ _ _ Hba), (ba_next _ _ _ _ Hba).
  destruct (total_parts bs Hok) as (H1 & H2 & H3). rewrite extent_cons in Hb. cbn [length] in *.
  unfold used_blocks, free_blocks in *. rewrite !filter_cons.
  destruct (b_free b); repeat first [rewrite decide_True by done|rewrite decide_False by done];
    rewrite !wrap64_small by lia; rewrite (IH fuel (b_addr b)) by (done || lia); rewrite total_cons;
    apply (f_equal Ok); rewrite !pair_equal_spec; lia.
Qed.

(** (Property) The heap statistics are exact: on every well-formed heap the walk ends and
    counts all blocks, the bytes of those in use and of the free ones, without
    overflow, since disjoint blocks below 4 GiB cover no more than that. *)
Theorem kheap_stats_exact {A : Type} `{PageAlloc A} (fuel : nat) (s : kheap A) (bs : list blk)
    (Hinv : kheap_inv s bs) (Hfuel : (length bs < fuel)%nat) :
  kheap_dump_stats fuel s = Ok (Z.of_nat (length bs), total (used_blocks bs), total (free_blocks bs)) ∧
  total (used_blocks bs) + total (free_blocks bs) + 56 * Z.of_nat (length bs) ≤ 4294967296.
Proof.
  pose proof (ki_list _ _ Hinv) as [Hc Hok Hd].
  destruct (total_parts bs Hok) as (H1 & H2 & H3).
  assert (extent bs ≤ 4294967296) as Hext.
  { apply (extent_bound (length bs)); [done|done|lia|]. rewrite Forall_forall in Hok. intros b Hb.
    by destruct (Hok b Hb). }
  split; [|lia]. unfold kheap_dump_stats. rewrite (ki_head _ _ Hinv).
  by rewrite (heap_stats_spec fuel _ 0 bs 0 0 0) by (done || lia).
Qed.

Lemma kheap_stats_exact_witness : kheap_dump_stats 3 sample_heap = Ok (2, 64, 3920).
Proof. exact (proj1 (kheap_stats_exact 3 sample_heap sample_blocks sample_heap_inv ltac:(cbn; lia))). Defined.
