(* ===== verification/Font.v ===== *)
(** * drivers/framebuffer/font8x16.h: the bitmap font

    96 glyphs of 16 rows, for the characters 32 to 127; the most significant bit of
    a row is its leftmost pixel. *)
From S2P Require Import Prelude.

Definition font8x16 : list Z :=
  [0; 0; 0; 0; 0; 0; 0; 0; 0; 0; 0; 0; 0; 0; 0; 0;
   0; 24; 24; 24; 24; 24; 24; 0; 24; 24; 0; 0; 0; 0; 0; 0;
   0; 102; 102; 102; 0; 0; 0; 0; 0; 0; 0; 0; 0; 0; 0; 0;
   0; 54; 54; 127; 54; 54; 54; 127; 54; 54; 0; 0; 0; 0; 0; 0;
   24; 62; 107; 104; 104; 62; 11; 11; 107; 62; 24; 0; 0; 0; 0; 0;
   0; 99; 99; 6; 12; 24; 48; 99; 99; 0; 0; 0; 0; 0; 0; 0;
   0; 28; 54; 54; 28; 59; 110; 102; 102; 59; 0; 0; 0; 0; 0; 0;
   0; 24; 24; 24; 0; 0; 0; 0; 0; 0; 0; 0; 0; 0; 0; 0;
   0; 12; 24; 48; 48; 48; 48; 48; 24; 12; 0; 0; 0; 0; 0; 0;
   0; 48; 24; 12; 12; 12; 12; 12; 24; 48; 0; 0; 0; 0; 0; 0;
   0; 0; 102; 60; 255; 60; 102; 0; 0; 0; 0; 0; 0; 0; 0; 0;
   0; 0; 24; 24; 126; 24; 24; 0; 0; 0; 0; 0; 0; 0; 0; 0;
   0; 0; 0; 0; 0; 0; 24; 24; 24; 48; 0; 0; 0; 0; 0; 0;
   0; 0; 0; 0; 126; 0; 0; 0; 0; 0; 0; 0; 0; 0; 0; 0;
   0; 0; 0; 0; 0; 0; 0; 0; 24; 24; 0; 0; 0; 0; 0; 0;
   0; 3; 6; 6; 12; 24; 48; 96; 96; 0; 0; 0; 0; 0; 0; 0;
   0; 60; 102; 110; 118; 102; 102; 102; 60; 0; 0; 0; 0; 0; 0; 0;
   0; 24; 56; 24; 24; 24; 24; 24; 126; 0; 0; 0; 0; 0; 0; 0;
   0; 60; 102; 6; 12; 24; 48; 102; 126; 0; 0; 0; 0; 0; 0; 0;
   0; 60; 102; 6; 28; 6; 6; 102; 60; 0; 0; 0; 0; 0; 0; 0;
   0; 12; 28; 60; 108; 108; 126; 12; 12; 0; 0; 0; 0; 0; 0; 0;
   0; 126; 96; 96; 124; 6; 6; 102; 60; 0; 0; 0; 0; 0; 0; 0;
   0; 28; 48; 96; 124; 102; 102; 102; 60; 0; 0; 0; 0; 0; 0; 0;
   0; 126; 6; 6; 12; 24; 48; 48; 48; 0; 0; 0; 0; 0; 0; 0;
   0; 60; 102; 102; 60; 102; 102; 102; 60; 0; 0; 0; 0; 0; 0; 0;
   0; 60; 102; 102; 62; 6; 6; 12; 56; 0; 0; 0; 0; 0; 0; 0;
   0; 0; 24; 24; 0; 0; 24; 24; 0; 0; 0; 0; 0; 0; 0; 0;
   0; 0; 24; 24; 0; 0; 24; 24; 24; 48; 0; 0; 0; 0; 0; 0;
   0; 6; 12; 24; 48; 96; 48; 24; 12; 6; 0; 0; 0; 0; 0; 0;
   0; 0; 0; 126; 0; 0; 126; 0; 0; 0; 0; 0; 0; 0; 0; 0;
   0; 96; 48; 24; 12; 6; 12; 24; 48; 96; 0; 0; 0; 0; 0; 0;
   0; 60; 102; 6; 12; 24; 24; 0; 24; 24; 0; 0; 0; 0; 0; 0;
   0; 60; 102; 110; 106; 110; 96; 98; 60; 0; 0; 0; 0; 0; 0; 0;
   0; 24; 60; 102; 102; 126; 102; 102; 102; 0; 0; 0; 0; 0; 0; 0;
   0; 124; 102; 102; 124; 102; 102; 102; 124; 0; 0; 0; 0; 0; 0; 0;
   0; 60; 102; 96; 96; 96; 96; 102; 60; 0; 0; 0; 0; 0; 0; 0;
   0; 120; 108; 102; 102; 102; 102; 108; 120; 0; 0; 0; 0; 0; 0; 0;
   0; 126; 96; 96; 124; 96; 96; 96; 126; 0; 0; 0; 0; 0; 0; 0;
   0; 126; 96; 96; 124; 96; 96; 96; 96; 0; 0; 0; 0; 0; 0; 0;
   0; 60; 102; 96; 96; 110; 102; 102; 60; 0; 0; 0; 0; 0; 0; 0;
   0; 102; 102; 102; 126; 102; 102; 102; 102; 0; 0; 0; 0; 0; 0; 0;
   0; 60; 24; 24; 24; 24; 24; 24; 60; 0; 0; 0; 0; 0; 0; 0;
   0; 30; 12; 12; 12; 12; 108; 108; 56; 0; 0; 0; 0; 0; 0; 0;
   0; 102; 108; 120; 112; 120; 108; 102; 99; 0; 0; 0; 0; 0; 0; 0;
   0; 96; 96; 96; 96; 96; 96; 96; 126; 0; 0; 0; 0; 0; 0; 0;
   0; 99; 119; 127; 107; 99; 99; 99; 99; 0; 0; 0; 0; 0; 0; 0;
   0; 99; 115; 123; 111; 103; 99; 99; 99; 0; 0; 0; 0; 0; 0; 0;
   0; 60; 102; 102; 102; 102; 102; 102; 60; 0; 0; 0; 0; 0; 0; 0;
   0; 124; 102; 102; 124; 96; 96; 96; 96; 0; 0; 0; 0; 0; 0; 0;
   0; 60; 102; 102; 102; 102; 118; 108; 54; 0; 0; 0; 0; 0; 0; 0;
   0; 124; 102; 102; 124; 108; 102; 102; 99; 0; 0; 0; 0; 0; 0; 0;
   0; 60; 102; 96; 60; 6; 6; 102; 60; 0; 0; 0; 0; 0; 0; 0;
   0; 126; 24; 24; 24; 24; 24; 24; 24; 0; 0; 0; 0; 0; 0; 0;
   0; 102; 102; 102; 102; 102; 102; 102; 60; 0; 0; 0; 0; 0; 0; 0;
   0; 102; 102; 102; 102; 102; 102; 60; 24; 0; 0; 0; 0; 0; 0; 0;
   0; 99; 99; 99; 107; 127; 119; 99; 99; 0; 0; 0; 0; 0; 0; 0;
   0; 99; 99; 54; 28; 28; 54; 99; 99; 0; 0; 0; 0; 0; 0; 0;
   0; 102; 102; 102; 60; 24; 24; 24; 24; 0; 0; 0; 0; 0; 0; 0;
   0; 126; 6; 12; 24; 48; 96; 96; 126; 0; 0; 0; 0; 0; 0; 0;
   0; 60; 48; 48; 48; 48; 48; 48; 60; 0; 0; 0; 0; 0; 0; 0;
   0; 96; 96; 48; 24; 12; 6; 6; 0; 0; 0; 0; 0; 0; 0; 0;
   0; 60; 12; 12; 12; 12; 12; 12; 60; 0; 0; 0; 0; 0; 0; 0;
   0; 24; 60; 102; 0; 0; 0; 0; 0; 0; 0; 0; 0; 0; 0; 0;
   0; 0; 0; 0; 0; 0; 0; 0; 0; 126; 0; 0; 0; 0; 0; 0;
   0; 24; 12; 0; 0; 0; 0; 0; 0; 0; 0; 0; 0; 0; 0; 0;
   0; 0; 0; 60; 6; 62; 102; 102; 62; 0; 0; 0; 0; 0; 0; 0;
   0; 96; 96; 124; 102; 102; 102; 102; 124; 0; 0; 0; 0; 0; 0; 0;
   0; 0; 0; 60; 102; 96; 96; 102; 60; 0; 0; 0; 0; 0; 0; 0;
   0; 6; 6; 62; 102; 102; 102; 102; 62; 0; 0; 0; 0; 0; 0; 0;
   0; 0; 0; 60; 102; 126; 96; 102; 60; 0; 0; 0; 0; 0; 0; 0;
   0; 28; 48; 48; 124; 48; 48; 48; 48; 0; 0; 0; 0; 0; 0; 0;
   0; 0; 62; 102; 102; 62; 6; 60; 0; 0; 0; 0; 0; 0; 0; 0;
   0; 96; 96; 124; 102; 102; 102; 102; 102; 0; 0; 0; 0; 0; 0; 0;
   0; 24; 0; 56; 24; 24; 24; 24; 60; 0; 0; 0; 0; 0; 0; 0;
   0; 6; 0; 14; 6; 6; 6; 6; 102; 60; 0; 0; 0; 0; 0; 0;
   0; 96; 96; 102; 108; 120; 108; 102; 99; 0; 0; 0; 0; 0; 0; 0;
   0; 56; 24; 24; 24; 24; 24; 24; 60; 0; 0; 0; 0; 0; 0; 0;
   0; 0; 0; 118; 127; 107; 99; 99; 99; 0; 0; 0; 0; 0; 0; 0;
   0; 0; 0; 124; 102; 102; 102; 102; 102; 0; 0; 0; 0; 0; 0; 0;
   0; 0; 0; 60; 102; 102; 102; 102; 60; 0; 0; 0; 0; 0; 0; 0;
   0; 0; 124; 102; 102; 124; 96; 96; 96; 0; 0; 0; 0; 0; 0; 0;
   0; 0; 62; 102; 102; 62; 6; 6; 7; 0; 0; 0; 0; 0; 0; 0;
   0; 0; 0; 108; 118; 96; 96; 96; 96; 0; 0; 0; 0; 0; 0; 0;
   0; 0; 0; 62; 96; 60; 6; 6; 124; 0; 0; 0; 0; 0; 0; 0;
   0; 48; 48; 126; 48; 48; 48; 48; 30; 0; 0; 0; 0; 0; 0; 0;
   0; 0; 0; 102; 102; 102; 102; 102; 62; 0; 0; 0; 0; 0; 0; 0;
   0; 0; 0; 102; 102; 102; 102; 60; 24; 0; 0; 0; 0; 0; 0; 0;
   0; 0; 0; 99; 99; 107; 127; 119; 99; 0; 0; 0; 0; 0; 0; 0;
   0; 0; 0; 99; 54; 28; 28; 54; 99; 0; 0; 0; 0; 0; 0; 0;
   0; 0; 102; 102; 102; 62; 6; 60; 0; 0; 0; 0; 0; 0; 0; 0;
   0; 0; 0; 126; 12; 24; 48; 96; 126; 0; 0; 0; 0; 0; 0; 0;
   0; 14; 24; 24; 48; 96; 48; 24; 24; 14; 0; 0; 0; 0; 0; 0;
   0; 24; 24; 24; 24; 24; 24; 24; 24; 24; 0; 0; 0; 0; 0; 0;
   0; 112; 24; 24; 12; 6; 12; 24; 24; 112; 0; 0; 0; 0; 0; 0;
   0; 118; 220; 0; 0; 0; 0; 0; 0; 0; 0; 0; 0; 0; 0; 0;
   255; 255; 255; 255; 255; 255; 255; 255; 255; 255; 255; 255; 255; 255; 255; 255].
