(* ===== verification/Framebuffer.v ===== *)
(** * drivers/framebuffer/framebuffer.c: drawing and the text terminal

    The frame buffer is a range of byte memory, read and written through
    [g_fb_mem] as 32-bit pixels.  Arithmetic on [uint32_t] wraps as in the code; a
    loop [for (row = y; row < y + h && row < height; row++)] counts to the smaller
    bound.  A [char] is its byte value. *)
From S2P Require Import Prelude Mem LibString Font.

Definition FONT_W : Z := 8.
Definition FONT_H : Z := 16.
Definition RGB (r g b : Z) : Z := wrap32 (Z.lor (Z.lor (Z.shiftl r 16) (Z.shiftl g 8)) b).
Definition COLOR_BG : Z := RGB 18 18 31.
Definition COLOR_TEXT : Z := RGB 203 213 225.

Record fb_info : Type := mk_fb_info {
  addr : Z;
  pitch : Z;
  width : Z;
  height : Z;
  bpp : Z;
  fb_type : Z;
}.

(** The static variables and memory. *)
Record fb : Type := mk_fb {
  g_fb : fb_info;
  g_fb_mem : Z;
  term_col : Z;
  term_row : Z;
  term_fg : Z;
  term_bg : Z;
  fb_mem : mem;
}.

Definition fb_static (m : mem) : fb := mk_fb (mk_fb_info 0 0 0 0 0 0) 0 0 0 COLOR_TEXT COLOR_BG m.

Definition fb_with_mem (m : mem) (s : fb) : fb :=
  mk_fb (g_fb s) (g_fb_mem s) (term_col s) (term_row s) (term_fg s) (term_bg s) m.
Definition with_cursor (c r : Z) (s : fb) : fb :=
  mk_fb (g_fb s) (g_fb_mem s) c r (term_fg s) (term_bg s) (fb_mem s).

(** [ptr[i] = color] for a pointer to [uint32_t]. *)
Definition put_word (ptr i color : Z) (s : fb) : fb := fb_with_mem (store32 (fb_mem s) (ptr + 4 * i) color) s.

(** ** Pixel operations *)

Definition fb_set_pixel (x y color : Z) (s : fb) : fb :=
  if (g_fb_mem s =? 0) || (width (g_fb s) <=? x) || (height (g_fb s) <=? y) then s
  else
    let offset := (y *₃₂ (pitch (g_fb s) / 4)) +₃₂ x in
    put_word (g_fb_mem s) offset color s.

Definition fb_fill_rect (x y w h color : Z) (s : fb) : fb :=
  c_for y (Z.min (y +₃₂ h) (height (g_fb s)))
    (fun row s =>
       let line := g_fb_mem s + 4 * (row *₃₂ (pitch (g_fb s) / 4)) in
       c_for x (Z.min (x +₃₂ w) (width (g_fb s))) (fun col s => put_word line col color s) s) s.

Definition fb_draw_hline (x y len color : Z) (s : fb) : fb := fb_fill_rect x y len 1 color s.

Definition fb_draw_vline (x y len color : Z) (s : fb) : fb :=
  c_for 0 len (fun i s => fb_set_pixel x (y +₃₂ i) color s) s.

Definition fb_draw_rect_outline (x y w h color : Z) (s : fb) : fb :=
  let s := fb_draw_hline x y w color s in
  let s := fb_draw_hline x ((y +₃₂ h) -₃₂ 1) w color s in
  let s := fb_draw_vline x y h color s in
  fb_draw_vline ((x +₃₂ w) -₃₂ 1) y h color s.

Definition fb_clear (color : Z) (s : fb) : fb :=
  if g_fb_mem s =? 0 then s
  else
    let total := (pitch (g_fb s) / 4) *₃₂ height (g_fb s) in
    c_for 0 total (fun i s => put_word (g_fb_mem s) i color s) s.

Definition fb_init (info : fb_info) (s : fb) : fb :=
  let s := mk_fb info (addr info) (term_col s) (term_row s) (term_fg s) (term_bg s) (fb_mem s) in
  fb_clear COLOR_BG s.

Definition fb_get_info (s : fb) : fb_info := g_fb s.

(** ** Character rendering *)

(** The glyph of a character and its rows. *)
Definition glyph_index (c : Z) : Z :=
  let idx := wrap8 (if wrap8 c <? 32 then 63 - 32 else wrap8 c - 32) in
  if 96 <=? idx then 0 else idx.
Definition glyph_row (idx row : Z) : Z := font8x16 !!! Z.to_nat (idx * FONT_H + row).
Definition glyph_set (bits col : Z) : bool := negb (Z.land (Z.shiftr bits (7 - col)) 1 =? 0).

Definition fb_draw_char (x y c fg bg : Z) (s : fb) : fb :=
  if g_fb_mem s =? 0 then s
  else
    let idx := glyph_index c in
    c_for 0 FONT_H
      (fun row s =>
         let bits := glyph_row idx row in
         c_for 0 FONT_W
           (fun col s => fb_set_pixel (x +₃₂ col) (y +₃₂ row) (if glyph_set bits col then fg else bg) s) s) s.

(** The loop of [fb_draw_string], from column [cx]. *)
Fixpoint draw_string_loop (x cx y : Z) (str : list Z) (fg bg : Z) (s : fb) : fb :=
  match str with
  | [] => s
  | c :: str' =>
      if c =? 10 then draw_string_loop x x (y +₃₂ FONT_H) str' fg bg s
      else draw_string_loop x (cx +₃₂ FONT_W) y str' fg bg (fb_draw_char cx y c fg bg s)
  end.
Definition fb_draw_string (x y : Z) (str : list Z) (fg bg : Z) (s : fb) : fb :=
  draw_string_loop x x y str fg bg s.

(** ** The terminal *)

Definition fb_scroll_up (lines : Z) (s : fb) : fb :=
  let bytes_per_row := pitch (g_fb s) in
  let scroll_pixels := lines *₃₂ FONT_H in
  let keep_bytes := (height (g_fb s) -₃₂ scroll_pixels) *₃₂ bytes_per_row in
  let s := fb_with_mem
    (memmove (g_fb_mem s) (g_fb_mem s + (scroll_pixels *₃₂ bytes_per_row)) keep_bytes (fb_mem s)) s in
  fb_fill_rect 0 (height (g_fb s) -₃₂ scroll_pixels) (width (g_fb s)) scroll_pixels (term_bg s) s.

Definition fb_term_init (s : fb) : fb :=
  mk_fb (g_fb s) (g_fb_mem s) 0 0 COLOR_TEXT COLOR_BG (fb_mem s).

Definition fb_term_set_color (fg bg : Z) (s : fb) : fb :=
  mk_fb (g_fb s) (g_fb_mem s) (term_col s) (term_row s) fg bg (fb_mem s).

Definition fb_term_putc (c : Z) (s : fb) : fb :=
  if g_fb_mem s =? 0 then s
  else
    let cols := width (g_fb s) / FONT_W in
    let rows := height (g_fb s) / FONT_H in
    let s :=
      if c =? 10 then with_cursor 0 (term_row s +₃₂ 1) s
      else if c =? 13 then with_cursor 0 (term_row s) s
      else if c =? 8 then
        if 0 <? term_col s then
          let s := with_cursor (term_col s - 1) (term_row s) s in
          fb_draw_char (term_col s *₃₂ FONT_W) (term_row s *₃₂ FONT_H) 32 (term_fg s) (term_bg s) s
        else s
      else
        let s := fb_draw_char (term_col s *₃₂ FONT_W) (term_row s *₃₂ FONT_H) c (term_fg s) (term_bg s) s in
        let s := with_cursor (term_col s +₃₂ 1) (term_row s) s in
        if cols <=? term_col s then with_cursor 0 (term_row s +₃₂ 1) s else s in
    if rows <=? term_row s then
      let s := fb_scroll_up 1 s in
      with_cursor (term_col s) (rows -₃₂ 1) s
    else s.

Definition fb_term_puts (str : list Z) (s : fb) : fb := fold_left (fun s c => fb_term_putc c s) str s.

(** The driver's probe: -1 without a frame buffer. *)
Definition fb_probe (s : fb) : Z * fb := if g_fb_mem s =? 0 then (-1, s) else (0, fb_term_init s).
