(* ===== verification/FramebufferSpec.v ===== *)
(** * Properties of the frame buffer

    What each drawing operation does to the pixels, that none writes outside the
    frame buffer, and that the terminal shows a grid of characters. *)
From S2P Require Import Prelude Mem LibString Font Framebuffer.

(** A frame buffer of 32-bit pixels whose rows do not overlap. *)
Record geometry (i : fb_info) : Prop := mk_geometry {
  ge_addr : 0 < addr i;
  ge_pitch : pitch i mod 4 = 0;
  ge_width : 0 < width i ∧ 4 * width i ≤ pitch i;
  ge_height : 0 < height i;
  ge_size : pitch i * height i < 4294967296;
}.

Record fb_wf (s : fb) : Prop := mk_fb_wf {
  fw_geometry : geometry (g_fb s);
  fw_mem : g_fb_mem s = addr (g_fb s);
  fw_bytes : mem_bytes (fb_mem s);
}.

Definition stride (s : fb) : Z := pitch (g_fb s) / 4.
Definition fb_size (s : fb) : Z := pitch (g_fb s) * height (g_fb s).
Definition word_addr (s : fb) (i : Z) : Z := g_fb_mem s + 4 * i.
Definition pixel (s : fb) (x y : Z) : Z := load32 (fb_mem s) (word_addr s (y * stride s + x)).
Definition on_screen (s : fb) (x y : Z) : Prop := 0 ≤ x < width (g_fb s) ∧ 0 ≤ y < height (g_fb s).

(** From [s] to [s'] the pixels [f] gives a colour for take it, the others keep
    theirs; nothing else of the state and no byte outside the frame buffer changes. *)
Record draws (s s' : fb) (f : Z → Z → option Z) : Prop := mk_draws {
  dr_state : s' = fb_with_mem (fb_mem s') s;
  dr_pixel : ∀ x y, on_screen s x y → pixel s' x y = default (pixel s x y) (f x y);
  dr_out : ∀ a, a < g_fb_mem s ∨ g_fb_mem s + fb_size s ≤ a → fb_mem s' a = fb_mem s a;
  dr_bytes : mem_bytes (fb_mem s');
}.

Section Draw.
Implicit Types s : fb.

Lemma stride_facts s :
  fb_wf s → pitch (g_fb s) = 4 * stride s ∧ 0 < width (g_fb s) ≤ stride s ∧ 0 < height (g_fb s) ∧
  stride s * height (g_fb s) < 1073741824 ∧ fb_size s = 4 * (stride s * height (g_fb s)) ∧ g_fb_mem s ≠ 0.
Proof.
  intros [[Ha Hp [Hw1 Hw2] Hh Hs] Hm _]. unfold stride, fb_size.
  assert (pitch (g_fb s) = 4 * (pitch (g_fb s) / 4)) as E by (Z.div_mod_to_equations; lia).
  split_and!; try lia. all: rewrite E in Hs at 1; nia.
Qed.

Lemma draws_refl s : mem_bytes (fb_mem s) → draws s s (fun _ _ => None).
Proof. intros H. split; try done. by destruct s. Qed.

Lemma draws_ext s s' f g :
  draws s s' f → (∀ x y, on_screen s x y → f x y = g x y) → draws s s' g.
Proof. intros [H1 H2 H3 H4] He. split; try done. intros x y Hxy. rewrite <- He by done. by apply H2. Qed.

Lemma draws_config s s' f :
  draws s s' f → g_fb s' = g_fb s ∧ g_fb_mem s' = g_fb_mem s ∧ term_col s' = term_col s ∧
  term_row s' = term_row s ∧ term_fg s' = term_fg s ∧ term_bg s' = term_bg s.
Proof. intros [-> _ _ _]. done. Qed.

Lemma draws_wf s s' f : draws s s' f → fb_wf s → fb_wf s'.
Proof.
  intros Hd [Hg Hm Hb]. destruct (draws_config _ _ _ Hd) as (E1 & E2 & _).
  split; [by rewrite E1|by rewrite E1, E2|apply Hd].
Qed.

Definition overlay (f g : Z → Z → option Z) (x y : Z) : option Z :=
  match g x y with Some c => Some c | None => f x y end.

Lemma draws_trans s1 s2 s3 f g : draws s1 s2 f → draws s2 s3 g → draws s1 s3 (overlay f g).
Proof.
  intros Hf Hg. destruct (draws_config _ _ _ Hf) as (E1 & E2 & _).
  destruct Hf as [A1 A2 A3 A4], Hg as [B1 B2 B3 B4]. unfold fb_size, on_screen in *. rewrite E1, E2 in *.
  split; [rewrite B1, A1; done| | |done].
  - intros x y Hxy. rewrite B2 by done. unfold overlay. destruct (g x y); [done|]. by apply A2.
  - intros a Ha. rewrite B3, A3 by done. done.
Qed.

(** Two words of the buffer are the same or apart. *)
Lemma put_word_draws s x y v f :
  fb_wf s → on_screen s x y →
  (∀ px py, on_screen s px py → f px py = if (px =? x) && (py =? y) then Some (wrap32 v) else None) →
  draws s (put_word (g_fb_mem s) (y * stride s + x) v s) f.
Proof.
  intros Hw [Hx Hy] Hf. destruct (stride_facts s Hw) as (Ep & Hwd & Hh & Hsz & Efs & Hnz).
  unfold put_word. split; cbn [fb_mem fb_with_mem g_fb_mem g_fb].
  - done.
  - intros px py Hp. rewrite (Hf px py Hp). unfold pixel, word_addr. cbn [fb_mem fb_with_mem g_fb_mem stride g_fb].
    change (stride (fb_with_mem _ s)) with (stride s).
    destruct Hp as [Hpx Hpy]. destruct (Z.eqb_spec px x) as [->|Hne]; cbn [andb].
    + destruct (Z.eqb_spec py y) as [->|Hne]; [apply load32_store32_same|].
      rewrite load32_store32_other; [done|]. cbn [default id]. nia.
    + rewrite load32_store32_other; [done|].
      destruct (Z.lt_trichotomy py y) as [|[->|]]; nia.
  - intros a Ha. rewrite Efs in Ha. apply store32_other. nia.
  - unfold store32. repeat apply store8_bytes. apply Hw.
Qed.

Lemma pixel_offset s x y :
  fb_wf s → on_screen s x y →
  (y *₃₂ (pitch (g_fb s) / 4)) +₃₂ x = y * stride s + x ∧ y *₃₂ (pitch (g_fb s) / 4) = y * stride s.
Proof.
  intros Hw [Hx Hy]. destruct (stride_facts s Hw) as (Ep & Hwd & Hh & Hsz & _). fold (stride s).
  rewrite (wrap32_small (y * stride s)) by nia. split; [|done]. apply wrap32_small. nia.
Qed.

Lemma set_pixel_draws s x y v :
  fb_wf s → 0 ≤ x → 0 ≤ y →
  draws s (fb_set_pixel x y v s) (fun px py => if (px =? x) && (py =? y) then Some (wrap32 v) else None).
Proof.
  intros Hw Hx Hy. destruct (stride_facts s Hw) as (Ep & Hwd & Hh & Hsz & Efs & Hnz).
  unfold fb_set_pixel. destruct (Z.eqb_spec (g_fb_mem s) 0); [done|]. cbn [orb].
  destruct (Z.leb_spec (width (g_fb s)) x), (Z.leb_spec (height (g_fb s)) y); cbn [orb].
  4: { destruct (pixel_offset s x y Hw) as [-> _]; [split; lia|]. apply put_word_draws; [done|split; lia|done]. }
  all: eapply draws_ext; [apply draws_refl, Hw|]; intros px py [Hpx Hpy];
    destruct (Z.eqb_spec px x), (Z.eqb_spec py y); try done; lia.
Qed.

(** Loops that draw more and more. *)
Lemma draws_for s lo hi body (F : Z → Z → Z → option Z) :
  fb_wf s → lo ≤ hi → (∀ x y, on_screen s x y → F lo x y = None) →
  (∀ i s1, lo ≤ i < hi → fb_wf s1 → draws s s1 (F i) → ∃ f, draws s1 (body i s1) f ∧
     ∀ x y, on_screen s x y → overlay (F i) f x y = F (i + 1) x y) →
  draws s (c_for lo hi body s) (F hi).
Proof.
  intros Hw Hle H0 Hstep. apply (c_for_inv (fun i s1 => draws s s1 (F i))); [done| |].
  - eapply draws_ext; [apply draws_refl, Hw|]. intros x y Hxy. by rewrite H0.
  - intros i s1 Hi Hd. destruct (Hstep i s1 Hi (draws_wf _ _ _ Hd Hw) Hd) as (f & Hf & He).
    eapply draws_ext; [by eapply draws_trans|done].
Qed.

Lemma put_word_shift p k i v s : put_word (p + 4 * k) i v s = put_word p (k + i) v s.
Proof. unfold put_word. do 2 f_equal. lia. Qed.

(** The pixels of a rectangle, its far sides computed with wrap-around. *)
Definition rect (x y x' y' v px py : Z) : option Z :=
  if (x <=? px) && (px <? x') && (y <=? py) && (py <? y') then Some (wrap32 v) else None.

Ltac rect_cases := unfold rect, overlay in *; zcases; try done; try lia.

Lemma fill_row_draws s x x' row v :
  fb_wf s → 0 ≤ x → 0 ≤ row < height (g_fb s) →
  draws s (c_for x (Z.min x' (width (g_fb s))) (fun col s0 => put_word (g_fb_mem s + 4 * (row *₃₂ (pitch (g_fb s) / 4))) col v s0) s)
    (rect x row x' (row + 1) v).
Proof.
  intros Hw Hx Hrow. destruct (Z.le_gt_cases x (Z.min x' (width (g_fb s)))) as [Hle|Hgt].
  2: { rewrite c_for_empty by lia. eapply draws_ext; [apply draws_refl, Hw|].
       intros px py [Hpx Hpy]. rect_cases. }
  apply (draws_ext _ _ (rect x row (Z.min x' (width (g_fb s))) (row + 1) v)).
  2: { intros px py [Hpx Hpy]. rect_cases. }
  apply (draws_for s x _ _ (fun i => rect x row i (row + 1) v)); [done|done| |].
  - intros px py _. rect_cases.
  - intros i s1 Hi Hw1 Hd. destruct (draws_config _ _ _ Hd) as (E1 & E2 & _).
    assert (on_screen s1 i row) as Hon by (split; rewrite E1; lia).
    exists (fun px py => if (px =? i) && (py =? row) then Some (wrap32 v) else None). split.
    + cbv beta. rewrite <- E1, <- E2, put_word_shift.
      destruct (pixel_offset s1 i row Hw1 Hon) as [_ ->]. by apply put_word_draws.
    + intros px py _. rect_cases.
Qed.

Lemma fill_rect_draws s x y w h v :
  fb_wf s → 0 ≤ x → 0 ≤ y →
  draws s (fb_fill_rect x y w h v s) (rect x y (x +₃₂ w) (y +₃₂ h) v).
Proof.
  intros Hw Hx Hy. unfold fb_fill_rect.
  destruct (Z.le_gt_cases y (Z.min (y +₃₂ h) (height (g_fb s)))) as [Hle|Hgt].
  2: { rewrite c_for_empty by lia. eapply draws_ext; [apply draws_refl, Hw|].
       intros px py [Hpx Hpy]. rect_cases. }
  apply (draws_ext _ _ (rect x y (x +₃₂ w) (Z.min (y +₃₂ h) (height (g_fb s))) v)).
  2: { intros px py [Hpx Hpy]. rect_cases. }
  apply (draws_for s y _ _ (fun i => rect x y (x +₃₂ w) i v)); [done|done| |].
  - intros px py _. rect_cases.
  - intros i s1 Hi Hw1 Hd. destruct (draws_config _ _ _ Hd) as (E1 & E2 & _).
    exists (rect x i (x +₃₂ w) (i + 1) v). split.
    + cbv beta zeta. apply fill_row_draws; [done|done|]. rewrite E1. lia.
    + intros px py _. rect_cases.
Qed.

(** Clearing runs over the words of the buffer in order. *)
Lemma clear_draws s v : fb_wf s → draws s (fb_clear v s) (fun _ _ => Some (wrap32 v)).
Proof.
  intros Hw. destruct (stride_facts s Hw) as (Ep & Hwd & Hh & Hsz & Efs & Hnz).
  unfold fb_clear. destruct (Z.eqb_spec (g_fb_mem s) 0); [done|]. fold (stride s).
  rewrite wrap32_small by nia.
  set (done_ := fun i s1 => s1 = fb_with_mem (fb_mem s1) s ∧ mem_bytes (fb_mem s1) ∧
    (∀ a, a < g_fb_mem s ∨ g_fb_mem s + 4 * i ≤ a → fb_mem s1 a = fb_mem s a) ∧
    (∀ j, 0 ≤ j < i → load32 (fb_mem s1) (word_addr s j) = wrap32 v)).
  assert (done_ (stride s * height (g_fb s)) (c_for 0 (stride s * height (g_fb s))
    (fun i s0 => put_word (g_fb_mem s0) i v s0) s)) as (H1 & H2 & H3 & H4).
  { apply (c_for_inv done_); [nia| |].
    - unfold done_. split_and!; [by destruct s|apply Hw|done|lia].
    - intros i s1 Hi (H1 & H2 & H3 & H4).
      assert (g_fb_mem s1 = g_fb_mem s) as -> by (by rewrite H1).
      unfold done_, put_word. cbn [fb_mem fb_with_mem]. split_and!.
      + rewrite H1. done.
      + unfold store32. by repeat apply store8_bytes.
      + intros a Ha. rewrite store32_other by lia. apply H3. lia.
      + intros j Hj. unfold word_addr. destruct (Z.eq_dec j i) as [->|Hne]; [apply load32_store32_same|].
        rewrite load32_store32_other by lia. apply H4. lia. }
  split; [exact H1| | |exact H2].
  - intros x y [Hx Hy]. cbn [default id]. rewrite <- (H4 (y * stride s + x)) by nia.
    unfold pixel, word_addr. rewrite H1. done.
  - intros a Ha. apply H3. lia.
Qed.

(** ** Characters *)

(** The colour of the pixel at column [i], row [j] of a character cell. *)
Definition ink (c fg bg i j : Z) : Z :=
  if glyph_set (glyph_row (glyph_index c) j) i then wrap32 fg else wrap32 bg.
Definition cell (x y c fg bg px py : Z) : option Z :=
  if (x <=? px) && (px <? x + 8) && (y <=? py) && (py <? y + 16) then Some (ink c fg bg (px - x) (py - y)) else None.

Lemma draw_char_draws s x y c fg bg :
  fb_wf s → 0 ≤ x ≤ 4294967288 → 0 ≤ y ≤ 4294967280 →
  draws s (fb_draw_char x y c fg bg s) (cell x y c fg bg).
Proof.
  intros Hw Hx Hy. destruct (stride_facts s Hw) as (_ & _ & _ & _ & _ & Hnz).
  unfold fb_draw_char. destruct (Z.eqb_spec (g_fb_mem s) 0); [done|]. unfold FONT_H, FONT_W.
  set (upto := fun (r k px py : Z) =>
    if (x <=? px) && (y <=? py) && (((py <? y + r) && (px <? x + 8)) || ((py =? y + r) && (px <? x + k)))
    then Some (ink c fg bg (px - x) (py - y)) else None).
  apply (draws_ext _ _ (upto 16 0)).
  2: { intros px py _. unfold upto, cell. zcases; (done || lia). }
  apply (draws_for s 0 16 _ (fun r => upto r 0)); [done|done| |].
  { intros px py _. unfold upto. zcases; (done || lia). }
  intros r s1 Hr Hw1 Hd1. exists (fun px py => if (x <=? px) && (px <? x + 8) && (py =? y + r)
    then Some (ink c fg bg (px - x) (py - y)) else None). split.
  2: { intros px py _. unfold upto, overlay. zcases; (done || lia). }
  set (part := fun (k px py : Z) => if (x <=? px) && (px <? x + k) && (py =? y + r)
    then Some (ink c fg bg (px - x) (py - y)) else None).
  apply (draws_for s1 0 8 _ part); [done|done| |].
  { intros px py _. unfold part. zcases; (done || lia). }
  intros k s2 Hk Hw2 Hd2. rewrite !wrap32_small by lia.
  eexists. split; [apply set_pixel_draws; [done|lia|lia]|].
  intros px py _. unfold part, overlay, ink.
  destruct (Z.eqb_spec px (x + k)) as [->|Hne]; cbn [andb].
  - destruct (Z.eqb_spec py (y + r)) as [->|Hne2]; zcases; try lia; try done.
    replace (x + k - x) with k by lia. replace (y + r - y) with r by lia.
    by destruct (glyph_set _ k).
  - zcases; (done || lia).
Qed.
End Draw.

(** ** Scrolling *)

Lemma load32_shift m m' a b :
  (∀ j, 0 ≤ j < 4 → m' (a + j) = m (b + j)) → load32 m' a = load32 m b.
Proof.
  intros H. unfold load32. pose proof (H 0 ltac:(lia)) as H0. rewrite !Z.add_0_r in H0.
  by rewrite H0, !H by lia.
Qed.

Section Scroll.
Implicit Types s : fb.

Lemma moved_draws s k :
  fb_wf s → 0 ≤ k ≤ height (g_fb s) →
  draws s (fb_with_mem (memmove (g_fb_mem s) (g_fb_mem s + k * pitch (g_fb s))
             ((height (g_fb s) - k) * pitch (g_fb s)) (fb_mem s)) s)
    (fun px py => if py <? height (g_fb s) - k then Some (pixel s px (py + k)) else None).
Proof.
  intros Hw Hk. destruct (stride_facts s Hw) as (Ep & Hwd & Hh & Hsz & Efs & Hnz).
  pose proof (fw_bytes s Hw) as Hb. rewrite Ep.
  set (st := stride s) in *. set (H := height (g_fb s)) in *.
  assert (0 ≤ (H - k) * (4 * st)) as Hn by nia.
  assert (∀ x, memmove (g_fb_mem s) (g_fb_mem s + k * (4 * st)) ((H - k) * (4 * st)) (fb_mem s) x =
    if (g_fb_mem s <=? x) && (x <? g_fb_mem s + (H - k) * (4 * st))
    then fb_mem s (g_fb_mem s + k * (4 * st) + (x - g_fb_mem s)) else fb_mem s x) as Hm
    by (intros; by apply memmove_at).
  split; cbn [fb_mem fb_with_mem g_fb_mem g_fb].
  - done.
  - intros x y [Hx Hy]. fold H in Hy. unfold pixel, word_addr. cbn [fb_mem fb_with_mem g_fb_mem].
    change (stride (fb_with_mem _ s)) with st. fold st.
    destruct (Z.ltb_spec y (H - k)) as [Hlt|Hge]; cbn [default id].
    + apply load32_shift. intros j Hj. rewrite Hm.
      destruct (Z.leb_spec (g_fb_mem s) (g_fb_mem s + 4 * (y * st + x) + j)); [|nia].
      destruct (Z.ltb_spec (g_fb_mem s + 4 * (y * st + x) + j) (g_fb_mem s + (H - k) * (4 * st))); [|nia].
      cbn [andb]. f_equal. ring.
    + apply load32_ext. intros a Ha. rewrite Hm.
      destruct (Z.leb_spec (g_fb_mem s) a); [|done].
      destruct (Z.ltb_spec a (g_fb_mem s + (H - k) * (4 * st))); [nia|done].
  - intros a Ha. rewrite Efs in Ha. rewrite Hm.
    destruct (Z.leb_spec (g_fb_mem s) a); [|done].
    destruct (Z.ltb_spec a (g_fb_mem s + (H - k) * (4 * st))); [nia|done].
  - intros a. rewrite Hm. destruct (_ && _); apply Hb.
Qed.

(** Scrolling by whole text lines moves the picture up and fills the bottom. *)
Lemma scroll_draws s lines :
  fb_wf s → 0 ≤ lines → 16 * lines ≤ height (g_fb s) →
  draws s (fb_scroll_up lines s)
    (fun px py => if py <? height (g_fb s) - 16 * lines then Some (pixel s px (py + 16 * lines))
                  else Some (wrap32 (term_bg s))).
Proof.
  intros Hw Hl Hk. destruct (stride_facts s Hw) as (Ep & Hwd & Hh & Hsz & Efs & Hnz).
  assert (height (g_fb s) < 1073741824 ∧ width (g_fb s) < 1073741824) as [Hhs Hws] by nia.
  unfold fb_scroll_up, FONT_H. rewrite (wrap32_small (lines * 16)) by lia. cbv zeta.
  replace (16 * lines) with (lines * 16) in * by lia.
  assert (0 ≤ lines * 16) as Hk0 by lia. generalize dependent (lines * 16). intros k Hk Hk0.
  assert (0 ≤ k * pitch (g_fb s) < 4294967296 ∧ 0 ≤ (height (g_fb s) - k) * pitch (g_fb s) < 4294967296) as [Hk1 Hk2].
  { rewrite Ep. nia. }
  rewrite (wrap32_small (height (g_fb s) - k)) by lia. rewrite (wrap32_small _ Hk1), (wrap32_small _ Hk2).
  pose proof (moved_draws s k Hw ltac:(lia)) as Hd. set (s1 := fb_with_mem _ s) in *.
  destruct (draws_config _ _ _ Hd) as (E1 & _ & _ & _ & _ & E6).
  pose proof (draws_wf _ _ _ Hd Hw) as Hw1.
  eapply draws_ext;
    [eapply draws_trans; [exact Hd|apply fill_rect_draws; [done|lia|apply wrap32_range]]|].
  intros px py [Hpx Hpy]. rewrite E1, E6. unfold overlay, rect.
  rewrite (wrap32_small (height (g_fb s) - k)) by lia. rewrite !wrap32_small by lia. zcases; (done || lia).
Qed.
End Scroll.

(** ** The terminal *)

Module Term.
Record screen : Type := mk_screen {
  ccol : Z;
  crow : Z;
  cells : Z → Z → Z;      (* row, column *)
}.

Definition blank : Z → Z → Z := fun _ _ => 32.
Definition initial : screen := mk_screen 0 0 blank.

Definition set_cell (r c ch : Z) (g : Z → Z → Z) : Z → Z → Z :=
  fun r' c' => if (r' =? r) && (c' =? c) then ch else g r' c'.
Definition scrolled (rows : Z) (g : Z → Z → Z) : Z → Z → Z :=
  fun r c => if r <? rows - 1 then g (r + 1) c else 32.

(** The cursor moves down; on the last row the text moves up instead. *)
Definition line_feed (rows : Z) (t : screen) : screen :=
  if crow t + 1 <? rows then mk_screen (ccol t) (crow t + 1) (cells t)
  else mk_screen (ccol t) (rows - 1) (scrolled rows (cells t)).

Definition putc (cols rows c : Z) (t : screen) : screen :=
  if c =? 10 then line_feed rows (mk_screen 0 (crow t) (cells t))
  else if c =? 13 then mk_screen 0 (crow t) (cells t)
  else if c =? 8 then
    if 0 <? ccol t then mk_screen (ccol t - 1) (crow t) (set_cell (crow t) (ccol t - 1) 32 (cells t)) else t
  else
    let g := set_cell (crow t) (ccol t) c (cells t) in
    if ccol t + 1 <? cols then mk_screen (ccol t + 1) (crow t) g
    else line_feed rows (mk_screen 0 (crow t) g).

Definition puts (cols rows : Z) (str : list Z) (t : screen) : screen :=
  fold_left (fun t c => putc cols rows c t) str t.
End Term.

Definition cols (s : fb) : Z := width (g_fb s) / FONT_W.
Definition rows (s : fb) : Z := height (g_fb s) / FONT_H.

(** The picture is a grid of glyphs in the terminal's colours; below the last row
    of text is background. *)
Record displays (s : fb) (g : Z → Z → Z) : Prop := mk_displays {
  di_wf : fb_wf s;
  di_room : FONT_W ≤ width (g_fb s) ∧ FONT_H ≤ height (g_fb s);
  di_cells : ∀ r c i j, 0 ≤ r < rows s → 0 ≤ c < cols s → 0 ≤ i < 8 → 0 ≤ j < 16 →
    pixel s (8 * c + i) (16 * r + j) = ink (g r c) (term_fg s) (term_bg s) i j;
  di_rest : ∀ x y, 0 ≤ x < 8 * cols s → 16 * rows s ≤ y < height (g_fb s) →
    pixel s x y = wrap32 (term_bg s);
}.

Record shows (s : fb) (t : Term.screen) : Prop := mk_shows {
  sh_displays : displays s (Term.cells t);
  sh_col : term_col s = Term.ccol t ∧ 0 ≤ Term.ccol t < cols s;
  sh_row : term_row s = Term.crow t ∧ 0 ≤ Term.crow t < rows s;
}.

Section Terminal.
Implicit Types s : fb.

Lemma blank_ink fg bg i j : 0 ≤ i < 8 → 0 ≤ j < 16 → ink 32 fg bg i j = wrap32 bg.
Proof.
  intros Hi Hj. unfold ink. replace (glyph_row (glyph_index 32) j) with 0; [|
    assert (Z.to_nat j < 16)%nat as Hk by lia; unfold glyph_row; change (glyph_index 32) with 0;
    replace (Z.to_nat (0 * FONT_H + j)) with (Z.to_nat j) by (unfold FONT_H; lia); revert Hk; generalize (Z.to_nat j);
    intros n Hn; do 16 (destruct n as [|n]; [reflexivity|]); lia].
  unfold glyph_set. by rewrite Z.shiftr_0_l.
Qed.

Lemma grid_facts s g :
  displays s g → 1 ≤ cols s ∧ 8 * cols s ≤ width (g_fb s) ∧ 1 ≤ rows s ∧ 16 * rows s ≤ height (g_fb s) ∧
  height (g_fb s) < 16 * rows s + 16 ∧ width (g_fb s) < 1073741824 ∧ height (g_fb s) < 1073741824.
Proof.
  intros [Hw [H1 H2] _ _]. destruct (stride_facts s Hw) as (Ep & Hwd & Hh & Hsz & Efs & Hnz).
  unfold cols, rows, FONT_W, FONT_H in *. split_and!; try (Z.div_mod_to_equations; lia); nia.
Qed.

Lemma same_grid s s' : g_fb s = g_fb s' → rows s = rows s' ∧ cols s = cols s'.
Proof. unfold rows, cols. by intros ->. Qed.

Lemma displays_cursor s g c r : displays s g → displays (with_cursor c r s) g.
Proof. intros [[H1 H2 H3] H4 H5 H6]. split; [split|..]; done. Qed.

Lemma displays_draw s g r c ch :
  displays s g → 0 ≤ r < rows s → 0 ≤ c < cols s →
  displays (fb_draw_char (8 * c) (16 * r) ch (term_fg s) (term_bg s) s) (Term.set_cell r c ch g) ∧
  g_fb (fb_draw_char (8 * c) (16 * r) ch (term_fg s) (term_bg s) s) = g_fb s.
Proof.
  intros Hdi Hr Hc. destruct (grid_facts s g Hdi) as (G1 & G2 & G3 & G4 & G5 & G6 & G7).
  destruct Hdi as [Hw H4 H5 H6].
  pose proof (draw_char_draws s (8 * c) (16 * r) ch (term_fg s) (term_bg s) Hw ltac:(lia) ltac:(lia)) as Hd.
  destruct (draws_config _ _ _ Hd) as (E1 & E2 & _ & _ & E5 & E6). set (s1 := fb_draw_char _ _ _ _ _ _) in *.
  split; [|done]. assert (cols s1 = cols s ∧ rows s1 = rows s) as [Ec Er] by (unfold cols, rows; by rewrite E1).
  split; [by eapply draws_wf|by rewrite E1| |]; rewrite Ec, Er, ?E1, ?E5, ?E6.
  - intros r' c' i j Hr' Hc' Hi Hj. rewrite (dr_pixel _ _ _ Hd) by (split; lia).
    unfold cell, Term.set_cell. destruct (Z.eqb_spec r' r) as [->|Hne]; cbn [andb].
    + destruct (Z.eqb_spec c' c) as [->|Hne].
      * zcases; try lia. f_equal; lia.
      * rewrite <- H5 by lia. zcases; (done || lia).
    + rewrite <- H5 by lia. zcases; (done || lia).
  - intros x y Hx Hy. rewrite (dr_pixel _ _ _ Hd) by (split; lia). rewrite <- (H6 x y) by lia.
    unfold cell. zcases; (done || lia).
Qed.

Lemma displays_scroll s g :
  displays s g → displays (fb_scroll_up 1 s) (Term.scrolled (rows s) g) ∧
  g_fb (fb_scroll_up 1 s) = g_fb s ∧ term_col (fb_scroll_up 1 s) = term_col s.
Proof.
  intros Hdi. destruct (grid_facts s g Hdi) as (G1 & G2 & G3 & G4 & G5 & G6 & G7).
  destruct Hdi as [Hw H4 H5 H6].
  pose proof (scroll_draws s 1 Hw ltac:(lia) ltac:(lia)) as Hd.
  destruct (draws_config _ _ _ Hd) as (E1 & E2 & E3 & _ & E5 & E6). set (s1 := fb_scroll_up 1 s) in *.
  split; [|done]. assert (cols s1 = cols s ∧ rows s1 = rows s) as [Ec Er] by (unfold cols, rows; by rewrite E1).
  split; [by eapply draws_wf|by rewrite E1| |]; rewrite Ec, Er, ?E1, ?E5, ?E6.
  - intros r c i j Hr Hc Hi Hj. rewrite (dr_pixel _ _ _ Hd) by (split; lia). unfold Term.scrolled.
    destruct (Z.ltb_spec r (rows s - 1)).
    + destruct (Z.ltb_spec (16 * r + j) (height (g_fb s) - 16 * 1)); [|lia]. cbn [default id].
      rewrite <- H5 by lia. f_equal. lia.
    + rewrite blank_ink by done. destruct (Z.ltb_spec (16 * r + j) (height (g_fb s) - 16 * 1)); [|done].
      cbn [default id]. apply H6; lia.
  - intros x y Hx Hy. rewrite (dr_pixel _ _ _ Hd) by (split; lia).
    destruct (Z.ltb_spec y (height (g_fb s) - 16 * 1)); [lia|done].
Qed.

(** The end of [fb_term_putc]: scroll when the cursor has left the last row. *)
Lemma feed_shows s g :
  displays s g → 0 ≤ term_row s < rows s →
  shows (let s1 := with_cursor 0 (term_row s +₃₂ 1) s in
         if rows s <=? term_row s1 then
           let s2 := fb_scroll_up 1 s1 in with_cursor (term_col s2) (rows s -₃₂ 1) s2 else s1)
    (Term.line_feed (rows s) (Term.mk_screen 0 (term_row s) g)).
Proof.
  intros Hdi Hr. destruct (grid_facts s g Hdi) as (G1 & G2 & G3 & G4 & G5 & G6 & G7).
  rewrite wrap32_small by lia. pose proof (displays_cursor s g 0 (term_row s + 1) Hdi) as Hdi1. cbv zeta.
  set (s1 := with_cursor 0 (term_row s + 1) s) in *. unfold Term.line_feed. cbn [Term.crow Term.ccol Term.cells].
  change (term_row s1) with (term_row s + 1).
  destruct (Z.leb_spec (rows s) (term_row s + 1)), (Z.ltb_spec (term_row s + 1) (rows s)); try lia.
  - destruct (displays_scroll s1 g Hdi1) as (Hd2 & E2 & Ec). rewrite (wrap32_small (rows s - 1)) by lia.
    set (s2 := with_cursor _ _ _). destruct (same_grid s2 s E2) as [Hrows Hcols].
    split; cbn [Term.ccol Term.crow Term.cells]; rewrite ?Hrows, ?Hcols.
    + by apply displays_cursor.
    + split; [exact Ec|lia].
    + split; [done|lia].
  - split; [done|split; [done|change (0 ≤ 0 < cols s); lia]|split; [done|change (rows s1) with (rows s); cbn; lia]].
Qed.
End Terminal.

(** ** Nothing is written outside the frame buffer *)

Record confined (s s' : fb) : Prop := mk_confined {
  cf_geometry : g_fb s' = g_fb s;
  cf_mem : g_fb_mem s' = g_fb_mem s;
  cf_wf : fb_wf s';
  cf_out : ∀ a, a < addr (g_fb s) ∨ addr (g_fb s) + pitch (g_fb s) * height (g_fb s) ≤ a →
    fb_mem s' a = fb_mem s a;
}.

(** The public drawing and terminal functions. *)
Inductive fb_op : Type :=
  | SetPixel (x y color : Z) | FillRect (x y w h color : Z) | HLine (x y len color : Z)
  | VLine (x y len color : Z) | Outline (x y w h color : Z) | Clear (color : Z)
  | DrawChar (x y c fg bg : Z) | DrawString (x y : Z) (str : list Z) (fg bg : Z)
  | ScrollUp (lines : Z) | TermInit | TermSetColor (fg bg : Z) | TermPutc (c : Z) | TermPuts (str : list Z).

Definition run_fb_op (op : fb_op) (s : fb) : fb :=
  match op with
  | SetPixel x y c => fb_set_pixel x y c s
  | FillRect x y w h c => fb_fill_rect x y w h c s
  | HLine x y len c => fb_draw_hline x y len c s
  | VLine x y len c => fb_draw_vline x y len c s
  | Outline x y w h c => fb_draw_rect_outline x y w h c s
  | Clear c => fb_clear c s
  | DrawChar x y c fg bg => fb_draw_char x y c fg bg s
  | DrawString x y str fg bg => fb_draw_string x y str fg bg s
  | ScrollUp n => fb_scroll_up n s
  | TermInit => fb_term_init s
  | TermSetColor fg bg => fb_term_set_color fg bg s
  | TermPutc c => fb_term_putc c s
  | TermPuts str => fb_term_puts str s
  end.

(** Positions are unsigned; no more lines are scrolled than the screen has. *)
Definition fb_op_ok (i : fb_info) (op : fb_op) : Prop :=
  match op with
  | SetPixel x y _ | FillRect x y _ _ _ | HLine x y _ _ | VLine x y _ _ | Outline x y _ _ _
  | DrawChar x y _ _ _ | DrawString x y _ _ _ => 0 ≤ x ∧ 0 ≤ y
  | ScrollUp n => 0 ≤ n ∧ FONT_H * n ≤ height i
  | _ => True
  end.

Section Confined.
Implicit Types s : fb.

Lemma confined_refl s : fb_wf s → confined s s.
Proof. by intros H. Qed.

Lemma confined_trans s1 s2 s3 : confined s1 s2 → confined s2 s3 → confined s1 s3.
Proof.
  intros [A1 A2 A3 A4] [B1 B2 B3 B4]. rewrite A1 in *. split; [done|congruence|done|].
  intros a Ha. by rewrite B4, A4.
Qed.

Lemma draws_confined s s' f : fb_wf s → draws s s' f → confined s s'.
Proof.
  intros Hw Hd. destruct (draws_config _ _ _ Hd) as (E1 & E2 & _). split; [done|done|by eapply draws_wf|].
  intros a Ha. apply (dr_out _ _ _ Hd). rewrite (fw_mem s Hw). done.
Qed.

Lemma cursor_confined s c r : fb_wf s → confined s (with_cursor c r s).
Proof. intros [? ? ?]. by split. Qed.

Lemma for_confined s lo hi body :
  fb_wf s → (∀ i s1, lo ≤ i → fb_wf s1 → confined s s1 → confined s1 (body i s1)) → confined s (c_for lo hi body s).
Proof.
  intros Hw Hb. destruct (Z.le_gt_cases lo hi) as [Hle|Hgt]; [|rewrite c_for_empty by lia; by apply confined_refl].
  apply (c_for_inv (fun _ s1 => confined s s1)); [done|by apply confined_refl|].
  intros i s1 Hi Hc. eapply confined_trans; [done|]. apply Hb; [lia|apply Hc|done].
Qed.

Lemma set_pixel_confined s x y v : fb_wf s → 0 ≤ x → 0 ≤ y → confined s (fb_set_pixel x y v s).
Proof. intros Hw Hx Hy. by eapply draws_confined; [|apply set_pixel_draws]. Qed.

Lemma fill_rect_confined s x y w h v : fb_wf s → 0 ≤ x → 0 ≤ y → confined s (fb_fill_rect x y w h v s).
Proof. intros Hw Hx Hy. by eapply draws_confined; [|apply fill_rect_draws]. Qed.

Lemma vline_confined s x y len v : fb_wf s → 0 ≤ x → confined s (fb_draw_vline x y len v s).
Proof.
  intros Hw Hx. apply for_confined; [done|]. intros i s1 _ Hw1 _. apply set_pixel_confined; [done|done|apply wrap32_range].
Qed.

Lemma draw_char_confined s x y c fg bg : fb_wf s → confined s (fb_draw_char x y c fg bg s).
Proof.
  intros Hw. unfold fb_draw_char. destruct (g_fb_mem s =? 0); [by apply confined_refl|].
  apply for_confined; [done|]. intros r s1 _ Hw1 _. cbv zeta.
  apply for_confined; [done|]. intros k s2 _ Hw2 _. apply set_pixel_confined; [done|apply wrap32_range..].
Qed.

Lemma draw_string_confined x cx y str fg bg s : fb_wf s → confined s (draw_string_loop x cx y str fg bg s).
Proof.
  revert cx y s. induction str as [|c str IH]; intros cx y s Hw; cbn [draw_string_loop]; [by apply confined_refl|].
  destruct (c =? 10); [by apply IH|]. pose proof (draw_char_confined s cx y c fg bg Hw) as Hc.
  eapply confined_trans; [exact Hc|]. apply IH, Hc.
Qed.

Lemma outline_confined s x y w h v : fb_wf s → 0 ≤ x → 0 ≤ y → confined s (fb_draw_rect_outline x y w h v s).
Proof.
  intros Hw Hx Hy. unfold fb_draw_rect_outline, fb_draw_hline.
  pose proof (fill_rect_confined s x y w 1 v Hw Hx Hy) as H1. set (s1 := fb_fill_rect _ _ _ _ _ _) in *.
  pose proof (fill_rect_confined s1 x ((y +₃₂ h) -₃₂ 1) w 1 v (cf_wf _ _ H1) Hx (proj1 (wrap32_range _))) as H2.
  clearbody s1. set (s2 := fb_fill_rect _ _ _ _ _ s1) in *. clearbody s2.
  pose proof (vline_confined s2 x y h v (cf_wf _ _ H2) Hx) as H3. set (s3 := fb_draw_vline _ _ _ _ _) in *. clearbody s3.
  pose proof (vline_confined s3 ((x +₃₂ w) -₃₂ 1) y h v (cf_wf _ _ H3) (proj1 (wrap32_range _))) as H4.
  eauto using confined_trans.
Qed.

Lemma putc_confined s c : fb_wf s → FONT_H ≤ height (g_fb s) → confined s (fb_term_putc c s).
Proof.
  intros Hw Hh. unfold fb_term_putc. destruct (g_fb_mem s =? 0); [by apply confined_refl|]. cbv zeta.
  match goal with |- context [_ <=? term_row ?x] => set (s1 := x) end.
  assert (confined s s1) as H1.
  { unfold s1. destruct (c =? 10); [by apply cursor_confined|]. destruct (c =? 13); [by apply cursor_confined|].
    destruct (c =? 8).
    - destruct (0 <? term_col s); [|by apply confined_refl].
      pose proof (cursor_confined s (term_col s - 1) (term_row s) Hw) as H1.
      eapply confined_trans; [exact H1|]. apply draw_char_confined, H1.
    - pose proof (draw_char_confined s (term_col s *₃₂ FONT_W) (term_row s *₃₂ FONT_H) c (term_fg s) (term_bg s) Hw) as H1.
      set (s2 := fb_draw_char _ _ _ _ _ _) in *.
      pose proof (cursor_confined s2 (term_col s2 +₃₂ 1) (term_row s2) (cf_wf _ _ H1)) as H2.
      destruct (_ <=? _); [|by eapply confined_trans].
      eapply confined_trans; [by eapply confined_trans|]. apply cursor_confined, H2. }
  destruct (_ <=? term_row s1); [|done].
  assert (confined s1 (fb_scroll_up 1 s1)) as H2.
  { eapply draws_confined; [apply H1|]. apply scroll_draws; [apply H1|done|].
    rewrite (cf_geometry _ _ H1). unfold FONT_H in Hh. lia. }
  eapply confined_trans; [by eapply confined_trans|]. apply cursor_confined, H2.
Qed.

Lemma puts_confined str s : fb_wf s → FONT_H ≤ height (g_fb s) → confined s (fb_term_puts str s).
Proof.
  unfold fb_term_puts. revert s. induction str as [|c str IH]; intros s Hw Hh; [by apply confined_refl|].
  cbn [fold_left]. pose proof (putc_confined s c Hw Hh) as H1. eapply confined_trans; [exact H1|].
  apply IH; [apply H1|by rewrite (cf_geometry _ _ H1)].
Qed.

Lemma fb_op_confined op s :
  fb_wf s → FONT_H ≤ height (g_fb s) → fb_op_ok (g_fb s) op → confined s (run_fb_op op s).
Proof.
  intros Hw Hh Hop. destruct op; cbn [run_fb_op fb_op_ok] in *; try match type of Hop with _ ∧ _ => destruct Hop as [Hx Hy] end.
  - by apply set_pixel_confined.
  - by apply fill_rect_confined.
  - by apply fill_rect_confined.
  - by apply vline_confined.
  - by apply outline_confined.
  - by eapply draws_confined; [|apply clear_draws].
  - by apply draw_char_confined.
  - by apply draw_string_confined.
  - unfold FONT_H in Hy. eapply draws_confined; [done|]. by apply scroll_draws.
  - destruct Hw. by split.
  - destruct Hw. by split.
  - by apply putc_confined.
  - by apply puts_confined.
Qed.
End Confined.

(** (C28) Nothing outside the frame buffer is written: any sequence of the public
    functions, with drawing at any position and of any size and scrolling by at most
    the screen's height, leaves every byte of memory outside the buffer's
    [pitch * height] bytes as it was, on a 32-bit frame buffer of less than 4 GiB with
    at least one row of text.

    The bound on [fb_scroll_up] ([fb_op_ok]) is needed: for more lines the number of
    bytes to keep wraps around 2^32 and the copy runs far past the buffer
    ([scroll_too_far]; framebuffer.c:98).  The kernel itself only scrolls by one
    line. *)
Theorem fb_ops_in_bounds (ops : list fb_op) (s : fb) (Hw : fb_wf s) (Hh : FONT_H ≤ height (g_fb s))
    (Hops : Forall (fb_op_ok (g_fb s)) ops) :
  let s' := fold_left (fun s op => run_fb_op op s) ops s in
  g_fb s' = g_fb s ∧ g_fb_mem s' = g_fb_mem s ∧
  ∀ a, a < addr (g_fb s) ∨ addr (g_fb s) + pitch (g_fb s) * height (g_fb s) ≤ a → fb_mem s' a = fb_mem s a.
Proof.
  cbv zeta. assert (confined s (fold_left (fun s op => run_fb_op op s) ops s)) as [H1 H2 _ H4]; [|done].
  revert s Hw Hh Hops. induction ops as [|op ops IH]; intros s Hw Hh Hops; [by apply confined_refl|].
  apply Forall_cons in Hops as [Hop Hops]. cbn [fold_left].
  pose proof (fb_op_confined op s Hw Hh Hop) as H1. eapply confined_trans; [exact H1|].
  pose proof (cf_geometry _ _ H1) as E. apply IH; [apply H1|by rewrite E|by rewrite E].
Qed.

(** A 24 x 40 pixel screen inside memory filled with 170. *)
Definition small_info : fb_info := mk_fb_info 4096 96 24 40 32 1.
Definition small_fb : fb := fb_init small_info (fb_static (fun _ => 170)).

Lemma small_geometry : geometry small_info.
Proof. split; [done|done|split; done|done|done]. Qed.

Lemma init_wf info m : geometry info → mem_bytes m → fb_wf (fb_init info (fb_static m)) ∧
  draws (mk_fb info (addr info) 0 0 COLOR_TEXT COLOR_BG m) (fb_init info (fb_static m)) (fun _ _ => Some (wrap32 COLOR_BG)).
Proof.
  intros Hg Hm. assert (fb_wf (mk_fb info (addr info) 0 0 COLOR_TEXT COLOR_BG m)) as Hw by done.
  pose proof (clear_draws _ COLOR_BG Hw) as Hd. split; [by eapply draws_wf|done].
Qed.

Lemma fb_ops_in_bounds_witness :
  let s' := fold_left (fun s op => run_fb_op op s)
    [FillRect 20 30 4294967295 100 255; SetPixel 4000000000 7 1; TermPuts [104; 105; 10; 10; 10]; ScrollUp 2] small_fb in
  g_fb s' = small_info ∧ (∀ a, a < 4096 ∨ 7936 ≤ a → fb_mem s' a = fb_mem small_fb a).
Proof.
  destruct (init_wf small_info (fun _ => 170) small_geometry ltac:(intros a; lia)) as [Hw Hd].
  destruct (draws_config _ _ _ Hd) as (E & _).
  assert (g_fb small_fb = small_info) as E' by exact E.
  destruct (fb_ops_in_bounds
    [FillRect 20 30 4294967295 100 255; SetPixel 4000000000 7 1; TermPuts [104; 105; 10; 10; 10]; ScrollUp 2]
    small_fb Hw) as (Hg & _ & H).
  - rewrite E'. change (16 ≤ 40). lia.
  - rewrite E'. repeat (apply Forall_cons; split; [cbn [fb_op_ok]; unfold FONT_H; change (height small_info) with 40; lia|]).
    by apply Forall_nil.
  - split; [exact (eq_trans Hg E')|exact H].
Defined.

(** Scrolling the 40 pixels by three lines of 16 copies 2^32 - 768 bytes to the
    start of the buffer: the byte at 8000, past the buffer's end at 7936, becomes the
    one at 12608. *)
Example scroll_too_far :
  let m := (fun a => if a =? 12608 then 7 else 170) in
  let s := mk_fb small_info 4096 0 0 COLOR_TEXT COLOR_BG m in
  fb_mem s 8000 = 170 ∧ fb_mem (fb_scroll_up 3 s) 8000 = 7.
Proof.
  cbv zeta. set (m := fun a => _). split; [reflexivity|].
  unfold fb_scroll_up. cbn [g_fb g_fb_mem term_bg]. set (s1 := fb_with_mem _ _).
  assert (fb_mem s1 8000 = 7) as E.
  { unfold s1, fb_with_mem. cbn [fb_mem].
    rewrite memmove_at; [vm_compute; reflexivity|apply wrap32_range|].
    intros a. unfold m. destruct (a =? 12608); lia. }
  assert (g_fb s1 = small_info) as Hg by reflexivity. clearbody s1.
  unfold fb_fill_rect. rewrite Hg, c_for_empty by (vm_compute; discriminate). exact E.
Qed.

(** ** The terminal refines the grid of characters *)

Section Refine.
Implicit Types s : fb.

(** Drawing at a cursor position. *)
Lemma draw_at s g r c ch :
  displays s g → 0 ≤ r < rows s → 0 ≤ c < cols s →
  let s' := fb_draw_char (c *₃₂ FONT_W) (r *₃₂ FONT_H) ch (term_fg s) (term_bg s) s in
  displays s' (Term.set_cell r c ch g) ∧ term_col s' = term_col s ∧ term_row s' = term_row s ∧
  rows s' = rows s ∧ cols s' = cols s.
Proof.
  intros Hdi Hr Hc. cbv zeta. destruct (grid_facts s _ Hdi) as (G1 & G2 & G3 & G4 & G5 & G6 & G7).
  unfold FONT_W, FONT_H. rewrite !wrap32_small by lia.
  replace (c * 8) with (8 * c) by lia. replace (r * 16) with (16 * r) by lia.
  destruct (displays_draw s g r c ch Hdi Hr Hc) as [Hd2 E2].
  pose proof (draw_char_draws s (8 * c) (16 * r) ch (term_fg s) (term_bg s) (di_wf _ _ Hdi) ltac:(lia) ltac:(lia)) as Hd.
  destruct (draws_config _ _ _ Hd) as (_ & _ & Ecol & Erow & _). destruct (same_grid _ _ E2). done.
Qed.

Lemma putc_shows s t c :
  shows s t → 0 ≤ c < 256 → shows (fb_term_putc c s) (Term.putc (cols s) (rows s) c t).
Proof.
  intros [Hdi [Ec Hc] [Er Hr]] Hch. destruct (grid_facts s _ Hdi) as (G1 & G2 & G3 & G4 & G5 & G6 & G7).
  destruct (stride_facts s (di_wf _ _ Hdi)) as (_ & _ & _ & _ & _ & Hnz).
  unfold fb_term_putc. destruct (Z.eqb_spec (g_fb_mem s) 0); [done|].
  fold (cols s) (rows s). cbv zeta. unfold Term.putc.
  assert (∀ s1, term_row s1 = Term.crow t → (rows s <=? term_row s1) = false) as Hno.
  { intros s1 ->. apply Z.leb_gt. lia. }
  destruct (c =? 10).
  { pose proof (feed_shows s _ Hdi ltac:(lia)) as H. cbv zeta in H.
    rewrite <- Er. exact H. }
  destruct (c =? 13).
  { rewrite Hno by done. split; [by apply displays_cursor|split; [done|]|split; [done|]].
    - change (0 ≤ 0 < cols s). lia.
    - change (0 ≤ Term.crow t < rows s). lia. }
  destruct (c =? 8).
  { rewrite Ec. destruct (Z.ltb_spec 0 (Term.ccol t)) as [Hpos|Hzero]; [|rewrite Hno by done; by split].
    set (s1 := with_cursor (Term.ccol t - 1) (term_row s) s).
    destruct (draw_at s1 _ (Term.crow t) (Term.ccol t - 1) 32 (displays_cursor s _ _ _ Hdi) Hr ltac:(change (cols s1) with (cols s); lia))
      as (Hd2 & Ecol & Erow & Hrows & Hcols).
    change (term_col s1) with (Term.ccol t - 1). change (term_row s1) with (term_row s). rewrite Er.
    set (s2 := fb_draw_char _ _ _ _ _ _) in *. change (rows s1) with (rows s) in Hrows. change (cols s1) with (cols s) in Hcols.
    rewrite Hno by (by rewrite Erow).
    split; cbn [Term.cells Term.ccol Term.crow]; rewrite ?Hrows, ?Hcols; [done|split; [exact Ecol|lia]|].
    split; [by rewrite Erow|done]. }
  destruct (draw_at s _ (Term.crow t) (Term.ccol t) c Hdi Hr Hc) as (Hd2 & Ecol & Erow & Hrows & Hcols).
  rewrite Ec, Er. set (s2 := fb_draw_char _ _ _ _ _ _) in *.
  rewrite Ecol, Erow, Ec, Er. rewrite (wrap32_small (Term.ccol t + 1)) by lia.
  set (s3 := with_cursor (Term.ccol t + 1) (Term.crow t) s2).
  change (term_col s3) with (Term.ccol t + 1). change (term_row s3) with (Term.crow t).
  destruct (Z.leb_spec (cols s) (Term.ccol t + 1)), (Z.ltb_spec (Term.ccol t + 1) (cols s)); try lia.
  - pose proof (feed_shows s3 _ (displays_cursor _ _ _ _ Hd2)) as H'. cbv zeta in H'.
    change (rows s3) with (rows s2) in H'. change (term_row s3) with (Term.crow t) in H'. rewrite Hrows in H'.
    by apply H'.
  - rewrite Hno by done.
    split; cbn [Term.cells Term.ccol Term.crow]; [by apply displays_cursor|split; [done|]|split; [done|]].
    + change (cols s3) with (cols s2). lia.
    + change (rows s3) with (rows s2). lia.
Qed.

Lemma puts_shows str s t :
  shows s t → Forall (fun c => 0 ≤ c < 256) str →
  shows (fb_term_puts str s) (Term.puts (cols s) (rows s) str t).
Proof.
  unfold fb_term_puts, Term.puts. intros Hs Hstr. revert s t Hs.
  induction Hstr as [|c str Hc _ IH]; intros s t Hs; [done|]. cbn [fold_left].
  pose proof (sh_displays _ _ Hs) as Hdi.
  pose proof (putc_confined s c (di_wf _ _ Hdi) (proj2 (di_room _ _ Hdi))) as Hcf.
  destruct (same_grid _ _ (cf_geometry _ _ Hcf)) as [E1 E2].
  pose proof (IH _ _ (putc_shows s t c Hs Hc)) as H. by rewrite E1, E2 in H.
Qed.

Lemma init_shows info m :
  geometry info → mem_bytes m → FONT_W ≤ width info → FONT_H ≤ height info →
  shows (fb_term_init (fb_init info (fb_static m))) Term.initial.
Proof.
  intros Hg Hm Hwd Hht. destruct (init_wf info m Hg Hm) as [Hw Hd].
  destruct (draws_config _ _ _ Hd) as (E1 & E2 & _). cbn [g_fb g_fb_mem] in E1, E2.
  set (s := fb_init info (fb_static m)) in *. set (s1 := fb_term_init s).
  assert (fb_wf s1) as Hw1 by (destruct Hw; by split).
  assert (g_fb s1 = info) as E3 by exact E1.
  assert (∀ x y, on_screen s1 x y → pixel s1 x y = wrap32 COLOR_BG) as Hpix.
  { intros x y Hxy. unfold on_screen in Hxy. rewrite E3 in Hxy.
    exact (dr_pixel _ _ _ Hd x y Hxy). }
  assert (∀ g, displays s1 g → 1 ≤ cols s1 ∧ 1 ≤ rows s1) as Hgrid.
  { intros g Hg'. destruct (grid_facts _ _ Hg') as (? & _ & ? & _). done. }
  assert (displays s1 Term.blank) as Hdi.
  { assert (8 * cols s1 ≤ width info ∧ 16 * rows s1 ≤ height info ∧ 0 ≤ rows s1) as (Hc & Hr & Hr0).
    { unfold cols, rows, FONT_W, FONT_H in *. rewrite E3. Z.div_mod_to_equations. lia. }
    split; [done|by rewrite E3| |]; unfold on_screen in Hpix; rewrite E3 in Hpix.
    - intros r c i j Hr' Hc' Hi Hj. unfold Term.blank. rewrite blank_ink by done. apply Hpix. lia.
    - intros x y Hx Hy. rewrite E3 in Hy. apply Hpix. lia. }
  destruct (Hgrid _ Hdi). split; [done|split; [done|change (0 ≤ 0 < cols s1); lia]|split; [done|change (0 ≤ 0 < rows s1); lia]].
Qed.
End Refine.

(** (C13) The terminal refines a grid of characters: after the frame buffer is
    set up, for every text, the pixels are the glyphs of the grid that the text gives
    (characters in order, newline, carriage return and backspace, wrapping at the last
    column, moving up when the last row is full, the new row blank), in the text
    colour on the background, and the cursor stays on the screen. *)
Theorem fb_terminal_refines (info : fb_info) (m : mem) (str : list Z) (Hg : geometry info) (Hm : mem_bytes m)
    (Hwd : FONT_W ≤ width info) (Hht : FONT_H ≤ height info) (Hstr : Forall (fun c => 0 ≤ c < 256) str) :
  shows (fb_term_puts str (fb_term_init (fb_init info (fb_static m))))
    (Term.puts (width info / FONT_W) (height info / FONT_H) str Term.initial).
Proof.
  pose proof (init_shows info m Hg Hm Hwd Hht) as Hs. set (s := fb_term_init _) in *.
  assert (g_fb s = info) as E.
  { destruct (init_wf info m Hg Hm) as [_ Hd]. by destruct (draws_config _ _ _ Hd). }
  pose proof (puts_shows str s _ Hs Hstr) as H. unfold cols, rows in H. by rewrite E in H.
Qed.

Lemma fb_terminal_refines_witness :
  shows (fb_term_puts [72; 105; 33; 33; 10; 111; 107] (fb_term_init small_fb))
    (Term.puts 3 2 [72; 105; 33; 33; 10; 111; 107] Term.initial) ∧
  (let t := Term.puts 3 2 [72; 105; 33; 33; 10; 111; 107] Term.initial in
   (Term.cells t 0 0, Term.cells t 1 0, Term.cells t 1 1, Term.ccol t, Term.crow t) = (33, 111, 107, 2, 1)).
Proof.
  split; [|vm_compute; reflexivity].
  apply (fb_terminal_refines small_info (fun _ => 170) [72; 105; 33; 33; 10; 111; 107] small_geometry);
    [intros a; lia|discriminate|discriminate|repeat (apply Forall_cons; split; [lia|]); by apply Forall_nil].
Defined.
