(* ===== verification/Syscall.v ===== *)
(** * kernel/syscall/syscall.c: the system call table

    A handler is one of the constructors of [syscall_fn], and the table holds
    the handlers the code installs.  The state is the process system and the bytes
    given to [serial_write_char].  Arguments a handler ignores are left out.

    [sys_write] and [sys_uname] dereference a pointer the caller passes, without a
    check.  Memory is that of the heap component; [mapped] says at which addresses the
    page tables in use let the kernel read and write, and an access anywhere else is a
    page fault, for which [isr_common_handler] panics.  [kernel_data] are the addresses
    of the objects this model keeps apart from the bytes of memory (processes, run queue,
    tables, device state): a store there is not modelled, the result is [Undef].

    A call that switches to another process has not returned: its caller gets the
    result in [rax] when it runs again, and [sys_exit] goes on with its yield only then
    (the exited process is READY and can be picked again, see
    [SchedSpec.proc_exit_leaves_ready]).

    [effect] is the specification: what each number does and returns. *)
From S2P Require Import Prelude Mem PageAlloc Kheap Paging Process ProcessSpec SchedSpec Keyboard PortIO Idt.

Definition SYS_exit : Z := 1.
Definition SYS_getpid : Z := 4.
Definition SYS_getppid : Z := 5.
Definition SYS_sleep : Z := 7.
Definition SYS_yield : Z := 8.
Definition SYS_kill : Z := 9.
Definition SYS_read : Z := 22.
Definition SYS_write : Z := 23.
Definition SYS_uname : Z := 80.
Definition SYSCALL_COUNT : Z := 128.
Definition EBADF : Z := 9.
Definition EFAULT : Z := 14.
Definition ENOSYS : Z := 38.

Inductive syscall_fn : Type :=
  | Sys_exit | Sys_getpid | Sys_getppid | Sys_yield | Sys_sleep | Sys_kill
  | Sys_write | Sys_read | Sys_uname.

#[export] Instance syscall_fn_eq_dec : EqDecision syscall_fn.
Proof. solve_decision. Defined.

(** The process system, what was printed, and [syscall_table]. *)
Record kern (A : Type) : Type := mk_kern {
  k_sys : sys A;
  console : list Z;
  syscall_table : list (option syscall_fn);
}.
Arguments mk_kern {A}.
Arguments k_sys {A}.
Arguments console {A}.
Arguments syscall_table {A}.

Definition syscall_init {A} (s : kern A) : kern A :=
  let t := replicate 128 None in
  let t := <[Z.to_nat SYS_exit := Some Sys_exit]> t in
  let t := <[Z.to_nat SYS_getpid := Some Sys_getpid]> t in
  let t := <[Z.to_nat SYS_getppid := Some Sys_getppid]> t in
  let t := <[Z.to_nat SYS_yield := Some Sys_yield]> t in
  let t := <[Z.to_nat SYS_sleep := Some Sys_sleep]> t in
  let t := <[Z.to_nat SYS_kill := Some Sys_kill]> t in
  let t := <[Z.to_nat SYS_write := Some Sys_write]> t in
  let t := <[Z.to_nat SYS_read := Some Sys_read]> t in
  let t := <[Z.to_nat SYS_uname := Some Sys_uname]> t in
  mk_kern (k_sys s) (console s) t.

(** The [n] bytes [strncpy] writes. *)
Definition field (s : string) (n : nat) : list Z := take n (codes s ++ replicate n 0).

(** The name [isr_common_handler] panics with on a page fault. *)
Definition page_fault : string := exception_names !!! 14%nat.

Section Handlers.
Context {A : Type} (mapped kernel_data : Z → bool).
Implicit Types s : kern A.

(** An access through a pointer the caller passed; nothing is mapped from 2^64 on. *)
Definition accessible (a : Z) : bool := (a <? 18446744073709551616) && mapped a.
Definition user_access (a : Z) : outcome unit :=
  if accessible a then Ok tt else Panic page_fault.

Definition with_sys (x : sys A) s : kern A := mk_kern x (console s) (syscall_table s).
Definition sys_memory s : mem := kh_mem (mm_heap (sys_mmu (k_sys s))).
Definition with_memory (f : mem → mem) s : kern A :=
  with_sys (with_mmu (on_heap (with_mem f) (sys_mmu (k_sys s))) (k_sys s)) s.
Definition serial_write (c : Z) s : kern A := mk_kern (k_sys s) (console s ++ [c]) (syscall_table s).

Definition on_sys (f : sys A → outcome (sys A)) s : outcome (kern A) :=
  x ← f (k_sys s); Ok (with_sys x s).

Definition sys_exit (fuel : nat) (code : Z) : kop (kern A) Z := fun s =>
  let cur := proc_current (k_sys s) in
  s ← (if cur =? 0 then Ok s
       else on_sys (proc_exit fuel cur (signed32 (wrap32 code))) s);
  s ← (if proc_current (k_sys s) =? cur then on_sys (sched_yield fuel) s else Ok s);
  Ok (0, s).

Definition sys_getpid : kop (kern A) Z := fun s =>
  let cur := proc_current (k_sys s) in
  if cur =? 0 then Ok (0, s) else x ← deref cur (k_sys s); Ok (pid x, s).

Definition sys_getppid : kop (kern A) Z := fun s =>
  let cur := proc_current (k_sys s) in
  if cur =? 0 then Ok (0, s) else x ← deref cur (k_sys s); Ok (ppid x, s).

Definition sys_yield (fuel : nat) : kop (kern A) Z := fun s =>
  s ← on_sys (sched_yield fuel) s; Ok (0, s).

Definition sys_sleep (fuel : nat) (ms : Z) : kop (kern A) Z := fun s =>
  s ← on_sys (sched_sleep fuel ms) s; Ok (0, s).

Definition sys_kill (fuel : nat) (pid sig : Z) : kop (kern A) Z := fun s =>
  s ← on_sys (signal_send fuel (wrap32 pid) (signed32 (wrap32 sig))) s; Ok (0, s).

(** The loop of [sys_write] over [n] bytes from address [a]. *)
Fixpoint write_bytes (n : nat) (a : Z) s : outcome (kern A) :=
  match n with
  | O => Ok s
  | S n' => _ ← user_access a; write_bytes n' (a + 1) (serial_write (load8 (sys_memory s) a) s)
  end.

Definition sys_write (fd buf_ptr count : Z) : kop (kern A) Z := fun s =>
  if (fd =? 1) || (fd =? 2) then
    s ← write_bytes (Z.to_nat count) buf_ptr s;
    Ok (signed64 count, s)
  else Ok (- EBADF, s).

Definition sys_read : kop (kern A) Z := fun s => Ok (- ENOSYS, s).

(** The byte stores with which [strncpy] writes a literal to the caller's buffer. *)
Fixpoint user_store (dst : Z) (l : list Z) s : outcome (kern A) :=
  match l with
  | [] => Ok s
  | c :: l' =>
      _ ← user_access dst;
      if kernel_data dst then Undef "store to a kernel object"
      else user_store (dst + 1) l' (with_memory (fun m => store8 m dst c) s)
  end.

(** The fields of [uname_t] are 32, 32, 32, 64 and 32 bytes. *)
Definition sys_uname (buf_ptr : Z) : kop (kern A) Z := fun s =>
  if buf_ptr =? 0 then Ok (- EFAULT, s)
  else
    s ← user_store buf_ptr (field "HeroOS" 31) s;
    s ← user_store (buf_ptr + 32) (field "heroos" 31) s;
    s ← user_store (buf_ptr + 64) (field "0.1.0" 31) s;
    s ← user_store (buf_ptr + 96) (field "#1 SMP" 63) s;
    s ← user_store (buf_ptr + 160) (field "x86_64" 31) s;
    Ok (0, s).

Definition run_syscall (fuel : nat) (f : syscall_fn) (a1 a2 a3 : Z) : kop (kern A) Z :=
  match f with
  | Sys_exit => sys_exit fuel a1
  | Sys_getpid => sys_getpid
  | Sys_getppid => sys_getppid
  | Sys_yield => sys_yield fuel
  | Sys_sleep => sys_sleep fuel a1
  | Sys_kill => sys_kill fuel a1 a2
  | Sys_write => sys_write a1 a2 a3
  | Sys_read => sys_read
  | Sys_uname => sys_uname a1
  end.

Definition syscall_dispatch (fuel : nat) (num a1 a2 a3 : Z) : kop (kern A) Z := fun s =>
  if SYSCALL_COUNT <=? num then Ok (- ENOSYS, s)
  else
    match syscall_table s !!! Z.to_nat num with
    | None => Ok (- ENOSYS, s)
    | Some f => run_syscall fuel f a1 a2 a3 s
    end.

Definition syscall_handler (fuel : nat) (frame : interrupt_frame) : kop (kern A) interrupt_frame := fun s =>
  '(ret, s) ← syscall_dispatch fuel (f_rax frame) (f_rdi frame) (f_rsi frame) (f_rdx frame) s;
  Ok (set_rax (wrap64 ret) frame, s).
End Handlers.

(** ** The specification *)

(** What [uname] stores: in each field all bytes but the last. *)
Record uname_at (buf : Z) (m m' : mem) : Prop := mk_uname_at {
  un_sysname : bytes_at m' buf 31 = field "HeroOS" 31;
  un_nodename : bytes_at m' (buf + 32) 31 = field "heroos" 31;
  un_release : bytes_at m' (buf + 64) 31 = field "0.1.0" 31;
  un_version : bytes_at m' (buf + 96) 63 = field "#1 SMP" 63;
  un_machine : bytes_at m' (buf + 160) 31 = field "x86_64" 31;
  un_rest : ∀ a, a < buf ∨ buf + 192 ≤ a ∨ a ∈ [buf + 31; buf + 63; buf + 95; buf + 159; buf + 191] → m' a = m a;
}.

Section Effect.
Context {A : Type}.
Implicit Types s : kern A.

(** The current process; zeros when there is none. *)
Definition cur_proc s : process :=
  if current (rq (k_sys s)) =? 0 then zero_process
  else default zero_process (procs (k_sys s) !! current (rq (k_sys s))).

(** A system call that only schedules. *)
Definition schedules (fuel : nat) (ops : list sched_op) s s' : Prop :=
  s' = with_sys (k_sys s') s ∧
  foldl (fun o op => x ← o; run_op fuel op x) (Ok (k_sys s)) ops = Ok (k_sys s').

(** Numbers that have a handler. *)
Definition implemented (num : Z) : bool :=
  bool_decide (num ∈ [SYS_exit; SYS_getpid; SYS_getppid; SYS_sleep; SYS_yield; SYS_kill; SYS_read; SYS_write; SYS_uname]).

Inductive effect (fuel : nat) (s : kern A) : Z → Z → Z → Z → Z → kern A → Prop :=
  | eff_exit_switched a1 a2 a3 s' :
      schedules fuel [OpExit (current (rq (k_sys s))) (signed32 (wrap32 a1))] s s' →
      current (rq (k_sys s')) ≠ current (rq (k_sys s)) →
      effect fuel s SYS_exit a1 a2 a3 0 s'
  | eff_exit_stayed a1 a2 a3 s1 s' :
      schedules fuel (if current (rq (k_sys s)) =? 0 then []
                      else [OpExit (current (rq (k_sys s))) (signed32 (wrap32 a1))]) s s1 →
      current (rq (k_sys s1)) = current (rq (k_sys s)) → schedules fuel [OpYield] s1 s' →
      effect fuel s SYS_exit a1 a2 a3 0 s'
  | eff_getpid a1 a2 a3 : effect fuel s SYS_getpid a1 a2 a3 (pid (cur_proc s)) s
  | eff_getppid a1 a2 a3 : effect fuel s SYS_getppid a1 a2 a3 (ppid (cur_proc s)) s
  | eff_sleep a1 a2 a3 s' :
      schedules fuel [OpSleep a1] s s' → effect fuel s SYS_sleep a1 a2 a3 0 s'
  | eff_yield a1 a2 a3 s' :
      schedules fuel [OpYield] s s' → effect fuel s SYS_yield a1 a2 a3 0 s'
  | eff_kill a1 a2 a3 s' :
      schedules fuel [OpSignal (wrap32 a1) (signed32 (wrap32 a2))] s s' → effect fuel s SYS_kill a1 a2 a3 0 s'
  | eff_read a1 a2 a3 : effect fuel s SYS_read a1 a2 a3 (-38) s
  | eff_write fd buf count s' :
      fd = 1 ∨ fd = 2 → k_sys s' = k_sys s → syscall_table s' = syscall_table s →
      console s' = console s ++ bytes_at (sys_memory s) buf (Z.to_nat count) →
      effect fuel s SYS_write fd buf count (signed64 count) s'
  | eff_write_bad fd buf count : fd ≠ 1 → fd ≠ 2 → effect fuel s SYS_write fd buf count (-9) s
  | eff_uname buf a2 a3 s' :
      buf ≠ 0 → s' = with_memory (fun _ => sys_memory s') s → uname_at buf (sys_memory s) (sys_memory s') →
      effect fuel s SYS_uname buf a2 a3 0 s'
  | eff_uname_null a2 a3 : effect fuel s SYS_uname 0 a2 a3 (-14) s
  | eff_unknown num a1 a2 a3 : implemented num = false → effect fuel s num a1 a2 a3 (-38) s.

(** The addresses a call reads or writes for its caller: the bytes [write] prints, and
    the fields of [uname] without their last bytes. *)
Definition user_range (num a1 a2 a3 x : Z) : Prop :=
  (num = SYS_write ∧ (a1 = 1 ∨ a1 = 2) ∧ a2 ≤ x < a2 + a3) ∨
  (num = SYS_uname ∧ a1 ≠ 0 ∧ a1 ≤ x < a1 + 192 ∧ x ∉ [a1 + 31; a1 + 63; a1 + 95; a1 + 159; a1 + 191]).
End Effect.
