(* ===== verification/SyscallSpec.v ===== *)
(** * Properties of the system calls

    [syscall_handler] implements the specification [effect] for every register
    content, or faults at an address of the caller's buffer that is not mapped, and
    keeps the scheduler's invariant. *)
From S2P Require Import Prelude Mem PageAlloc Pmm Kheap Paging Process ProcessSpec SchedSpec ProcCreateSpec Keyboard PortIO Idt Syscall.

(** ** Stored literals *)

Fixpoint store_list (dst : Z) (l : list Z) (m : mem) : mem :=
  match l with [] => m | c :: l' => store_list (dst + 1) l' (store8 m dst c) end.

Lemma store_list_other dst l m x :
  x < dst ∨ dst + Z.of_nat (length l) ≤ x → store_list dst l m x = m x.
Proof.
  revert dst m. induction l as [|c l IH]; intros dst m Hx; [done|]. cbn [store_list length] in *.
  rewrite IH by lia. apply store8_other. lia.
Qed.

Lemma store_list_bytes dst l m :
  Forall (fun c => 0 ≤ c < 256) l → bytes_at (store_list dst l m) dst (length l) = l.
Proof.
  intros Hl. revert dst m. induction Hl as [|c l Hc _ IH]; intros dst m; [done|].
  cbn [length store_list]. rewrite bytes_at_cons, IH. f_equal.
  rewrite store_list_other by lia. rewrite store8_same. by apply wrap8_byte.
Qed.

Lemma bytes_at_skip dst l m a n :
  a + Z.of_nat n ≤ dst ∨ dst + Z.of_nat (length l) ≤ a → bytes_at (store_list dst l m) a n = bytes_at m a n.
Proof. intros H. apply bytes_at_ext. intros x Hx. apply store_list_other. lia. Qed.

Lemma bytes_at_stored dst l m n :
  Forall (fun c => 0 ≤ c < 256) l → length l = n → bytes_at (store_list dst l m) dst n = l.
Proof. intros Hl <-. by apply store_list_bytes. Qed.

Definition uname_stores (buf : Z) (m : mem) : mem :=
  store_list (buf + 160) (field "x86_64" 31) (store_list (buf + 96) (field "#1 SMP" 63)
    (store_list (buf + 64) (field "0.1.0" 31) (store_list (buf + 32) (field "heroos" 31)
      (store_list buf (field "HeroOS" 31) m)))).

Lemma uname_field s n :
  bool_decide (length (field s n) = n ∧ Forall (fun c => 0 ≤ c < 256) (field s n)) = true →
  length (field s n) = n ∧ Forall (fun c => 0 ≤ c < 256) (field s n).
Proof. apply bool_decide_eq_true_1. Qed.

Lemma uname_stores_at buf m : uname_at buf m (uname_stores buf m).
Proof.
  unfold uname_stores.
  destruct (uname_field "HeroOS" 31 eq_refl) as [L1 B1]. destruct (uname_field "heroos" 31 eq_refl) as [L2 B2].
  destruct (uname_field "0.1.0" 31 eq_refl) as [L3 B3]. destruct (uname_field "#1 SMP" 63 eq_refl) as [L4 B4].
  destruct (uname_field "x86_64" 31 eq_refl) as [L5 B5].
  split;
    [rewrite 4!bytes_at_skip by lia|rewrite 3!bytes_at_skip by lia|rewrite 2!bytes_at_skip by lia
    |rewrite bytes_at_skip by lia| |];
    [by apply bytes_at_stored..|]. intros a Ha. rewrite !elem_of_cons, elem_of_nil in Ha.
  rewrite !store_list_other by lia. done.
Qed.

(** ** Accesses to the caller's memory *)

Section Guarded.
Context (mapped kernel_data : Z → bool).

(** A run that touches the addresses [range] for its caller: it ends with [Q] when all
    of them are accessible, in a page fault when one is not, and is not modelled when
    one belongs to a kernel object. *)
Definition guarded {X} (range : Z → Prop) (o : outcome X) (Q : X → Prop) : Prop :=
  match o with
  | Ok x => Q x ∧ ∀ a, range a → accessible mapped a = true
  | Panic why => why = page_fault ∧ ∃ a, range a ∧ accessible mapped a = false
  | Undef _ => ∃ a, range a ∧ kernel_data a = true
  | Diverge => False
  end.

Lemma guarded_ok {X} (x : X) (Q : X → Prop) : Q x → guarded (fun _ => False) (Ok x) Q.
Proof. by split. Qed.

Lemma guarded_bind {X Y} (r1 r2 : Z → Prop) (o : outcome X) (f : X → outcome Y) P Q :
  guarded r1 o P → (∀ x, P x → guarded r2 (f x) Q) → guarded (fun a => r1 a ∨ r2 a) (o ≫= f) Q.
Proof.
  destruct o as [x|why|why|]; cbn; [|intros (-> & a & Ha & H) _; split; [done|]; exists a; by auto
    |intros (a & Ha & H) _; exists a; by auto|done].
  intros [HP Hr] Hf. specialize (Hf x HP). destruct (f x) as [y|why|why|]; cbn in *; [|destruct Hf as (-> & a & Ha & H); split; [done|]; exists a; by auto
    |destruct Hf as (a & Ha & H); exists a; by auto|done].
  destruct Hf as [HQ Hr2]. split; [done|]. intros a [Ha|Ha]; auto.
Qed.

Lemma guarded_mono {X} (r1 r2 : Z → Prop) (o : outcome X) P Q :
  guarded r1 o P → (∀ a, r1 a ↔ r2 a) → (∀ x, P x → Q x) → guarded r2 o Q.
Proof.
  intros H Hr HQ. destruct o as [x|why|why|]; cbn in *; [destruct H as [HP Ha]; split; [by apply HQ|intros a Hx; by apply Ha, Hr]
    |destruct H as (-> & a & Ha & H); split; [done|]; exists a; by rewrite <- Hr
    |destruct H as (a & Ha & H); exists a; by rewrite <- Hr|done].
Qed.

Lemma guarded_map {X Y} (r : Z → Prop) (o : outcome X) (g : X → Y) P Q :
  guarded r o P → (∀ x, P x → Q (g x)) → guarded r (x ← o; Ok (g x)) Q.
Proof. intros H HQ. destruct o as [x|why|why|]; cbn in *; try done. destruct H as [HP Ha]. split; [by apply HQ|done]. Qed.

(** One access. *)
Lemma guarded_access a : guarded (fun x => x = a) (user_access mapped a) (fun _ => True).
Proof.
  unfold user_access. destruct (accessible mapped a) eqn:E; cbn; [split; [done|]; by intros ? ->|].
  split; [done|]. by exists a.
Qed.

Context {A : Type}.
Implicit Types s : kern A.

Lemma with_memory_twice f g s : with_memory f (with_memory g s) = with_memory (fun m => f (g m)) s.
Proof. done. Qed.

Lemma user_store_spec dst l s :
  guarded (fun a => dst ≤ a < dst + Z.of_nat (length l)) (user_store mapped kernel_data dst l s)
    (fun s' => s' = with_memory (store_list dst l) s).
Proof.
  revert dst s. induction l as [|c l IH]; intros dst s; cbn [user_store length store_list].
  { split; [by destruct s as [[? ? ? ? ? [[] ? ?]] ? ?]|lia]. }
  unfold user_access. destruct (accessible mapped dst) eqn:Ea; cbn [mbind outcome_bind].
  2: { split; [done|]. exists dst. split; [lia|done]. }
  destruct (kernel_data dst) eqn:Ek; [exists dst; split; [lia|done]|].
  specialize (IH (dst + 1) (with_memory (fun m => store8 m dst c) s)).
  destruct (user_store _ _ _ _ _) as [s'|why|why|]; cbn [guarded] in *; [|destruct IH as (-> & a & Ha & H); split; [done|]; exists a; split; [lia|done]
    |destruct IH as (a & Ha & H); exists a; split; [lia|done]|done].
  destruct IH as [-> Ha]. rewrite with_memory_twice. split; [done|]. intros a Hx.
  destruct (decide (a = dst)) as [->|]; [done|]. apply Ha. lia.
Qed.

Lemma write_bytes_spec n a s :
  guarded (fun x => a ≤ x < a + Z.of_nat n) (write_bytes mapped n a s) (fun s' =>
    k_sys s' = k_sys s ∧ syscall_table s' = syscall_table s ∧ console s' = console s ++ bytes_at (sys_memory s) a n).
Proof.
  revert a s. induction n as [|n IH]; intros a s; cbn [write_bytes].
  { split; [split_and!; [done|done|]; by rewrite app_nil_r|lia]. }
  unfold user_access. destruct (accessible mapped a) eqn:Ea; cbn [mbind outcome_bind].
  2: { split; [done|]. exists a. split; [lia|done]. }
  specialize (IH (a + 1) (serial_write (load8 (sys_memory s) a) s)).
  destruct (write_bytes _ _ _ _) as [s'|why|why|]; cbn [guarded] in *; [|destruct IH as (-> & x & Hx & H); split; [done|]; exists x; split; [lia|done]
    |destruct IH as (x & Hx & H); exists x; split; [lia|done]|done].
  destruct IH as [(E1 & E2 & E3) Hx]. split; [split_and!; [done|done|]|].
  - rewrite E3. cbn [serial_write console]. rewrite <- app_assoc, bytes_at_cons. done.
  - intros x Hr. destruct (decide (x = a)) as [->|]; [done|]. apply Hx. lia.
Qed.

Lemma field_length (w : string) n : length (field w n) = n.
Proof. unfold field. rewrite length_take, length_app, length_replicate. lia. Qed.

Lemma sys_uname_spec buf s :
  buf ≠ 0 → guarded (user_range SYS_uname buf 0 0) (sys_uname mapped kernel_data buf s)
    (fun x => x = (0, with_memory (uname_stores buf) s)).
Proof.
  intros Hb. unfold sys_uname. destruct (Z.eqb_spec buf 0); [done|].
  eapply guarded_mono; [|intros a|intros x Hx; exact Hx].
  - do 4 (eapply guarded_bind; [apply user_store_spec|intros ? ->]).
    eapply guarded_bind; [apply user_store_spec|intros ? ->]. by apply guarded_ok.
  - cbn beta. rewrite !field_length. unfold user_range. rewrite !elem_of_cons, elem_of_nil. unfold SYS_uname, SYS_write. lia.
Qed.
End Guarded.

Lemma guarded_stores {X} mapped (k1 k2 : Z → bool) r (o : outcome X) Q :
  guarded mapped k1 r o Q → (∀ a, k1 a = true → k2 a = true) → guarded mapped k2 r o Q.
Proof. intros H Hk. destruct o as [x|why|why|]; cbn in *; try done. destruct H as (a & Ha & E). exists a. auto. Qed.

(** ** Invariants that do not look at memory or output *)

Section Syscalls.
Context {A : Type}.
Implicit Types s : kern A.

Lemma sched_inv_mmu (x : sys A) m l : sched_inv x l → sched_inv (with_mmu m x) l.
Proof. intros [[] ? ? ? ?]. split; [split|..]; done. Qed.

Lemma with_memory_const f s : with_memory f s = with_memory (fun _ => sys_memory (with_memory f s)) s.
Proof. done. Qed.

Lemma memory_of_with f s : sys_memory (with_memory f s) = f (sys_memory s).
Proof. done. Qed.

Definition table_ready s : Prop := syscall_table s = syscall_table (syscall_init s).

(** The handler of a number. *)
Definition handler_of (num : Z) : option syscall_fn :=
  if num =? SYS_exit then Some Sys_exit
  else if num =? SYS_getpid then Some Sys_getpid
  else if num =? SYS_getppid then Some Sys_getppid
  else if num =? SYS_yield then Some Sys_yield
  else if num =? SYS_sleep then Some Sys_sleep
  else if num =? SYS_kill then Some Sys_kill
  else if num =? SYS_write then Some Sys_write
  else if num =? SYS_read then Some Sys_read
  else if num =? SYS_uname then Some Sys_uname else None.

Lemma table_handlers s :
  table_ready s → syscall_table s = (handler_of ∘ Z.of_nat) <$> seq 0 128.
Proof. intros ->. reflexivity. Qed.

Lemma handler_none num : handler_of num = None → implemented num = false.
Proof.
  unfold handler_of, implemented. intros H. apply bool_decide_eq_false_2. intros Hin.
  repeat (case_match; [discriminate H|]).
  repeat match goal with E : (_ =? _) = false |- _ => apply Z.eqb_neq in E end.
  repeat (apply elem_of_cons in Hin as [Hin|Hin]; [done|]). by apply elem_of_nil in Hin.
Qed.

Lemma handler_bound num : 128 ≤ num → handler_of num = None.
Proof.
  intros H. unfold handler_of. unfold SYS_exit, SYS_getpid, SYS_getppid, SYS_yield, SYS_sleep, SYS_kill,
    SYS_write, SYS_read, SYS_uname. zcases; (done || lia).
Qed.

Lemma dispatch_handler mapped kdata fuel num a1 a2 a3 s :
  table_ready s → 0 ≤ num →
  syscall_dispatch mapped kdata fuel num a1 a2 a3 s =
    match handler_of num with
    | None => Ok (- ENOSYS, s)
    | Some f => run_syscall mapped kdata fuel f a1 a2 a3 s
    end.
Proof.
  intros Ht Hn. unfold syscall_dispatch, SYSCALL_COUNT. destruct (Z.leb_spec 128 num) as [Hge|Hlt].
  - by rewrite handler_bound.
  - rewrite (table_handlers s Ht). rewrite (list_lookup_total_correct _ (Z.to_nat num) (handler_of num)); [done|].
    rewrite list_lookup_fmap, lookup_seq_lt by lia. cbn. by rewrite Z2Nat.id by lia.
Qed.

(** One scheduler operation as a system call. *)
Lemma schedules_one fuel op s l f :
  (∀ x, f x = run_op fuel op x) → sched_inv (k_sys s) l → op_pre (k_sys s) l op → (length l < fuel)%nat →
  ∃ s' l', on_sys f s = Ok s' ∧ schedules fuel [op] s s' ∧ sched_inv (k_sys s') l' ∧ keeps_queue op l l' .
Proof.
  intros Hf Hi Hp Hl. destruct (sched_op_spec fuel op _ l Hi Hp Hl) as (x & l' & E & Hi' & Hk).
  exists (with_sys x s), l'. unfold on_sys. rewrite Hf, E. by split_and!.
Qed.

Lemma schedules_app fuel ops1 ops2 s1 s2 s3 :
  schedules fuel ops1 s1 s2 → schedules fuel ops2 s2 s3 → schedules fuel (ops1 ++ ops2) s1 s3.
Proof.
  intros [E1 F1] [E2 F2]. split.
  - rewrite E2. cbn [with_sys k_sys]. by rewrite E1.
  - by rewrite foldl_app, F1.
Qed.

(** ** Every system call has the effect of its number *)

Lemma run_exit fuel a1 a2 a3 s l :
  sched_inv (k_sys s) l → (length l < fuel)%nat →
  ∃ r s', sys_exit fuel a1 s = Ok (r, s') ∧ effect fuel s SYS_exit a1 a2 a3 r s' ∧ sched_inv (k_sys s') l.
Proof.
  intros Hi Hf. unfold sys_exit, proc_current. set (c := current (rq (k_sys s))).
  assert (∃ s1, (if c =? 0 then Ok s else on_sys (proc_exit fuel c (signed32 (wrap32 a1))) s) = Ok s1 ∧
    schedules fuel (if c =? 0 then [] else [OpExit c (signed32 (wrap32 a1))]) s s1 ∧ sched_inv (k_sys s1) l ∧
    (c = 0 → s1 = s)) as (s1 & -> & H1 & Hi1 & Hz).
  { destruct (Z.eqb_spec c 0) as [Hc|Hc].
    - exists s. split_and!; [done| |done|done]. split; [by destruct s|done].
    - destruct (schedules_one fuel (OpExit c (signed32 (wrap32 a1))) s l (proc_exit fuel c (signed32 (wrap32 a1))))
        as (s1 & l1 & E & H1 & Hi1 & Hk); [done|done|exact (si_current _ _ Hi)|done|].
      cbn in Hk. subst l1. by exists s1. }
  cbn [mbind outcome_bind]. destruct (Z.eqb_spec (current (rq (k_sys s1))) c) as [Hc|Hc].
  - destruct (schedules_one fuel OpYield s1 l (sched_yield fuel)) as (s2 & l2 & E & H2 & Hi2 & Hk2); [done..|].
    cbn in Hk2. subst l2. rewrite E. cbn [mbind outcome_bind]. exists 0, s2. split_and!; [done| |done].
    by apply (eff_exit_stayed fuel s a1 a2 a3 s1).
  - cbn [mbind outcome_bind]. exists 0, s1. split_and!; [done| |done]. apply eff_exit_switched; [|done].
    destruct (Z.eqb_spec c 0) as [E0|]; [|exact H1]. destruct Hc. by rewrite (Hz E0).
Qed.

Lemma current_deref s l :
  sched_inv (k_sys s) l → current (rq (k_sys s)) ≠ 0 →
  deref (current (rq (k_sys s))) (k_sys s) = Ok (cur_proc s).
Proof.
  intros Hi Hc. destruct (si_current _ _ Hi) as [|[x Hx]]; [done|]. rewrite (deref_ok _ _ x Hx).
  unfold cur_proc. destruct (Z.eqb_spec (current (rq (k_sys s))) 0); [done|]. by rewrite Hx.
Qed.

(** The calls that only schedule or look at the current process. *)
Lemma run_scheduling fuel f num a1 a2 a3 s l :
  handler_of num = Some f → f ≠ Sys_write → f ≠ Sys_uname → 0 ≤ num →
  sched_inv (k_sys s) l → (length l < fuel)%nat → ∀ mapped kdata,
  ∃ r s', run_syscall mapped kdata fuel f a1 a2 a3 s = Ok (r, s') ∧
    effect fuel s num a1 a2 a3 r s' ∧ sched_inv (k_sys s') l.
Proof.
  intros Eh Hnw Hnu Hn Hi Hf mapped kdata. unfold handler_of in Eh.
  destruct (Z.eqb_spec num SYS_exit) as [->|_]; [injection Eh as <-; by apply (run_exit fuel a1 a2 a3 s l)|].
  destruct (Z.eqb_spec num SYS_getpid) as [->|_]; [injection Eh as <-|].
  { cbn [run_syscall]. unfold sys_getpid, proc_current. destruct (Z.eqb_spec (current (rq (k_sys s))) 0) as [E|E].
    - exists 0, s. split_and!; [done| |done]. replace 0 with (pid (cur_proc s)) at 1; [constructor|].
      unfold cur_proc. by rewrite E.
    - rewrite (current_deref s l Hi E). exists (pid (cur_proc s)), s. split_and!; [done|constructor|done]. }
  destruct (Z.eqb_spec num SYS_getppid) as [->|_]; [injection Eh as <-|].
  { cbn [run_syscall]. unfold sys_getppid, proc_current. destruct (Z.eqb_spec (current (rq (k_sys s))) 0) as [E|E].
    - exists 0, s. split_and!; [done| |done]. replace 0 with (ppid (cur_proc s)) at 1; [constructor|].
      unfold cur_proc. by rewrite E.
    - rewrite (current_deref s l Hi E). exists (ppid (cur_proc s)), s. split_and!; [done|constructor|done]. }
  destruct (Z.eqb_spec num SYS_yield) as [->|_]; [injection Eh as <-|].
  { destruct (schedules_one fuel OpYield s l (sched_yield fuel)) as (s' & l' & E & H' & Hi' & Hk); [done..|].
    cbn in Hk. subst l'. exists 0, s'. split_and!; [cbn; unfold sys_yield; by rewrite E|by constructor|done]. }
  destruct (Z.eqb_spec num SYS_sleep) as [->|_]; [injection Eh as <-|].
  { destruct (schedules_one fuel (OpSleep a1) s l (sched_sleep fuel a1)) as (s' & l' & E & H' & Hi' & Hk); [done..|].
    cbn in Hk. subst l'. exists 0, s'. split_and!; [cbn; unfold sys_sleep; by rewrite E|by constructor|done]. }
  destruct (Z.eqb_spec num SYS_kill) as [->|_]; [injection Eh as <-|].
  { destruct (schedules_one fuel (OpSignal (wrap32 a1) (signed32 (wrap32 a2))) s l
      (signal_send fuel (wrap32 a1) (signed32 (wrap32 a2)))) as (s' & l' & E & H' & Hi' & Hk);
      [done|done|apply wrap32_range|done|].
    cbn in Hk. subst l'. exists 0, s'. split_and!; [cbn; unfold sys_kill; by rewrite E|by constructor|done]. }
  destruct (Z.eqb_spec num SYS_write) as [->|_]; [by injection Eh as <-|].
  destruct (Z.eqb_spec num SYS_read) as [->|_]; [injection Eh as <-|].
  { exists (-38), s. split_and!; [done|constructor|done]. }
  destruct (Z.eqb_spec num SYS_uname) as [->|_]; [by injection Eh as <-|discriminate].
Qed.

Lemma handler_access num :
  (handler_of num = Some Sys_write → num = SYS_write) ∧ (handler_of num = Some Sys_uname → num = SYS_uname).
Proof.
  unfold handler_of. split; repeat (case_match; [intros [=]; try done; by apply Z.eqb_eq|]); discriminate.
Qed.

(** What a call does: [r] is returned in the state [s']. *)
Definition performs (fuel : nat) s (l : list Z) (num a1 a2 a3 : Z) (x : Z * kern A) : Prop :=
  effect fuel s num a1 a2 a3 x.1 x.2 ∧ sched_inv (k_sys x.2) l.

Lemma no_access_guarded mapped kdata fuel s l num a1 a2 a3 (o : outcome (Z * kern A)) :
  num ≠ SYS_write → num ≠ SYS_uname →
  (∃ r s', o = Ok (r, s') ∧ effect fuel s num a1 a2 a3 r s' ∧ sched_inv (k_sys s') l) →
  guarded mapped kdata (user_range num a1 a2 a3) o (performs fuel s l num a1 a2 a3).
Proof.
  intros H1 H2 (r & s' & -> & He & Hi). split; [by split|]. intros a [(? & _)|(? & _)]; done.
Qed.

Lemma syscall_dispatch_spec mapped kdata fuel num a1 a2 a3 s l :
  table_ready s → 0 ≤ num → 0 ≤ a3 → sched_inv (k_sys s) l → (length l < fuel)%nat →
  guarded mapped (fun a => (num =? SYS_uname) && kdata a) (user_range num a1 a2 a3)
    (syscall_dispatch mapped kdata fuel num a1 a2 a3 s)
    (performs fuel s l num a1 a2 a3).
Proof.
  intros Ht Hn Ha Hi Hf. rewrite dispatch_handler by done.
  destruct (handler_of num) as [f|] eqn:Eh.
  2: { apply handler_none in Eh. apply no_access_guarded; [by intros ->|by intros ->|].
       exists (-38), s. split_and!; [done|by apply eff_unknown|done]. }
  destruct (handler_access num) as [Hw Hu].
  destruct (decide (f = Sys_write)) as [->|Hnw]; [|destruct (decide (f = Sys_uname)) as [->|Hnu]].
  - rewrite (Hw Eh). cbn [run_syscall]. unfold sys_write.
    destruct (bool_decide (a1 = 1 ∨ a1 = 2)) eqn:Efd; [apply bool_decide_eq_true_1 in Efd|apply bool_decide_eq_false_1 in Efd].
    + replace ((a1 =? 1) || (a1 =? 2)) with true by (destruct Efd; by subst).
      eapply guarded_map; [eapply guarded_mono; [apply write_bytes_spec| |intros s' Hs; exact Hs]|].
      * intros a. unfold user_range, SYS_write, SYS_uname. lia.
      * intros s' (E1 & E2 & E3). split; [by apply eff_write|]. cbn [snd]. by rewrite E1.
    + destruct (Z.eqb_spec a1 1), (Z.eqb_spec a1 2); try lia. cbn [orb]. split; [by split; [apply eff_write_bad|]|].
      intros a Ha2. exfalso. unfold user_range, SYS_write, SYS_uname in Ha2. lia.
  - rewrite (Hu Eh). cbn [run_syscall]. destruct (Z.eq_dec a1 0) as [->|Hne].
    + split; [by split; [constructor|]|]. intros a Ha2. exfalso. unfold user_range, SYS_write, SYS_uname in Ha2. lia.
    + apply (guarded_stores _ kdata); [|done].
      eapply guarded_mono; [by apply sys_uname_spec|intros a; split; (intros [(E & _)|Hx]; [discriminate E|by right])|].
      intros ? ->. split; cbn [fst snd]; [|by apply sched_inv_mmu].
      apply eff_uname; [exact Hne|apply with_memory_const|]. rewrite memory_of_with. apply uname_stores_at.
  - apply no_access_guarded.
    + intros ->. by injection Eh as <-.
    + intros ->. by injection Eh as <-.
    + by apply (run_scheduling fuel f num a1 a2 a3 s l).
Qed.
End Syscalls.


Definition sample_kern : kern pmm := syscall_init (mk_kern sample_sys [] []).
Definition call_frame (num a1 a2 a3 : Z) : interrupt_frame :=
  mk_frame 0 0 0 0 0 0 0 0 0 a1 a2 a3 0 0 num 128 0 4194304 27 514 8392704 35.

