(* ===== verification/Interrupts.v ===== *)
(** * Interrupts at work: the handlers of pit.c, keyboard.c and syscall.c behind
    the common handlers of idt.c

    The machine is the kernel's system call state, the keyboard driver, the tick
    counter and the CPU tables with the ports.  Two handlers are registered at boot:
    [pit_irq_handler] on line 0 and [keyboard_irq_handler] on line 1; their
    addresses are parameters.

    [context_switch] returns only when the process that called it runs again.  The code
    after it in an interrupt is the end-of-interrupt command of [irq_common_handler], so
    a process that is switched away from inside an interrupt still owes the controllers
    that command: [m_parked] maps it to the line, and [resume_process] is what happens
    when the processor comes to a process.

    [pics] are the in-service registers of the two 8259A controllers, which say which
    lines can interrupt next. *)
From S2P Require Import Prelude PageAlloc Pmm Kheap Paging Process ProcessSpec SchedSpec ProcCreateSpec Rtc Keyboard PortIO Gdt Idt Syscall SyscallSpec.

Definition KBD_DATA_PORT : Z := 96.

Record machine (A : Type) : Type := mk_machine {
  m_kern : kern A;
  m_kbd : kbd;
  m_ticks : Z;
  m_cpu : cpu;
  m_parked : gmap Z Z;
}.
Arguments mk_machine {A}.
Arguments m_kern {A}.
Arguments m_kbd {A}.
Arguments m_ticks {A}.
Arguments m_cpu {A}.
Arguments m_parked {A}.

Section Machine.
Context {A : Type}.
Implicit Types s : machine A.

Definition put_kern (k : kern A) s : machine A := mk_machine k (m_kbd s) (m_ticks s) (m_cpu s) (m_parked s).
Definition put_kbd (k : kbd) s : machine A := mk_machine (m_kern s) k (m_ticks s) (m_cpu s) (m_parked s).
Definition put_ticks (t : Z) s : machine A := mk_machine (m_kern s) (m_kbd s) t (m_cpu s) (m_parked s).
Definition put_cpu (c : cpu) s : machine A := mk_machine (m_kern s) (m_kbd s) (m_ticks s) c (m_parked s).
Definition put_parked (f : gmap Z Z → gmap Z Z) s : machine A :=
  mk_machine (m_kern s) (m_kbd s) (m_ticks s) (m_cpu s) (f (m_parked s)).

(** The process the processor runs. *)
Definition running_proc s : Z := proc_current (k_sys (m_kern s)).

(** [sched_tick] switches exactly when it changes the current process; then it has not
    come back. *)
Definition pit_irq_handler (fuel : nat) (frame : interrupt_frame) : kop (machine A) bool := fun s =>
  let before := running_proc s in
  let s := put_ticks (pit_tick (m_ticks s)) s in
  k ← on_sys (sched_tick fuel) (m_kern s);
  Ok (proc_current (k_sys k) =? before, put_kern k s).

(** The scancode is read from the data port. *)
Definition kbd_irq (dev : nat → Z → Z) (frame : interrupt_frame) : kop (machine A) bool := fun s =>
  '(data, c) ← on_ports (inb dev KBD_DATA_PORT) (m_cpu s);
  let s := put_cpu c s in
  Ok (true, put_kbd (keyboard_irq_handler data (m_kbd s)) s).

(** What the current process does first when the processor comes to it: the rest of the
    interrupt it was switched away from, if any. *)
Definition resume_process : kop (machine A) unit := fun s =>
  match m_parked s !! running_proc s with
  | None => Ok (tt, s)
  | Some n => kzoom m_cpu put_cpu (on_ports (pic_send_eoi n)) (put_parked (delete (running_proc s)) s)
  end.

Section Handlers.
Context (dev : nat → Z → Z) (pit_addr kbd_addr : Z).

(** A call through a handler pointer. *)
Definition call_handler (fuel : nat) (h : Z) (frame : interrupt_frame) : kop (machine A) bool :=
  if h =? pit_addr then pit_irq_handler fuel frame
  else if h =? kbd_addr then kbd_irq dev frame
  else kundef "not a handler".

(** From a hardware interrupt to the next instruction of a process. *)
Definition irq_entry (fuel : nat) (frame : interrupt_frame) : kop (machine A) unit := fun s =>
  let before := running_proc s in
  '(back, s) ← irq_common_handler m_cpu put_cpu (call_handler fuel) frame s;
  if back : bool then Ok (tt, s)
  else resume_process (put_parked <[before := wrap8 (f_int_no frame - IRQ_BASE)]> s).

(** The same for a system call; the frame is the one the caller returns with. *)
Definition isr_entry (mapped kernel_data : Z → bool) (fuel : nat) (frame : interrupt_frame) :
    kop (machine A) interrupt_frame := fun s =>
  let before := running_proc s in
  '(frame, s) ← isr_common_handler
    (fun frame => kzoom m_kern put_kern (syscall_handler mapped kernel_data fuel frame)) frame s;
  if running_proc s =? before then Ok (frame, s)
  else '(_, s) ← resume_process s; Ok (frame, s).

(** What a line's handler does. *)
Definition serviced (fuel : nat) (n : Z) s s' : Prop :=
  if n =? 0 then
    ∃ x, sched_tick fuel (k_sys (m_kern s)) = Ok x ∧
      s' = put_kern (with_sys x (m_kern s)) (put_ticks (pit_tick (m_ticks s)) s)
  else if n =? 1 then
    let v := dev (io_reads (cpu_ports (m_cpu s))) KBD_DATA_PORT in
    s' = put_kbd (keyboard_irq_handler v (m_kbd s))
           (put_cpu (with_ports (logged_in (In KBD_DATA_PORT v) (cpu_ports (m_cpu s))) (m_cpu s)) s)
  else s' = s.

(** The handlers as boot leaves them. *)
Definition handlers_ready s : Prop :=
  irq_handlers (m_cpu s) = <[1%nat := kbd_addr]> (<[0%nat := pit_addr]> (replicate 16 0)).

Context (Hpit : pit_addr ≠ 0) (Hkbd : kbd_addr ≠ 0) (Hdist : pit_addr ≠ kbd_addr).

Lemma handler_at n s :
  handlers_ready s → 0 ≤ n < 16 →
  irq_handlers (m_cpu s) !!! Z.to_nat n = if n =? 0 then pit_addr else if n =? 1 then kbd_addr else 0.
Proof.
  intros Hh Hn. rewrite Hh. destruct (Z.eqb_spec n 0) as [->|H0]; [done|]. destruct (Z.eqb_spec n 1) as [->|H1]; [done|].
  rewrite !list_lookup_total_insert_ne by lia. apply lookup_total_replicate_2. lia.
Qed.

(** The end of interrupt of line [n] as the last port accesses. *)
Definition acknowledged (n : Z) s : machine A := put_cpu (add_log (eoi n) (m_cpu s)) s.
Definition resumed s : machine A :=
  match m_parked s !! running_proc s with
  | None => s
  | Some n => acknowledged n (put_parked (delete (running_proc s)) s)
  end.

Lemma resume_process_spec s : resume_process s = Ok (tt, resumed s).
Proof.
  unfold resume_process, resumed. destruct (m_parked s !! running_proc s) as [n|]; [|done].
  unfold kzoom, on_ports, kzoom. by rewrite pic_send_eoi_spec.
Qed.

(** How an interrupt of line [n] ends that found the process [before] and whose handler
    left the machine [s]: acknowledged if the handler came back, otherwise the line is
    parked with [before] and the new process resumed. *)
Definition ended (n before : Z) s : machine A :=
  if running_proc s =? before then acknowledged n s else resumed (put_parked <[before := n]> s).

Lemma irq_entry_spec fuel n frame s l :
  handlers_ready s → f_int_no frame = IRQ n → 0 ≤ n < 16 → sched_inv (k_sys (m_kern s)) l → (length l < fuel)%nat →
  ∃ s1, serviced fuel n s s1 ∧ sched_inv (k_sys (m_kern s1)) l ∧ handlers_ready s1 ∧ m_parked s1 = m_parked s ∧
    (running_proc s1 ≠ running_proc s → n = 0) ∧ irq_entry fuel frame s = Ok (tt, ended n (running_proc s) s1).
Proof.
  intros Hh Hf Hn Hi Hfuel. unfold irq_entry. rewrite (irq_common_handler_spec _ _ _ frame n s Hf Hn). cbv zeta.
  rewrite (handler_at n s Hh Hn). unfold serviced, ended.
  replace (wrap8 (f_int_no frame - IRQ_BASE)) with n by (rewrite Hf; unfold IRQ, IRQ_BASE; word_lia).
  destruct (Z.eqb_spec n 0) as [->|H0].
  - destruct (Z.eqb_spec pit_addr 0); [done|]. unfold call_handler. rewrite Z.eqb_refl.
    destruct (sched_op_spec fuel OpTick _ l Hi I Hfuel) as (x & l' & E & Hi' & Hk).
    cbn in Hk, E. subst l'. unfold pit_irq_handler, on_sys.
    change (m_kern (put_ticks _ s)) with (m_kern s). rewrite E. cbn [mbind outcome_bind].
    eexists. split; [exists x; split; [done|reflexivity]|]. split; [done|]. split; [done|]. split; [done|]. split; [done|].
    change (running_proc (put_kern _ _)) with (proc_current x). change (proc_current (k_sys (with_sys x _))) with (proc_current x).
    destruct (_ =? _); cbn [mbind outcome_bind]; [done|]. apply resume_process_spec.
  - destruct (Z.eqb_spec n 1) as [->|H1].
    + destruct (Z.eqb_spec kbd_addr 0); [done|]. unfold call_handler.
      destruct (Z.eqb_spec kbd_addr pit_addr); [congruence|]. rewrite Z.eqb_refl.
      eexists. split; [reflexivity|]. split; [done|]. split; [done|]. split; [done|]. split; [by intros []|].
      change (running_proc (put_kbd _ _)) with (running_proc s). by rewrite Z.eqb_refl.
    + rewrite Z.eqb_refl. exists s. split; [done|]. split; [done|]. split; [done|]. split; [done|]. split; [by intros []|].
      by rewrite Z.eqb_refl.
Qed.
End Handlers.
End Machine.

(** (C14) Every hardware interrupt is served: on a system with a well-formed scheduler
    and the handlers of boot, each of the sixteen lines' interrupts does the work of its
    handler (a scheduler tick, a scancode read and decoded, or nothing), and the
    scheduler and the handler table stay well formed.  If the handler comes back, the
    end-of-interrupt commands to the right controllers are the last port accesses.  Only
    the timer's may not come back: when its tick switches to another process, no command
    is sent for the line now; the interrupted process owes it, and it is sent as soon as
    that process runs again, as is the one the process switched to may owe. *)
Theorem irq_served {A : Type} (dev : nat → Z → Z) (pit_addr kbd_addr n : Z) (fuel : nat)
    (frame : interrupt_frame) (s : machine A) (l : list Z)
    (Hpit : pit_addr ≠ 0) (Hkbd : kbd_addr ≠ 0) (Hdist : pit_addr ≠ kbd_addr)
    (Hh : handlers_ready pit_addr kbd_addr s) (Hf : f_int_no frame = IRQ n) (Hn : 0 ≤ n < 16)
    (Hinv : sched_inv (k_sys (m_kern s)) l) (Hfuel : (length l < fuel)%nat) :
  ∃ s1 s2, serviced dev fuel n s s1 ∧ irq_entry dev pit_addr kbd_addr fuel frame s = Ok (tt, s2) ∧
    m_kern s2 = m_kern s1 ∧ sched_inv (k_sys (m_kern s2)) l ∧ handlers_ready pit_addr kbd_addr s2 ∧
    (running_proc s1 = running_proc s → s2 = acknowledged n s1) ∧
    (running_proc s1 ≠ running_proc s → n = 0 ∧
      match m_parked s !! running_proc s1 with
      | None => m_cpu s2 = m_cpu s1 ∧ m_parked s2 = <[running_proc s := n]> (m_parked s)
      | Some k => m_cpu s2 = add_log (eoi k) (m_cpu s1) ∧
          m_parked s2 = delete (running_proc s1) (<[running_proc s := n]> (m_parked s))
      end).
Proof.
  destruct (irq_entry_spec dev pit_addr kbd_addr Hpit Hkbd Hdist fuel n frame s l Hh Hf Hn Hinv Hfuel)
    as (s1 & Hs & Hi & Hh1 & Hp & H0 & E). exists s1, (ended n (running_proc s) s1). rewrite E.
  unfold ended, resumed. destruct (Z.eqb_spec (running_proc s1) (running_proc s)) as [Hr|Hr].
  - by split_and!.
  - change (running_proc (put_parked _ s1)) with (running_proc s1). cbn [put_parked m_parked]. rewrite Hp, lookup_insert_ne by congruence.
    destruct (m_parked s !! running_proc s1) as [k|]; (split_and!; [done..|by intros ?|]; intros _; split; [by apply H0|]); cbn; by rewrite Hp.
Qed.

(** ** The interrupt controllers *)

(** The in-service registers: bit [i] of a controller stands for its line [i]; the second
    controller is line 2 of the first. *)
Record pics : Type := mk_pics { isr1 : Z; isr2 : Z }.

(** A line can interrupt unless a line of its own or a higher priority is in service. *)
Definition deliverable (n : Z) (p : pics) : bool :=
  if 8 <=? n then (Z.land (isr1 p) (Z.ones 3) =? 0) && (Z.land (isr2 p) (Z.ones (n - 7)) =? 0)
  else Z.land (isr1 p) (Z.ones (n + 1)) =? 0.

(** The processor takes the interrupt. *)
Definition taken (n : Z) (p : pics) : pics :=
  if 8 <=? n then mk_pics (Z.setbit (isr1 p) 2) (Z.setbit (isr2 p) (n - 8))
  else mk_pics (Z.setbit (isr1 p) n) (isr2 p).

(** A non-specific end of interrupt ends the line of highest priority in service. *)
Definition pics_see (p : pics) (e : io) : pics :=
  match e with
  | In _ _ => p
  | Out q v =>
      if negb (v =? PIC_EOI) then p
      else if q =? PIC1_COMMAND then mk_pics (Z.land (isr1 p) (isr1 p - 1)) (isr2 p)
      else if q =? PIC2_COMMAND then mk_pics (isr1 p) (Z.land (isr2 p) (isr2 p - 1))
      else p
  end.

Definition idle_pics : pics := mk_pics 0 0.

(** The lines a device is wired to; line 2 is the second controller. *)
Definition device_line (n : Z) : Prop := 0 ≤ n < 16 ∧ n ≠ 2.

Lemma lor_disjoint a b : Z.land a b = 0 → Z.lor a b = a + b.
Proof. intros H. by rewrite Z.add_nocarry_lxor, Z.lxor_lor. Qed.

Lemma low_bits_clear x k i : 0 ≤ k → Z.land x (Z.ones k) = 0 → 0 ≤ i < k → Z.testbit x i = false.
Proof.
  intros Hk Hx Hi. assert (Z.testbit (Z.land x (Z.ones k)) i = false) as E by (rewrite Hx; apply Z.bits_0).
  rewrite Z.land_spec, Z.ones_spec_low, andb_true_r in E by lia. exact E.
Qed.

Lemma low_bit_cleared x k : 0 ≤ k → Z.land x (Z.ones (k + 1)) = 0 → Z.land (Z.setbit x k) (Z.setbit x k - 1) = x.
Proof.
  intros Hk Hx. pose proof (fun i => low_bits_clear x (k + 1) i ltac:(lia) Hx) as Hlow.
  assert (Z.land x (2 ^ k) = 0 ∧ Z.land x (Z.ones k) = 0) as [H1 H2].
  { split; apply Z.bits_inj'; intros i Hi; rewrite Z.land_spec, Z.bits_0.
    - destruct (Z.eqb_spec i k) as [->|]; [by rewrite Hlow by lia|]. by rewrite Z.pow2_bits_false, andb_false_r by lia.
    - destruct (Z.ltb_spec i k); [by rewrite Hlow by lia|]. by rewrite Z.ones_spec_high, andb_false_r by lia. }
  replace (Z.setbit x k - 1) with (Z.lor x (Z.ones k)).
  2: { rewrite Z.setbit_spec', !lor_disjoint, Z.ones_equiv by done. lia. }
  rewrite Z.setbit_spec', <- Z.lor_land_distr_r.
  replace (Z.land (2 ^ k) (Z.ones k)) with 0; [by rewrite Z.lor_0_r|].
  symmetry. rewrite Z.land_ones by lia. apply Z.mod_same. lia.
Qed.

(** The commands [eoi n] end exactly the interrupt that was taken. *)
Lemma eoi_ends n p : 0 ≤ n < 16 → deliverable n p = true → fold_left pics_see (eoi n) (taken n p) = p.
Proof.
  intros Hn Hd. unfold deliverable, taken, eoi in *. destruct p as [x y]. cbn [isr1 isr2] in *.
  destruct (Z.leb_spec 8 n).
  - apply andb_prop in Hd as [H1%Z.eqb_eq H2%Z.eqb_eq]. cbn. f_equal; apply low_bit_cleared; try lia; [done|].
    by replace (n - 8 + 1) with (n - 7) by lia.
  - apply Z.eqb_eq in Hd. cbn. f_equal. apply low_bit_cleared; [lia|done].
Qed.

(** With line 0 in service no line interrupts. *)
Lemma timer_blocks n p : 0 ≤ n < 16 → Z.testbit (isr1 p) 0 = true → deliverable n p = false.
Proof.
  intros Hn Hb. unfold deliverable.
  assert (∀ k, 0 < k → (Z.land (isr1 p) (Z.ones k) =? 0) = false) as Hk.
  { intros k Hk. apply Z.eqb_neq. intros E. pose proof (low_bits_clear _ k 0 ltac:(lia) E ltac:(lia)). congruence. }
  destruct (8 <=? n); [rewrite (Hk 3) by lia; done|apply Hk; lia].
Qed.

Lemma idle_delivers n : 0 ≤ n < 16 → deliverable n idle_pics = true.
Proof. intros Hn. unfold deliverable, idle_pics. cbn [isr1 isr2]. rewrite !Z.land_0_l. by destruct (8 <=? n). Qed.

(** The machine after [idt_init], [pit_init] and the keyboard's probe. *)
Definition booted_cpu (pit_addr kbd_addr : Z) : cpu :=
  irq_register_handler 1 kbd_addr (irq_register_handler 0 pit_addr
    (mk_cpu [] (replicate 16 0) (4095, 0) (mk_ports 0 []))).
Definition sample_machine : machine pmm := mk_machine sample_kern kbd_static 0 (booted_cpu 1114112 1118208) ∅.
Definition irq_frame (n : Z) : interrupt_frame :=
  mk_frame 0 0 0 0 0 0 0 0 0 0 0 0 0 0 0 (32 + n) 0 4194304 8 514 8392704 16.

(** The keyboard's interrupt is acknowledged; the timer's tick of [sample_tick_switches]
    switches from process 8 to 24, and 8 owes the end of interrupt. *)
Lemma irq_served_witness :
  (∃ s1 s2, irq_entry (fun _ _ => 30) 1114112 1118208 3 (irq_frame 1) sample_machine = Ok (tt, s2) ∧
     serviced (fun _ _ => 30) 3 1 sample_machine s1 ∧ s2 = acknowledged 1 s1) ∧
  (∃ s2, irq_entry (fun _ _ => 30) 1114112 1118208 3 (irq_frame 0) sample_machine = Ok (tt, s2) ∧
     sched_inv (k_sys (m_kern s2)) [8; 24] ∧ running_proc s2 = 24 ∧ m_parked s2 = {[8 := 0]}).
Proof.
  split.
  - destruct (irq_served (fun _ _ => 30) 1114112 1118208 1 3 (irq_frame 1) sample_machine [8; 24])
      as (s1 & s2 & H1 & H2 & _ & _ & _ & H3 & _);
      [discriminate|discriminate|discriminate|reflexivity|reflexivity|lia|exact sample_sched_inv|cbn; lia|].
    exists s1, s2. split; [exact H2|]. split; [exact H1|]. apply H3. by rewrite H1.
  - destruct (irq_served (fun _ _ => 30) 1114112 1118208 0 3 (irq_frame 0) sample_machine [8; 24])
      as (s1 & s2 & H1 & H2 & Hk & H3 & _ & _ & H4);
      [discriminate|discriminate|discriminate|reflexivity|reflexivity|lia|exact sample_sched_inv|cbn; lia|].
    exists s2. split; [exact H2|]. split; [exact H3|].
    destruct H1 as (x & Ex & ->). change (k_sys (m_kern sample_machine)) with sample_sys in Ex.
    pose proof sample_tick_switches as Ht. rewrite Ex in Ht. injection Ht as Hc _.
    change (current (rq x)) with (proc_current x) in Hc.
    change (running_proc (put_kern (with_sys x _) _)) with (proc_current x) in H4. rewrite Hc in H4.
    assert (running_proc s2 = 24) as Hr by (unfold running_proc; by rewrite Hk).
    split; [exact Hr|]. change (running_proc sample_machine) with 8 in H4. change (m_parked sample_machine) with (∅ : gmap Z Z) in H4.
    rewrite lookup_empty in H4. destruct H4 as [_ [_ H4]]; [done|]. by rewrite H4, insert_empty.
Defined.

(** Any other exception than the system call gate panics with its name. *)
Lemma exceptions_panic {A : Type} mapped kdata fuel frame (s : machine A) :
  f_int_no frame ≠ 128 → 0 ≤ f_int_no frame < 21 →
  isr_entry mapped kdata fuel frame s = Panic (exception_names !!! Z.to_nat (f_int_no frame)).
Proof.
  intros H Hr. unfold isr_entry, isr_common_handler. destruct (Z.eqb_spec (f_int_no frame) 128); [done|].
  destruct (Z.ltb_spec (f_int_no frame) 21); [done|lia].
Qed.

(** A system call that does not switch is [syscall_handler]. *)
Lemma system_call_entry {A : Type} mapped kdata fuel frame (s : machine A) f k :
  f_int_no frame = 128 → syscall_handler mapped kdata fuel frame (m_kern s) = Ok (f, k) →
  isr_entry mapped kdata fuel frame s =
    if proc_current (k_sys k) =? running_proc s then Ok (f, put_kern k s) else Ok (f, resumed (put_kern k s)).
Proof.
  intros H E. unfold isr_entry, isr_common_handler. rewrite H, Z.eqb_refl. unfold kzoom. rewrite E.
  cbn [mbind outcome_bind]. change (running_proc (put_kern k s)) with (proc_current (k_sys k)).
  destruct (_ =? _); [done|]. by rewrite resume_process_spec.
Qed.
