(* ===== verification/Shell.v ===== *)
(** * userspace/heroshell/heroshell.c: history, line editor, tokenizer, dispatch

    A [char] array is the list of its bytes.  The line editor takes the events
    [keyboard_poll] returns, one at a time, and gives the bytes it prints.  The
    terminal shows one cell per byte and a backspace moves back one cell; this is
    what the erase sequence of the code assumes.

    Its specification, a text with a history of lines, is [Edit] in ShellSpec.v. *)
From S2P Require Import Prelude Keyboard.

Definition SHELL_LINE_MAX : Z := 1024.
Definition SHELL_HIST_SIZE : Z := 256.
Definition SHELL_MAX_ARGS : nat := 64.
Definition SHELL_PROMPT : list Z := codes "hero$ ".
Definition KEY_ARROW_UP : Z := 72.
Definition KEY_ARROW_DOWN : Z := 80.

(** ** Character arrays *)

(** The string at the start of an array, and from an index on. *)
Fixpoint str_of (buf : list Z) : list Z :=
  match buf with [] => [] | c :: rest => if c =? 0 then [] else c :: str_of rest end.

(** [strncpy(buf, s, n)]: the string, then zeros up to [n]. *)
Definition buf_strncpy (n : nat) (s buf : list Z) : list Z :=
  take n (s ++ replicate n 0) ++ drop n buf.

Definition set_at (i v : Z) (buf : list Z) : list Z := <[Z.to_nat i := v]> buf.

(** ** State *)

Record shell : Type := mk_shell {
  hist_buf : list (list Z);
  hist_count : Z;
  hist_head : Z;
  line : list Z;
  saved_line : list Z;
  pos : Z;
  hist_nav : Z;
}.

Definition zero_line : list Z := replicate 1024 0.
Definition shell_static : shell :=
  mk_shell (replicate 256 zero_line) 0 0 zero_line zero_line 0 (-1).

Definition with_line (l : list Z) (p nav : Z) (s : shell) : shell :=
  mk_shell (hist_buf s) (hist_count s) (hist_head s) l (saved_line s) p nav.

(** ** History *)

Definition hist_add (l : list Z) (s : shell) : shell :=
  let idx := (hist_head s + hist_count s) mod SHELL_HIST_SIZE in
  let entry := buf_strncpy 1023 l (hist_buf s !!! Z.to_nat idx) in
  let entry := set_at (SHELL_LINE_MAX - 1) 0 entry in
  let bufs := <[Z.to_nat idx := entry]> (hist_buf s) in
  if hist_count s <? SHELL_HIST_SIZE
  then mk_shell bufs (hist_count s + 1) (hist_head s) (line s) (saved_line s) (pos s) (hist_nav s)
  else mk_shell bufs (hist_count s) ((hist_head s + 1) mod SHELL_HIST_SIZE) (line s) (saved_line s)
         (pos s) (hist_nav s).

Definition hist_get (offset : Z) (s : shell) : option (list Z) :=
  if (offset <? 0) || (hist_count s <=? offset) then None
  else
    let idx := (hist_head s + hist_count s - 1 - offset) mod SHELL_HIST_SIZE in
    Some (str_of (hist_buf s !!! Z.to_nat idx)).

(** ** The line editor *)

Definition term_erase (n : Z) : list Z := concat (replicate (Z.to_nat n) [8; 32; 8]).

(** Start of a line: the prompt is printed and the buffers are cleared. *)
Definition begin_line (s : shell) : shell :=
  mk_shell (hist_buf s) (hist_count s) (hist_head s) zero_line zero_line 0 (-1).

(** The line shows another text: erase the old one, copy, print. *)
Definition show_entry (entry : list Z) (terminate : bool) (nav : Z) (s : shell) : shell * list Z :=
  let l := buf_strncpy 1023 entry (line s) in
  let l := if terminate then set_at (SHELL_LINE_MAX - 1) 0 l else l in
  (with_line l (Z.of_nat (length (str_of l))) nav s, term_erase (pos s) ++ str_of l).

Definition edit_extended (ev : key_event) (s : shell) : shell * list Z :=
  if ev_scancode ev =? KEY_ARROW_UP then
    let next := hist_nav s + 1 in
    match hist_get next s with
    | None => (s, [])
    | Some entry =>
        let s := if hist_nav s <? 0
                 then mk_shell (hist_buf s) (hist_count s) (hist_head s) (line s)
                        (buf_strncpy 1023 (str_of (line s)) (saved_line s)) (pos s) (hist_nav s)
                 else s in
        show_entry entry true next s
    end
  else if ev_scancode ev =? KEY_ARROW_DOWN then
    if hist_nav s <? 0 then (s, [])
    else if 0 <? hist_nav s then
      match hist_get (hist_nav s - 1) s with
      | Some entry => show_entry entry true (hist_nav s - 1) s
      | None => (s, [])          (* strncpy from NULL; excluded by the invariant *)
      end
    else show_entry (str_of (saved_line s)) false (-1) s
  else (s, []).

(** One event: the new state, the output, and whether the line is complete. *)
Definition edit_key (ev : key_event) (s : shell) : shell * list Z * bool :=
  if negb (ev_pressed ev) then (s, [], false)
  else if ev_extended ev then (edit_extended ev s, false)
  else
    let c := ev_ascii ev in
    if c =? 0 then (s, [], false)
    else if (c =? 13) || (c =? 10) then
      (with_line (set_at (pos s) 0 (line s)) (pos s) (hist_nav s) s, [10], true)
    else if c =? 8 then
      if 0 <? pos s
      then (with_line (set_at (pos s - 1) 0 (line s)) (pos s - 1) (hist_nav s) s, term_erase 1, false)
      else (s, [], false)
    else if c =? 27 then
      (with_line (set_at 0 0 (line s)) 0 (-1) s, term_erase (pos s), false)
    else if pos s <? SHELL_LINE_MAX - 1 then
      (with_line (set_at (pos s + 1) 0 (set_at (pos s) c (line s))) (pos s + 1) (hist_nav s) s, [c], false)
    else (s, [], false).

(** ** The tokenizer

    [p] is an index into the line; [argv] holds indices. *)
Definition byte_at (buf : list Z) (p : Z) : Z := buf !!! Z.to_nat p.
Definition is_blank (c : Z) : bool := (c =? 32) || (c =? 9).

Fixpoint skip_while (fuel : nat) (stop : Z → bool) (buf : list Z) (p : Z) : outcome Z :=
  match fuel with
  | O => Diverge
  | S fuel' => if stop (byte_at buf p) then Ok p else skip_while fuel' stop buf (p + 1)
  end.

Fixpoint token_loop (fuel : nat) (room : nat) (buf : list Z) (p : Z) (argv : list Z) :
    outcome (list Z * list Z) :=
  match fuel with
  | O => Diverge
  | S fuel' =>
      if (byte_at buf p =? 0) || (room =? 0)%nat then Ok (argv, buf)
      else
        p ← skip_while fuel (fun c => negb (is_blank c)) buf p;
        if byte_at buf p =? 0 then Ok (argv, buf)
        else
          let start := p in
          p ← skip_while fuel (fun c => (c =? 0) || is_blank c) buf p;
          if byte_at buf p =? 0 then token_loop fuel' (pred room) buf p (argv ++ [start])
          else token_loop fuel' (pred room) (set_at p 0 buf) (p + 1) (argv ++ [start])
  end.

(** The tokens, as strings, and the buffer. *)
Definition tokenize (l : list Z) (max_args : nat) : outcome (list (list Z)) :=
  '(argv, buf) ← token_loop (S (length l)) (pred max_args) l 0 [];
  Ok (map (fun p => str_of (drop (Z.to_nat p) buf)) argv).

(** ** Dispatch *)

Definition builtins : list (list Z) :=
  codes <$> ["help"; "exit"; "echo"; "cd"; "ls"; "cat"; "pwd"; "clear"; "hero"]%string.

(** What [shell_exec_line] runs: nothing (returns 0), the built-in of that index
    in the table, or nothing found (returns 127). *)
Inductive command : Type := NoCommand | Builtin (i : nat) (argv : list (list Z)) | NotFound (name : list Z).

Definition shell_exec_line (l : list Z) : outcome command :=
  match l with
  | [] => Ok NoCommand
  | _ =>
      let buf := set_at (SHELL_LINE_MAX - 1) 0 (buf_strncpy 1023 l (replicate 1024 0)) in
      argv ← tokenize buf SHELL_MAX_ARGS;
      match argv with
      | [] => Ok NoCommand
      | name :: _ =>
          match list_find (fun b => b = name) builtins with
          | Some (i, _) => Ok (Builtin i argv)
          | None => Ok (NotFound name)
          end
      end
  end.

(** ** The read-eval loop

    The loop over the events that arrive, up to the point where it waits for the
    next one: the commands executed and everything printed by the editor. *)
Definition is_exit (c : command) : bool := match c with Builtin 1 _ => true | _ => false end.

Fixpoint shell_loop (evs : list key_event) (s : shell) (out : list Z) (cmds : list command) :
    outcome (shell * list Z * list command) :=
  match evs with
  | [] => Ok (s, out, cmds)
  | ev :: evs' =>
      let '(s, o, complete) := edit_key ev s in
      if complete : bool then
        if 0 <? pos s then
          c ← shell_exec_line (str_of (line s));
          let s := begin_line (hist_add (str_of (line s)) s) in
          if is_exit c then Ok (s, out ++ o, cmds ++ [c])
          else shell_loop evs' s (out ++ o ++ SHELL_PROMPT) (cmds ++ [c])
        else shell_loop evs' (begin_line s) (out ++ o ++ SHELL_PROMPT) cmds
      else shell_loop evs' s (out ++ o) cmds
  end.
Definition shell_run (evs : list key_event) : outcome (shell * list Z * list command) :=
  shell_loop evs (begin_line shell_static) SHELL_PROMPT [].
