(* ===== verification/ShellSpec.v ===== *)
(** * Properties of the shell

    The tokenizer splits a line into its words, and the line editor with its
    history refines the editor [Edit], on texts instead of character arrays; what
    the terminal shows in front of the cursor is the prompt and the text. *)
From S2P Require Import Prelude Keyboard Shell.

(** ** Words *)

Fixpoint words (l : list Z) : list (list Z) :=
  match l with
  | [] => []
  | c :: r =>
      if is_blank c then words r
      else match r with
           | [] => [[c]]
           | c' :: _ =>
               if is_blank c' then [c] :: words r
               else match words r with w :: ws => (c :: w) :: ws | [] => [[c]] end
           end
  end.

(** The command a line stands for. *)
Definition command_of (l : list Z) : command :=
  match take 63 (words l) with
  | [] => NoCommand
  | name :: args =>
      match list_find (fun b => b = name) builtins with
      | Some (i, _) => Builtin i (name :: args)
      | None => NotFound name
      end
  end.

Abbreviation blank := (fun c => is_blank c = true).
Abbreviation solid := (fun c => is_blank c = false).

Lemma words_blanks bl l : Forall blank bl → words (bl ++ l) = words l.
Proof. induction 1 as [|b bl Hb _ IH]; [done|]. cbn. by rewrite Hb. Qed.

Lemma words_word w b r :
  w ≠ [] → Forall solid w → is_blank b = true → words (w ++ b :: r) = w :: words r.
Proof.
  intros Hne Hw Hb. induction Hw as [|c w Hc Hw IH]; [done|]. cbn. rewrite Hc.
  destruct w as [|c' w]; cbn [app].
  - rewrite Hb. cbn [words]. by rewrite Hb.
  - apply Forall_cons in Hw as Hw'. destruct Hw' as [Hc' _]. rewrite Hc'.
    cbn [app] in IH. by rewrite IH.
Qed.

Lemma words_last w : w ≠ [] → Forall solid w → words w = [w].
Proof.
  intros Hne Hw. induction Hw as [|c w Hc Hw IH]; [done|]. cbn. rewrite Hc.
  destruct w as [|c' w]; [done|]. apply Forall_cons in Hw as Hw'. destruct Hw' as [Hc' _].
  rewrite Hc'. by rewrite IH.
Qed.

Lemma span (P : Z → bool) u :
  ∃ a b, u = a ++ b ∧ Forall (fun c => P c = true) a ∧
    (b = [] ∨ ∃ c b', b = c :: b' ∧ P c = false).
Proof.
  induction u as [|c u (a & b & -> & Ha & Hb)]; [exists [], []; auto|].
  destruct (P c) eqn:E.
  - exists (c :: a), b. auto.
  - exists [], (c :: a ++ b). split_and!; [done|done|]. right. eauto.
Qed.

(** ** The tokenizer *)

Lemma byte_at_mid pre x post : byte_at (pre ++ x :: post) (Z.of_nat (length pre)) = x.
Proof. unfold byte_at. rewrite Nat2Z.id. by apply list_lookup_total_middle. Qed.

Lemma skip_while_spec fuel stop pre a x post :
  (length a < fuel)%nat → Forall (fun c => stop c = false) a → stop x = true →
  skip_while fuel stop (pre ++ a ++ x :: post) (Z.of_nat (length pre)) =
    Ok (Z.of_nat (length (pre ++ a))).
Proof.
  intros Hf Ha Hx. revert pre fuel Hf. induction Ha as [|c a Hc Ha IH]; intros pre fuel Hf;
    (destruct fuel as [|fuel]; [lia|]); cbn [skip_while app]; rewrite byte_at_mid.
  - by rewrite Hx, app_nil_r.
  - rewrite Hc. replace (Z.of_nat (length pre) + 1) with (Z.of_nat (length (pre ++ [c])))
      by (rewrite length_app; cbn; lia).
    replace (pre ++ c :: a ++ x :: post) with ((pre ++ [c]) ++ a ++ x :: post) by (by rewrite <- app_assoc).
    rewrite IH by (cbn in Hf; lia). by rewrite <- app_assoc.
Qed.

Lemma str_of_app t post : Forall (fun c => c ≠ 0) t → str_of (t ++ 0 :: post) = t.
Proof.
  induction 1 as [|c t Hc _ IH]; [done|]. cbn. destruct (Z.eqb_spec c 0); [done|]. by rewrite IH.
Qed.

(** The string that starts at an index of [argv]. *)
Definition arg_at (buf : list Z) (p : Z) : list Z := str_of (drop (Z.to_nat p) buf).

Lemma arg_at_pre pre buf w post :
  buf = pre ++ w ++ 0 :: post → Forall (fun c => c ≠ 0) w → arg_at buf (Z.of_nat (length pre)) = w.
Proof.
  intros -> Hw. unfold arg_at. rewrite Nat2Z.id, drop_app_length. by apply str_of_app.
Qed.

Lemma list_insert_middle (l1 l2 : list Z) x y : <[length l1 := x]> (l1 ++ y :: l2) = l1 ++ x :: l2.
Proof. replace (length l1) with (length l1 + 0)%nat by lia. by rewrite insert_app_r. Qed.

(** What is left of a line: blanks only, or a word behind some blanks. *)
Lemma next_word u :
  Forall blank u ∨
  ∃ bl w r, u = bl ++ w ++ r ∧ Forall blank bl ∧ Forall solid w ∧ w ≠ [] ∧
    (r = [] ∨ ∃ b r', r = b :: r' ∧ is_blank b = true).
Proof.
  destruct (span is_blank u) as (bl & v & -> & Hbl & [->|(c & v' & -> & Hc)]).
  { left. by rewrite app_nil_r. }
  right. destruct (span (fun c => negb (is_blank c)) (c :: v')) as (w & r & Ew & Hw & Hr).
  exists bl, w, r. rewrite Ew. split_and!; [done|done| | |].
  - eapply Forall_impl; [exact Hw|]. intros x Hx. by apply negb_true_iff.
  - intros ->. cbn in Ew. destruct Hr as [->|(z & r' & -> & Hz)]; [done|].
    injection Ew as <- _. apply negb_false_iff in Hz. congruence.
  - destruct Hr as [->|(z & r' & -> & Hz)]; [by left|right]. exists z, r'. by apply negb_false_iff in Hz.
Qed.

Lemma next_nonzero u : Forall (fun c => c ≠ 0) u → u ≠ [] →
  ∀ pre post, (byte_at (pre ++ u ++ 0 :: post) (Z.of_nat (length pre)) =? 0) = false.
Proof.
  intros Hu Hne pre post. destruct Hu as [|c u Hc _]; [done|]. cbn [app]. rewrite byte_at_mid. lia.
Qed.

Lemma skip_blanks fuel pre bl x post :
  (length bl < fuel)%nat → Forall blank bl → is_blank x = false →
  skip_while fuel (fun c => negb (is_blank c)) (pre ++ bl ++ x :: post) (Z.of_nat (length pre)) =
    Ok (Z.of_nat (length (pre ++ bl))).
Proof.
  intros Hf Hbl Hx. apply skip_while_spec; [done| |by rewrite Hx].
  eapply Forall_impl; [exact Hbl|]. intros c Hc. cbn. by rewrite Hc.
Qed.

Lemma skip_word fuel pre w x post :
  (length w < fuel)%nat → Forall solid w → Forall (fun c => c ≠ 0) w → x = 0 ∨ is_blank x = true →
  skip_while fuel (fun c => (c =? 0) || is_blank c) (pre ++ w ++ x :: post) (Z.of_nat (length pre)) =
    Ok (Z.of_nat (length (pre ++ w))).
Proof.
  intros Hf Hw Hnz Hx. apply skip_while_spec; [done| |].
  - clear Hf Hx. induction w as [|c w IH]; [constructor|].
    apply Forall_cons in Hw as [Hc Hw]. apply Forall_cons in Hnz as [Hz Hnz].
    constructor; [|auto]. rewrite Hc. by destruct (Z.eqb_spec c 0).
  - destruct Hx as [->|Hx]; [done|]. by rewrite Hx, orb_true_r.
Qed.

(** The start of an iteration: blanks are skipped, and the word is delimited. *)
Lemma token_loop_word fuel room pre bl w x post argv :
  (length (bl ++ w) < S fuel)%nat → Forall blank bl → Forall solid w → w ≠ [] →
  Forall (fun c => c ≠ 0) (bl ++ w) → x = 0 ∨ is_blank x = true →
  token_loop (S fuel) (S room) (pre ++ bl ++ w ++ x :: post) (Z.of_nat (length pre)) argv =
    (let buf := pre ++ bl ++ w ++ x :: post in
     let p := Z.of_nat (length ((pre ++ bl) ++ w)) in
     let argv := argv ++ [Z.of_nat (length (pre ++ bl))] in
     if byte_at buf p =? 0 then token_loop fuel room buf p argv
     else token_loop fuel room (set_at p 0 buf) (p + 1) argv).
Proof.
  intros Hf Hbl Hw Hne Hnz Hx. rewrite length_app in Hf.
  apply Forall_app in Hnz as Hnz'. destruct Hnz' as [_ Hnzw].
  assert (∃ y w', w = y :: w' ∧ is_blank y = false ∧ y ≠ 0) as (y & w' & -> & Hy & Hy0).
  { destruct w as [|y w']; [done|]. exists y, w'.
    apply Forall_cons in Hw as [? _]. by apply Forall_cons in Hnzw as [? _]. }
  cbn [token_loop].
  assert ((byte_at (pre ++ bl ++ (y :: w') ++ x :: post) (Z.of_nat (length pre)) =? 0) = false) as ->.
  { destruct bl as [|b bl]; cbn [app]; rewrite byte_at_mid; [lia|].
    apply Forall_cons in Hnz as [? _]. lia. }
  cbn [orb Nat.eqb app]. rewrite skip_blanks by (lia || done). cbn [mbind outcome_bind].
  rewrite app_assoc, byte_at_mid. destruct (Z.eqb_spec y 0); [done|].
  change (y :: w' ++ x :: post) with ((y :: w') ++ x :: post).
  rewrite skip_word by (lia || done). reflexivity.
Qed.

Lemma token_loop_spec n fuel room pre u post argv :
  (length u ≤ n)%nat → (length u < fuel)%nat → Forall (fun c => c ≠ 0) u →
  ∃ idx u', token_loop fuel room (pre ++ u ++ 0 :: post) (Z.of_nat (length pre)) argv =
      Ok (argv ++ idx, pre ++ u' ++ 0 :: post) ∧
    map (arg_at (pre ++ u' ++ 0 :: post)) idx = take room (words u).
Proof.
  revert fuel room pre u argv. induction n as [n IH] using lt_wf_ind.
  intros fuel room pre u argv Hn Hf Hu. destruct fuel as [|fuel]; [lia|].
  destruct room as [|room].
  { exists [], u. cbn. by rewrite app_nil_r, orb_true_r. }
  destruct (next_word u) as [Hb|(bl & w & r & -> & Hbl & Hw & Hne & Hr)].
  { assert (words u = []) as -> by (rewrite <- (app_nil_r u); by rewrite words_blanks).
    exists [], u. rewrite app_nil_r. split; [|done]. cbn [token_loop].
    destruct u as [|c u]; [cbn [app]; by rewrite byte_at_mid|].
    rewrite next_nonzero by done. cbn [orb Nat.eqb]. rewrite skip_blanks by (lia || done).
    cbn [mbind outcome_bind]. by rewrite app_assoc, byte_at_mid. }
  rewrite app_assoc in Hu. apply Forall_app in Hu as [Hu Hur]. apply Forall_app in Hu as Hu'.
  destruct Hu' as [_ Huw]. rewrite !length_app in Hn, Hf.
  assert (0 < length w)%nat as Hlw by (destruct w; [done|cbn; lia]).
  rewrite <- !app_assoc, words_blanks by done. destruct Hr as [->|(b & r' & -> & Hb)].
  - cbn [app]. rewrite token_loop_word by (rewrite ?length_app; lia || by left || done). cbv zeta.
    replace (pre ++ bl ++ w ++ 0 :: post) with (((pre ++ bl) ++ w) ++ 0 :: post)
      by (by rewrite <- !app_assoc).
    rewrite byte_at_mid. cbn [Z.eqb]. destruct fuel as [|fuel]; [cbn in Hf; lia|]. cbn [token_loop].
    rewrite byte_at_mid. cbn [Z.eqb orb].
    exists [Z.of_nat (length (pre ++ bl))], (bl ++ w). split; [by rewrite <- !app_assoc|].
    rewrite app_nil_r, words_last by done. cbn. rewrite take_nil. f_equal.
    apply (arg_at_pre _ _ w post); [by rewrite <- !app_assoc|done].
  - apply Forall_cons in Hur as [Hb0 Hur]. cbn [app length] in *.
    rewrite token_loop_word by (rewrite ?length_app; lia || by right || done). cbv zeta.
    replace (pre ++ bl ++ w ++ b :: r' ++ 0 :: post) with (((pre ++ bl) ++ w) ++ b :: r' ++ 0 :: post)
      by (by rewrite <- !app_assoc).
    rewrite byte_at_mid. destruct (Z.eqb_spec b 0); [done|]. unfold set_at. rewrite Nat2Z.id.
    rewrite (list_insert_middle ((pre ++ bl) ++ w)).
    replace (Z.of_nat (length ((pre ++ bl) ++ w)) + 1) with (Z.of_nat (length (((pre ++ bl) ++ w) ++ [0])))
      by (rewrite (length_app _ [0]); cbn; lia).
    replace (((pre ++ bl) ++ w) ++ 0 :: r' ++ 0 :: post) with ((((pre ++ bl) ++ w) ++ [0]) ++ r' ++ 0 :: post)
      by (by rewrite <- !app_assoc).
    destruct (IH (length r') ltac:(lia) fuel room (((pre ++ bl) ++ w) ++ [0]) r'
      (argv ++ [Z.of_nat (length (pre ++ bl))])) as (idx & u' & -> & Hidx); [lia|lia|done|].
    exists (Z.of_nat (length (pre ++ bl)) :: idx), (bl ++ w ++ 0 :: u').
    assert ((((pre ++ bl) ++ w) ++ [0]) ++ u' ++ 0 :: post = pre ++ (bl ++ w ++ 0 :: u') ++ 0 :: post) as <-
      by (rewrite <- !app_assoc; cbn [app]; by rewrite <- ?app_assoc).
    split; [by rewrite <- (app_assoc argv)|]. rewrite words_word by done. cbn [map take]. f_equal; [|done].
    apply (arg_at_pre _ _ w (u' ++ 0 :: post)); [by rewrite <- !app_assoc|done].
Qed.

(** Splitting a line of an array into its words. *)
Lemma tokenize_spec u post max_args :
  Forall (fun c => c ≠ 0) u →
  tokenize (u ++ 0 :: post) max_args = Ok (take (pred max_args) (words u)).
Proof.
  intros Hu. unfold tokenize.
  destruct (token_loop_spec (length u) (S (length (u ++ 0 :: post))) (pred max_args) [] u post [])
    as (idx & u' & E & Hidx); [lia|rewrite length_app; lia|done|].
  cbn [app length] in E. change (Z.of_nat 0) with 0 in E. rewrite E. cbn [mbind outcome_bind]. f_equal. exact Hidx.
Qed.

(** ** Lines as character arrays *)

(** The array [l] holds the text [t]; its last byte is always zero. *)
Record holds (l t : list Z) : Prop := mk_holds {
  ho_len : length l = 1024%nat;
  ho_last : l !! 1023%nat = Some 0;
  ho_text : str_of l = t;
}.

Lemma str_of_nonzero l : Forall (fun c => c ≠ 0) (str_of l).
Proof.
  induction l as [|c l IH]; cbn; [constructor|]. destruct (Z.eqb_spec c 0); constructor; done.
Qed.

Lemma str_of_split l i : l !! i = Some 0 → ∃ post, l = str_of l ++ 0 :: post ∧ (length (str_of l) ≤ i)%nat.
Proof.
  revert i. induction l as [|c l IH]; intros i Hi; [done|]. cbn. destruct (Z.eqb_spec c 0) as [->|Hc].
  - exists l. cbn. split; [done|lia].
  - destruct i as [|i]; [cbn in Hi; congruence|]. destruct (IH i Hi) as (post & E & Hl).
    exists post. cbn. rewrite <- E. split; [done|lia].
Qed.

Lemma holds_split l t :
  holds l t → ∃ post, l = t ++ 0 :: post ∧ Forall (fun c => c ≠ 0) t ∧
    (length t + length post = 1023)%nat.
Proof.
  intros [Hl Hz <-]. destruct (str_of_split _ _ Hz) as (post & E & _). exists post.
  split_and!; [done|apply str_of_nonzero|]. rewrite E, length_app in Hl. cbn in Hl. lia.
Qed.

Lemma holds_make t post :
  Forall (fun c => c ≠ 0) t → (length t + length post = 1023)%nat →
  (t ++ 0 :: post) !! 1023%nat = Some 0 → holds (t ++ 0 :: post) t.
Proof.
  intros Ht Hl Hz. split; [rewrite length_app; cbn; lia|done|by apply str_of_app].
Qed.

Lemma holds_length l t : holds l t → (length t ≤ 1023)%nat.
Proof. intros (post & _ & _ & H)%holds_split. lia. Qed.

Lemma holds_zero : holds zero_line [].
Proof. split; done. Qed.

(** Cutting the text off at an index. *)
Lemma holds_cut l t i : holds l t → (i ≤ length t)%nat → holds (set_at (Z.of_nat i) 0 l) (take i t).
Proof.
  intros Hh Hi. pose proof Hh as [Hl Hz _]. destruct (holds_split _ _ Hh) as (post & E & Ht & Hlen).
  unfold set_at. rewrite Nat2Z.id. split.
  - by rewrite length_insert.
  - destruct (decide (i = 1023%nat)) as [->|Hne]; [apply list_lookup_insert_eq; lia|].
    by rewrite list_lookup_insert_ne by done.
  - rewrite E. destruct (decide (i = length t)) as [->|Hne].
    + rewrite list_insert_middle, take_ge by lia. by apply str_of_app.
    + rewrite <- (take_drop i t) at 1. destruct (drop i t) as [|c rest] eqn:Ed.
      { exfalso. apply (f_equal length) in Ed. rewrite length_drop in Ed. cbn in Ed. lia. }
      rewrite <- app_assoc. cbn [app].
      rewrite <- (length_take_le t i) at 1 by done. rewrite list_insert_middle.
      apply str_of_app. by apply Forall_take.
Qed.

(** Typing a byte at the end. *)
Lemma holds_type l t c :
  holds l t → (length t < 1023)%nat → c ≠ 0 →
  holds (set_at (Z.of_nat (length t) + 1) 0 (set_at (Z.of_nat (length t)) c l)) (t ++ [c]).
Proof.
  intros Hh Hi Hc. pose proof Hh as [Hl Hz _]. destruct (holds_split _ _ Hh) as (post & E & Ht & Hlen).
  unfold set_at. rewrite Nat2Z.id. replace (Z.to_nat (Z.of_nat (length t) + 1)) with (length (t ++ [c]))
    by (rewrite length_app; cbn; lia).
  destruct post as [|x post]; [cbn in Hlen; lia|]. rewrite E, list_insert_middle.
  replace (t ++ c :: x :: post) with ((t ++ [c]) ++ x :: post) by (by rewrite <- app_assoc).
  rewrite list_insert_middle. apply holds_make.
  - apply Forall_app. split; [done|]. by constructor.
  - rewrite length_app. cbn in *. lia.
  - rewrite <- (list_insert_middle _ _ 0 x). rewrite length_app. cbn.
    destruct (decide (length t + 1 = 1023)%nat) as [Heq|Hne].
    + rewrite Heq. apply list_lookup_insert_eq. rewrite !length_app. cbn in *. lia.
    + rewrite list_lookup_insert_ne by lia. rewrite <- app_assoc. cbn.
      rewrite E in Hz. rewrite lookup_app_r in Hz |- * by lia.
      by destruct (1023 - length t)%nat eqn:Ei; [lia|].
Qed.

(** Copying another text in. *)
Lemma holds_copy l t e :
  holds l t → Forall (fun c => c ≠ 0) e → (length e ≤ 1023)%nat → holds (buf_strncpy 1023 e l) e.
Proof.
  intros [Hl Hz _] He Hlen. unfold buf_strncpy.
  assert (take 1023 (e ++ replicate 1023 0) = e ++ replicate (1023 - length e) 0) as ->.
  { rewrite take_app, take_ge by lia. f_equal. rewrite take_replicate. f_equal. lia. }
  assert (drop 1023 l = [0]) as ->.
  { apply list_eq. intros i. rewrite lookup_drop. destruct i; [done|]. cbn.
    apply lookup_ge_None_2. lia. }
  assert ((e ++ replicate (1023 - length e) 0) ++ [0] = e ++ 0 :: replicate (1023 - length e) 0) as ->.
  { rewrite <- app_assoc. f_equal. change (0 :: replicate (1023 - length e) 0) with
      (replicate (S (1023 - length e)) 0). by rewrite replicate_S_end. }
  apply holds_make; [done|rewrite length_replicate; lia|].
  rewrite lookup_app_r by lia. change (0 :: replicate (1023 - length e) 0) with
    (replicate (S (1023 - length e)) 0). apply lookup_replicate_2. lia.
Qed.

Lemma holds_copy_cut l t e :
  holds l t → Forall (fun c => c ≠ 0) e → (length e ≤ 1023)%nat →
  holds (set_at (SHELL_LINE_MAX - 1) 0 (buf_strncpy 1023 e l)) e.
Proof.
  intros Hh He Hlen. pose proof (holds_copy l t e Hh He Hlen) as [Hl Hz Ht].
  unfold set_at, SHELL_LINE_MAX. change (Z.to_nat (1024 - 1)) with 1023%nat.
  rewrite list_insert_id by done. by split.
Qed.

(** ** The specification of the editor *)

Module Edit.
Record state : Type := mk_state {
  text : list Z;
  saved : list Z;
  nav : Z;                 (* -1, or the entry shown, 0 being the latest *)
  hist : list (list Z);    (* oldest first *)
}.

Definition initial : state := mk_state [] [] (-1) [].

Definition recall (i : Z) (h : list (list Z)) : option (list Z) :=
  if i <? 0 then None else reverse h !! Z.to_nat i.

(** At most 256 lines are kept. *)
Definition push (l : list Z) (h : list (list Z)) : list (list Z) :=
  let h := h ++ [l] in if (256 <? length h)%nat then tail h else h.

Definition begin (e : state) : state := mk_state [] [] (-1) (hist e).

Definition key (ev : key_event) (e : state) : state * bool :=
  let c := ev_ascii ev in
  if negb (ev_pressed ev) then (e, false)
  else if ev_extended ev then
    if ev_scancode ev =? 72 then
      match recall (nav e + 1) (hist e) with
      | None => (e, false)
      | Some l => (mk_state l (if nav e <? 0 then text e else saved e) (nav e + 1) (hist e), false)
      end
    else if ev_scancode ev =? 80 then
      if nav e <? 0 then (e, false)
      else match recall (nav e - 1) (hist e) with
           | Some l => (mk_state l (saved e) (nav e - 1) (hist e), false)
           | None => (mk_state (saved e) (saved e) (-1) (hist e), false)
           end
    else (e, false)
  else if c =? 0 then (e, false)
  else if (c =? 13) || (c =? 10) then (e, true)
  else if c =? 8 then (mk_state (take (pred (length (text e))) (text e)) (saved e) (nav e) (hist e), false)
  else if c =? 27 then (mk_state [] (saved e) (-1) (hist e), false)
  else if (length (text e) <? 1023)%nat then (mk_state (text e ++ [c]) (saved e) (nav e) (hist e), false)
  else (e, false).

(** The commands run by a sequence of events, and whether the shell has ended. *)
Fixpoint run (evs : list key_event) (e : state) (cmds : list command) : state * list command * bool :=
  match evs with
  | [] => (e, cmds, false)
  | ev :: evs' =>
      let '(e, complete) := key ev e in
      if complete : bool then
        if bool_decide (text e = []) then run evs' (begin e) cmds
        else
          let c := command_of (text e) in
          let e := begin (mk_state (text e) (saved e) (nav e) (push (text e) (hist e))) in
          if is_exit c then (e, cmds ++ [c], true) else run evs' e (cmds ++ [c])
      else run evs' e cmds
  end.
End Edit.

(** ** The history ring *)

Record hist_rel (s : shell) (h : list (list Z)) : Prop := mk_hist_rel {
  hr_len : length (hist_buf s) = 256%nat;
  hr_head : 0 ≤ hist_head s < 256;
  hr_count : hist_count s = Z.of_nat (length h);
  hr_room : (length h ≤ 256)%nat;
  hr_start : hist_count s < 256 → hist_head s = 0;
  hr_at : ∀ i x, h !! i = Some x → holds (hist_buf s !!! Z.to_nat ((hist_head s + Z.of_nat i) mod 256)) x;
  hr_bufs : ∀ i, (i < 256)%nat → ∃ t, holds (hist_buf s !!! i) t;
}.

Lemma hist_rel_same s s' h :
  hist_buf s' = hist_buf s → hist_count s' = hist_count s → hist_head s' = hist_head s →
  hist_rel s h → hist_rel s' h.
Proof. intros E1 E2 E3 [? ? ? ? ? ? ?]. split; rewrite ?E1, ?E2, ?E3; done. Qed.

Lemma hist_get_spec s h i : hist_rel s h → hist_get i s = Edit.recall i h.
Proof.
  intros [Hlen Hhead Hcount Hroom Hstart Hat _]. unfold hist_get, Edit.recall, SHELL_HIST_SIZE.
  destruct (Z.ltb_spec i 0); [done|]. cbn [orb]. rewrite Hcount.
  destruct (Z.leb_spec (Z.of_nat (length h)) i).
  - symmetry. apply lookup_ge_None_2. rewrite length_reverse. lia.
  - rewrite reverse_lookup by lia.
    destruct (h !! (length h - S (Z.to_nat i))%nat) as [x|] eqn:E.
    2: { apply lookup_ge_None_1 in E. lia. }
    f_equal. rewrite <- (ho_text _ _ (Hat _ _ E)). do 2 f_equal. f_equal. f_equal. lia.
Qed.

Lemma mod256_next x : 0 ≤ x < 256 → 0 ≤ (x + 1) mod 256 < 256.
Proof. intros Hx. Z.div_mod_to_equations; lia. Qed.

Lemma hist_add_spec s h l :
  hist_rel s h → Forall (fun c => c ≠ 0) l → (length l ≤ 1023)%nat →
  hist_rel (hist_add l s) (Edit.push l h).
Proof.
  intros [Hlen Hhead Hcount Hroom Hstart Hat Hbufs] Hl Hll. unfold hist_add, SHELL_HIST_SIZE.
  set (idx := (hist_head s + hist_count s) mod 256).
  assert (0 ≤ idx < 256) as Hidx by (unfold idx; Z.div_mod_to_equations; lia).
  destruct (Hbufs (Z.to_nat idx) ltac:(lia)) as [t Ht].
  set (entry := set_at (SHELL_LINE_MAX - 1) 0 _).
  assert (holds entry l) as He by (by eapply holds_copy_cut).
  assert (∀ j, (j < 256)%nat → ∃ t, holds (<[Z.to_nat idx := entry]> (hist_buf s) !!! j) t) as Hbufs'.
  { intros j Hj. destruct (decide (Z.to_nat idx = j)) as [<-|Hne].
    - exists l. rewrite list_lookup_total_insert_eq by lia. done.
    - rewrite list_lookup_total_insert_ne by done. by apply Hbufs. }
  assert (∀ j x, 0 ≤ j < 256 → j ≠ idx → holds (hist_buf s !!! Z.to_nat j) x →
    holds (<[Z.to_nat idx := entry]> (hist_buf s) !!! Z.to_nat j) x) as Hkeep.
  { intros j x Hj Hne Hx. rewrite list_lookup_total_insert_ne by lia. done. }
  assert (holds (<[Z.to_nat idx := entry]> (hist_buf s) !!! Z.to_nat idx) l) as Hnew
    by (rewrite list_lookup_total_insert_eq by lia; done).
  unfold Edit.push. rewrite length_app. cbn [length].
  destruct (Z.ltb_spec (hist_count s) 256) as [Hlt|Hge].
  - destruct (Nat.ltb_spec 256 (length h + 1)); [lia|]. specialize (Hstart Hlt).
    assert (idx = hist_count s) as Hi by (unfold idx; rewrite Hstart, Z.mod_small; lia).
    split; cbn; [by rewrite length_insert|done|rewrite length_app; cbn; lia|rewrite length_app; cbn; lia|done| |done].
    intros i x [Hi'|[Hle Hi']]%lookup_app_Some.
    + pose proof (lookup_lt_Some _ _ _ Hi') as Hlt'. rewrite Hstart.
      apply Hkeep; [Z.div_mod_to_equations; lia| |rewrite <- Hstart at 1; by apply Hat].
      rewrite Z.mod_small by lia. lia.
    + apply list_lookup_singleton_Some in Hi' as [Hz <-].
      replace ((hist_head s + Z.of_nat i) mod 256) with idx; [done|]. unfold idx. f_equal. lia.
  - assert (length h = 256%nat) as Hfull by lia.
    destruct (Nat.ltb_spec 256 (length h + 1)); [|lia].
    assert (idx = hist_head s) as Hi by (unfold idx; Z.div_mod_to_equations; lia).
    destruct h as [|x0 h]; [done|]. cbn [app tail] in *. cbn [length] in *.
    assert (length (h ++ [l]) = 256%nat) as Hlen' by (rewrite length_app; cbn; lia).
    split; cbn; [by rewrite length_insert|by apply mod256_next|lia|lia|lia| |done].
    intros i x [Hi'|[Hle Hi']]%lookup_app_Some.
    + pose proof (lookup_lt_Some _ _ _ Hi') as Hlt'. rewrite Zplus_mod_idemp_l.
      apply Hkeep; [Z.div_mod_to_equations; lia|Z.div_mod_to_equations; lia|].
      replace (hist_head s + 1 + Z.of_nat i) with (hist_head s + Z.of_nat (S i)) by lia. by apply Hat.
    + apply list_lookup_singleton_Some in Hi' as [Hz <-].
      replace (((hist_head s + 1) mod 256 + Z.of_nat i) mod 256) with idx; [done|].
      rewrite Zplus_mod_idemp_l. Z.div_mod_to_equations; lia.
Qed.

(** ** The terminal

    The cells in front of the cursor, last one first. *)
Definition feed_byte (row : list Z) (c : Z) : list Z :=
  if c =? 8 then tail row else if c =? 10 then [] else c :: row.
Definition feed (row out : list Z) : list Z := fold_left feed_byte out row.

(** Bytes that occupy one cell. *)
Definition plain (t : list Z) : Prop := Forall (fun c => c ≠ 0 ∧ c ≠ 8 ∧ c ≠ 10) t.

Lemma plain_nonzero t : plain t → Forall (fun c => c ≠ 0) t.
Proof. intros H. eapply Forall_impl; [exact H|]. by intros c (? & _ & _). Qed.

Lemma feed_app row a b : feed row (a ++ b) = feed (feed row a) b.
Proof. apply fold_left_app. Qed.

Lemma feed_plain row t : plain t → feed row t = reverse t ++ row.
Proof.
  intros Ht. revert row. induction Ht as [|c t (_ & H8 & H10) _ IH]; intros row; [done|].
  change (feed row (c :: t)) with (feed (feed_byte row c) t). rewrite IH. unfold feed_byte. destruct (Z.eqb_spec c 8); [done|]. destruct (Z.eqb_spec c 10); [done|].
  rewrite reverse_cons, <- app_assoc. done.
Qed.

Lemma feed_erase row n : feed row (term_erase (Z.of_nat n)) = drop n row.
Proof.
  unfold term_erase. rewrite Nat2Z.id. revert row. induction n as [|n IH]; intros row; [by rewrite drop_0|].
  cbn [replicate concat]. rewrite feed_app, IH. destruct row as [|c row]; [change (feed [] [8; 32; 8]) with (@nil Z); by rewrite !drop_nil|done].
Qed.

(** What the row shows: the prompt and a text. *)
Definition prompt_row (t : list Z) : list Z := reverse (SHELL_PROMPT ++ t).

Lemma prompt_row_split t : prompt_row t = reverse t ++ reverse SHELL_PROMPT.
Proof. apply reverse_app. Qed.

Lemma prompt_row_replace t e :
  plain e → feed (prompt_row t) (term_erase (Z.of_nat (length t)) ++ e) = prompt_row e.
Proof.
  intros He. rewrite feed_app, feed_erase, !prompt_row_split, feed_plain by done.
  by rewrite <- (length_reverse t), drop_app_length.
Qed.

(** ** The editor refines its specification *)

Record related (s : shell) (e : Edit.state) : Prop := mk_related {
  re_line : holds (line s) (Edit.text e);
  re_saved : holds (saved_line s) (Edit.saved e);
  re_pos : pos s = Z.of_nat (length (Edit.text e));
  re_nav : hist_nav s = Edit.nav e;
  re_range : -1 ≤ Edit.nav e < Z.of_nat (length (Edit.hist e));
  re_hist : hist_rel s (Edit.hist e);
  re_plain : plain (Edit.text e) ∧ plain (Edit.saved e) ∧ Forall plain (Edit.hist e);
}.

Lemma recall_some i h x :
  Edit.recall i h = Some x → 0 ≤ i < Z.of_nat (length h) ∧ x ∈ h.
Proof.
  unfold Edit.recall. destruct (Z.ltb_spec i 0); [done|]. intros Hx. split.
  - apply lookup_lt_Some in Hx. rewrite length_reverse in Hx. lia.
  - apply list_elem_of_lookup_2 in Hx. by rewrite elem_of_reverse in Hx.
Qed.

Lemma hist_line s h x : hist_rel s h → x ∈ h → (length x ≤ 1023)%nat.
Proof.
  intros Hh [i Hi]%list_elem_of_lookup_1. exact (holds_length _ _ (hr_at _ _ Hh _ _ Hi)).
Qed.

(** Showing another text. *)
Lemma show_entry_spec s e l term n sv :
  related s e → plain l → (length l ≤ 1023)%nat → -1 ≤ n < Z.of_nat (length (Edit.hist e)) →
  holds (saved_line s) sv → plain sv →
  related (show_entry l term n s).1 (Edit.mk_state l sv n (Edit.hist e)) ∧
  feed (prompt_row (Edit.text e)) (show_entry l term n s).2 = prompt_row l.
Proof.
  intros [Hl Hs Hp Hn Hr Hh (Ht & Hsv & Hpl)] Hpl' Hlen Hrange Hsv' Hpsv. unfold show_entry.
  assert (holds (if term then set_at (SHELL_LINE_MAX - 1) 0 (buf_strncpy 1023 l (line s))
                 else buf_strncpy 1023 l (line s)) l) as Hnew.
  { destruct term; [eapply holds_copy_cut|eapply holds_copy]; eauto using plain_nonzero. }
  set (l' := if term then _ else _) in *. cbn zeta. rewrite (ho_text _ _ Hnew). split.
  - split; cbn; try done. by apply (hist_rel_same s).
  - cbn [snd]. rewrite Hp. by apply prompt_row_replace.
Qed.

Lemma edit_extended_spec ev s e :
  related s e → ev_pressed ev = true → ev_extended ev = true →
  related (edit_extended ev s).1 (Edit.key ev e).1 ∧ (Edit.key ev e).2 = false ∧
  feed (prompt_row (Edit.text e)) (edit_extended ev s).2 = prompt_row (Edit.text (Edit.key ev e).1).
Proof.
  intros Hrel Hpr Hex. pose proof Hrel as [Hl Hs Hp Hn Hr Hh (Ht & Hsv & Hpl)].
  unfold edit_extended, Edit.key, KEY_ARROW_UP, KEY_ARROW_DOWN. rewrite Hpr, Hex. cbn [negb].
  rewrite Hn, !(hist_get_spec _ _ _ Hh). rewrite Forall_forall in Hpl.
  destruct (ev_scancode ev =? 72).
  - destruct (Edit.recall (Edit.nav e + 1) (Edit.hist e)) as [x|] eqn:E; [|done].
    apply recall_some in E as [Hx Hin]. pose proof (hist_line _ _ _ Hh Hin) as Hlen.
    set (s1 := if Edit.nav e <? 0 then _ else _).
    assert (holds (saved_line s1) (if Edit.nav e <? 0 then Edit.text e else Edit.saved e)) as Hsv1.
    { unfold s1. destruct (Edit.nav e <? 0); [|done]. cbn [saved_line]. rewrite (ho_text _ _ Hl).
      eapply holds_copy; [exact Hs|by apply plain_nonzero|by eapply holds_length]. }
    assert (related s1 (Edit.mk_state (Edit.text e) (if Edit.nav e <? 0 then Edit.text e else Edit.saved e)
      (Edit.nav e) (Edit.hist e))) as Hrel1.
    { unfold s1 in *. destruct (Edit.nav e <? 0); split; cbn in *; try done; try (by apply (hist_rel_same s));
        (split_and!; [done|done|by apply Forall_forall]). }
    destruct (show_entry_spec s1 _ x true (Edit.nav e + 1)
      (if Edit.nav e <? 0 then Edit.text e else Edit.saved e) Hrel1) as [H1 H2];
      [by apply Hpl|done|cbn; lia|done|by destruct (Edit.nav e <? 0)|].
    split_and!; [exact H1|done|exact H2].
  - destruct (ev_scancode ev =? 80); [|done]. destruct (Z.ltb_spec (Edit.nav e) 0); [done|].
    destruct (Z.ltb_spec 0 (Edit.nav e)) as [Hpos|Hzero].
    + destruct (Edit.recall (Edit.nav e - 1) (Edit.hist e)) as [x|] eqn:E.
      * apply recall_some in E as [Hx Hin].
        destruct (show_entry_spec s e x true (Edit.nav e - 1) (Edit.saved e) Hrel) as [H1 H2];
          [by apply Hpl|by eapply hist_line|lia|done|done|].
        split_and!; [exact H1|done|exact H2].
      * exfalso. unfold Edit.recall in E. destruct (Z.ltb_spec (Edit.nav e - 1) 0); [lia|].
        apply lookup_ge_None_1 in E. rewrite length_reverse in E. lia.
    + assert (Edit.recall (Edit.nav e - 1) (Edit.hist e) = None) as ->.
      { unfold Edit.recall. destruct (Z.ltb_spec (Edit.nav e - 1) 0); [done|lia]. }
      rewrite (ho_text _ _ Hs).
      destruct (show_entry_spec s e (Edit.saved e) false (-1) (Edit.saved e) Hrel) as [H1 H2];
        [done|by eapply holds_length|lia|done|done|].
      split_and!; [exact H1|done|exact H2].
Qed.

(** A change of the text that leaves the rest of the state alone. *)
Lemma related_line s e l t p n :
  related s e → holds l t → plain t → p = Z.of_nat (length t) →
  -1 ≤ n < Z.of_nat (length (Edit.hist e)) →
  related (with_line l p n s) (Edit.mk_state t (Edit.saved e) n (Edit.hist e)).
Proof.
  intros [Hl Hs Hp Hn Hr Hh (Ht & Hsv & Hpl)] Hl' Ht' -> Hr'.
  split; cbn; try done. by apply (hist_rel_same s).
Qed.

Lemma reverse_snoc_row t c : prompt_row (t ++ [c]) = c :: prompt_row t.
Proof. unfold prompt_row. by rewrite app_assoc, reverse_snoc. Qed.

Lemma edit_text_same s e : related s e → related s (Edit.mk_state (Edit.text e) (Edit.saved e) (Edit.nav e) (Edit.hist e)).
Proof. by destruct e. Qed.

(** One key: the states stay related, the same keys complete a line, and the row
    of the terminal keeps showing the text. *)
Lemma edit_key_spec ev s e :
  related s e →
  related (edit_key ev s).1.1 (Edit.key ev e).1 ∧ (edit_key ev s).2 = (Edit.key ev e).2 ∧
  ((Edit.key ev e).2 = false →
   feed (prompt_row (Edit.text e)) (edit_key ev s).1.2 = prompt_row (Edit.text (Edit.key ev e).1)) ∧
  ((Edit.key ev e).2 = true → Edit.text (Edit.key ev e).1 = Edit.text e ∧ (edit_key ev s).1.2 = [10]).
Proof.
  intros Hrel. pose proof Hrel as [Hl Hs Hp Hn Hr Hh (Ht & Hsv & Hpl)].
  unfold edit_key. destruct (ev_pressed ev) eqn:Epr; cbn [negb].
  2: { unfold Edit.key. rewrite Epr. by split_and!. }
  destruct (ev_extended ev) eqn:Eex.
  { destruct (edit_extended_spec ev s e Hrel Epr Eex) as (H1 & H2 & H3).
    rewrite H2. split_and!; [done|done|done|discriminate]. }
  unfold Edit.key. rewrite Epr, Eex. cbn [negb]. set (c := ev_ascii ev).
  destruct (Z.eqb_spec c 0) as [Hc0|Hc0]; [by split_and!|].
  destruct ((c =? 13) || (c =? 10)) eqn:Eenter.
  { split_and!; [|done|discriminate|done]. rewrite Hp, Hn.
    assert (holds (set_at (Z.of_nat (length (Edit.text e))) 0 (line s)) (Edit.text e)) as Hcut.
    { rewrite <- (take_ge (Edit.text e) (length (Edit.text e))) at 2 by lia. by apply holds_cut. }
    pose proof (related_line s e _ _ _ (Edit.nav e) Hrel Hcut Ht eq_refl Hr) as Hrel'. by destruct e. }
  apply orb_false_iff in Eenter as [E13 E10].
  destruct (Z.eqb_spec c 8) as [Hc8|Hc8].
  { destruct (Z.ltb_spec 0 (pos s)) as [Hpos|Hzero].
    - rewrite Hp in Hpos |- *. split_and!; [|done| |discriminate].
      + cbn [fst snd]. rewrite Hn.
        replace (Z.of_nat (length (Edit.text e)) - 1) with (Z.of_nat (pred (length (Edit.text e)))) by lia.
        apply related_line; [done|by apply holds_cut; [|lia]|by apply Forall_take| |done].
        rewrite length_take_le by lia. done.
      + intros _. cbn [fst snd Edit.text]. change 1 with (Z.of_nat 1). rewrite feed_erase, !prompt_row_split.
        destruct (Edit.text e) as [|x t _] eqn:Et using rev_ind; [cbn in Hpos; lia|].
        rewrite length_app, Nat.add_1_r. cbn [pred]. rewrite take_app_length, reverse_snoc. done.
    - rewrite Hp in Hzero. assert (Edit.text e = []) as Hnil by (destruct (Edit.text e); [done|cbn in Hzero; lia]).
      split_and!; [|done| |discriminate]; cbn [fst snd Edit.text].
      + rewrite Hnil. cbn [length pred take]. rewrite <- Hnil. by apply edit_text_same.
      + intros _. by rewrite Hnil. }
  destruct (Z.eqb_spec c 27) as [Hc27|Hc27].
  { split_and!; [|done| |discriminate]; cbn [fst snd Edit.text].
    - apply related_line; [done| |constructor|done|lia].
      rewrite <- (take_0 (Edit.text e)). assert (0 <= length (Edit.text e))%nat as H0 by lia. exact (holds_cut _ _ _ Hl H0).
    - intros _. rewrite Hp. rewrite <- (app_nil_r (term_erase _)). apply prompt_row_replace. constructor. }
  rewrite Hp. unfold SHELL_LINE_MAX.
  destruct (Z.ltb_spec (Z.of_nat (length (Edit.text e))) (1024 - 1)), (Nat.ltb_spec (length (Edit.text e)) 1023);
    try lia; [|by split_and!].
  split_and!; [|done| |discriminate]; cbn [fst snd Edit.text].
  - rewrite Hn. apply related_line; [done|by apply holds_type| |rewrite length_app; cbn; lia|done].
    apply Forall_app. split; [done|]. constructor; [|constructor]. split_and!; [done|done|lia].
  - intros _. rewrite reverse_snoc_row. unfold feed. cbn [fold_left]. unfold feed_byte.
    destruct (Z.eqb_spec c 8); [done|]. rewrite E10. done.
Qed.

(** ** Executing lines *)

Lemma shell_exec_line_spec l :
  l ≠ [] → Forall (fun c => c ≠ 0) l → (length l ≤ 1023)%nat →
  shell_exec_line l = Ok (command_of l).
Proof.
  intros Hne Hl Hlen. unfold shell_exec_line. destruct l as [|c l']; [done|]. set (u := c :: l') in *.
  pose proof (holds_copy_cut zero_line [] u holds_zero Hl Hlen) as Hbuf. fold zero_line.
  set (buf := set_at _ _ _) in *. cbn zeta.
  destruct (holds_split _ _ Hbuf) as (post & -> & _ & _).
  rewrite tokenize_spec by done. cbn [mbind outcome_bind]. unfold command_of.
  change (pred SHELL_MAX_ARGS) with 63%nat.
  destruct (take 63 (words u)) as [|name args]; [done|].
  by destruct (list_find _ builtins) as [[]|].
Qed.

Lemma begin_related s e : related s e → related (begin_line s) (Edit.begin e).
Proof.
  intros [Hl Hs Hp Hn Hr Hh (Ht & Hsv & Hpl)].
  split; cbn; try apply holds_zero; try done; [lia|by apply (hist_rel_same s)|].
  split_and!; [constructor|constructor|done].
Qed.

Lemma push_related s e :
  related s e →
  related (begin_line (hist_add (Edit.text e) s))
    (Edit.begin (Edit.mk_state (Edit.text e) (Edit.saved e) (Edit.nav e) (Edit.push (Edit.text e) (Edit.hist e)))).
Proof.
  intros [Hl Hs Hp Hn Hr Hh (Ht & Hsv & Hpl)].
  pose proof (hist_add_spec s _ _ Hh (plain_nonzero _ Ht) (holds_length _ _ Hl)) as Hh'.
  split; cbn; try apply holds_zero; try done; [lia|by apply (hist_rel_same (hist_add (Edit.text e) s))|].
  split_and!; [constructor|constructor|]. unfold Edit.push.
  assert (Forall plain (Edit.hist e ++ [Edit.text e])) as Hall
    by (apply Forall_app; split; [done|by constructor]).
  destruct (256 <? _)%nat; [|done]. destruct (Edit.hist e ++ [Edit.text e]); [done|].
  by apply Forall_cons in Hall as [_ ?].
Qed.

Lemma feed_enter row : feed row (10 :: SHELL_PROMPT) = prompt_row [].
Proof. reflexivity. Qed.

Lemma shell_loop_spec evs s e out cmds :
  related s e → feed [] out = prompt_row (Edit.text e) →
  ∃ s' out', shell_loop evs s out cmds = Ok (s', out', (Edit.run evs e cmds).1.2) ∧
    related s' (Edit.run evs e cmds).1.1 ∧
    ((Edit.run evs e cmds).2 = false → feed [] out' = prompt_row (Edit.text (Edit.run evs e cmds).1.1)).
Proof.
  revert s e out cmds. induction evs as [|ev evs IH]; intros s e out cmds Hrel Hrow.
  { exists s, out. by split_and!. }
  cbn [shell_loop Edit.run].
  destruct (edit_key_spec ev s e Hrel) as (Hrel1 & Hb & Hfalse & Htrue).
  destruct (edit_key ev s) as [[s1 o] b]. destruct (Edit.key ev e) as [e1 b']. cbn [fst snd] in *. subst b.
  destruct b'.
  2: { apply IH; [done|]. rewrite feed_app, Hrow. by apply Hfalse. }
  destruct (Htrue eq_refl) as [Htext Ho]. subst o. pose proof (re_pos _ _ Hrel1) as Hp.
  assert (Hnew : ∀ out', feed [] (out' ++ [10] ++ SHELL_PROMPT) = prompt_row []).
  { intros out'. rewrite feed_app. apply feed_enter. }
  case_bool_decide as Hempty.
  - rewrite Hp, Hempty. cbn [length Z.of_nat Z.ltb Z.compare].
    apply IH; [by apply begin_related|apply Hnew].
  - pose proof (re_line _ _ Hrel1) as Hline. pose proof (re_plain _ _ Hrel1) as (Hpl & _ & _).
    destruct (Z.ltb_spec 0 (pos s1)) as [_|Hz].
    2: { exfalso. apply Hempty. destruct (Edit.text e1); [done|cbn in Hp; lia]. }
    rewrite (ho_text _ _ Hline), shell_exec_line_spec by
      (done || by apply plain_nonzero || by eapply holds_length).
    cbn [mbind outcome_bind]. destruct (is_exit (command_of (Edit.text e1))).
    + eexists _, _. split_and!; [reflexivity|by apply push_related|discriminate].
    + apply IH; [by apply push_related|apply Hnew].
Qed.

Lemma static_hist : hist_rel shell_static [].
Proof.
  unfold shell_static. split.
  - apply length_replicate.
  - change (0 ≤ 0 < 256). lia.
  - reflexivity.
  - apply Nat.le_0_l.
  - done.
  - intros i x Hi. by rewrite lookup_nil in Hi.
  - intros i Hi. exists []. cbn [hist_buf]. rewrite lookup_total_replicate_2 by done. apply holds_zero.
Qed.

Lemma static_related : related (begin_line shell_static) Edit.initial.
Proof.
  split; [apply holds_zero|apply holds_zero|done|done| | |].
  - split; done.
  - by apply (hist_rel_same shell_static), static_hist.
  - split_and!; constructor.
Qed.

(** (Property) The shell's read-eval loop refines its specification over every
    sequence of key events: it always returns, the commands it runs are those of
    a list-based line editor with a history of the 256 latest lines, the history
    and the edited text agree with it, no index leaves the 1024-byte line or the
    history ring, and while the shell runs the terminal shows the prompt and the
    text, after every backspace, escape and history key. *)
Theorem shell_run_refines (evs : list key_event) :
  ∃ s out, shell_run evs = Ok (s, out, (Edit.run evs Edit.initial []).1.2) ∧
    related s (Edit.run evs Edit.initial []).1.1 ∧
    ((Edit.run evs Edit.initial []).2 = false →
     feed [] out = prompt_row (Edit.text (Edit.run evs Edit.initial []).1.1)).
Proof. apply shell_loop_spec; [apply static_related|reflexivity]. Qed.

(** (Property) [shell_exec_line] splits a line of at most 1023 bytes at blanks
    and looks its first word up in the table of built-in commands: it runs that
    command with at most 63 words as arguments, or finds none; blank lines run
    nothing. *)
Theorem shell_exec_line_words (l : list Z) (Hne : l ≠ []) (Hnz : Forall (fun c => c ≠ 0) l)
    (Hlen : (length l ≤ 1023)%nat) :
  shell_exec_line l = Ok (command_of l).
Proof. by apply shell_exec_line_spec. Qed.

Lemma shell_exec_line_words_witness :
  codes " echo  hi there" ≠ [] ∧
  shell_exec_line (codes " echo  hi there") = Ok (Builtin 2 [codes "echo"; codes "hi"; codes "there"]).
Proof.
  split; [discriminate|].
  rewrite (shell_exec_line_words (codes " echo  hi there"));
    [vm_compute; reflexivity|discriminate| |cbn; lia].
  repeat constructor; discriminate.
Defined.
