(* ===== verification/Console.v ===== *)
(** * The console: from scan codes to commands

    The keyboard interrupt fills the ring of keyboard.c; the shell's read loop takes
    the events out of it.  [console] is the two together over any interleaving of
    interrupts and polls.  The theorem at the end is the user's view: typing a line
    runs the command it stands for. *)
From S2P Require Import Prelude Keyboard Shell ShellSpec.

(** The events that the polls of a run return go to the shell in order. *)
Definition console (ops : list kbd_op) : outcome (shell * list Z * list command) :=
  shell_run (omap id (kbd_run ops kbd_static).1).

(** ** Typing *)

(** The key of a character, and whether it needs shift. *)
Definition key_of (c : Z) : option (bool * Z) :=
  match list_find (fun x => x = c) scancode_normal with
  | Some (i, _) => Some (false, Z.of_nat i)
  | None => (fun p => (true, Z.of_nat p.1)) <$> list_find (fun x => x = c) scancode_shift
  end.

(** The bytes the keyboard sends: the key goes down and up, between those of shift. *)
Definition strokes (c : Z) : list Z :=
  match key_of c with
  | Some (false, k) => [k; k + 128]
  | Some (true, k) => [42; k; k + 128; 170]
  | None => []
  end.

Definition type_line (l : list Z) : list Z := concat (strokes <$> (l ++ [10])).

(** Printable ASCII. *)
Definition typable (c : Z) : Prop := 32 ≤ c < 127.
Definition line_ok (l : list Z) : Prop := l ≠ [] ∧ Forall typable l ∧ (length l ≤ 1023)%nat.

(** The bytes of the interrupts of a run. *)
Definition irq_bytes (ops : list kbd_op) : list Z :=
  omap (fun op => match op with Irq d => Some d | Poll => None end) ops.

(** No interrupt meets a full ring. *)
Fixpoint never_full (ops : list kbd_op) (k : kbd) : Prop :=
  match ops with
  | [] => True
  | op :: ops' => (match op with Irq _ => kbd_used k < 255 | Poll => True end) ∧ never_full ops' (kbd_step op k).2
  end.

#[export] Instance op_ok_dec op : Decision (op_ok op).
Proof. destruct op; apply _. Defined.
#[export] Instance never_full_dec ops k : Decision (never_full ops k).
Proof.
  revert k. induction ops as [|op ops IH]; intros k; cbn [never_full]; [apply _|].
  apply and_dec; [destruct op; apply _|apply IH].
Defined.

(** ** The decoder on a stream of bytes *)

Fixpoint decode_all (ds : list Z) (m : modifiers) : modifiers * list key_event :=
  match ds with
  | [] => (m, [])
  | d :: ds' => let '(m, e) := Spec.decode d m in let '(m, es) := decode_all ds' m in (m, option_list e ++ es)
  end.

Lemma decode_all_app ds1 ds2 m :
  decode_all (ds1 ++ ds2) m =
    ((decode_all ds2 (decode_all ds1 m).1).1, (decode_all ds1 m).2 ++ (decode_all ds2 (decode_all ds1 m).1).2).
Proof.
  revert m. induction ds1 as [|d ds1 IH]; intros m; [cbn; by destruct (decode_all ds2 m)|]. cbn [app decode_all].
  destruct (Spec.decode d m) as [m1 e]. rewrite IH. destruct (decode_all ds1 m1) as [m2 es]. cbn [fst snd].
  by rewrite <- app_assoc.
Qed.

(** While the ring is never full nothing is lost: what the polls return and what is
    left in the queue is what was there and what the bytes decode to. *)
Lemma kbd_run_stream ops k :
  Forall op_ok ops → kbd_inv k → never_full ops k →
  kbd_queue k ++ (decode_all (irq_bytes ops) (kbd_mods k)).2 =
    omap id (kbd_run ops k).1 ++ kbd_queue (kbd_run ops k).2.
Proof.
  intros Hops. revert k. induction Hops as [|op ops Hop Hops IH]; intros k Hk Hfull; cbn [kbd_run]; [apply app_nil_r|].
  destruct Hfull as [Hnow Hfull]. destruct op as [d|]; cbn [kbd_step irq_bytes omap list_omap] in *.
  - destruct (kbd_irq_refines d k Hop Hk) as [Hk' Habs]. specialize (IH _ Hk' Hfull).
    destruct (kbd_run ops _) as [rs k']. cbn [fst snd omap list_omap id] in *. rewrite <- IH.
    fold (irq_bytes ops). cbn [decode_all]. unfold Spec.irq, kbd_abs in Habs. cbn [Spec.mods Spec.queue] in Habs.
    destruct (Spec.decode d (kbd_mods k)) as [m e]. injection Habs as -> ->.
    destruct (decode_all (irq_bytes ops) m) as [m' es]. cbn [fst snd]. destruct e as [ev|]; [|done].
    rewrite kbd_queue_length. destruct (Nat.ltb_spec (Z.to_nat (kbd_used k)) 255); [|lia]. by rewrite <- app_assoc.
  - destruct (kbd_poll_refines k Hk) as [Hk' Habs]. destruct (keyboard_poll k) as [r k1]. cbn [fst snd] in *.
    specialize (IH _ Hk' Hfull). destruct (kbd_run ops k1) as [rs k']. cbn [fst snd] in *. fold (irq_bytes ops).
    unfold Spec.poll, kbd_abs in Habs. cbn [Spec.queue Spec.mods] in Habs.
    destruct (kbd_queue k) as [|e q]; injection Habs as -> Hm Hq; cbn [omap list_omap id app]; rewrite <- Hm, <- IH.
    + by rewrite Hq.
    + by rewrite Hq.
Qed.

(** ** Each character arrives *)

(** The event of a character. *)
Definition types (c : Z) (ev : key_event) : Prop :=
  ev_ascii ev = c ∧ ev_pressed ev = true ∧ ev_extended ev = false.

Definition no_mods : modifiers := mk_modifiers false false false false false.

Definition arrives (c : Z) : bool :=
  match decode_all (strokes c) no_mods with
  | (mk_modifiers false false false false false, [ev]) => (ev_ascii ev =? c) && ev_pressed ev && negb (ev_extended ev)
  | _ => false
  end.

Lemma all_arrive : forallb arrives (10 :: seqZ 32 95) = true.
Proof. vm_compute. reflexivity. Qed.

Lemma char_arrives c : c = 10 ∨ typable c → ∃ ev, decode_all (strokes c) no_mods = (no_mods, [ev]) ∧ types c ev.
Proof.
  intros Hc. assert (arrives c = true) as Ha.
  { pose proof all_arrive as H. rewrite forallb_forall in H. apply H, list_elem_of_In.
    unfold typable in Hc. rewrite elem_of_cons, elem_of_seqZ. lia. }
  unfold arrives in Ha. destruct (decode_all (strokes c) no_mods) as [[[] [] [] [] []] [|ev [|]]]; try discriminate.
  apply andb_prop in Ha as [[Hc1 Hp]%andb_prop He]. exists ev. split; [done|].
  split_and!; [by apply Z.eqb_eq|done|by destruct (ev_extended ev)].
Qed.

Lemma text_arrives t :
  Forall (fun c => c = 10 ∨ typable c) t →
  ∃ evs, decode_all (concat (strokes <$> t)) no_mods = (no_mods, evs) ∧ Forall2 types t evs.
Proof.
  induction 1 as [|c t Hc _ (evs & IH & Ht)]; [by exists []|]. destruct (char_arrives c Hc) as (ev & E & Hev).
  exists (ev :: evs). split; [|by constructor]. cbn [fmap list_fmap concat]. rewrite decode_all_app, E. cbn [fst snd].
  change (list_fmap Z (list Z) strokes t) with (strokes <$> t). by rewrite IH.
Qed.

(** ** The editor on typed lines *)

(** The commands that lines stand for, up to [exit]. *)
Fixpoint executed (ls : list (list Z)) : list command :=
  match ls with
  | [] => []
  | l :: ls' => let c := command_of l in c :: (if is_exit c then [] else executed ls')
  end.

Lemma key_typed c ev e :
  typable c → types c ev → (length (Edit.text e) < 1023)%nat →
  Edit.key ev e = (Edit.mk_state (Edit.text e ++ [c]) (Edit.saved e) (Edit.nav e) (Edit.hist e), false).
Proof.
  intros Hc (Ha & Hp & He) Hlen. unfold Edit.key. rewrite Hp, He, Ha. cbn [negb]. unfold typable in Hc.
  destruct (Z.eqb_spec c 0), (Z.eqb_spec c 13), (Z.eqb_spec c 10), (Z.eqb_spec c 8), (Z.eqb_spec c 27); try lia.
  cbn [orb]. by destruct (Nat.ltb_spec (length (Edit.text e)) 1023); [|lia].
Qed.

Lemma key_enter ev e : types 10 ev → Edit.key ev e = (e, true).
Proof. intros (Ha & Hp & He). unfold Edit.key. by rewrite Hp, He, Ha. Qed.

(** A line goes to the end of the text. *)
Lemma run_text t evs rest e cmds :
  Forall typable t → Forall2 types t evs → (length (Edit.text e) + length t ≤ 1023)%nat →
  Edit.run (evs ++ rest) e cmds =
    Edit.run rest (Edit.mk_state (Edit.text e ++ t) (Edit.saved e) (Edit.nav e) (Edit.hist e)) cmds.
Proof.
  intros Ht He. revert e Ht. induction He as [|c ev t evs Hc _ IH]; intros e Ht Hlen; cbn [app].
  - rewrite app_nil_r. by destruct e.
  - apply Forall_cons in Ht as [Hc' Ht]. cbn [Edit.run length] in *. rewrite (key_typed c ev e Hc' Hc) by lia.
    rewrite IH; [|done|cbn [Edit.text]; rewrite length_app; cbn [length]; lia]. cbn [Edit.text Edit.saved Edit.nav Edit.hist].
    by rewrite <- app_assoc.
Qed.

(** Typed lines run one after the other. *)
Lemma run_lines ls evs e cmds :
  Forall line_ok ls → Forall2 types (concat ((fun l => l ++ [10]) <$> ls)) evs → Edit.text e = [] →
  (Edit.run evs e cmds).1.2 = cmds ++ executed ls ∧
  ((Edit.run evs e cmds).2 = existsb is_exit (executed ls)) ∧
  ((Edit.run evs e cmds).2 = false → Edit.text (Edit.run evs e cmds).1.1 = []).
Proof.
  intros Hls. revert evs e cmds. induction Hls as [|l ls [Hne [Ht Hlen]] _ IH]; intros evs e cmds He Htext.
  { cbn in He. apply Forall2_nil_inv_l in He as ->. cbn [Edit.run executed fst snd]. by rewrite app_nil_r. }
  cbn [fmap list_fmap concat] in He. rewrite <- app_assoc in He.
  apply Forall2_app_inv_l in He as (evs1 & evs2 & H1 & H2 & ->).
  apply Forall2_app_inv_l in H2 as (evs3 & evs4 & H3 & H4 & ->).
  apply Forall2_cons_inv_l in H3 as (ev & evs' & Hev & Hnil & ->). apply Forall2_nil_inv_l in Hnil as ->.
  rewrite (run_text l evs1 _ e cmds Ht H1) by (rewrite Htext; cbn; lia). rewrite Htext. cbn [app Edit.run].
  rewrite (key_enter ev _ Hev). cbn [Edit.text Edit.saved Edit.nav Edit.hist executed]. rewrite bool_decide_eq_false_2 by done.
  destruct (is_exit (command_of l)) eqn:Hx; cbn [existsb]; rewrite Hx; cbn [orb fst snd].
  - by split_and!.
  - destruct (IH evs4 (Edit.begin (Edit.mk_state l (Edit.saved e) (Edit.nav e) (Edit.push l (Edit.hist e))))
      (cmds ++ [command_of l]) H4 eq_refl) as (E1 & E2 & E3). rewrite E1, <- app_assoc. by split_and!.
Qed.

(** The polls return the events of the typed characters, each once and in order. *)
Lemma typed_events ls ops :
  Forall line_ok ls → irq_bytes ops = concat (type_line <$> ls) → Forall op_ok ops →
  never_full ops kbd_static → kbd_queue (kbd_run ops kbd_static).2 = [] →
  Forall2 types (concat ((fun l => l ++ [10]) <$> ls)) (omap id (kbd_run ops kbd_static).1).
Proof.
  intros Hls Hops Hby Hroom Hread.
  assert (kbd_inv kbd_static) as Hk by (split; [done|cbn; lia..]).
  pose proof (kbd_run_stream ops kbd_static Hby Hk Hroom) as Hs. rewrite Hread, app_nil_r in Hs.
  change (kbd_queue kbd_static) with (@nil key_event) in Hs. change (kbd_mods kbd_static) with no_mods in Hs.
  assert (concat (type_line <$> ls) = concat (strokes <$> concat ((fun l => l ++ [10]) <$> ls))) as Et.
  { clear. induction ls as [|l ls IH]; [done|]. cbn [fmap list_fmap concat]. rewrite fmap_app, concat_app.
    by change (list_fmap _ _ type_line ls) with (type_line <$> ls); rewrite IH. }
  destruct (text_arrives (concat ((fun l => l ++ [10]) <$> ls))) as (evs & E & Hevs).
  { clear -Hls. induction Hls as [|l ls (_ & Ht & _) _ IH]; [constructor|]. cbn [fmap list_fmap concat].
    rewrite !Forall_app. split; [|exact IH]. split; [|repeat constructor; auto].
    eapply Forall_impl; [exact Ht|]. auto. }
  rewrite Hops, Et, E in Hs. cbn [snd app] in Hs. by rewrite <- Hs.
Qed.

(** (Property) Typing runs commands: whoever types lines of printable characters, each ended with
    Enter, on the keyboard has exactly the commands they stand for executed, in order
    and up to [exit], for every interleaving of the keyboard's interrupts with the
    shell's polls in which the ring of 255 events never fills and the shell has read
    everything; every character, with or without shift, arrives once, and unless the
    shell has ended the terminal shows an empty line behind the prompt. *)
Theorem typed_lines_run (ls : list (list Z)) (ops : list kbd_op)
    (Hls : Forall line_ok ls) (Hops : irq_bytes ops = concat (type_line <$> ls)) (Hby : Forall op_ok ops)
    (Hroom : never_full ops kbd_static) (Hread : kbd_queue (kbd_run ops kbd_static).2 = []) :
  ∃ s out, console ops = Ok (s, out, executed ls) ∧
    (existsb is_exit (executed ls) = false → feed [] out = prompt_row []).
Proof.
  pose proof (typed_events ls ops Hls Hops Hby Hroom Hread) as Hevs. unfold console. set (evs := omap id _) in *.
  destruct (shell_loop_spec evs (begin_line shell_static) Edit.initial SHELL_PROMPT [] static_related eq_refl)
    as (s & out & Er & _ & Hrow).
  destruct (run_lines ls evs Edit.initial [] Hls Hevs eq_refl) as (E1 & E2 & E3). rewrite E1 in Er.
  exists s, out. split; [exact Er|]. intros Hx. rewrite Hrow by congruence. by rewrite E3 by congruence.
Qed.

(** A poll after every second byte, and at the end. *)
Definition typed_ops : list kbd_op :=
  concat ((fun d => [Irq d; Poll]) <$> concat (type_line <$> [codes "echo Hi!"; codes "pwd"])).

Lemma typed_lines_run_witness :
  irq_bytes typed_ops = concat (type_line <$> [codes "echo Hi!"; codes "pwd"]) ∧
  ∃ s out, console typed_ops = Ok (s, out, [Builtin 2 [codes "echo"; codes "Hi!"]; Builtin 6 [codes "pwd"]]) ∧
    feed [] out = prompt_row [].
Proof.
  split; [reflexivity|].
  assert (Forall line_ok [codes "echo Hi!"; codes "pwd"]) as Hls.
  { repeat constructor; unfold typable; cbn; (lia || discriminate). }
  assert (Forall op_ok typed_ops) as Hby by (apply (bool_decide_unpack _); vm_compute; exact I).
  destruct (typed_lines_run [codes "echo Hi!"; codes "pwd"] typed_ops Hls eq_refl) as (s & out & E & Hrow);
    [exact Hby|apply (bool_decide_unpack _); vm_compute; exact I|vm_compute; reflexivity|].
  exists s, out. split; [exact E|]. apply Hrow. vm_compute. reflexivity.
Defined.
