(* ===== verification/ShellCmd.v ===== *)
(** * userspace/heroshell/heroshell.c: the built-in commands

    The commands run on the file system of Fs.v and print through [vprintk] of
    Printk.v.  The state is the file system, the flag [shell_should_exit] and
    everything printed.  [ls] and [cat] have objects on the stack: the first entry
    [dirent] holds what the stack held, and the buffer of [cat] is the 512 bytes of
    memory from [buf]. *)
From S2P Require Import Prelude Mem LibString PageAlloc Kheap KheapInv KheapSpec KmallocSpec Pmm Fs FsSpec Keyboard Printk Shell ShellSpec.

Record term (A : Type) : Type := mk_term {
  t_fs : fs A;
  shell_should_exit : bool;
  printed : list Z;
}.
Arguments mk_term {A}.
Arguments t_fs {A}.
Arguments shell_should_exit {A}.
Arguments printed {A}.

(** A literal with its line feed. *)
Definition ln (s : string) : list Z := codes s ++ [10].

Section Commands.
Context {A : Type}.
Implicit Types s : term A.

Definition with_fs (f : fs A) s : term A := mk_term f (shell_should_exit s) (printed s).

Definition printk (fmt : list Z) (args : list arg) : kop (term A) unit := fun s =>
  out ← vprintk fmt args; Ok (tt, mk_term (t_fs s) (shell_should_exit s) (printed s ++ out)).

Fixpoint print_lines (ls : list string) : kop (term A) unit :=
  match ls with [] => mret tt | l :: ls' => _ ← printk (ln l) []; print_lines ls' end.

Definition builtin_help : kop (term A) Z :=
  _ ← print_lines
    ["HeroShell built-in commands:";
     "  help                  Show this help";
     "  exit [code]           Exit the shell";
     "  echo [args...]        Print arguments";
     "  cd <dir>              Change directory";
     "  ls [dir]              List directory contents";
     "  cat <file>            Print file contents";
     "  pwd                   Print working directory";
     "  clear                 Clear terminal";
     "  hero <subcommand>     HeroOS meta-tool";
     "    hero info           System information";
     "    hero serve [port]   Start HeroServe HTTP server";
     "    hero pkg <action>   Package manager"]%string;
  mret 0.

Definition shell_init (s : term A) : term A :=
  mk_term (t_fs s) false (printed s ++ codes "HeroShell v0.1.0 — type 'help' for commands" ++ [10; 10]).

Definition builtin_exit : kop (term A) Z := fun s =>
  Ok (0, mk_term (t_fs s) true (printed s)).

(** The loop over [argv[1 ..]]. *)
Fixpoint echo_loop (args : list (list Z)) : kop (term A) unit :=
  match args with
  | [] => mret tt
  | a :: args' =>
      _ ← printk (codes "%s") [AStr (Some a)];
      _ ← (match args' with [] => mret tt | _ => printk (codes " ") [] end);
      echo_loop args'
  end.
Definition builtin_echo (argv : list (list Z)) : kop (term A) Z :=
  _ ← echo_loop (tail argv); _ ← printk [10] []; mret 0.

Definition builtin_cd : kop (term A) Z := _ ← printk (ln "cd: not yet implemented") []; mret 0.

(** [while (vfs_readdir(dir, idx, &dirent))]. *)
Fixpoint ls_loop (fuel : nat) (dir idx : Z) (d : dirent) : kop (term A) Z := fun s =>
  match fuel with
  | O => Diverge
  | S fuel' =>
      '(node, d) ← vfs_readdir dir idx d (t_fs s);
      if node =? 0 then Ok (idx, s)
      else (_ ← printk (codes "%s  ") [AStr (Some d.1.1)]; ls_loop fuel' dir (idx +₃₂ 1) d) s
  end.

Definition builtin_ls (fuel : nat) (stack : dirent) (argv : list (list Z)) : kop (term A) Z := fun s =>
  let path := match argv with _ :: p :: _ => p | _ => codes "/" end in
  '(dir, f) ← vfs_open (Some path) (t_fs s);
  let s := with_fs f s in
  if dir =? 0 then
    (_ ← printk (codes "ls: %s: No such file or directory" ++ [10]) [AStr (Some path)]; mret 1) s
  else
    '(idx, s) ← ls_loop fuel dir 0 stack s;
    '(_, s) ← (if 0 <? idx then printk [10] [] s else Ok (tt, s));
    '(_, f) ← vfs_close dir (t_fs s);
    Ok (0, with_fs f s).

(** The string at the start of the [n] bytes from [a]. *)
Definition string_at (m : mem) (a : Z) (n : nat) : list Z :=
  str_of (bytes_at m a n).

Fixpoint cat_loop (fuel : nat) (f off buf : Z) : kop (term A) unit := fun s =>
  match fuel with
  | O => Diverge
  | S fuel' =>
      '(n, x) ← vfs_read f off 511 buf (t_fs s);
      let s := with_fs x s in
      if 0 <? n then
        let s := with_fs (fs_with_heap (with_mem (fun m => store8 m (buf + n) 0) (fs_heap (t_fs s))) (t_fs s)) s in
        (_ ← printk (codes "%s") [AStr (Some (string_at (kh_mem (fs_heap (t_fs s))) buf 512))];
         cat_loop fuel' f (off + n) buf) s
      else Ok (tt, s)
  end.

Definition builtin_cat (fuel : nat) (buf : Z) (argv : list (list Z)) : kop (term A) Z := fun s =>
  match argv with
  | _ :: path :: _ =>
      '(f, x) ← vfs_open (Some path) (t_fs s);
      let s := with_fs x s in
      if f =? 0 then
        (_ ← printk (codes "cat: %s: No such file or directory" ++ [10]) [AStr (Some path)]; mret 1) s
      else
        '(_, s) ← cat_loop fuel f 0 buf s;
        '(_, x) ← vfs_close f (t_fs s);
        Ok (0, with_fs x s)
  | _ => (_ ← printk (ln "cat: missing file argument") []; mret 1) s
  end.

Definition builtin_pwd : kop (term A) Z := _ ← printk (ln "/") []; mret 0.

(** ESC [2J ESC [H *)
Definition builtin_clear : kop (term A) Z :=
  _ ← printk ([27] ++ codes "[2J" ++ [27] ++ codes "[H") []; mret 0.

(** [(uint16_t)(argv[2][0] - '0' + 8000)], [char] being signed. *)
Definition serve_port (arg : list Z) : Z :=
  let c := default 0 (head arg) in
  wrap16 ((if c <? 128 then c else c - 256) - 48 + 8000).

Definition builtin_hero (argv : list (list Z)) : kop (term A) Z :=
  match argv with
  | _ :: sub :: rest =>
      if bool_decide (sub = codes "info") then
        _ ← print_lines ["HeroOS v0.1.0 — One OS, Many Platforms"; "Architecture: x86_64"]%string; mret 0
      else if bool_decide (sub = codes "serve") then
        let port := match rest with a :: _ => serve_port a | [] => 8080 end in
        _ ← printk (codes "HeroServe starting on port %u..." ++ [10]) [AInt port]; mret 0
      else if bool_decide (sub = codes "pkg") then
        _ ← printk (ln "HeroPkg: use 'heropkg install <package>'") []; mret 0
      else
        _ ← printk (codes "hero: unknown subcommand '%s'" ++ [10]) [AStr (Some sub)]; mret 1
  | _ =>
      _ ← print_lines
        ["Usage: hero <subcommand>"; "  hero info   — system info";
         "  hero serve  — start HTTP server"; "  hero pkg    — package manager"]%string;
      mret 1
  end.

(** The table [builtins] of Shell.v, by index. *)
Definition run_builtin (fuel : nat) (stack : dirent) (buf : Z) (i : nat) (argv : list (list Z)) : kop (term A) Z :=
  match i with
  | 0 => builtin_help
  | 1 => builtin_exit
  | 2 => builtin_echo argv
  | 3 => builtin_cd
  | 4 => builtin_ls fuel stack argv
  | 5 => builtin_cat fuel buf argv
  | 6 => builtin_pwd
  | 7 => builtin_clear
  | _ => builtin_hero argv
  end%nat.

Definition run_command (fuel : nat) (stack : dirent) (buf : Z) (c : command) : kop (term A) Z :=
  match c with
  | NoCommand => mret 0
  | Builtin i argv => run_builtin fuel stack buf i argv
  | NotFound name =>
      _ ← printk (codes "%s: command not found" ++ [10]) [AStr (Some name)]; mret 127
  end.

(** [shell_exec_line]: the dispatch of Shell.v, then the command. *)
Definition exec_line (fuel : nat) (stack : dirent) (buf : Z) (l : list Z) : kop (term A) Z := fun s =>
  c ← shell_exec_line l; run_command fuel stack buf c s.
End Commands.
