(* ===== verification/ShellCmdSpec.v ===== *)
(** * Properties of the built-in commands

    What [echo] and [cat] print, and that [ls] of a directory with an entry never
    returns. *)
From S2P Require Import Prelude Mem LibString PageAlloc Kheap KheapInv KheapSpec KmallocSpec Pmm Fs FsSpec Keyboard Printk Shell ShellSpec ShellCmd.

(** ** Printing *)

Lemma vprintk_loop_literal fuel l :
  Forall (fun c => c ≠ PERCENT) l → (length l < fuel)%nat → vprintk_loop fuel l [] = Ok l.
Proof.
  intros Hl. revert fuel. induction Hl as [|c l Hc _ IH]; intros fuel Hf; (destruct fuel as [|fuel]; [lia|]); [done|].
  cbn [vprintk_loop]. destruct (Z.eqb_spec c PERCENT); [done|]. cbn [negb]. rewrite IH by (cbn in Hf; lia). done.
Qed.

Section Printing.
Context {A : Type}.
Implicit Types s : term A.

Definition shown (out : list Z) s : term A := mk_term (t_fs s) (shell_should_exit s) (printed s ++ out).

Lemma shown_shown a b s : shown b (shown a s) = shown (a ++ b) s.
Proof. unfold shown. cbn. by rewrite app_assoc. Qed.

Lemma shown_nil s : shown [] s = s.
Proof. destruct s. unfold shown. cbn. by rewrite app_nil_r. Qed.

Lemma printk_literal l s : Forall (fun c => c ≠ PERCENT) l → printk l [] s = Ok (tt, shown l s).
Proof.
  intros Hl. unfold printk. assert (vprintk l [] = Ok l) as ->; [|done].
  apply vprintk_loop_literal; [done|lia].
Qed.

Lemma printk_string l s : printk (codes "%s") [AStr (Some l)] s = Ok (tt, shown l s).
Proof.
  unfold printk. assert (vprintk (codes "%s") [AStr (Some l)] = Ok (l ++ [])) as -> by reflexivity.
  by rewrite app_nil_r.
Qed.

Lemma printk_entry l s : printk (codes "%s  ") [AStr (Some l)] s = Ok (tt, shown (l ++ [32; 32]) s).
Proof. reflexivity. Qed.

(** ** echo *)

(** The arguments, separated by single spaces. *)
Fixpoint spaced (args : list (list Z)) : list Z :=
  match args with
  | [] => []
  | a :: args' => a ++ match args' with [] => [] | _ => 32 :: spaced args' end
  end.

Lemma echo_loop_spec args s : echo_loop args s = Ok (tt, shown (spaced args) s).
Proof.
  revert s. induction args as [|a args IH]; intros s; [by rewrite shown_nil|]. cbn [echo_loop spaced].
  rewrite (kop_bind_step _ _ _ _ _ (printk_string a s)).
  destruct args as [|b args].
  - change (mret tt ≫= _) with (fun s0 : term A => echo_loop [] s0). cbn beta. rewrite IH, shown_shown. done.
  - rewrite (kop_bind_step _ _ _ _ _ (printk_literal (codes " ") _ ltac:(repeat constructor; discriminate))).
    by rewrite IH, !shown_shown.
Qed.

Lemma builtin_echo_spec name args s :
  builtin_echo (name :: args) s = Ok (0, shown (spaced args ++ [10]) s).
Proof.
  unfold builtin_echo. cbn [tail]. rewrite (kop_bind_step _ _ _ _ _ (echo_loop_spec args s)).
  rewrite (kop_bind_step _ _ _ _ _ (printk_literal [10] _ ltac:(repeat constructor; discriminate))).
  by rewrite shown_shown.
Qed.

(** ** ls *)

Lemma inode_at_ok (f : fs A) a x : inodes f !! a = Some x → inode_at a f = Ok x.
Proof. unfold inode_at. by intros ->. Qed.

Lemma child_named_found f root dir x name c y :
  tree_wf f root → f !! dir = Some x → c ∈ i_children x → f !! c = Some y → i_name y = name →
  ∃ d, lookup_child f dir name = Some d ∧ d ≠ 0.
Proof.
  intros Hw Hx Hc Hy Hname. unfold lookup_child. rewrite Hx. cbn [mbind option_bind].
  destruct (child_named f (i_children x) name) as [[j d]|] eqn:E.
  - exists d. split; [done|]. intros ->. apply list_find_Some in E as (Hj & _).
    apply list_elem_of_lookup_2 in Hj. pose proof (tw_kids _ _ Hw _ _ Hx) as Hk.
    rewrite Forall_forall in Hk. destruct (Hk _ Hj) as [z Hz]. rewrite (tw_null _ _ Hw) in Hz. discriminate Hz.
  - apply list_find_None in E. rewrite Forall_forall in E. exfalso. apply (E c Hc). by rewrite Hy, <- Hname.
Qed.

(** An entry of the directory has the name in [d]. *)
Definition names_entry (f : gmap Z inode) (x : inode) (d : dirent) : Prop :=
  ∃ c y, c ∈ i_children x ∧ f !! c = Some y ∧ i_name y = d.1.1.

Lemma readdir_entry (s : fs A) dir x idx d :
  tree_wf (inodes s) (vfs_root s) → inodes s !! dir = Some x → 0 ≤ idx →
  (∀ c y, c ∈ i_children x → inodes s !! c = Some y → Z.of_nat (length (i_name y)) ≤ VFS_NAME_MAX) →
  idx < Z.of_nat (length (i_children x)) ∨ names_entry (inodes s) x d →
  ∃ node d', vfs_readdir dir idx d s = Ok (node, d') ∧ node ≠ 0 ∧ names_entry (inodes s) x d'.
Proof.
  intros Hw Hx Hi Hnames Hd. unfold vfs_readdir.
  destruct (Z.eqb_spec dir 0) as [->|_]; [rewrite (tw_null _ _ Hw) in Hx; discriminate Hx|].
  rewrite (inode_at_ok _ _ _ Hx). cbn [mbind outcome_bind]. rewrite (tw_ops _ _ Hw _ _ Hx). cbn [negb].
  assert (∃ r d', tmpfs_readdir dir idx d s = Ok (r, d') ∧ names_entry (inodes s) x d') as (r & d' & -> & He).
  { unfold tmpfs_readdir. rewrite (inode_at_ok _ _ _ Hx). cbn [mbind outcome_bind].
    destruct (Z.leb_spec (Z.of_nat (length (i_children x))) idx) as [Hge|Hlt].
    - exists (-1), d. split; [done|]. destruct Hd as [Hd|Hd]; [lia|done].
    - destruct (lookup_lt_is_Some_2 (i_children x) (Z.to_nat idx) ltac:(lia)) as [c Hc]. rewrite Hc.
      apply list_elem_of_lookup_2 in Hc as Hin. pose proof (tw_kids _ _ Hw _ _ Hx) as Hk.
      rewrite Forall_forall in Hk. destruct (Hk _ Hin) as [y Hy]. rewrite (inode_at_ok _ _ _ Hy). cbn [mbind outcome_bind].
      eexists _, _. split; [reflexivity|]. exists c, y. split_and!; [done|done|]. cbn [fst].
      symmetry. apply clip_small. by apply (Hnames c). }
  cbn [mbind outcome_bind]. rewrite finddir_spec by (done || by exists x).
  destruct He as (c & y & Hc & Hy & Hn). destruct (child_named_found _ _ _ _ _ _ _ Hw Hx Hc Hy Hn) as (n & -> & Hnz).
  cbn [mbind outcome_bind default]. exists n, d'. split_and!; [done|done|]. by exists c, y.
Qed.

Lemma ls_loop_diverges fuel dir x idx d s :
  tree_wf (inodes (t_fs s)) (vfs_root (t_fs s)) → inodes (t_fs s) !! dir = Some x → 0 ≤ idx →
  (∀ c y, c ∈ i_children x → inodes (t_fs s) !! c = Some y → Z.of_nat (length (i_name y)) ≤ VFS_NAME_MAX) →
  idx < Z.of_nat (length (i_children x)) ∨ names_entry (inodes (t_fs s)) x d →
  ls_loop fuel dir idx d s = Diverge.
Proof.
  revert idx d s. induction fuel as [|fuel IH]; intros idx d s Hw Hx Hi Hn Hd; [done|].
  cbn [ls_loop]. destruct (readdir_entry (t_fs s) dir x idx d Hw Hx Hi Hn Hd) as (node & d' & -> & Hnz & Hd').
  cbn [mbind outcome_bind]. destruct (Z.eqb_spec node 0); [done|].
  rewrite (kop_bind_step _ _ _ _ _ (printk_entry d'.1.1 s)).
  apply IH; [done|done|apply wrap32_range|done|by right].
Qed.
End Printing.

(** (C40) [ls] of a directory that has an entry never returns: past the last
    entry [tmpfs_readdir] leaves the directory entry as it was, [vfs_readdir] ignores
    its result and finds the old name again, so that the loop over the entries goes
    on for any number of steps. *)
Theorem ls_never_returns {A : Type} (fuel : nat) (stack : dirent) (name path : list Z) (dir : Z) (x : inode)
    (s : term A) (Hw : tree_wf (inodes (t_fs s)) (vfs_root (t_fs s)))
    (Hres : vfs_resolve_path (Some path) (t_fs s) = Ok dir) (Hx : inodes (t_fs s) !! dir = Some x)
    (Hent : i_children x ≠ [])
    (Hnames : ∀ c y, inodes (t_fs s) !! c = Some y → Z.of_nat (length (i_name y)) ≤ VFS_NAME_MAX) :
  builtin_ls fuel stack [name; path] s = Diverge.
Proof.
  unfold builtin_ls, vfs_open. rewrite Hres. cbn [mbind outcome_bind].
  destruct (Z.eqb_spec dir 0) as [->|Hnz]; [rewrite (tw_null _ _ Hw) in Hx; discriminate Hx|].
  rewrite (inode_at_ok _ _ _ Hx). cbn [mbind outcome_bind]. destruct (Z.eqb_spec dir 0); [done|].
  set (y := set_i_refs _ x). set (s1 := with_fs _ s).
  pose proof (tree_wf_file _ _ dir x y Hw Hx eq_refl eq_refl) as Hw1.
  rewrite (ls_loop_diverges fuel dir y 0 stack s1); [done|exact Hw1|apply lookup_insert_eq|lia| |].
  - intros c z _ Hz. change (<[dir := y]> (inodes (t_fs s)) !! c = Some z) in Hz.
    apply lookup_insert_Some in Hz as [[<- <-]|[_ Hz]]; [exact (Hnames dir x Hx)|by apply (Hnames c)].
  - left. change (i_children y) with (i_children x). destruct (i_children x); [done|cbn; lia].
Qed.

Definition twin_term : term pmm := mk_term twin_fs false [].

Lemma twin_tree : tree_wf (inodes twin_fs) 1048616.
Proof.
  apply (add_child_tree (inodes sample_fs) 1048616 1048616 2000 sample_root (new_dir etc 493 2));
    [apply sample_fs_wf|reflexivity|reflexivity|discriminate|reflexivity|reflexivity|reflexivity].
Qed.

Lemma twin_names c y : inodes twin_fs !! c = Some y → Z.of_nat (length (i_name y)) ≤ VFS_NAME_MAX.
Proof.
  intros Hy. unfold twin_fs in Hy. cbn [inodes] in Hy. unfold add_child in Hy.
  apply lookup_insert_Some in Hy as [[_ <-]|[_ Hy]]; [discriminate|].
  apply lookup_insert_Some in Hy as [[_ <-]|[_ Hy]]; [discriminate|].
  unfold sample_fs in Hy. cbn [inodes] in Hy. apply lookup_singleton_Some in Hy as [_ <-]. discriminate.
Qed.

Lemma ls_never_returns_witness :
  i_children (set_i_children [2000] sample_root) ≠ [] ∧
  (∀ fuel, builtin_ls fuel ([], 0, 0) [codes "ls"; codes "/"] twin_term = Diverge).
Proof.
  split; [discriminate|]. intros fuel.
  apply (ls_never_returns fuel ([], 0, 0) (codes "ls") (codes "/") 1048616
    (set_i_children [2000] sample_root) twin_term twin_tree); [reflexivity|reflexivity|discriminate|exact twin_names].
Defined.

(** ** cat *)

Section Cat.
Context {A : Type}.
Implicit Types s : term A.

Definition memory s : mem := kh_mem (fs_heap (t_fs s)).

(** What [cat] prints of a file: of every 511 bytes those before the first zero. *)
Fixpoint cat_text (k : nat) (data : list Z) : list Z :=
  match k, data with
  | O, _ | _, [] => []
  | S k', _ => str_of (take 511 data) ++ cat_text k' (drop 511 data)
  end.

Lemma cat_text_fuel k k' data :
  (length data ≤ 511 * k)%nat → (length data ≤ 511 * k')%nat → cat_text k data = cat_text k' data.
Proof.
  revert k' data. induction k as [|k IH]; intros k' data Hk Hk'.
  { destruct data; [by destruct k'|cbn in Hk; lia]. }
  destruct data as [|c data]; [by destruct k'|]. destruct k' as [|k']; [cbn in Hk'; lia|].
  cbn [cat_text]. f_equal. apply IH; rewrite length_drop; lia.
Qed.

(** A file without a zero byte is printed as it is. *)
Lemma str_of_id l : Forall (fun c => c ≠ 0) l → str_of l = l.
Proof. induction 1 as [|c l Hc _ IH]; [done|]. cbn. destruct (Z.eqb_spec c 0); [done|]. by rewrite IH. Qed.

Lemma cat_text_nonzero k data :
  Forall (fun c => c ≠ 0) data → (length data ≤ 511 * k)%nat → cat_text k data = data.
Proof.
  revert data. induction k as [|k IH]; intros data Hd Hk; [by destruct data; [|cbn in Hk; lia]|].
  destruct data as [|c data]; [done|]. cbn [cat_text]. rewrite str_of_id by (by apply Forall_take).
  rewrite IH; [apply take_drop|by apply Forall_drop|rewrite length_drop; lia].
Qed.

(** A file with the bytes [data]; if there are any, they lie apart from the buffer of
    [cat]. *)
Record readable (f : Z) (x : inode) (buf : Z) (data : list Z) s : Prop := mk_readable {
  rb_node : inodes (t_fs s) !! f = Some x;
  rb_ops : f ≠ 0 ∧ i_ops x = true;
  rb_size : i_size x = Z.of_nat (length data);
  rb_bytes : bytes_at (memory s) (i_data x) (length data) = data;
  rb_place : 0 < i_size x → 0 < i_data x ∧ i_data x + i_size x < 9223372036854775808;
  rb_apart : 0 < i_size x → i_data x + i_size x ≤ buf ∨ buf + 512 ≤ i_data x;
  rb_mem : mem_bytes (memory s);
}.

Lemma take_drop_bytes m a (i k n : nat) :
  (i + k ≤ n)%nat → take k (drop i (bytes_at m a n)) = bytes_at m (a + Z.of_nat i) k.
Proof.
  intros H. replace n with (i + (k + (n - i - k)))%nat by lia. rewrite !bytes_at_add.
  rewrite drop_app_length' by (by rewrite bytes_at_length). by rewrite take_app_length' by (by rewrite bytes_at_length).
Qed.

(** The state after reading [n] bytes from [off] into the buffer and ending them. *)
Lemma read_chunk f x buf data off s :
  readable f x buf data s → 0 ≤ off < i_size x →
  let n := Z.min 511 (i_size x - off) in
  ∃ m, vfs_read f off 511 buf (t_fs s) = Ok (n, fs_with_heap (with_mem (fun _ => m) (fs_heap (t_fs s))) (t_fs s)) ∧
    mem_bytes m ∧ (∀ a, a < buf ∨ buf + 512 ≤ a → m a = memory s a) ∧
    bytes_at m buf (Z.to_nat n) = take (Z.to_nat n) (drop (Z.to_nat off) data).
Proof.
  intros [Hx [Hf Hops] Hsz Hb Hpl Hap Hm] Hoff. cbv zeta. specialize (Hpl ltac:(lia)). specialize (Hap ltac:(lia)).
  unfold vfs_read. destruct (Z.eqb_spec f 0); [done|]. rewrite (inode_at_ok _ _ _ Hx). cbn [mbind outcome_bind]. rewrite Hops.
  unfold tmpfs_read. rewrite (inode_at_ok _ _ _ Hx). cbn [mbind outcome_bind]. rewrite !(wrap64_small off) by lia.
  destruct (Z.eqb_spec (i_data x) 0); [lia|]. destruct (Z.leb_spec (i_size x) off); [lia|]. cbn [orb].
  rewrite (wrap64_small (i_size x - off)), (wrap64_small (i_data x + off)) by lia.
  set (cnt := Z.min 511 (i_size x - off)).
  assert (MIN 511 (i_size x - off) = cnt) as -> by (unfold MIN, cnt; zcases; lia).
  assert (0 < cnt ≤ 511 ∧ off + cnt ≤ i_size x) as [Hn Hno] by lia. clearbody cnt. rewrite signed64_small by lia.
  exists (memcpy buf (i_data x + off) cnt (memory s)).
  assert (∀ a, memcpy buf (i_data x + off) cnt (memory s) a =
    if (buf <=? a) && (a <? buf + cnt) then memory s (i_data x + off + (a - buf)) else memory s a) as Hc.
  { intros a. apply memcpy_at; [lia|lia|done]. }
  split_and!; [done| | |].
  - intros a. rewrite Hc. destruct (_ && _); apply Hm.
  - intros a Ha. rewrite Hc. destruct (Z.leb_spec buf a), (Z.ltb_spec a (buf + cnt)); (done || lia).
  - rewrite <- Hb, take_drop_bytes by lia. apply bytes_at_shift. intros i Hi. rewrite Hc.
    destruct (Z.leb_spec buf (buf + i)), (Z.ltb_spec (buf + i) (buf + cnt)); try lia. cbn [andb]. f_equal. lia.
Qed.

Lemma str_of_stop l post : str_of (l ++ 0 :: post) = str_of l.
Proof. induction l as [|c l IH]; [done|]. cbn. destruct (c =? 0); [done|]. by rewrite IH. Qed.

Lemma str_of_bytes m a n (k : nat) :
  m (a + Z.of_nat n) = 0 → (n < k)%nat → string_at m a k = str_of (bytes_at m a n).
Proof.
  intros Hz Hk. unfold string_at. replace k with (n + S (k - n - 1))%nat by lia.
  rewrite bytes_at_add, bytes_at_cons, Hz. apply str_of_stop.
Qed.

Lemma cat_loop_spec fuel f x buf data off s :
  readable f x buf data s → 0 ≤ off ≤ i_size x → i_size x - off + 511 ≤ 511 * Z.of_nat fuel →
  ∃ s', cat_loop fuel f off buf s = Ok (tt, s') ∧ readable f x buf data s' ∧
    printed s' = printed s ++ cat_text fuel (drop (Z.to_nat off) data) ∧
    t_fs s' = fs_with_heap (with_mem (fun _ => memory s') (fs_heap (t_fs s))) (t_fs s) ∧
    (∀ a, a < buf ∨ buf + 512 ≤ a → memory s' a = memory s a) ∧
    shell_should_exit s' = shell_should_exit s.
Proof.
  revert off s. induction fuel as [|fuel IH]; intros off s Hr Hoff Hfuel; [lia|]. cbn [cat_loop].
  pose proof (rb_size _ _ _ _ _ Hr) as Hsz0.
  destruct (Z.eq_dec off (i_size x)) as [->|Hne].
  { unfold vfs_read. pose proof Hr as [Hx [Hf Hops] Hsz Hb Hpl Hap Hm].
    assert (is_u64 (i_size x)) as Hu by (destruct (Z.eq_dec (i_size x) 0); [unfold is_u64; lia|destruct Hpl; unfold is_u64; lia]).
    destruct (Z.eqb_spec f 0); [done|]. rewrite (inode_at_ok _ _ _ Hx). cbn [mbind outcome_bind]. rewrite Hops.
    unfold tmpfs_read. rewrite (inode_at_ok _ _ _ Hx). cbn [mbind outcome_bind]. rewrite !wrap64_small by exact Hu.
    rewrite Z.leb_refl, orb_true_r. cbn [mbind outcome_bind Z.ltb Z.compare]. exists (with_fs (t_fs s) s).
    split_and!; [done|by destruct s| | |done|done].
    - rewrite Hsz, Nat2Z.id, drop_all. cbn [cat_text]. by rewrite app_nil_r.
    - by destruct s as [[[]]]. }
  destruct (read_chunk f x buf data off s Hr ltac:(lia)) as (m & -> & Hmb & Hmo & Hchunk). cbn [mbind outcome_bind].
  set (n := Z.min 511 (i_size x - off)) in *. assert (0 < n ≤ 511 ∧ off + n ≤ i_size x) as [Hn Hno] by lia.
  destruct (Z.ltb_spec 0 n); [|lia]. set (s1 := with_fs (fs_with_heap (with_mem (fun m => store8 m (buf + n) 0) _) _) _).
  assert (memory s1 = store8 m (buf + n) 0) as Em by done.
  assert (∀ a, a < buf ∨ buf + 512 ≤ a → memory s1 a = memory s a) as Hout.
  { intros a Ha. rewrite Em, store8_other by lia. by apply Hmo. }
  assert (bytes_at (memory s1) buf (Z.to_nat n) = take (Z.to_nat n) (drop (Z.to_nat off) data)) as Hbuf.
  { rewrite <- Hchunk. apply bytes_at_ext. intros a Ha. rewrite Em. apply store8_other. lia. }
  pose proof Hr as [Hx Hops Hsz Hb Hpl Hap Hm].
  assert (readable f x buf data s1) as Hr1.
  { split; try done.
    - rewrite <- Hb at 2. apply bytes_at_ext. intros a Ha. apply Hout. specialize (Hap ltac:(lia)). lia.
    - rewrite Em. by apply store8_bytes. }
  change (kh_mem (fs_heap (t_fs s1))) with (memory s1).
  rewrite (str_of_bytes (memory s1) buf (Z.to_nat n)).
  2: { rewrite Em, Z2Nat.id by lia. apply store8_same. }
  2: { lia. }
  rewrite (kop_bind_step _ _ _ _ _ (printk_string _ s1)), Hbuf.
  assert (take (Z.to_nat n) (drop (Z.to_nat off) data) = take 511 (drop (Z.to_nat off) data) ∧
    drop (Z.to_nat (off + n)) data = drop 511 (drop (Z.to_nat off) data)) as [Etake Edrop].
  { rewrite drop_drop. destruct (Z.le_gt_cases 511 (i_size x - off)) as [Hge|Hlt].
    - replace (Z.to_nat n) with 511%nat by lia. split; [done|]. f_equal. lia.
    - rewrite !take_ge by (rewrite length_drop; lia). split; [done|]. rewrite !drop_ge by lia. done. }
  set (s2 := shown _ s1). assert (readable f x buf data s2) as Hr2 by (by destruct Hr1).
  destruct (IH (off + n) s2 Hr2 ltac:(lia) ltac:(lia)) as (s' & -> & Hr' & Hp & Hfs & Hmem & Hex).
  exists s'. split_and!; [done|done| | | |by rewrite Hex].
  - rewrite Hp. unfold s2. cbn [printed shown]. change (printed s1) with (printed s). rewrite <- app_assoc. f_equal.
    rewrite Etake, Edrop. destruct (drop (Z.to_nat off) data) as [|c l] eqn:El; [|done].
    exfalso. apply (f_equal length) in El. rewrite length_drop in El. cbn in El. lia.
  - rewrite Hfs. done.
  - intros a Ha. rewrite Hmem by done. by apply Hout.
Qed.
End Cat.

(** (C32) [cat] of a path that resolves to a file, of any size and content, whose bytes
    lie apart from the 512-byte buffer of [cat]: it returns 0 after printing, of every
    511 bytes of the file, those before the first zero byte ([printk] takes the chunk for
    a string); a file without zero bytes is printed as it is.  The file system is as
    before, the open count included, and no memory but the buffer changes. *)
Theorem cat_prints_file {A : Type} (fuel : nat) (buf : Z) (name path : list Z) (f : Z) (x : inode) (data : list Z)
    (s : term A) (Hres : vfs_resolve_path (Some path) (t_fs s) = Ok f) (Hr : readable f x buf data s)
    (Hrefs : 0 ≤ i_refs x < 4294967295) (Hfuel : i_size x + 511 ≤ 511 * Z.of_nat fuel) :
  ∃ s', builtin_cat fuel buf [name; path] s = Ok (0, s') ∧ printed s' = printed s ++ cat_text (length data) data ∧
    (Forall (fun c => c ≠ 0) data → printed s' = printed s ++ data) ∧
    inodes (t_fs s') = inodes (t_fs s) ∧ shell_should_exit s' = shell_should_exit s ∧
    ∀ a, a < buf ∨ buf + 512 ≤ a → memory s' a = memory s a.
Proof.
  pose proof Hr as [Hx [Hf Hops] Hsz Hb Hpl Hap Hm].
  unfold builtin_cat, vfs_open. rewrite Hres. cbn [mbind outcome_bind].
  destruct (Z.eqb_spec f 0) as [|_]; [done|]. rewrite (inode_at_ok _ _ _ Hx). cbn [mbind outcome_bind].
  destruct (Z.eqb_spec f 0) as [|_]; [done|]. rewrite wrap32_small by lia.
  set (y := set_i_refs (i_refs x + 1) x). set (s1 := with_fs _ s).
  assert (readable f y buf data s1) as Hr1 by (split; try done; apply lookup_insert_eq).
  destruct (cat_loop_spec fuel f y buf data 0 s1 Hr1) as (s2 & -> & Hr2 & Hp & Hfs & Hmem & He);
    [change (i_size y) with (i_size x); lia|change (i_size y) with (i_size x); lia|].
  cbn [mbind outcome_bind]. unfold vfs_close. destruct (Z.eqb_spec f 0) as [|_]; [done|].
  rewrite (inode_at_ok _ _ _ (rb_node _ _ _ _ _ Hr2)). cbn [mbind outcome_bind].
  change (i_refs y) with (i_refs x + 1). destruct (Z.ltb_spec 0 (i_refs x + 1)); [|lia].
  change (drop (Z.to_nat 0) data) with data in Hp. rewrite (cat_text_fuel fuel (length data)) in Hp by lia.
  eexists. split; [reflexivity|]. cbn [printed with_fs t_fs shell_should_exit]. split_and!.
  - exact Hp.
  - intros Hnz. rewrite Hp. by rewrite cat_text_nonzero by (done || lia).
  - rewrite Hfs. cbn [inodes fs_with_inodes fs_with_heap s1 with_fs t_fs]. rewrite insert_insert_eq.
    replace (set_i_refs (i_refs x + 1 - 1) y) with x; [by apply insert_id|].
    unfold y, set_i_refs. cbn [i_name i_type i_mode i_ino i_size i_ops i_refs i_data i_capacity i_children].
    replace (i_refs x + 1 - 1) with (i_refs x) by lia. by destruct x.
  - exact He.
  - exact Hmem.
Qed.

(** A root directory with the file [/motd] of five bytes, one of them zero. *)
Definition motd_node : inode := mk_inode (codes "motd") 1 420 2 5 true 0 3000 512 [].
Definition motd_mem : mem := fun a => if (3000 <=? a) && (a <? 3005) then (if a =? 3003 then 0 else 65) else 0.
Definition motd_term : term pmm := mk_term
  (mk_fs (mk_kheap motd_mem sample_pmm 0 0 0 0)
    (<[1000 := mk_inode [114] VFS_DIRECTORY 493 1 0 true 0 0 0 [2000]]> {[2000 := motd_node]}) 3 1000 [] [])
  false [].

Lemma motd_readable : readable 2000 motd_node 5000 [65; 65; 65; 0; 65] motd_term.
Proof.
  split; [reflexivity|by split|reflexivity|reflexivity|cbn; lia|intros _; left; cbn; lia|].
  intros a. unfold memory, motd_term, motd_mem. cbn [t_fs fs_heap kh_mem]. destruct (_ && _); [destruct (_ =? _)|]; lia.
Qed.

Lemma cat_prints_file_witness :
  ∃ s', builtin_cat 2 5000 [codes "cat"; codes "/motd"] motd_term = Ok (0, s') ∧ printed s' = [65; 65; 65].
Proof.
  destruct (cat_prints_file 2 5000 (codes "cat") (codes "/motd") 2000 motd_node [65; 65; 65; 0; 65] motd_term)
    as (s' & E & Hp & _); [reflexivity|exact motd_readable|cbn; lia|cbn; lia|].
  exists s'. split; [exact E|exact Hp].
Defined.

(** (Property) [echo], typed at the prompt with its arguments, prints them separated
    by single spaces, however many blanks separate them on the line, and returns 0. *)
Theorem echo_prints_arguments {A : Type} (fuel : nat) (stack : dirent) (buf : Z) (l : list Z) (args : list (list Z))
    (s : term A) (Hl : Forall (fun c => c ≠ 0) l) (Hlen : (length l ≤ 1023)%nat)
    (Hw : words l = codes "echo" :: args) (Hargs : (length args < 63)%nat) :
  exec_line fuel stack buf l s =
    Ok (0, mk_term (t_fs s) (shell_should_exit s) (printed s ++ spaced args ++ [10])).
Proof.
  unfold exec_line. rewrite shell_exec_line_spec; [|intros ->; discriminate Hw|done|done].
  cbn [mbind outcome_bind]. unfold command_of. rewrite Hw. rewrite take_ge by (cbn; lia).
  change (list_find (fun b => b = codes "echo") builtins) with (Some (2%nat, codes "echo")).
  cbn [run_command run_builtin]. apply builtin_echo_spec.
Qed.

Lemma echo_prints_arguments_witness :
  exec_line 0 ([], 0, 0) 0 (codes "  echo a   bc") motd_term =
    Ok (0, mk_term (t_fs motd_term) false (codes "a bc" ++ [10])).
Proof.
  rewrite (echo_prints_arguments 0 ([], 0, 0) 0 (codes "  echo a   bc") [codes "a"; codes "bc"] motd_term);
    [reflexivity| |cbn; lia|reflexivity|cbn; lia].
  repeat (apply Forall_cons; split; [discriminate|]). by apply Forall_nil.
Defined.

(** A port argument is one character above 8000: [hero serve 9090] announces
    port 8009. *)
Example serve_port_9090 : serve_port (codes "9090") = 8009.
Proof. reflexivity. Qed.
