(* ===== verification/Session.v ===== *)
(** * userspace/init/init.c, [heroshell_main]: a session at the console

    The shell thread as a whole: banner, prompt, line editor, commands.  What it
    prints and what its commands do to the file system go into one [term]; the
    keyboard's events come in order, and the session is followed up to the point
    where it waits for the next one or has ended.  [replay] is the same session on
    texts instead of character arrays, [transcript] on typed lines. *)
From S2P Require Import Prelude Mem LibString PageAlloc Pmm Kheap Fs FsSpec Keyboard Printk Shell ShellSpec Console ShellCmd ShellCmdSpec.

Section Sessions.
Context {A : Type}.
Implicit Types t : term A.

(** ** The shell thread

    [stack t] is what the stack holds where [ls] puts its [dirent], [buf] the
    address of the buffer of [cat]. *)
Section Thread.
Variables (fuel : nat) (stack : term A → dirent) (buf : Z).

(** The loops of [shell_run] behind the first prompt. *)
Fixpoint session_loop (evs : list key_event) (s : shell) : kop (term A) shell := fun t =>
  match evs with
  | [] => Ok (s, t)
  | ev :: evs' =>
      let '(s, o, complete) := edit_key ev s in
      let t := mk_term (t_fs t) (shell_should_exit t) (printed t ++ o) in
      if complete : bool then
        '(s, t) ← (if 0 <? pos s then
                     let s := hist_add (str_of (line s)) s in
                     '(_, t) ← exec_line fuel (stack t) buf (str_of (line s)) t; Ok (s, t)
                   else Ok (s, t));
        if shell_should_exit t then '(_, t) ← printk (ln "Goodbye!") [] t; Ok (s, t)
        else '(_, t) ← printk SHELL_PROMPT [] t; session_loop evs' (begin_line s) t
      else session_loop evs' s t
  end.

Definition session (evs : list key_event) : kop (term A) shell := fun t =>
  '(_, t) ← printk SHELL_PROMPT [] t; session_loop evs (begin_line shell_static) t.

(** Up to its loop of [sched_yield]. *)
Definition heroshell_main (evs : list key_event) : kop (term A) shell := fun t =>
  o ← pr_level 6 (ln "HeroShell: starting console shell") [];
  let t := mk_term (t_fs t) (shell_should_exit t) (printed t ++ o) in
  '(_, t) ← print_lines
    [""; "  ╔══════════════════════════════════════════╗";
     "  ║     HeroShell v0.1 — HeroOS Console     ║";
     "  ╚══════════════════════════════════════════╝"; ""]%string t;
  session evs (shell_init t).

(** ** Specifications *)

(** What a key shows, on texts: a history key shows another text instead of the
    old one, any other key changes the end of the text. *)
Definition erased (n : nat) : list Z := concat (replicate n [8; 32; 8]).
Definition echo (ev : key_event) (e : Edit.state) : list Z :=
  let '(e', complete) := Edit.key ev e in
  let n := length (Edit.text e) in
  if complete : bool then [10]
  else if ev_extended ev && negb (Edit.nav e' =? Edit.nav e) then erased n ++ Edit.text e'
  else erased (n - length (Edit.text e')) ++ drop n (Edit.text e').

(** A completed line: its command, and the history. *)
Definition run_text (e : Edit.state) : kop (term A) Edit.state := fun t =>
  if bool_decide (Edit.text e = []) then Ok (Edit.begin e, t)
  else
    '(_, t) ← run_command fuel (stack t) buf (command_of (Edit.text e)) t;
    Ok (Edit.begin (Edit.mk_state (Edit.text e) (Edit.saved e) (Edit.nav e) (Edit.push (Edit.text e) (Edit.hist e))), t).

Fixpoint replay (evs : list key_event) (e : Edit.state) : kop (term A) Edit.state := fun t =>
  match evs with
  | [] => Ok (e, t)
  | ev :: evs' =>
      let '(e', complete) := Edit.key ev e in
      let t := shown (echo ev e) t in
      if complete : bool then
        '(e', t) ← run_text e' t;
        if shell_should_exit t then Ok (e', shown (ln "Goodbye!") t)
        else replay evs' e' (shown SHELL_PROMPT t)
      else replay evs' e' t
  end.

(** Behind a prompt, the lines [ls] are typed one after the other. *)
Fixpoint transcript (ls : list (list Z)) t : outcome (term A) :=
  match ls with
  | [] => Ok t
  | l :: ls' =>
      let t := shown (l ++ [10]) t in
      '(_, t) ← run_command fuel (stack t) buf (command_of l) t;
      if shell_should_exit t then Ok (shown (ln "Goodbye!") t)
      else transcript ls' (shown SHELL_PROMPT t)
  end.
End Thread.

(** What is on the screen before the first prompt. *)
Definition greeting : list Z :=
  codes "[INFO]   " ++ ln "HeroShell: starting console shell" ++ [10] ++
  ln "  ╔══════════════════════════════════════════╗" ++
  ln "  ║     HeroShell v0.1 — HeroOS Console     ║" ++
  ln "  ╚══════════════════════════════════════════╝" ++ [10] ++
  ln "HeroShell v0.1.0 — type 'help' for commands" ++ [10].
Definition greeted t : term A := mk_term (t_fs t) false (printed t ++ greeting ++ SHELL_PROMPT).

(** Outcomes that agree, with results in [R]. *)
Definition lifted {X Y} (R : X → Y → Prop) (o : outcome X) (o' : outcome Y) : Prop :=
  match o, o' with
  | Ok x, Ok y => R x y
  | Panic m, Panic m' => m = m'
  | Undef w, Undef w' => w = w'
  | Diverge, Diverge => True
  | _, _ => False
  end.

(** The same screen and file system; a shell that has ended has not cleared its line. *)
Definition same_session (x : shell * term A) (y : Edit.state * term A) : Prop :=
  x.2 = y.2 ∧ if shell_should_exit x.2 then related (begin_line x.1) (Edit.begin y.1) else related x.1 y.1.

(** ** The editor's output *)

Lemma term_erase_erased n : term_erase (Z.of_nat n) = erased n.
Proof. unfold term_erase. by rewrite Nat2Z.id. Qed.

Lemma show_entry_echo s e l term n sv :
  related s e → plain l → (length l ≤ 1023)%nat → -1 ≤ n < Z.of_nat (length (Edit.hist e)) →
  holds (saved_line s) sv → plain sv →
  (show_entry l term n s).2 = erased (length (Edit.text e)) ++ l.
Proof.
  intros Hrel Hpl Hlen Hn Hsv Hpsv. pose proof (show_entry_spec s e l term n sv Hrel Hpl Hlen Hn Hsv Hpsv) as [Hrel' _].
  pose proof (ho_text _ _ (re_line _ _ Hrel')) as Ht. unfold show_entry in *. cbn [fst snd with_line line Edit.text] in *.
  by rewrite Ht, (re_pos _ _ Hrel), term_erase_erased.
Qed.

Lemma edit_extended_echo ev s e :
  related s e → ev_pressed ev = true → ev_extended ev = true → (edit_extended ev s).2 = echo ev e.
Proof.
  intros Hrel Hpr Hex. pose proof Hrel as [Hl Hs Hp Hn Hr Hh (Ht & Hsv & Hpl)].
  assert (erased (length (Edit.text e) - length (Edit.text e)) ++ drop (length (Edit.text e)) (Edit.text e) = []) as Hsame
    by (by rewrite Nat.sub_diag, drop_all).
  unfold edit_extended, echo, Edit.key, KEY_ARROW_UP, KEY_ARROW_DOWN. rewrite Hpr, Hex. cbn [negb andb].
  rewrite Hn, !(hist_get_spec _ _ _ Hh). rewrite Forall_forall in Hpl.
  destruct (ev_scancode ev =? 72).
  - destruct (Edit.recall (Edit.nav e + 1) (Edit.hist e)) as [x|] eqn:E; [|by rewrite Z.eqb_refl].
    apply recall_some in E as [Hx Hin]. pose proof (hist_line _ _ _ Hh Hin) as Hlen. cbn [Edit.nav Edit.text].
    destruct (Z.eqb_spec (Edit.nav e + 1) (Edit.nav e)); [lia|]. cbn [negb].
    set (s1 := if Edit.nav e <? 0 then _ else _).
    assert (pos s1 = pos s ∧ (str_of (line s1)) = str_of (line s) ∧ line s1 = line s) as (E1 & _ & E3)
      by (unfold s1; by destruct (_ <? 0)).
    unfold show_entry. rewrite E1, E3, Hp, term_erase_erased.
    assert (holds (set_at (SHELL_LINE_MAX - 1) 0 (buf_strncpy 1023 x (line s))) x) as Hnew
      by (eapply holds_copy_cut; eauto using plain_nonzero).
    cbn [snd]. by rewrite (ho_text _ _ Hnew).
  - destruct (ev_scancode ev =? 80); [|by rewrite Z.eqb_refl].
    destruct (Z.ltb_spec (Edit.nav e) 0); [by rewrite Z.eqb_refl|].
    destruct (Z.ltb_spec 0 (Edit.nav e)) as [Hpos|Hzero].
    + destruct (Edit.recall (Edit.nav e - 1) (Edit.hist e)) as [x|] eqn:E.
      * apply recall_some in E as [Hx Hin]. cbn [Edit.nav Edit.text].
        destruct (Z.eqb_spec (Edit.nav e - 1) (Edit.nav e)); [lia|].
        apply (show_entry_echo s e x true (Edit.nav e - 1) (Edit.saved e)); auto; [by eapply hist_line|lia].
      * exfalso. unfold Edit.recall in E. destruct (Z.ltb_spec (Edit.nav e - 1) 0); [lia|].
        apply lookup_ge_None_1 in E. rewrite length_reverse in E. lia.
    + assert (Edit.recall (Edit.nav e - 1) (Edit.hist e) = None) as ->.
      { unfold Edit.recall. destruct (Z.ltb_spec (Edit.nav e - 1) 0); [done|lia]. }
      cbn [Edit.nav Edit.text]. destruct (Z.eqb_spec (-1) (Edit.nav e)); [lia|]. rewrite (ho_text _ _ Hs).
      apply (show_entry_echo s e (Edit.saved e) false (-1) (Edit.saved e)); auto; [by eapply holds_length|lia].
Qed.

Lemma edit_key_echo ev s e : related s e → (edit_key ev s).1.2 = echo ev e.
Proof.
  intros Hrel. pose proof Hrel as [Hl Hs Hp Hn Hr Hh (Ht & Hsv & Hpl)].
  assert (erased (length (Edit.text e) - length (Edit.text e)) ++ drop (length (Edit.text e)) (Edit.text e) = []) as Hsame
    by (by rewrite Nat.sub_diag, drop_all).
  unfold edit_key. destruct (ev_pressed ev) eqn:Epr; cbn [negb].
  2: { unfold echo, Edit.key. rewrite Epr. cbn [negb]. rewrite Z.eqb_refl, andb_false_r. by rewrite Hsame. }
  destruct (ev_extended ev) eqn:Eex; [by apply edit_extended_echo|].
  unfold echo, Edit.key. rewrite Epr, Eex. cbn [negb andb]. set (c := ev_ascii ev).
  destruct (Z.eqb_spec c 0); [by rewrite Hsame|]. destruct ((c =? 13) || (c =? 10)); [done|].
  destruct (Z.eqb_spec c 8).
  { cbn [Edit.text]. rewrite length_take, drop_ge by (rewrite length_take; lia). rewrite app_nil_r.
    rewrite Hp. destruct (Edit.text e) as [|x r]; [done|]. cbn [length pred].
    destruct (Z.ltb_spec 0 (Z.of_nat (S (length r)))); [|lia].
    replace (S (length r) - length r `min` S (length r))%nat with 1%nat by lia. done. }
  destruct (Z.eqb_spec c 27).
  { cbn [fst snd Edit.text length]. rewrite Nat.sub_0_r, drop_nil, app_nil_r, Hp. apply term_erase_erased. }
  rewrite Hp. unfold SHELL_LINE_MAX.
  destruct (Z.ltb_spec (Z.of_nat (length (Edit.text e))) (1024 - 1)), (Nat.ltb_spec (length (Edit.text e)) 1023);
    try lia; [|by rewrite Hsame].
  cbn [fst snd Edit.text]. rewrite length_app, drop_app_length. cbn [length].
  replace (length (Edit.text e) - (length (Edit.text e) + 1))%nat with 0%nat by lia. done.
Qed.

(** ** Refinement *)

Section Refinement.
Variables (fuel : nat) (stack : term A → dirent) (buf : Z).

Lemma goodbye_shown t : printk (ln "Goodbye!") [] t = Ok (tt, shown (ln "Goodbye!") t).
Proof. apply printk_literal. repeat constructor; discriminate. Qed.

Lemma prompt_shown t : printk SHELL_PROMPT [] t = Ok (tt, shown SHELL_PROMPT t).
Proof. apply printk_literal. repeat constructor; discriminate. Qed.

Lemma print_lines_spec ls t :
  Forall (fun l => Forall (fun c => c ≠ PERCENT) (ln l)) ls →
  print_lines ls t = Ok (tt, shown (concat (ln <$> ls)) t).
Proof.
  intros Hls. revert t. induction Hls as [|l ls Hl _ IH]; intros t; [by rewrite shown_nil|]. cbn [print_lines fmap list_fmap concat].
  rewrite (kop_bind_step _ _ _ _ _ (printk_literal (ln l) t Hl)), IH, shown_shown. done.
Qed.

Lemma session_loop_spec evs s e t :
  related s e → lifted same_session (session_loop fuel stack buf evs s t) (replay fuel stack buf evs e t).
Proof.
  assert (∀ evs s e t, related (begin_line s) e →
    (∀ t', lifted same_session (session_loop fuel stack buf evs (begin_line s) t') (replay fuel stack buf evs e t')) →
    lifted same_session
      (if shell_should_exit t then '(_, t) ← printk (ln "Goodbye!") [] t; Ok (s, t)
       else '(_, t) ← printk SHELL_PROMPT [] t; session_loop fuel stack buf evs (begin_line s) t)
      (if shell_should_exit t then Ok (e, shown (ln "Goodbye!") t)
       else replay fuel stack buf evs e (shown SHELL_PROMPT t))) as Hend.
  { intros evs' s' e' t' Hrel Hnext. destruct (shell_should_exit t') eqn:Hx.
    - rewrite goodbye_shown. split; [done|]. cbn [snd shown shell_should_exit fst]. rewrite Hx.
      by apply (begin_related (begin_line s')).
    - rewrite prompt_shown. apply Hnext. }
  revert s e t. induction evs as [|ev evs IH]; intros s e t Hrel.
  { split; [done|]. cbn [snd fst]. destruct (shell_should_exit t); [by apply begin_related|done]. }
  cbn [session_loop replay]. pose proof (edit_key_echo ev s e Hrel) as Hecho.
  destruct (edit_key_spec ev s e Hrel) as (Hrel1 & Hb & _ & Htrue).
  destruct (edit_key ev s) as [[s1 o] b]. destruct (Edit.key ev e) as [e1 b']. cbn [fst snd] in *. subst b o.
  change (mk_term _ _ _) with (shown (echo ev e) t). destruct b'; [|by apply IH].
  unfold run_text. pose proof (re_pos _ _ Hrel1) as Hp. case_bool_decide as Hempty.
  - rewrite Hp, Hempty. cbn [length Z.of_nat Z.ltb Z.compare mbind outcome_bind].
    pose proof (begin_related _ _ Hrel1) as Hbeg. apply Hend; [done|]. intros t'. by apply IH.
  - destruct (Z.ltb_spec 0 (pos s1)) as [_|Hz].
    2: { exfalso. apply Hempty. destruct (Edit.text e1); [done|cbn in Hp; lia]. }
    pose proof (re_line _ _ Hrel1) as Hline. pose proof (re_plain _ _ Hrel1) as (Hpl & _ & _).
    assert (line (hist_add (str_of (line s1)) s1) = line s1) as -> by (unfold hist_add; by destruct (_ <? _)).
    rewrite (ho_text _ _ Hline). unfold exec_line.
    rewrite shell_exec_line_spec by (done || by apply plain_nonzero || by eapply holds_length). cbn [mbind outcome_bind].
    destruct (run_command _ _ _ _ _) as [[r t1]| | |]; [|done..]. cbn [mbind outcome_bind].
    pose proof (push_related _ _ Hrel1) as Hpush. apply Hend; [done|]. intros t'. by apply IH.
Qed.

Lemma heroshell_main_greets evs t :
  heroshell_main fuel stack buf evs t = session_loop fuel stack buf evs (begin_line shell_static) (greeted t).
Proof.
  unfold heroshell_main. assert (pr_level 6 (ln "HeroShell: starting console shell") [] =
    Ok (codes "[INFO]   " ++ ln "HeroShell: starting console shell")) as -> by (vm_compute; reflexivity).
  cbn [mbind outcome_bind]. rewrite print_lines_spec by (apply (bool_decide_unpack _); vm_compute; exact I).
  cbn [mbind outcome_bind]. unfold session. rewrite prompt_shown. cbn [mbind outcome_bind]. f_equal.
  unfold shell_init, shown, greeted, greeting. cbn [t_fs printed shell_should_exit]. f_equal. by rewrite <- !app_assoc.
Qed.

(** ** Typed lines *)

Lemma replay_text l evs rest e t :
  Forall typable l → Forall2 types l evs → (length (Edit.text e) + length l ≤ 1023)%nat →
  replay fuel stack buf (evs ++ rest) e t =
    replay fuel stack buf rest (Edit.mk_state (Edit.text e ++ l) (Edit.saved e) (Edit.nav e) (Edit.hist e)) (shown l t).
Proof.
  intros Hl He. revert e t Hl. induction He as [|c ev l evs Hc _ IH]; intros e t Hl Hlen; cbn [app].
  - rewrite app_nil_r, shown_nil. by destruct e.
  - apply Forall_cons in Hl as [Hc' Hl]. cbn [length] in Hlen. cbn [replay]. unfold echo.
    rewrite (key_typed c ev e Hc' Hc) by lia. destruct Hc as (_ & _ & ->). cbn [andb Edit.text].
    rewrite length_app, drop_app_length. cbn [length].
    replace (length (Edit.text e) - (length (Edit.text e) + 1))%nat with 0%nat by lia. cbn [erased replicate concat app].
    rewrite IH; [|done|cbn [Edit.text]; rewrite length_app; cbn [length]; lia].
    cbn [Edit.text Edit.saved Edit.nav Edit.hist]. by rewrite <- app_assoc, shown_shown.
Qed.

Lemma replay_lines ls evs e t :
  Forall line_ok ls → Forall2 types (concat ((fun l => l ++ [10]) <$> ls)) evs → Edit.text e = [] →
  snd <$> replay fuel stack buf evs e t = transcript fuel stack buf ls t.
Proof.
  intros Hls. revert evs e t. induction Hls as [|l ls [Hne [Hl Hlen]] _ IH]; intros evs e t He Htext.
  { cbn in He. apply Forall2_nil_inv_l in He as ->. done. }
  cbn [fmap list_fmap concat] in He. rewrite <- app_assoc in He.
  apply Forall2_app_inv_l in He as (evs1 & evs2 & H1 & H2 & ->).
  apply Forall2_app_inv_l in H2 as (evs3 & evs4 & H3 & H4 & ->).
  apply Forall2_cons_inv_l in H3 as (ev & evs' & Hev & Hnil & ->). apply Forall2_nil_inv_l in Hnil as ->.
  rewrite (replay_text l evs1 _ e t Hl H1) by (rewrite Htext; cbn; lia). rewrite Htext. cbn [app replay transcript].
  unfold echo. rewrite (key_enter ev _ Hev), shown_shown. unfold run_text. cbn [Edit.text Edit.saved Edit.nav Edit.hist].
  rewrite bool_decide_eq_false_2 by done. destruct (run_command _ _ _ _ _) as [[r t1]| | |]; [|done..].
  cbn [mbind outcome_bind]. destruct (shell_should_exit t1); [done|]. by apply IH.
Qed.
End Refinement.
End Sessions.

(** (C7) A whole session at the console, for every sequence of key events: the shell
    thread prints its banner and a prompt, echoes every key the way the editor on texts
    says (a history key erases the old text and shows the other), runs for every
    completed line the command it stands for on the file system as it is then, keeps
    the 256 latest lines, prints the next prompt or, once a command has asked to exit,
    Goodbye and no more; it goes wrong or fails to return only where that command does. *)
Theorem session_refines {A : Type} (fuel : nat) (stack : term A → dirent) (buf : Z) (evs : list key_event) (t : term A) :
  lifted same_session (heroshell_main fuel stack buf evs t)
    (replay fuel stack buf evs Edit.initial (greeted t)).
Proof. rewrite heroshell_main_greets. apply session_loop_spec, static_related. Qed.

Lemma typed_session_spec {A : Type} (fuel : nat) (stack : term A → dirent) (buf : Z) (t : term A)
    (ls : list (list Z)) (ops : list kbd_op)
    (Hls : Forall line_ok ls) (Hops : irq_bytes ops = concat (type_line <$> ls)) (Hby : Forall op_ok ops)
    (Hroom : never_full ops kbd_static) (Hread : kbd_queue (kbd_run ops kbd_static).2 = []) :
  snd <$> heroshell_main fuel stack buf (omap id (kbd_run ops kbd_static).1) t =
    transcript fuel stack buf ls (greeted t).
Proof.
  pose proof (typed_events ls ops Hls Hops Hby Hroom Hread) as Hevs.
  rewrite heroshell_main_greets, <- (replay_lines fuel stack buf ls _ Edit.initial (greeted t) Hls Hevs eq_refl).
  pose proof (session_loop_spec fuel stack buf (omap id (kbd_run ops kbd_static).1) _ _ (greeted t) static_related) as H.
  destruct (session_loop _ _ _ _ _ _) as [[s t1]| | |], (replay _ _ _ _ _ _) as [[e t2]| | |]; try done; cbn in H.
  - destruct H as [Ht _]. cbn in Ht |- *. by subst.
  - by subst.
  - by subst.
Qed.

(** ** Commands that open no file *)

Definition opens_file (c : command) : bool := match c with Builtin (4 | 5)%nat _ => true | _ => false end.

(** A port has four digits. *)
Definition port_digits (p : Z) : list Z := [48 + p / 1000; 48 + p / 100 mod 10; 48 + p / 10 mod 10; 48 + p mod 10].

(** The port [hero serve] announces for an argument: 7952 and its first character, so
    8000 and the digit for a digit; characters from 128 on count as negative. *)
Definition announced_port (arg : list Z) : Z :=
  match arg with
  | [] => 7952
  | c :: _ => if c <? 128 then 7952 + c else 7696 + c
  end.

Definition hero_reply (argv : list (list Z)) : list Z :=
  match argv with
  | _ :: sub :: rest =>
      if bool_decide (sub = codes "info") then
        concat (ln <$> ["HeroOS v0.1.0 — One OS, Many Platforms"; "Architecture: x86_64"]%string)
      else if bool_decide (sub = codes "serve") then
        codes "HeroServe starting on port " ++
          port_digits (match rest with a :: _ => announced_port a | [] => 8080 end) ++ ln "..."
      else if bool_decide (sub = codes "pkg") then ln "HeroPkg: use 'heropkg install <package>'"
      else codes "hero: unknown subcommand '" ++ sub ++ ln "'"
  | _ => concat (ln <$> ["Usage: hero <subcommand>"; "  hero info   — system info";
           "  hero serve  — start HTTP server"; "  hero pkg    — package manager"]%string)
  end.

(** What a command prints. *)
Definition reply (c : command) : list Z :=
  match c with
  | NoCommand => []
  | NotFound name => name ++ ln ": command not found"
  | Builtin i argv =>
      match i with
      | 0%nat => concat (ln <$>
          ["HeroShell built-in commands:"; "  help                  Show this help";
           "  exit [code]           Exit the shell"; "  echo [args...]        Print arguments";
           "  cd <dir>              Change directory"; "  ls [dir]              List directory contents";
           "  cat <file>            Print file contents"; "  pwd                   Print working directory";
           "  clear                 Clear terminal"; "  hero <subcommand>     HeroOS meta-tool";
           "    hero info           System information"; "    hero serve [port]   Start HeroServe HTTP server";
           "    hero pkg <action>   Package manager"]%string)
      | 1%nat => []
      | 2%nat => spaced (tail argv) ++ [10]
      | 3%nat => ln "cd: not yet implemented"
      | 6%nat => ln "/"
      | 7%nat => [27] ++ codes "[2J" ++ [27] ++ codes "[H"
      | _ => hero_reply argv
      end
  end.

(** The screen behind a prompt. *)
Fixpoint dialogue (ls : list (list Z)) : list Z :=
  match ls with
  | [] => []
  | l :: ls' =>
      l ++ [10] ++ reply (command_of l) ++
        if is_exit (command_of l) then ln "Goodbye!" else SHELL_PROMPT ++ dialogue ls'
  end.

(** The words of a line are made of its characters. *)
Lemma words_chars l w c : w ∈ words l → c ∈ w → c ∈ l.
Proof.
  revert w. induction l as [|x l IH]; intros w Hw Hc; [by apply elem_of_nil in Hw|]. cbn [words] in Hw.
  destruct (is_blank x); [right; by eapply IH|]. destruct l as [|y l'].
  { apply list_elem_of_singleton in Hw as ->. done. }
  destruct (is_blank y).
  { apply elem_of_cons in Hw as [->|Hw]; [apply list_elem_of_singleton in Hc as ->; by left|right; by eapply IH]. }
  destruct (words (y :: l')) as [|w0 ws] eqn:E.
  { apply list_elem_of_singleton in Hw as ->. apply list_elem_of_singleton in Hc as ->. by left. }
  apply elem_of_cons in Hw as [->|Hw]; [|right; eapply IH; [by right|done]].
  apply elem_of_cons in Hc as [->|Hc]; [by left|]. right. eapply IH; [by left|done].
Qed.

Definition port_line (p : Z) : outcome (list Z) := vprintk (codes "HeroServe starting on port %u..." ++ [10]) [AInt p].
Definition port_shown (p : Z) : bool :=
  match port_line p with
  | Ok o => bool_decide (o = codes "HeroServe starting on port " ++ port_digits p ++ ln "...")
  | _ => false
  end.

Lemma all_ports_shown : forallb port_shown (8080 :: ((fun c => serve_port [c]) <$> seqZ 0 256)) = true.
Proof. vm_compute. reflexivity. Qed.

Lemma serve_port_announced a : Forall (fun c => 0 ≤ c < 256) a → serve_port a = announced_port a.
Proof.
  intros [|c l Hc _]; [done|]. cbn beta in Hc. unfold serve_port, announced_port. cbn [head default from_option id].
  destruct (c <? 128) eqn:E; (apply Z.ltb_lt in E || apply Z.ltb_ge in E); unfold wrap16; rewrite Z.mod_small by lia; lia.
Qed.

Lemma port_shown_spec p : p = 8080 ∨ (∃ a, p = serve_port a ∧ Forall (fun c => 0 ≤ c < 256) a) →
  port_line p = Ok (codes "HeroServe starting on port " ++ port_digits p ++ ln "...").
Proof.
  intros Hp. assert (port_shown p = true) as H.
  { pose proof all_ports_shown as H. rewrite forallb_forall in H. apply H, list_elem_of_In.
    destruct Hp as [->|(a & -> & Ha)]; [by left|]. right. apply list_elem_of_fmap.
    exists (default 0 (head a)). split; [done|]. rewrite elem_of_seqZ. destruct Ha as [|c a Hc _]; cbn; lia. }
  unfold port_shown in H. destruct (port_line p) as [o| | |]; try discriminate. by apply bool_decide_eq_true_1 in H as ->.
Qed.

Section Replies.
Context {A : Type}.
Implicit Types t : term A.

(** The terminal after a command. *)
Definition replied (c : command) t : term A :=
  mk_term (t_fs t) (is_exit c || shell_should_exit t) (printed t ++ reply c).

Lemma print_then (ls : list string) (r : Z) t :
  Forall (fun l => Forall (fun c => c ≠ PERCENT) (ln l)) ls →
  (_ ← print_lines ls; mret r) t = Ok (r, shown (concat (ln <$> ls)) t).
Proof. intros Hls. by rewrite (kop_bind_step _ _ _ _ _ (print_lines_spec ls t Hls)). Qed.

Lemma print_one (l : list Z) (r : Z) t :
  Forall (fun c => c ≠ PERCENT) l → (_ ← printk l []; mret r) t = Ok (r, shown l t).
Proof. intros Hl. by rewrite (kop_bind_step _ _ _ _ _ (printk_literal l t Hl)). Qed.

(** No [%] in literals. *)
Ltac literal := apply (bool_decide_unpack _); vm_compute; exact I.

Lemma builtin_hero_spec argv t :
  Forall (Forall (fun c => 0 ≤ c < 256)) argv →
  ∃ r, builtin_hero argv t = Ok (r, shown (hero_reply argv) t).
Proof.
  intros Hargs. unfold builtin_hero, hero_reply.
  destruct argv as [|name [|sub rest]];
    [by eexists; apply print_then; literal..|].
  case_bool_decide; [by eexists; apply print_then; literal|].
  case_bool_decide.
  { apply Forall_cons in Hargs as [_ Hargs]. apply Forall_cons in Hargs as [_ Hargs].
    assert (match rest with a :: _ => announced_port a | [] => 8080 end = match rest with a :: _ => serve_port a | [] => 8080 end) as ->
      by (destruct Hargs as [|a rest Ha _]; [done|by rewrite serve_port_announced]).
    set (p := match rest with a :: _ => serve_port a | [] => 8080 end). exists 0. unfold mbind at 1, kop_bind, printk.
    fold (port_line p). rewrite port_shown_spec; [done|]. unfold p. destruct Hargs as [|a rest Ha _]; [by left|right]. by exists a. }
  case_bool_decide.
  { eexists. apply print_one. literal. }
  exists 1. reflexivity.
Qed.

Lemma run_command_reply fuel stack buf c t :
  opens_file c = false → (∀ i argv, c = Builtin i argv → Forall (Forall (fun x => 0 ≤ x < 256)) argv ∧ argv ≠ []) →
  ∃ r, run_command fuel stack buf c t = Ok (r, replied c t).
Proof.
  intros Hc Hargs. destruct c as [|i argv|name].
  - exists 0. unfold replied. cbn [is_exit reply orb]. by rewrite app_nil_r; destruct t.
  - destruct (Hargs i argv eq_refl) as [Hb Hne]. cbn [run_command].
    destruct i as [|[|[|[|[|[|[|[|i]]]]]]]]; try discriminate; cbn [run_builtin].
    + eexists. apply print_then. literal.
    + exists 0. unfold replied. cbn [is_exit reply orb]. by rewrite app_nil_r.
    + destruct argv as [|name args]; [done|]. eexists. apply builtin_echo_spec.
    + eexists. apply print_one. literal.
    + eexists. apply print_one. literal.
    + eexists. apply print_one. literal.
    + by apply builtin_hero_spec.
  - exists 127. reflexivity.
Qed.

Lemma command_args l i argv :
  Forall typable l → command_of l = Builtin i argv → Forall (Forall (fun x => 0 ≤ x < 256)) argv ∧ argv ≠ [].
Proof.
  intros Hl E. unfold command_of in E. destruct (take 63 (words l)) as [|name args] eqn:Ew; [discriminate|].
  destruct (list_find _ builtins) as [[j x]|]; [|discriminate]. injection E as _ <-. split; [|done]. rewrite <- Ew.
  apply Forall_forall. intros w Hw. apply Forall_forall. intros c Hc. rewrite Forall_forall in Hl.
  assert (c ∈ l) as Hin by (apply (words_chars l w); [apply elem_of_take in Hw as (? & Hw & _); by eapply list_elem_of_lookup_2|done]).
  apply Hl in Hin. unfold typable in Hin. lia.
Qed.

Lemma transcript_dialogue fuel stack buf ls t :
  Forall line_ok ls → Forall (fun c => opens_file c = false) (executed ls) → shell_should_exit t = false →
  transcript fuel stack buf ls t =
    Ok (mk_term (t_fs t) (existsb is_exit (executed ls)) (printed t ++ dialogue ls)).
Proof.
  intros Hls. revert t. induction Hls as [|l ls [_ [Hl _]] _ IH]; intros t Hex Ht; cbn [transcript executed existsb dialogue] in *.
  { rewrite app_nil_r. destruct t. cbn in Ht. by subst. }
  apply Forall_cons in Hex as [Hc Hex].
  destruct (run_command_reply fuel (stack (shown (l ++ [10]) t)) buf (command_of l) (shown (l ++ [10]) t) Hc
    (fun i argv => command_args l i argv Hl)) as [r ->].
  unfold replied. cbn [mbind outcome_bind shell_should_exit shown t_fs printed]. rewrite Ht, orb_false_r.
  destruct (is_exit (command_of l)); cbn [orb existsb].
  - unfold shown. cbn [t_fs printed shell_should_exit]. by rewrite <- !app_assoc.
  - rewrite IH by done. cbn [t_fs printed shown]. by rewrite <- !app_assoc.
Qed.
End Replies.

(** (Property) From the keyboard to the screen: whoever types lines of printable characters,
    each ended with Enter, sees behind the banner exactly the transcript of the session
    (prompt, line, what the command prints, and so on up to Goodbye), and the file system
    is what these commands, in this order, make of it; for every interleaving of the
    keyboard's interrupts with the shell's polls in which the ring of 255 events never
    fills and the shell has read everything. *)
Theorem typed_session {A : Type} (fuel : nat) (stack : term A → dirent) (buf : Z) (t : term A)
    (ls : list (list Z)) (ops : list kbd_op)
    (Hls : Forall line_ok ls) (Hops : irq_bytes ops = concat (type_line <$> ls)) (Hby : Forall op_ok ops)
    (Hroom : never_full ops kbd_static) (Hread : kbd_queue (kbd_run ops kbd_static).2 = []) :
  snd <$> heroshell_main fuel stack buf (omap id (kbd_run ops kbd_static).1) t =
    transcript fuel stack buf ls (greeted t).
Proof. by apply typed_session_spec. Qed.

(** (C8) The shell answers: whoever types lines that open no file gets, for every
    interleaving of interrupts and polls as above, exactly the dialogue of these lines
    (what [help], [echo], [cd], [pwd], [clear], [hero] and an unknown command print is
    given by [reply]) and after [exit] the word Goodbye, whatever is on the stack; the
    thread never fails nor hangs, the file system does not change, and it has ended
    exactly when one of the lines was an [exit]. *)
Theorem session_answers {A : Type} (fuel : nat) (stack : term A → dirent) (buf : Z) (t : term A)
    (ls : list (list Z)) (ops : list kbd_op)
    (Hls : Forall line_ok ls) (Hops : irq_bytes ops = concat (type_line <$> ls)) (Hby : Forall op_ok ops)
    (Hroom : never_full ops kbd_static) (Hread : kbd_queue (kbd_run ops kbd_static).2 = [])
    (Hquiet : Forall (fun c => opens_file c = false) (executed ls)) :
  ∃ s, heroshell_main fuel stack buf (omap id (kbd_run ops kbd_static).1) t =
    Ok (s, mk_term (t_fs t) (existsb is_exit (executed ls)) (printed t ++ greeting ++ SHELL_PROMPT ++ dialogue ls)).
Proof.
  pose proof (typed_session_spec fuel stack buf t ls ops Hls Hops Hby Hroom Hread) as E.
  rewrite transcript_dialogue in E by done. unfold greeted in E. cbn [t_fs printed] in E. rewrite <- !app_assoc in E.
  destruct (heroshell_main _ _ _ _ _) as [[s t']| | |]; try discriminate E. exists s. by injection E as ->.
Qed.

(** ** A concrete session on the disk with the file [/motd] *)

Definition session_lines : list (list Z) := [codes "echo Hi!"; codes "cat /motd"; codes "exit"].
Definition quiet_lines : list (list Z) := [codes "hero serve 9090"; codes "exit"; codes "pwd"].
Definition ops_of (ls : list (list Z)) : list kbd_op := concat ((fun d => [Irq d; Poll]) <$> concat (type_line <$> ls)).

Lemma ops_of_ok ls :
  ls = session_lines ∨ ls = quiet_lines →
  Forall line_ok ls ∧ irq_bytes (ops_of ls) = concat (type_line <$> ls) ∧ Forall op_ok (ops_of ls) ∧
    never_full (ops_of ls) kbd_static ∧ kbd_queue (kbd_run (ops_of ls) kbd_static).2 = [].
Proof.
  intros Hls. split_and!.
  - destruct Hls as [->| ->]; repeat constructor; unfold typable; cbn; (lia || discriminate).
  - by destruct Hls as [->| ->]; vm_compute.
  - by destruct Hls as [->| ->]; apply (bool_decide_unpack _); vm_compute.
  - by destruct Hls as [->| ->]; apply (bool_decide_unpack _); vm_compute.
  - by destruct Hls as [->| ->]; vm_compute.
Qed.

Definition no_dirent : term pmm → dirent := fun _ => ([], 0, 0).

Lemma typed_session_witness :
  irq_bytes (ops_of session_lines) = concat (type_line <$> session_lines) ∧
  printed <$> (snd <$> heroshell_main 2 no_dirent 5000 (omap id (kbd_run (ops_of session_lines) kbd_static).1) motd_term) =
    Ok (greeting ++ codes "hero$ echo Hi!" ++ [10] ++ ln "Hi!" ++
        codes "hero$ cat /motd" ++ [10] ++ codes "AAA" ++ codes "hero$ exit" ++ [10] ++ ln "Goodbye!").
Proof.
  destruct (ops_of_ok session_lines (or_introl eq_refl)) as (H1 & H2 & H3 & H4 & H5). split; [exact H2|].
  rewrite (typed_session 2 no_dirent 5000 motd_term session_lines (ops_of session_lines) H1 H2 H3 H4 H5).
  vm_compute. reflexivity.
Defined.

Lemma session_answers_witness :
  executed quiet_lines = [Builtin 8 [codes "hero"; codes "serve"; codes "9090"]; Builtin 1 [codes "exit"]] ∧
  ∃ s, heroshell_main 0 no_dirent 0 (omap id (kbd_run (ops_of quiet_lines) kbd_static).1) motd_term =
    Ok (s, mk_term (t_fs motd_term) true (greeting ++ codes "hero$ hero serve 9090" ++ [10] ++
        ln "HeroServe starting on port 8009..." ++ codes "hero$ exit" ++ [10] ++ ln "Goodbye!")).
Proof.
  split; [vm_compute; reflexivity|]. destruct (ops_of_ok quiet_lines (or_intror eq_refl)) as (H1 & H2 & H3 & H4 & H5).
  destruct (session_answers 0 no_dirent 0 motd_term quiet_lines (ops_of quiet_lines) H1 H2 H3 H4 H5) as [s E].
  { repeat constructor. }
  exists s. rewrite E. vm_compute. reflexivity.
Defined.
