(* ===== verification/Boot.v ===== *)
(** * kernel/kmain.c and userspace/init/init.c: bringing the system up

    [kmain] runs the initialisation of every component on one machine; [init_main]
    is the first process.  The components share one heap and one memory: those of
    the process system.  [boot_fs] and [boot_fb] are the file system and the frame
    buffer as seen on that heap and that memory.

    The addresses of the static objects and of the assembly stubs are the fields
    of [statics].  Interrupts are off until the last step of [kmain], so nothing
    interleaves with it. *)
From S2P Require Import Prelude Mem LibString PageAlloc Pmm Kheap Paging Process Fs Keyboard Driver Rtc PortIO Serial Gdt Idt Font Framebuffer Syscall Interrupts.

Record statics : Type := mk_statics {
  st_gdt : Z; st_tss : Z; st_idt : Z;
  st_isr : Z → Z; st_irq : Z → Z;
  pit_handler : Z; kbd_handler : Z;
  st_tmpfs : Z; kbd_driver : Z; fb_driver : Z;
  idle_task : Z; init_main_addr : Z; heroshell_main : Z; heroserve_main : Z;
}.

(** The whole machine. *)
Record boot (A : Type) : Type := mk_boot {
  bt_machine : machine A;
  bt_fs : fs A;
  bt_fb : fb;
  bt_gdt : gdt_state;
  bt_drivers : registry;
  bt_irqs_on : bool;
}.
Arguments mk_boot {A}.
Arguments bt_machine {A}.
Arguments bt_fs {A}.
Arguments bt_fb {A}.
Arguments bt_gdt {A}.
Arguments bt_drivers {A}.
Arguments bt_irqs_on {A}.

Definition kpanic {S X} (msg : string) : kop S X := fun _ => Panic msg.

Section State.
Context {A : Type}.
Implicit Types b : boot A.

Definition boot_sys b : sys A := k_sys (m_kern (bt_machine b)).
Definition boot_heap b : kheap A := mm_heap (sys_mmu (boot_sys b)).
Definition boot_fs b : fs A := fs_with_heap (boot_heap b) (bt_fs b).
Definition boot_fb b : fb := fb_with_mem (kh_mem (boot_heap b)) (bt_fb b).

Definition put_machine (x : machine A) b : boot A :=
  mk_boot x (bt_fs b) (bt_fb b) (bt_gdt b) (bt_drivers b) (bt_irqs_on b).
Definition put_sys (x : sys A) b : boot A :=
  put_machine (put_kern (with_sys x (m_kern (bt_machine b))) (bt_machine b)) b.
Definition put_heap (h : kheap A) b : boot A :=
  put_sys (with_mmu (on_heap (fun _ => h) (sys_mmu (boot_sys b))) (boot_sys b)) b.
Definition put_boot_cpu (c : cpu) b : boot A := put_machine (put_cpu c (bt_machine b)) b.
Definition put_fs (f : fs A) b : boot A :=
  put_heap (fs_heap f) (mk_boot (bt_machine b) f (bt_fb b) (bt_gdt b) (bt_drivers b) (bt_irqs_on b)).
Definition put_fb (f : fb) b : boot A :=
  put_heap (with_mem (fun _ => fb_mem f) (boot_heap b))
    (mk_boot (bt_machine b) (bt_fs b) f (bt_gdt b) (bt_drivers b) (bt_irqs_on b)).
Definition put_gdt (g : gdt_state) b : boot A :=
  mk_boot (bt_machine b) (bt_fs b) (bt_fb b) g (bt_drivers b) (bt_irqs_on b).
Definition put_drivers (r : registry) b : boot A :=
  mk_boot (bt_machine b) (bt_fs b) (bt_fb b) (bt_gdt b) r (bt_irqs_on b).
Definition irq_enable b : boot A :=
  mk_boot (bt_machine b) (bt_fs b) (bt_fb b) (bt_gdt b) (bt_drivers b) true.

(** Running a component's operation on its part of the machine. *)
Definition on_cpu (f : cpu → cpu) b : boot A := put_boot_cpu (f (m_cpu (bt_machine b))) b.
Definition on_boot_ports {X} : kop ports X → kop (boot A) X :=
  kzoom (fun b => cpu_ports (m_cpu (bt_machine b))) (fun p b => on_cpu (with_ports p) b).
Definition on_fs {X} : kop (fs A) X → kop (boot A) X := kzoom boot_fs put_fs.
Definition on_boot_sys {X} : kop (sys A) X → kop (boot A) X := kzoom boot_sys put_sys.
Definition enqueue (p : Z) : kop (sys A) unit := fun s => s ← sched_add p s; Ok (tt, s).
Definition modify (f : boot A → boot A) : kop (boot A) unit := fun b => Ok (tt, f b).
End State.

(** ** kmain.c *)

Definition MB2_TAG_FRAMEBUFFER : Z := 8.

Fixpoint find_tag_loop (fuel : nat) (m : mem) (p stop tag_type : Z) : outcome Z :=
  match fuel with
  | O => Diverge
  | S fuel' =>
      if negb (p <? stop) then Ok 0
      else if load32 m p =? 0 then Ok 0
      else if load32 m p =? tag_type then Ok p
      else find_tag_loop fuel' m (p + ALIGN_UP32 (load32 m (p + 4)) 8) stop tag_type
  end.

(** The address of the tag, 0 for NULL. *)
Definition mb2_find_tag (fuel : nat) (m : mem) (mb2_phys tag_type : Z) : outcome Z :=
  if mb2_phys =? 0 then Ok 0
  else find_tag_loop fuel m (mb2_phys + 8) (mb2_phys + load32 m mb2_phys) tag_type.

(** The fields of [mb2_fb_tag_t]. *)
Definition fb_info_of_tag (m : mem) (tag : Z) : fb_info :=
  mk_fb_info (load64 m (tag + 8)) (load32 m (tag + 16)) (load32 m (tag + 20)) (load32 m (tag + 24))
    (load8 m (tag + 28)) (load8 m (tag + 29)).

Section Kmain.
Context (dev : nat → Z → Z) (st : statics).

(** The port writes and the registration of [pit_init]. *)
Definition boot_pit (hz : Z) (b : boot pmm) : boot pmm :=
  let b := on_cpu (fun c => with_ports
    (fold_left (fun p e => logged (Out (fst e) (snd e)) p) (pit_init hz) (cpu_ports c)) c) b in
  on_cpu (irq_register_handler 0 (pit_handler st)) b.

(** Step 8. *)
Definition boot_filesystem (fuel : nat) : kop (boot pmm) unit :=
  root ← on_fs (fun f => tmpfs_create_root fuel (tmpfs_register (st_tmpfs st) (vfs_init f)));
  if root =? 0 then kpanic "Failed to create root filesystem"
  else
    _ ← on_fs (fun f => Ok (vfs_mount (Some (codes "/")) root f));
    mret tt.

(** "Check for framebuffer from MB2". *)
Definition boot_framebuffer (fuel : nat) (mb2 : Z) : kop (boot pmm) unit := fun b =>
  let m := kh_mem (boot_heap b) in
  tag ← mb2_find_tag fuel m mb2 MB2_TAG_FRAMEBUFFER;
  if (tag =? 0) || (load64 m (tag + 8) =? 0) then Ok (tt, b)
  else Ok (tt, put_fb (fb_term_init (fb_init (fb_info_of_tag m tag) (boot_fb b))) b).

(** The static driver objects, and their registration. *)
Definition keyboard_driver : driver := mk_driver (codes "ps2-keyboard") DRIVER_INPUT DRIVER_UNLOADED (Some 0) 0.
Definition framebuffer_driver : driver := mk_driver (codes "framebuffer") DRIVER_DISPLAY DRIVER_UNLOADED (Some 0) 0.
Definition keyboard_driver_register : registry → outcome registry := driver_register (kbd_driver st).
Definition framebuffer_driver_register : registry → outcome registry := driver_register (fb_driver st).

(** The effect of the keyboard's probe, which returns 0. *)
Definition keyboard_probe (b : boot pmm) : boot pmm := on_cpu (irq_register_handler 1 (kbd_handler st)) b.

(** [drivers_probe_all], with the two probe functions: a driver's [d_probe] is the
    value its probe returns, which for the frame buffer depends on step 9. *)
Definition boot_probe (fuel : nat) : kop (boot pmm) unit := fun b =>
  let '(ret, f) := fb_probe (bt_fb b) in
  x ← driver_at (bt_drivers b) (fb_driver st);
  let r := put_driver (fb_driver st) (mk_driver (d_name x) (d_type x) (d_state x) (Some ret) (d_next x)) (bt_drivers b) in
  '(_, _, r) ← drivers_probe_all fuel r;
  let b := put_drivers r b in
  let b := mk_boot (bt_machine b) (bt_fs b) f (bt_gdt b) (bt_drivers b) (bt_irqs_on b) in
  Ok (tt, keyboard_probe b).

(** Step 12: the first process. *)
Definition boot_init_process (fuel : nat) : kop (boot pmm) unit :=
  p ← on_boot_sys (proc_create_kernel_thread fuel (Some "init"%string) (init_main_addr st));
  if p =? 0 then kpanic "Failed to create init process"
  else on_boot_sys (enqueue p).

Definition kmain (fuel : nat) (mb2 : Z) : kop (boot pmm) unit :=
  _ ← on_boot_ports serial_early_init;
  _ ← modify (fun b => put_gdt (gdt_init (st_gdt st) (st_tss st) (bt_gdt b)) b);
  _ ← kzoom (fun b => m_cpu (bt_machine b)) put_boot_cpu (idt_init dev (st_isr st) (st_irq st) (st_idt st));
  _ ← (fun b => p ← pmm_init fuel (kh_mem (boot_heap b)) mb2 (kh_pages (boot_heap b));
               Ok (tt, put_heap (with_pages p (boot_heap b)) b));
  _ ← kzoom boot_heap put_heap (kheap_init fuel 33554432 67108864);
  _ ← modify (boot_pit 1000);
  _ ← boot_filesystem fuel;
  _ ← (fun b => r ← keyboard_driver_register (bt_drivers b);
               r ← framebuffer_driver_register r; Ok (tt, put_drivers r b));
  _ ← boot_framebuffer fuel mb2;
  _ ← boot_probe fuel;
  _ ← on_boot_sys (proc_init (idle_task st));
  _ ← modify (fun b => put_sys (sched_init (boot_sys b)) b);
  _ ← modify (fun b => put_machine (put_kern (syscall_init (m_kern (bt_machine b))) (bt_machine b)) b);
  _ ← boot_init_process fuel;
  modify irq_enable.

(** The machine as the boot loader leaves it: the static data of the kernel, and
    memory [m]. *)
Definition static_registry : registry :=
  mk_registry (<[kbd_driver st := keyboard_driver]> (<[fb_driver st := framebuffer_driver]> ∅)) 0.

Definition power_on (m : mem) (c3 : Z) (p : ports) : boot pmm :=
  let heap := mk_kheap m pmm_static 0 0 0 0 in
  mk_boot
    (mk_machine (mk_kern (mk_sys ∅ (replicate 1024 0) 1 (mk_rq 0 0 0 0 0) [] (mk_mmu heap c3 [])) []
       (replicate 128 None)) kbd_static 0 (mk_cpu (replicate 256 zero_gate) (replicate 16 0) (0, 0) p) ∅)
    (mk_fs heap ∅ 1 0 [] []) (fb_static m)
    (mk_gdt_state (replicate 7 (mk_gdt_entry 0 0 0 0 0 0)) zero_tss (0, 0) 0) static_registry false.
End Kmain.

(** ** init.c *)

Section Init.
Context (st : statics).

Definition init_dirs : list (list Z * Z) :=
  [(codes "/tmp", 511); (codes "/dev", 493); (codes "/bin", 493); (codes "/proc", 365);
   (codes "/home", 493); (codes "/etc", 493); (codes "/var", 493)].

Fixpoint make_dirs (fuel : nat) (ds : list (list Z * Z)) : kop (fs pmm) (list Z) :=
  match ds with
  | [] => mret []
  | (path, mode) :: ds' =>
      r ← vfs_mkdir fuel path mode;
      rs ← make_dirs fuel ds';
      mret (r :: rs)
  end.

Definition motd_text : list Z :=
  codes "Welcome to HeroOS — One OS, Many Platforms." ++ [10] ++ codes "Type 'help' to get started." ++ [10].

(** [msg] is the address of the literal. *)
Definition init_filesystem (fuel : nat) (msg : Z) : kop (fs pmm) (list Z) :=
  rs ← make_dirs fuel init_dirs;
  motd ← vfs_open (Some (codes "/etc/motd"));
  if motd =? 0 then mret rs
  else
    _ ← vfs_write fuel motd 0 (Z.of_nat (length motd_text)) msg;
    _ ← vfs_close motd;
    mret rs.

Record service : Type := mk_service {
  svc_name : string; svc_entry : Z; autostart : bool; running : bool; svc_pid : Z;
}.

Definition services : list service :=
  [mk_service "heroshell" (heroshell_main st) true false 0;
   mk_service "heroserved" (heroserve_main st) false false 0].

Definition start_service (fuel : nat) (svc : service) : kop (sys pmm) service :=
  if running svc then mret svc
  else
    p ← proc_create_kernel_thread fuel (Some (svc_name svc)) (svc_entry svc);
    if p =? 0 then mret svc
    else
      _ ← enqueue p;
      x ← (fun s => x ← deref p s; Ok (x, s)) : kop (sys pmm) process;
      mret (mk_service (svc_name svc) (svc_entry svc) (autostart svc) true (pid x)).

Fixpoint start_services (fuel : nat) (l : list service) : kop (sys pmm) (list service) :=
  match l with
  | [] => mret []
  | svc :: l' =>
      svc ← (if autostart svc then start_service fuel svc else mret svc);
      l' ← start_services fuel l';
      mret (svc :: l')
  end.

(** [init_main] up to its reaper loop, which only sleeps. *)
Definition init_main (fuel : nat) (msg : Z) : kop (boot pmm) (list Z * list service) :=
  rs ← on_fs (init_filesystem fuel msg);
  l ← on_boot_sys (start_services fuel services);
  mret (rs, l).
End Init.
