(* ===== verification/CreditSpec.v ===== *)
(** * Operations that cannot fail while there is credit

    The cost of creating processes and directories, in pages and in bytes of the
    heap. *)
From S2P Require Import Prelude Mem LibString PageAlloc Pmm Kheap KheapInv KheapSpec KmallocSpec HeapCredit.
From S2P Require Import Paging Process ProcessSpec SchedSpec ProcCreateSpec Fs FsSpec.

Section Pays.
Context {A : Type} `{PageAllocSpec A, !PageAllocRoom A}.

(** ** Processes *)

(** No slot of the process table is free. *)
Definition table_full (s : sys A) : Prop := ∀ j, 1 ≤ j < MAX_PROCESSES → proc_table s !!! Z.to_nat j ≠ 0.


Definition SPACE_COST : Z := 120.
Definition STACK_PAGES : Z := KERNEL_STACK_SIZE / PAGE_SIZE.

Lemma vmm_create_pays fuel (m : mmu A) bs n N :
  kheap_inv (mm_heap m) bs → (length bs + 3 ≤ fuel)%nat → 0 ≤ n → 0 ≤ N →
  credited (n + 1) (N + SPACE_COST) (mm_heap m) →
  ∃ as_ m', vmm_create_address_space fuel m = Ok (as_, m') ∧ credited n N (mm_heap m').
Proof.
  intros Hi Hf Hn HN Hc.
  destruct (kmalloc_pays fuel 32 (n + 1) N (mm_heap m) bs Hi ltac:(lia) Hf HN Hc) as (p & h & E & Hp & Hc1).
  pose proof (kmalloc_spec fuel 32 (mm_heap m) bs Hi ltac:(lia) Hf) as Hk. rewrite E in Hk.
  destruct Hk as [(-> & _)|(b & -> & Hal & _)]; [done|].
  destruct (allocated_grows _ _ _ _ _ _ Hal) as (bs' & Hg & Hb & Hs & _ & _).
  destruct (credited_page n N h Hn Hc1) as (phys & a' & Ep & Hc2).
  pose proof (alloc_page_spec (kh_pages h) (ki_pages _ _ (hg_inv _ _ _ _ _ Hg))) as Hpg. rewrite Ep in Hpg.
  unfold vmm_create_address_space. rewrite E. cbn [mbind outcome_bind]. destruct (Z.eqb_spec (b_data b) 0); [done|].
  change (mm_pages (on_heap _ m)) with (kh_pages h). rewrite Ep. cbn [mbind outcome_bind]. eexists _, _. split; [done|].
  eapply credited_same; [exact Hc2|apply (grabbed_grows _ _ _ _ _ (hg_inv _ _ _ _ _ Hg) Hpg)| |reflexivity].
  apply (space_written_grows _ _ _ _ _ (memset phys 0 PAGE_SIZE) (hg_inv _ _ _ _ _ Hg) Hpg Hb).
  - lia.
  - apply memset_bytes, (hg_inv _ _ _ _ _ Hg).
  - intros x Hx. apply memset_out; unfold PAGE_SIZE; lia.
Qed.

Definition PROC_PAGES : Z := STACK_PAGES + 1.
Definition PROC_COST : Z := PROCESS_SIZEOF + 88 + SPACE_COST.

Lemma proc_create_pays fuel pname entry pflags prio (s : sys A) bs n N j :
  kheap_inv (mm_heap (sys_mmu s)) bs → (length bs + 5 ≤ fuel)%nat → 0 ≤ n → 0 ≤ N →
  proc_current s = 0 ∨ is_Some (procs s !! proc_current s) →
  1 ≤ j < MAX_PROCESSES → proc_table s !!! Z.to_nat j = 0 →
  credited (n + PROC_PAGES) (N + PROC_COST) (mm_heap (sys_mmu s)) →
  ∃ p s', proc_create fuel pname entry pflags prio s = Ok (p, s') ∧ p ≠ 0 ∧ credited n N (mm_heap (sys_mmu s')).
Proof.
  intros Hi Hf Hn HN Hcur Hj Hj0 Hc. set (i := free_slot (proc_table s)).
  assert (1 ≤ i < 1024) as Hir.
  { unfold i. destruct (free_slot_spec (proc_table s)) as [[? _]|[_ Hfull]]; [done|]. by destruct (Hfull j Hj). }
  destruct (kcalloc_pays fuel 1 PROCESS_SIZEOF (n + PROC_PAGES) (N + SPACE_COST) (mm_heap (sys_mmu s)) bs Hi) as (p & h & E & Hp & Hc1);
    [unfold PROCESS_SIZEOF; lia|lia|unfold SPACE_COST; lia| |].
  { eapply credited_weaken; [exact Hc|]. change (cost (1 * PROCESS_SIZEOF)) with (PROCESS_SIZEOF + 88). unfold PROC_COST. lia. }
  pose proof (kcalloc_spec fuel 1 PROCESS_SIZEOF (mm_heap (sys_mmu s)) bs Hi
    ltac:(unfold PROCESS_SIZEOF; lia) ltac:(lia)) as Hk. rewrite E in Hk.
  destruct Hk as [(-> & _)|(b & Hpb & _ & Hal & _)]; [done|].
  destruct (allocated_grows _ _ _ _ _ _ Hal) as (bs1 & Hg1 & _). pose proof (hg_len _ _ _ _ _ Hg1) as Hlen.
  unfold proc_create. fold i. destruct (Z.ltb_spec i 0); [lia|]. rewrite E. cbn [mbind outcome_bind].
  destruct (Z.eqb_spec p 0); [done|]. set (s1 := with_mmu _ s).
  assert (∃ parent, (if proc_current s1 =? 0 then Ok 0
    else x ← deref (proc_current s1) s1; Ok (pid x)) = Ok parent) as [parent ->].
  { change (proc_current s1) with (proc_current s).
    destruct (Z.eqb_spec (proc_current s) 0); [by eexists|].
    destruct Hcur as [|[x Hx]]; [done|]. rewrite (deref_ok s1 _ x Hx). by eexists. }
  cbn [mbind outcome_bind]. change (mm_pages (sys_mmu s1)) with (kh_pages h).
  replace (n + PROC_PAGES) with ((n + 1) + KERNEL_STACK_SIZE / PAGE_SIZE) in Hc1 by (unfold PROC_PAGES, STACK_PAGES; lia).
  destruct (credited_pages (n + 1) (KERNEL_STACK_SIZE / PAGE_SIZE) _ h ltac:(lia) ltac:(by unfold KERNEL_STACK_SIZE, PAGE_SIZE) Hc1)
    as (stack & pa & Es & Hc2). rewrite Es. cbn [mbind outcome_bind].
  set (m2 := on_heap (with_pages pa) (sys_mmu s1)). change (sys_mmu (with_mmu m2 s1)) with m2.
  pose proof (alloc_pages_spec (KERNEL_STACK_SIZE / PAGE_SIZE) (kh_pages h) (ki_pages _ _ (hg_inv _ _ _ _ _ Hg1))
    ltac:(by unfold KERNEL_STACK_SIZE, PAGE_SIZE)) as Hg. rewrite Es in Hg.
  destruct (vmm_create_pays fuel m2 bs1 n N) as (as_ & m3 & Ev & Hc3); [|lia|done|done|exact Hc2|].
  { apply (grabbed_grows _ _ _ _ _ (hg_inv _ _ _ _ _ Hg1) Hg). }
  rewrite Ev. cbn [mbind outcome_bind]. unfold MAX_PROCESSES. destruct (Z.leb_spec 1024 i); [lia|].
  eexists _, _. split; [reflexivity|]. by split.
Qed.

Lemma proc_init_pays idle (s : sys A) n N :
  0 ≤ n → credited (n + STACK_PAGES) N (mm_heap (sys_mmu s)) →
  ∃ s', proc_init idle s = Ok (tt, s') ∧ credited n N (mm_heap (sys_mmu s')).
Proof.
  intros Hn Hc. destruct (credited_pages n STACK_PAGES N _ Hn ltac:(done) Hc) as (stack & pa & Es & Hc2).
  unfold proc_init. change (KERNEL_STACK_SIZE / PAGE_SIZE) with STACK_PAGES. change (mm_pages (sys_mmu s)) with (kh_pages (mm_heap (sys_mmu s))). rewrite Es. by eexists.
Qed.

(** ** Directories *)

Definition DIR_COST : Z := TMPFS_INODE_SIZEOF + 88.

Lemma tmpfs_mount_pays fuel (s : fs A) bs n N :
  kheap_inv (fs_heap s) bs → (length bs + 3 ≤ fuel)%nat → 0 ≤ N → credited n (N + DIR_COST) (fs_heap s) →
  ∃ root s', tmpfs_mount fuel s = Ok (root, s') ∧ root ≠ 0 ∧ credited n N (fs_heap s').
Proof.
  intros Hi Hf HN Hc.
  destruct (kcalloc_pays fuel 1 TMPFS_INODE_SIZEOF n N (fs_heap s) bs Hi) as (p & h & E & Hp & Hc1);
    [unfold TMPFS_INODE_SIZEOF; lia|lia|done|exact Hc|].
  unfold tmpfs_mount. rewrite E. cbn [mbind outcome_bind]. destruct (Z.eqb_spec p 0); [done|]. by eexists _, _.
Qed.

Lemma vfs_mkdir_pays fuel comps name mode (s : fs A) bs parent p n N :
  fs_wf s bs → vfs_root s ≠ 0 → creatable comps name → walk (inodes s) (vfs_root s) comps = Some parent →
  inodes s !! parent = Some p → Z.of_nat (length (i_children p)) < TMPFS_MAX_CHILDREN →
  (length bs + 3 ≤ fuel)%nat → 0 ≤ N → credited n (N + DIR_COST) (fs_heap s) →
  ∃ s', vfs_mkdir fuel (path_body (comps ++ [name])) mode s = Ok (0, s') ∧ credited n N (fs_heap s').
Proof.
  intros Hwf Hroot Hpath Hparent Hp Hroom Hf HN Hc. rewrite (vfs_mkdir_parent fuel comps name mode s bs parent p) by done.
  unfold tmpfs_mkdir, inode_at. rewrite Hp. cbn [mbind outcome_bind].
  destruct (Z.leb_spec TMPFS_MAX_CHILDREN (Z.of_nat (length (i_children p)))); [lia|].
  destruct (kcalloc_pays fuel 1 TMPFS_INODE_SIZEOF n N (fs_heap s) bs (fw_heap _ _ Hwf)) as (c & h & E & Hp' & Hc1);
    [unfold TMPFS_INODE_SIZEOF; lia|lia|done|exact Hc|].
  rewrite E. cbn [mbind outcome_bind]. destruct (Z.eqb_spec c 0); [done|]. by eexists.
Qed.

(** (C26) Creating a process on a well-formed heap.  With a free slot in the table and
    enough memory (five pages and a free block of 2576 bytes) it succeeds: it registers a
    READY process in the lowest free slot, with that slot as its pid, its entry point and
    a 16 KiB stack in its context, and every other process unchanged.  In general it may
    instead return NULL, leaving the processes as they are, or panic for want of a page.
    When no slot is free the check of the (unsigned) pid cannot catch it and the code
    stores outside [proc_table]; only then does it go wrong. *)
Theorem proc_create_correct (fuel : nat) (pname : option string) (entry pflags prio : Z) (s : sys A)
    (bs : list blk) (Hheap : kheap_inv (mm_heap (sys_mmu s)) bs)
    (Hfuel : (length bs + 5 ≤ fuel)%nat)
    (Hcur : proc_current s = 0 ∨ is_Some (procs s !! proc_current s)) :
  match proc_create fuel pname entry pflags prio s with
  | Ok (p, s') =>
      (p = 0 ∧ procs s' = procs s ∧ proc_table s' = proc_table s) ∨
      (p ≠ 0 ∧ created (free_slot (proc_table s)) p entry pflags prio pname s s')
  | Panic _ => ¬ credited PROC_PAGES PROC_COST (mm_heap (sys_mmu s)) ∨ table_full s
  | Undef _ => table_full s
  | Diverge => False
  end ∧
  (¬ table_full s → credited PROC_PAGES PROC_COST (mm_heap (sys_mmu s)) →
   ∃ p s', proc_create fuel pname entry pflags prio s = Ok (p, s') ∧ p ≠ 0 ∧
     created (free_slot (proc_table s)) p entry pflags prio pname s s').
Proof.
  pose proof (proc_create_spec fuel pname entry pflags prio s bs Hheap Hfuel Hcur) as Hc.
  assert (¬ table_full s → credited PROC_PAGES PROC_COST (mm_heap (sys_mmu s)) →
    ∃ p s', proc_create fuel pname entry pflags prio s = Ok (p, s') ∧ p ≠ 0) as Hpays.
  { intros Hslot Hcr. destruct (free_slot_spec (proc_table s)) as [(Hi & Hi0 & _)|[_ Hfull]]; [|done].
    destruct (proc_create_pays fuel pname entry pflags prio s bs 0 0 _ Hheap Hfuel ltac:(lia) ltac:(lia) Hcur Hi Hi0 Hcr)
      as (p & s' & E & Hp & _). by exists p, s'. }
  split.
  - destruct (proc_create _ _ _ _ _ _) as [[p s']| | |]; [|destruct (free_slot_spec (proc_table s)) as [(Hi & Hi0 & _)|[_ Hfull]]; [left|by right]|done..].
    + destruct Hc as (bs' & _ & [(-> & ? & ? & _)|(? & ? & _)]); [by left|by right].
    + intros Hcr. destruct Hpays as (p & s' & ? & _); [|exact Hcr|done]. intros Hfull. by apply (Hfull _ Hi).
  - intros Hslot Hcr. destruct (Hpays Hslot Hcr) as (p & s' & E & Hp). exists p, s'. rewrite E in Hc.
    destruct Hc as (_ & _ & [(-> & _)|(_ & Hcr' & _)]); [done|]. by split_and!.
Qed.
End Pays.

(** ** A process on a system with memory left: eight free pages and the free block of
    [sample_heap] *)

Definition roomy_pmm : pmm := pmm_mark_free 4194304 32768 (pmm_reset pmm_static).
Definition roomy_heap : kheap pmm := mk_kheap (kh_mem sample_heap) roomy_pmm 1048576 1048576 1052672 2097152.
Definition roomy_sys : sys pmm := with_mmu (mk_mmu roomy_heap 20480 []) sample_sys.

Lemma roomy_inv : pmm_inv roomy_pmm.
Proof. apply mark_free_spec; [|unfold is_u64; lia..]. apply reset_inv. unfold PMM_MAX_PAGES. cbn. lia. Qed.

Lemma roomy_heap_inv : kheap_inv roomy_heap sample_blocks.
Proof.
  pose proof sample_heap_inv as [H1 H2 H3 H4 H5 H6].
  assert (∀ b, 1048576 ≤ b_addr b → b_end b ≤ 1052672 → owned roomy_pmm b) as Ho.
  { intros b Hlo Hhi x Hx. replace (x / PAGE_SIZE) with 256; [by vm_compute|]. unfold PAGE_SIZE. Z.div_mod_to_equations; lia. }
  split; [exact H1|exact H2|exact H3| |exact roomy_inv|by vm_compute].
  repeat constructor; apply Ho; unfold b_end; cbn [b_addr b_size]; lia.
Qed.

Lemma roomy_credit : credited PROC_PAGES PROC_COST roomy_heap.
Proof.
  split.
  - split; [exact roomy_inv|]. exists 1024. split; [by vm_compute|]. split; [by vm_compute|].
    intros q Hq. assert (PROC_PAGES = 5) as E by reflexivity. rewrite E in Hq.
    assert (q = 1024 ∨ q = 1025 ∨ q = 1026 ∨ q = 1027 ∨ q = 1028) as Hc by lia.
    destruct Hc as [->|[->|[->|[->| ->]]]]; by vm_compute.
  - exists sample_blocks, (mk_blk 1048696 3920 true). split; [exact roomy_heap_inv|]. split; [right; by left|]. by split.
Qed.

Lemma roomy_sys_heap : mm_heap (sys_mmu roomy_sys) = roomy_heap.
Proof. reflexivity. Qed.

Lemma roomy_slot : free_slot (proc_table roomy_sys) = 4.
Proof. by vm_compute. Qed.

Lemma roomy_current : is_Some (procs roomy_sys !! proc_current roomy_sys).
Proof. unfold roomy_sys. cbn [procs proc_current with_mmu sample_sys]. eexists. reflexivity. Qed.

Lemma roomy_not_full : ¬ table_full roomy_sys.
Proof.
  destruct (free_slot_spec (proc_table roomy_sys)) as [(Hi & Hi0 & _)|[E _]].
  - intros Hfull. by apply (Hfull _ Hi).
  - rewrite roomy_slot in E. discriminate E.
Qed.

Lemma proc_create_correct_witness :
  ∃ p s', proc_create 8 (Some "init"%string) 65536 1 10 roomy_sys = Ok (p, s') ∧ p ≠ 0 ∧
    created 4 p 65536 1 10 (Some "init"%string) roomy_sys s'.
Proof.
  pose proof (proc_create_correct 8 (Some "init"%string) 65536 1 10 roomy_sys sample_blocks
    roomy_heap_inv ltac:(cbn; lia) (or_intror roomy_current)) as Hk.
  rewrite roomy_sys_heap, roomy_slot in Hk. destruct Hk as [_ Hk].
  apply Hk; [exact roomy_not_full|exact roomy_credit].
Defined.
