(* ===== verification/BootSpec.v ===== *)
(** * Properties of the boot sequence

    [mb2_find_tag] finds the first tag of a type.  [wp R m s Q]: the operation [m] on
    [s] returns with [Q], or stops in a kernel panic and then [R]. *)
From S2P Require Import Prelude Mem LibString PageAlloc Pmm Kheap KheapInv KheapSpec KmallocSpec Paging Process ProcessSpec SchedSpec ProcCreateSpec HeapCredit.
From S2P Require Import Fs FsSpec Keyboard Driver Rtc PortIO Serial Gdt Idt Font Framebuffer FramebufferSpec Syscall SyscallSpec Interrupts Boot CreditSpec.

(** ** Operations that may panic *)

(** [R] is what a panic means. *)
Definition wp {S X} (R : Prop) (m : kop S X) (s : S) (Q : X → S → Prop) : Prop :=
  match m s with Ok (x, s') => Q x s' | Panic _ => R | _ => False end.

Section Wp.
Context {S : Type} (R : Prop).
Implicit Types (s : S).

Lemma wp_mono {X} (m : kop S X) s (Q Q' : X → S → Prop) :
  wp R m s Q → (∀ x s', Q x s' → Q' x s') → wp R m s Q'.
Proof. unfold wp. intros H HQ. destruct (m s) as [[x s']| | |]; auto. Qed.

Lemma wp_bind {X Y} (m : kop S X) (f : X → kop S Y) s Q :
  wp R m s (fun x s' => wp R (f x) s' Q) → wp R (m ≫= f) s Q.
Proof. unfold wp, mbind, kop_bind. destruct (m s) as [[x s']| | |]; auto. Qed.

Lemma wp_step {X Y} (m : kop S X) (f : X → kop S Y) s (P : X → S → Prop) Q :
  wp R m s P → (∀ x s', P x s' → wp R (f x) s' Q) → wp R (m ≫= f) s Q.
Proof. intros H HP. apply wp_bind. by eapply wp_mono. Qed.

Lemma wp_zoom {T X} (get : S → T) (put : T → S → S) (m : kop T X) s Q :
  wp R m (get s) (fun x t => Q x (put t s)) → wp R (kzoom get put m) s Q.
Proof. unfold wp, kzoom. destruct (m (get s)) as [[x t]| | |]; auto. Qed.

Lemma wp_ret {X} (x : X) s (Q : X → S → Prop) : Q x s → wp R (mret x) s Q.
Proof. done. Qed.

Lemma wp_ok {X} (m : kop S X) s x s' (Q : X → S → Prop) : m s = Ok (x, s') → Q x s' → wp R m s Q.
Proof. unfold wp. by intros ->. Qed.

(** What is known of a run that may panic, and that it does not panic unless [R]. *)
Lemma wp_pays {X} (m : kop S X) s (Q Q' : X → S → Prop) :
  wp True m s Q → R ∨ (∃ x s', m s = Ok (x, s') ∧ Q' x s') →
  wp R m s (fun x s' => Q x s' ∧ (R ∨ Q' x s')).
Proof.
  unfold wp. destruct (m s) as [[x s']| | |]; [|by intros _ [|(x & s' & [=] & _)]|done..].
  intros HQ [|(x' & s1 & [= <- <-] & HQ')]; auto.
Qed.
End Wp.

Lemma wp_not {S X} (E : Prop) (m : kop S X) s Q : wp True m s Q → (E → wp False m s Q) → wp (¬ E) m s Q.
Proof. unfold wp. by destruct (m s) as [[x s']| | |]. Qed.

(** A panic is excluded by a condition under which the operation returns. *)
Lemma wp_unless {S X} (E : Prop) (m : kop S X) s Q :
  wp True m s Q → (E → ∃ x s', m s = Ok (x, s')) → wp (¬ E) m s Q.
Proof.
  unfold wp. destruct (m s) as [[x s']| | |]; try done. intros _ HE He. by destruct (HE He) as (x & s' & [=]).
Qed.

Lemma wp_false {S X} (m : kop S X) s (Q : X → S → Prop) : wp False m s Q → ∃ x s', m s = Ok (x, s') ∧ Q x s'.
Proof. unfold wp. destruct (m s) as [[x s']| | |]; try done. by exists x, s'. Qed.

Lemma wp_run_ok {S} (E : Prop) (m : kop S unit) s (Q : S → Prop) :
  E → wp (¬ E) m s (fun _ => Q) → ∃ s', m s = Ok (tt, s') ∧ Q s'.
Proof. unfold wp. destruct (m s) as [[[] s']| | |]; try done. by exists s'. Qed.

(** ** The tags of the boot loader *)

(** [reaches m stop p t]: the walk from [p] comes to the tag [t]. *)
Inductive reaches (m : mem) (stop : Z) : Z → Z → Prop :=
  | reaches_here t : t < stop → load32 m t ≠ 0 → reaches m stop t t
  | reaches_next p t :
      p < stop → load32 m p ≠ 0 → reaches m stop (p + ALIGN_UP32 (load32 m (p + 4)) 8) t →
      reaches m stop p t.

Lemma align_up32_8_nonneg x : 0 ≤ ALIGN_UP32 x 8.
Proof. rewrite align_up32_8. pose proof (wrap32_range (x + 7)). unfold is_u32 in *. Z.div_mod_to_equations; lia. Qed.

Lemma reaches_above m stop p t : reaches m stop p t → p ≤ t < stop ∧ load32 m t ≠ 0.
Proof.
  induction 1 as [t Hlt Hnz|p t Hlt Hnz _ IH]; [lia|]. pose proof (align_up32_8_nonneg (load32 m (p + 4))). lia.
Qed.

(** The first tag of the type, in the order of their addresses. *)
Record first_tag (m : mem) (stop ty p t : Z) : Prop := mk_first_tag {
  ft_none : t = 0 → ∀ q, reaches m stop p q → load32 m q ≠ ty;
  ft_some : t ≠ 0 → reaches m stop p t ∧ load32 m t = ty ∧ ∀ q, reaches m stop p q → load32 m q = ty → t ≤ q;
}.

Lemma first_tag_stop m stop ty p : stop ≤ p ∨ load32 m p = 0 → first_tag m stop ty p 0.
Proof.
  intros Hs. split; [|done]. intros _ q Hq. inversion Hq; subst; destruct Hs; (lia || done).
Qed.

Lemma find_tag_spec fuel m stop p ty :
  tags_wf m stop p → 0 < p → stop - p < 8 * Z.of_nat fuel →
  ∃ t, find_tag_loop (S fuel) m p stop ty = Ok t ∧ first_tag m stop ty p t.
Proof.
  intros Hwf. revert fuel. induction Hwf as [p Hle|p H0|p Hsz Hes Hrest IH]; intros fuel Hp Hf; cbn [find_tag_loop].
  - destruct (Z.ltb_spec p stop); [lia|]. exists 0. split; [done|]. apply first_tag_stop. by left.
  - rewrite H0. exists 0. split; [by destruct (negb _)|]. apply first_tag_stop. by right.
  - destruct (Z.ltb_spec p stop) as [Hlt|]; cbn [negb]; [|exists 0; split; [done|]; apply first_tag_stop; by left].
    destruct (Z.eqb_spec (load32 m p) 0) as [|Hnz]; [exists 0; split; [done|]; apply first_tag_stop; by right|].
    destruct (Z.eqb_spec (load32 m p) ty) as [Hty|Hty].
    { exists p. split; [done|]. split; [lia|]. intros _. split_and!; [by constructor|done|].
      intros q Hq _. by apply reaches_above in Hq as [[? _] _]. }
    destruct fuel as [|fuel]; [lia|]. pose proof (align_up32_8_grows _ Hsz).
    destruct (IH fuel ltac:(lia) ltac:(lia)) as (t & E & [Hn Hs]). exists t. split; [exact E|].
    split; intros Ht.
    + intros q Hq. inversion Hq; subst; [done|]. by apply Hn.
    + destruct (Hs Ht) as (H1 & H2 & H3). split_and!; [by apply reaches_next|done|].
      intros q Hq Hqt. inversion Hq; subst; [done|]. by apply H3.
Qed.

(** (Property) [mb2_find_tag] returns on every well-formed chain of tags, with the
    first tag of the wanted type, or NULL exactly when there is none. *)
Theorem mb2_find_tag_first (fuel : nat) (m : mem) (mb2 ty : Z)
    (Hmb : 0 < mb2) (Hwf : tags_wf m (mb2 + load32 m mb2) (mb2 + 8))
    (Hfuel : load32 m mb2 < 8 * Z.of_nat fuel) :
  ∃ t, mb2_find_tag (S fuel) m mb2 ty = Ok t ∧ first_tag m (mb2 + load32 m mb2) ty (mb2 + 8) t.
Proof.
  unfold mb2_find_tag. destruct (Z.eqb_spec mb2 0); [lia|]. apply find_tag_spec; [done|lia|lia].
Qed.

(** The walk reads the chain only. *)
Lemma find_tag_ext fuel m m' stop p ty :
  (∀ x, p ≤ x < stop + 8 → m' x = m x) → find_tag_loop fuel m' p stop ty = find_tag_loop fuel m p stop ty.
Proof.
  revert p. induction fuel as [|fuel IH]; intros p Hx; cbn [find_tag_loop]; [done|].
  destruct (Z.ltb_spec p stop) as [Hlt|]; cbn [negb]; [|done].
  rewrite !(load32_ext m m') by (intros x Hr; apply Hx; lia).
  pose proof (align_up32_8_nonneg (load32 m (p + 4))). rewrite IH; [done|]. intros x Hr. apply Hx. lia.
Qed.

Lemma mb2_find_tag_ext fuel m m' mb2 ty :
  (∀ x, mb2 ≤ x < mb2 + load32 m mb2 + 8 → m' x = m x) → 0 ≤ load32 m mb2 →
  mb2_find_tag fuel m' mb2 ty = mb2_find_tag fuel m mb2 ty.
Proof.
  intros Hx Hp. unfold mb2_find_tag. destruct (mb2 =? 0); [done|].
  rewrite (load32_ext m m') by (intros x Hr; apply Hx; lia). apply find_tag_ext. intros x Hr. apply Hx. lia.
Qed.

(** ** Processes *)

Section Created.
Context {A : Type} `{PageAllocSpec A, !PageAllocRoom A}.
Implicit Types s : sys A.

(** Every process but the idle one is a heap object of its own. *)
Definition procs_in_heap s (bs : list blk) : Prop :=
  ∀ p x, procs s !! p = Some x → p = IDLE_PROC ∨ in_use bs p 1.

Lemma in_use_address bs p n (h : kheap A) : kheap_inv h bs → in_use bs p n → p ≠ IDLE_PROC ∧ p ≠ 0.
Proof.
  intros Hi (b & [_ Hb]%list_elem_of_filter & <- & _). pose proof (ki_list _ _ Hi) as [_ Hok _].
  rewrite Forall_forall in Hok. destruct (Hok b Hb). unfold b_data, IDLE_PROC. lia.
Qed.

(** Registering a new process keeps the scheduler well formed. *)
Lemma created_inv s s' l i p entry pflags prio pname :
  sched_inv s l → created i p entry pflags prio pname s s' → p ≠ 0 → procs s !! p = None →
  length (proc_table s) = 1024%nat → sched_inv s' l.
Proof.
  intros [[Hl Hh Ht Hn Hc] Hcur Hidle Htab Hrun] [[Hi Hz] _ Htab' _ (x & Hx & _ & Hst & _) Hq] Hp Hfresh Hlen.
  assert (∀ q, is_Some (procs s !! q) → is_Some (procs s' !! q)) as Hdom.
  { intros q [y Hy]. rewrite Hx. destruct (decide (q = p)) as [->|]; [congruence|].
    rewrite lookup_insert_ne by done. by exists y. }
  assert (∀ j, 0 ≤ j → proc_get j s' = if j =? i then p else proc_get j s) as Hget.
  { intros j Hj. unfold proc_get. rewrite Htab'. unfold MAX_PROCESSES in *.
    destruct (Z.leb_spec 1024 j), (Z.eqb_spec j i) as [->|]; try lia; try done.
    - by rewrite list_lookup_total_insert_eq by lia.
    - by rewrite list_lookup_total_insert_ne by lia. }
  split.
  - split; rewrite ?Hq; try done. rewrite Hx. apply linked_insert_other; [|done].
    intros Hin. destruct (linked_lookup _ _ _ _ p Hl Hin) as [_ [y Hy]]. congruence.
  - rewrite Hq. destruct Hcur; auto.
  - rewrite Hget by lia. destruct (Z.eqb_spec 0 i); [lia|done].
  - intros j Hj. rewrite Hget by done. destruct (j =? i); [right; rewrite Hx, lookup_insert_eq; by eexists|].
    destruct (Htab j Hj); auto.
  - intros q y. rewrite Hx, Hq. intros [[<- <-]|[_ Hy]]%lookup_insert_Some; [congruence|by eapply Hrun].
Qed.

(** The process system on its heap. *)
Record sys_wf s (bs : list blk) (l : list Z) : Prop := mk_sys_wf {
  sy_heap : kheap_inv (mm_heap (sys_mmu s)) bs;
  sy_sched : sched_inv s l;
  sy_table : length (proc_table s) = 1024%nat;
  sy_procs : procs_in_heap s bs;
}.
Definition slot_free s : Prop := ∃ j, 1 ≤ j < MAX_PROCESSES ∧ proc_table s !!! Z.to_nat j = 0.

Lemma thread_outcome fuel pname entry s bs l :
  sys_wf s bs l → slot_free s → (length bs + 5 ≤ fuel)%nat →
  wp True (proc_create_kernel_thread fuel pname entry) s (fun p s' =>
    ∃ bs', heap_grows 4 (mm_heap (sys_mmu s)) bs (mm_heap (sys_mmu s')) bs' ∧ sys_wf s' bs' l ∧
      (p = 0 ∧ procs s' = procs s ∧ proc_table s' = proc_table s ∧ rq s' = rq s ∨
       p ≠ 0 ∧ (p ∉ l) ∧ procs s !! p = None ∧ (∀ a, in_use bs a 1 → a ≠ p) ∧
       created (free_slot (proc_table s)) p entry PROC_FLAG_KERNEL 10 pname s s')).
Proof.
  intros [Hh Hs Ht Hp] (j & Hj & Hj0) Hf. unfold wp, proc_create_kernel_thread.
  pose proof (proc_create_spec fuel pname entry PROC_FLAG_KERNEL 10 s bs Hh Hf (si_current _ _ Hs)) as Hc.
  destruct (proc_create _ _ _ _ _ _) as [[p s']| | |]; [|done|by apply (Hc j)|done].
  destruct Hc as (bs' & Hg & Hc). exists bs'. split; [exact Hg|].
  assert (∀ q n, in_use bs q n → in_use bs' q n) as Hmono by (intros q n; apply in_use_mono, Hg).
  destruct Hc as [(-> & E1 & E2 & E3)|(Hnz & Hcr & Hin & Hold)].
  - split; [|by left]. split; [apply Hg| |by rewrite E2|].
    + destruct Hs as [[H1 H2 H3 H4 H5] H6 H7 H8 H9]. unfold proc_get in *. split; rewrite ?E1, ?E2, ?E3; try done.
      * split; rewrite ?E1, ?E3; done.
      * unfold proc_get. by rewrite E2.
      * intros i Hi. unfold proc_get. rewrite E2. by apply H8.
    + intros q x Hx. rewrite E1 in Hx. destruct (Hp q x Hx); auto.
  - assert (∀ a, in_use bs a 1 → a ≠ p) as Hother by (intros a (b & Hb & <- & _); by apply Hold).
    assert (procs s !! p = None) as Hnone.
    { destruct (procs s !! p) as [x|] eqn:E; [|done]. destruct (Hp p x E) as [->|Hu].
      - by destruct (in_use_address bs' IDLE_PROC 1 _ (hg_inv _ _ _ _ _ Hg) Hin).
      - by apply Hother in Hu. }
    split.
    + split; [apply Hg|by eapply created_inv|by rewrite (cr_table _ _ _ _ _ _ _ _ Hcr), length_insert|].
      destruct (cr_proc _ _ _ _ _ _ _ _ Hcr) as (x & Ex & _). intros q y. rewrite Ex.
      intros [[<- _]|[_ Hy]]%lookup_insert_Some; [by right|]. destruct (Hp q y Hy); auto.
    + right. split_and!; try done. intros Hl.
      destruct (linked_lookup _ _ _ _ p (rw_linked _ _ (si_wf _ _ Hs)) Hl) as [_ [y Hy]]. congruence.
Qed.

(** The process is created unless there is no credit. *)
Lemma thread_spec R n N fuel pname entry s bs l :
  sys_wf s bs l → slot_free s → (length bs + 5 ≤ fuel)%nat → 0 ≤ n → 0 ≤ N →
  R ∨ credited (n + PROC_PAGES) (N + PROC_COST) (mm_heap (sys_mmu s)) →
  wp R (proc_create_kernel_thread fuel pname entry) s (fun p s' =>
    (∃ bs', heap_grows 4 (mm_heap (sys_mmu s)) bs (mm_heap (sys_mmu s')) bs' ∧ sys_wf s' bs' l ∧
      (p = 0 ∧ procs s' = procs s ∧ proc_table s' = proc_table s ∧ rq s' = rq s ∨
       p ≠ 0 ∧ (p ∉ l) ∧ procs s !! p = None ∧ (∀ a, in_use bs a 1 → a ≠ p) ∧
       created (free_slot (proc_table s)) p entry PROC_FLAG_KERNEL 10 pname s s')) ∧
    (R ∨ p ≠ 0 ∧ credited n N (mm_heap (sys_mmu s')))).
Proof.
  intros Hs Hslot Hf Hn HN Hc. apply wp_pays; [by apply thread_outcome|]. destruct Hc as [|Hc]; [by left|right].
  destruct Hslot as (j & Hj & Hj0).
  destruct (proc_create_pays fuel pname entry PROC_FLAG_KERNEL 10 s bs n N j) as (p & s' & E & Hp & Hc');
    [apply Hs|done|done|done|apply (si_current _ _ (sy_sched _ _ _ Hs))|done|done|exact Hc|].
  by exists p, s'.
Qed.

(** A READY process that is not queued yet goes to the end of the queue. *)
Lemma enqueue_spec (R : Prop) p x s bs l :
  sys_wf s bs l → procs s !! p = Some x → state x = PROC_READY → p ≠ 0 → (p ∉ l) →
  Z.of_nat (length l) < 4294967295 →
  wp R (enqueue p) s (fun _ s' => sys_wf s' bs (l ++ [p]) ∧ same_core s s' ∧ sys_mmu s' = sys_mmu s ∧
    proc_table s' = proc_table s ∧ current (rq s') = current (rq s)).
Proof.
  intros [Hh Hs Ht Hp] Hx Hst Hnz Hl Hlen. unfold wp, enqueue.
  destruct (sched_add_spec p x s l (si_wf _ _ Hs) Hnz Hx Hl Hlen) as (s' & E & Hc & Hw).
  rewrite decide_True in Hw by done. rewrite E. cbn [mbind outcome_bind].
  destruct (sched_add_rest p s s' E) as [Hcur Htab]. pose proof (fr_mmu _ _ (framed_op 0 (OpAdd p) s s' E)) as Hm.
  split_and!; try done. split.
  - by rewrite Hm.
  - by apply (inv_same_core s s' l).
  - by rewrite Htab.
  - intros q y Hy. specialize (Hc q). rewrite Hy in Hc. destruct (procs s !! q) as [z|] eqn:Hz; [|done].
    by apply (Hp q z).
Qed.
End Created.

(** A memory map at 36872 and a frame buffer tag after it. *)
Definition tagged_boot : mem := mem_image 36864
  [88; 0;  6; 40; 24; 0;  0; 0; 4194304; 0; 1; 0;
   8; 32; 4244635648; 0; 4096; 1024; 768; 32;  0; 8].

Lemma tagged_boot_tags : tags_wf tagged_boot (36864 + load32 tagged_boot 36864) (36864 + 8).
Proof.
  apply tags_next; [vm_compute; split; discriminate|intros _; vm_compute; discriminate|].
  apply tags_next; [vm_compute; split; discriminate|intros H; vm_compute in H; discriminate H|].
  apply tags_end. vm_compute. reflexivity.
Qed.

Lemma mb2_find_tag_first_witness :
  tags_wf tagged_boot (36864 + load32 tagged_boot 36864) (36864 + 8) ∧
  ∃ t, mb2_find_tag 13 tagged_boot 36864 MB2_TAG_FRAMEBUFFER = Ok t ∧
    first_tag tagged_boot (36864 + load32 tagged_boot 36864) MB2_TAG_FRAMEBUFFER (36864 + 8) t.
Proof.
  split; [exact tagged_boot_tags|].
  apply (mb2_find_tag_first 12 tagged_boot 36864 MB2_TAG_FRAMEBUFFER); [lia|exact tagged_boot_tags|].
  vm_compute. reflexivity.
Defined.

Example tagged_boot_found : mb2_find_tag 13 tagged_boot 36864 MB2_TAG_FRAMEBUFFER = Ok 36912.
Proof. vm_compute. reflexivity. Qed.
