(* ===== verification/KmainSpec.v ===== *)
(** * The boot sequence as a whole

    [kmain] step by step.  [early] is the machine before there are processes, in
    terms of the parts the first steps change. *)
From S2P Require Import Prelude Mem LibString PageAlloc Pmm Kheap KheapInv KheapSpec KmallocSpec Paging Process ProcessSpec SchedSpec ProcCreateSpec HeapCredit.
From S2P Require Import Fs FsSpec Keyboard Driver Rtc PortIO Serial Gdt Idt Font Framebuffer FramebufferSpec Syscall SyscallSpec Interrupts Boot CreditSpec BootSpec.

(** ** Memory the kernel never hands out *)

(** The page of [x] is in use after [pmm_init] or beyond the pages it manages. *)
Definition reserved (es : list mmap_entry) (x : Z) : Prop :=
  0 ≤ x / PAGE_SIZE < PAGE_LIMIT → boot_used es (x / PAGE_SIZE) = true.

(** The page tables of boot.asm map the first GiB (not the 2 GiB its comments say: one
    page directory of 512 entries is reachable). *)
Definition MAPPED : Z := 1073741824.

(** A frame buffer of 32-bit pixels, with room for a character, in reserved memory of
    the first GiB. *)
Definition screen_ok (es : list mmap_entry) (i : fb_info) : Prop :=
  geometry i ∧ FONT_W ≤ width i ∧ FONT_H ≤ height i ∧ addr i + pitch i * height i ≤ MAPPED ∧
  ∀ x, addr i ≤ x < addr i + pitch i * height i → reserved es x.

(** A run of 30 free pages: 16 for the heap, 4 for the stack of the idle process, 5
    each for init and for the shell. *)
Definition enough_memory (es : list mmap_entry) : Prop :=
  ∃ p, 0 ≤ p ∧ p + 30 ≤ PAGE_LIMIT ∧ ∀ q, p ≤ q < p + 30 → boot_used es q = false.

(** Credit, or [R]. *)
Definition funded (R : Prop) (n N : Z) (h : kheap pmm) : Prop := R ∨ credited n N h.

(** What is asked of the boot loader.  The Multiboot2 specification promises the chain of
    tags.  It does not promise that the information structure lies in memory [pmm_init]
    leaves alone (kmain.c reads it again after the heap has been set up, see
    [tags_overwritten]), nor 32-bit pixels (the header of boot.asm asks for them, which
    a loader may not grant), nor that memory and screen lie in the first GiB. *)
Record loader (fuel : nat) (m : mem) (mb2 : Z) (es : list mmap_entry) : Prop := mk_loader {
  ld_bytes : mem_bytes m;
  ld_some : 0 < mb2;
  ld_tags : tags_wf m (mb2 + load32 m mb2) (mb2 + 8);
  ld_fuel : load32 m mb2 < 8 * Z.of_nat fuel;
  ld_entries : es = boot_entries (S fuel) m (mb2 + 8) (mb2 + load32 m mb2);
  ld_disjoint : entries_disjoint es;
  ld_low : ∀ x, mb2 ≤ x < mb2 + load32 m mb2 + 32 → reserved es x;
  ld_mapped : mb2 + load32 m mb2 + 32 ≤ MAPPED;
  ld_ram : ∀ q, MAPPED / PAGE_SIZE ≤ q < PAGE_LIMIT → boot_used es q = true;
  ld_screen : ∀ t, reaches m (mb2 + load32 m mb2) (mb2 + 8) t → load32 m t = MB2_TAG_FRAMEBUFFER →
    load64 m (t + 8) = 0 ∨ screen_ok es (fb_info_of_tag m t);
}.

(** Reserved memory belongs to nobody in the heap. *)
Definition spares (es : list mmap_entry) (h : kheap pmm) (bs : list blk) : Prop :=
  ∀ x, reserved es x → foreign (kh_pages h) bs x.
Definition same_reserved (es : list mmap_entry) (m m' : mem) : Prop :=
  ∀ x, reserved es x → m' x = m x.

(** Then the heap lies in the mapped memory. *)
Definition heap_mapped (bs : list blk) : Prop := ∀ c, c ∈ bs → b_end c ≤ MAPPED.

Lemma spares_mapped fuel m mb2 es h bs :
  loader fuel m mb2 es → kheap_inv h bs → spares es h bs → heap_mapped bs.
Proof.
  intros Hld Hi Hs c Hc. destruct (Z.le_gt_cases (b_end c) MAPPED) as [|Hgt]; [done|exfalso].
  pose proof (hl_ok _ _ (ki_list _ _ Hi)) as Hok. rewrite Forall_forall in Hok. destruct (Hok c Hc) as [Ha _ Hsz _].
  set (x := Z.max (b_addr c) MAPPED).
  assert (reserved es x) as Hr.
  { intros Hx. apply (ld_ram _ _ _ _ Hld). split; [|lia]. apply Z.div_le_mono; [done|lia]. }
  destruct (Hs x Hr) as [Ho _]. specialize (Ho c Hc). unfold b_end in *. lia.
Qed.

Lemma spares_grows es h bs h' bs' :
  spares es h bs → leaves_foreign h bs h' bs' →
  spares es h' bs' ∧ same_reserved es (kh_mem h) (kh_mem h').
Proof. intros Hs Hl. split; intros x Hx; by apply Hl, Hs. Qed.

Lemma same_reserved_trans es m1 m2 m3 :
  same_reserved es m1 m2 → same_reserved es m2 m3 → same_reserved es m1 m3.
Proof. intros H1 H2 x Hx. by rewrite H2, H1. Qed.

(** The file system keeps its shape when the heap grows. *)
Lemma fs_wf_grows k h bs h' bs' (f : fs pmm) :
  fs_wf (fs_with_heap h f) bs → heap_grows k h bs h' bs' → fs_wf (fs_with_heap h' f) bs'.
Proof.
  intros [Hh Ht [H1 H2 H3 H4 H5]] [Hi _ Hu _]. split; [exact Hi|exact Ht|].
  cbn [fs_with_heap inodes] in *. split; try done.
  - intros a x Hx. eapply in_use_mono; [exact Hu|by eapply H1].
  - intros a x Hx Hd. destruct (H2 _ _ Hx Hd). split; [by eapply in_use_mono|done].
Qed.

(** ** The picture survives what happens elsewhere *)

Lemma fb_frame s m' g :
  displays s g → mem_bytes m' → (∀ a, addr (g_fb s) ≤ a < addr (g_fb s) + pitch (g_fb s) * height (g_fb s) → m' a = fb_mem s a) →
  displays (fb_with_mem m' s) g.
Proof.
  intros [Hw Hr Hc Hz] Hm Ha. destruct (stride_facts s Hw) as (Ep & Hwd & Hh & Hsz & Efs & Hnz).
  assert (∀ x y, on_screen s x y → pixel (fb_with_mem m' s) x y = pixel s x y) as Hpix.
  { intros x y [Hx Hy]. unfold pixel. apply load32_ext. intros b Hb. apply Ha.
    change (word_addr (fb_with_mem m' s)) with (word_addr s) in Hb.
    change (stride (fb_with_mem m' s)) with (stride s) in Hb.
    unfold word_addr, fb_size in *. rewrite (fw_mem _ Hw) in Hb. nia. }
  assert (8 * cols s ≤ width (g_fb s) ∧ 16 * rows s ≤ height (g_fb s)) as [Hcs Hrs]
    by (unfold cols, rows, FONT_W, FONT_H; Z.div_mod_to_equations; lia).
  split.
  - destruct Hw as [H1 H2 _]. by split.
  - exact Hr.
  - intros r c i j ? ? ? ?. cbn [term_fg term_bg fb_with_mem].
    change (rows (fb_with_mem m' s)) with (rows s) in *. change (cols (fb_with_mem m' s)) with (cols s) in *.
    rewrite Hpix by (split; lia). by apply Hc.
  - intros x y Hx Hy. change (rows (fb_with_mem m' s)) with (rows s) in *.
    change (cols (fb_with_mem m' s)) with (cols s) in *. cbn [g_fb fb_with_mem term_bg] in *.
    rewrite Hpix; [by apply Hz|]. unfold on_screen. unfold rows, FONT_H in Hy. Z.div_mod_to_equations; lia.
Qed.

Lemma shows_frame s m' t :
  shows s t → mem_bytes m' → (∀ a, addr (g_fb s) ≤ a < addr (g_fb s) + pitch (g_fb s) * height (g_fb s) → m' a = fb_mem s a) →
  shows (fb_with_mem m' s) t.
Proof. intros [Hd Hc Hr] Hm Ha. split; [by apply fb_frame|done..]. Qed.

(** ** The steps before there are processes *)

Section Early.
Context (dev : nat → Z → Z) (st : statics) (c3 : Z) (R : Prop).

Definition early (c : cpu) (h : kheap pmm) (f : fs pmm) (x : fb) (g : gdt_state) (r : registry) : boot pmm :=
  mk_boot
    (mk_machine (mk_kern (mk_sys ∅ (replicate 1024 0) 1 (mk_rq 0 0 0 0 0) [] (mk_mmu h c3 [])) []
       (replicate 128 None)) kbd_static 0 c ∅)
    f x g r false.

Lemma serial_step c h f x g r :
  wp R (on_boot_ports serial_early_init) (early c h f x g r) (fun _ b => ∃ c', b = early c' h f x g r).
Proof.
  apply wp_zoom. unfold serial_early_init. eapply wp_ok; [apply serial_init_run|]. by eexists.
Qed.

Lemma idt_step c h f x g r :
  wp R (kzoom (fun b => m_cpu (bt_machine b)) put_boot_cpu (idt_init dev (st_isr st) (st_irq st) (st_idt st)))
    (early c h f x g r)
    (fun _ b => ∃ c', b = early c' h f x g r ∧ irq_handlers c' = replicate 16 0).
Proof.
  assert (∃ c', idt_init dev (st_isr st) (st_irq st) (st_idt st) c = Ok (tt, c') ∧ irq_handlers c' = replicate 16 0)
    as (c' & E & Hc').
  { destruct (idt_init_spec dev (st_isr st) (st_irq st) (st_idt st) c) as [p E]. eexists. split; [exact E|reflexivity]. }
  apply wp_zoom. eapply wp_ok; [exact E|]. by exists c'.
Qed.

(** After [pmm_init] reserved memory is in use. *)
Lemma pmm_step fuel m mb2 es c f x g r p0 :
  loader fuel m mb2 es → pmm_last_free_hint p0 = 0 → R ∨ enough_memory es →
  wp R (fun b : boot pmm => p ← pmm_init (S fuel) (kh_mem (boot_heap b)) mb2 (kh_pages (boot_heap b));
               Ok (tt, put_heap (with_pages p (boot_heap b)) b))
    (early c (mk_kheap m p0 0 0 0 0) f x g r)
    (fun _ b => ∃ p, b = early c (mk_kheap m p 0 0 0 0) f x g r ∧ pmm_inv p ∧ page_used p 0 = true ∧
       spares es (mk_kheap m p 0 0 0 0) [] ∧ (R ∨ room 30 p)).
Proof.
  intros [Hby Hmb Htags Hfuel Hes Hdis _ _ _ _] Hhint Hmem.
  destruct (pmm_init_terminates_spec m mb2 p0 fuel Htags Hfuel) as [p E].
  destruct (pmm_init_bits (S fuel) m mb2 p0 p Hby ltac:(lia) E) as [Hp Hph]. rewrite <- Hes in Hp.
  pose proof (pmm_init_establishes_inv_spec (S fuel) m mb2 p0 p Hby ltac:(rewrite Hhint; by split) E) as Hi.
  rewrite <- Hes in Hi. unfold wp. change (kh_mem (boot_heap _)) with m. change (kh_pages (boot_heap _)) with p0.
  rewrite E. cbn [mbind outcome_bind]. exists p. split; [done|]. assert (pmm_inv p) as Hpi by (by apply Hi). split; [done|]. split; [|split].
  - rewrite Hp by (unfold is_page, PMM_MAX_PAGES; lia). done.
  - intros y Hy. split; [by intros b Hb%elem_of_nil|]. intros Hr. cbn [kh_pages].
    change (used_page p) with (page_used p). rewrite Hp; [by apply Hy|].
    unfold is_page, PMM_MAX_PAGES, PAGE_LIMIT in *. lia.
  - destruct Hmem as [|(q & Hq & Hmax & Hfree)]; [by left|right]. split; [done|].
    exists q. rewrite Hph, Hhint. split_and!; [done|exact Hmax|]. intros y Hy.
    unfold is_page, PMM_MAX_PAGES, PAGE_LIMIT in *. rewrite Hp by (unfold is_page, PMM_MAX_PAGES; lia). by apply Hfree.
Qed.

Lemma kheap_step fuel es p c m f x g r :
  mem_bytes m → pmm_inv p → page_used p 0 = true → spares es (mk_kheap m p 0 0 0 0) [] → R ∨ room 30 p →
  wp R (kzoom boot_heap put_heap (kheap_init fuel 33554432 67108864)) (early c (mk_kheap m p 0 0 0 0) f x g r)
    (fun _ b => ∃ h bs, b = early c h f x g r ∧ kheap_inv h bs ∧ length bs = 1%nat ∧ used_blocks bs = [] ∧
       spares es h bs ∧ same_reserved es m (kh_mem h) ∧ funded R 14 65480 h).
Proof.
  intros Hm Hp H0 Hs Hr. apply wp_zoom.
  pose proof (kheap_init_spec fuel 33554432 67108864 (mk_kheap m p 0 0 0 0) Hm eq_refl Hp H0 ltac:(lia)) as H1.
  change (boot_heap (early _ _ _ _ _ _)) with (mk_kheap m p 0 0 0 0).
  eapply wp_mono; [apply (wp_pays R _ _ (fun _ h => ∃ nb, kheap_inv h [nb] ∧ b_free nb = true ∧
      leaves_foreign (mk_kheap m p 0 0 0 0) [] h [nb]) (fun _ h => credited 14 65480 h))|].
  - unfold wp. destruct (kheap_init _ _ _ _) as [[[] h]| | |]; [|done..].
    destruct H1 as (nb & Hi & Hf & _ & _ & Hl). by exists nb.
  - destruct Hr as [|Hr]; [by left|right]. exists tt.
    by apply (kheap_init_pays fuel 33554432 67108864 14 (mk_kheap m p 0 0 0 0)).
  - cbn beta. intros [] h [(nb & Hi & Hf & Hl) Hc].
    destruct (spares_grows _ _ _ _ _ Hs Hl) as [H2 H3].
    exists h, [nb]. split_and!; try done. unfold used_blocks. by rewrite filter_cons_False by (by rewrite Hf).
Qed.

Lemma pit_step c h f x g r :
  irq_handlers c = replicate 16 0 →
  wp R (modify (boot_pit st 1000)) (early c h f x g r)
    (fun _ b => ∃ c', b = early c' h f x g r ∧ irq_handlers c' = <[0%nat := pit_handler st]> (replicate 16 0)).
Proof.
  intros Hc. eapply wp_ok; [reflexivity|]. eexists. split; [reflexivity|].
  cbn [with_ports with_handlers irq_handlers irq_register_handler]. by rewrite <- Hc.
Qed.

(** The file system with its root directory and nothing else. *)
Record fresh_fs (f : fs pmm) : Prop := mk_fresh_fs {
  ff_root : vfs_root f ≠ 0;
  ff_dir : ∃ x, inodes f = {[vfs_root f := x]} ∧ i_type x = VFS_DIRECTORY ∧ i_children x = [];
}.

Lemma create_root_spec fuel t h bs :
  kheap_inv h bs → (length bs + 3 ≤ fuel)%nat →
  match tmpfs_create_root fuel (tmpfs_register t (vfs_init (mk_fs h ∅ 1 0 [] []))) with
  | Ok (root, f1) => root = 0 ∨ ∃ bs' f', root ≠ 0 ∧ vfs_mount (Some (codes "/")) root f1 = (0, f') ∧
      fs_wf f' bs' ∧ fresh_fs f' ∧ heap_grows 2 h bs (fs_heap f') bs'
  | Panic _ => True
  | _ => False
  end.
Proof.
  intros Hi Hf. unfold tmpfs_create_root, tmpfs_mount, tmpfs_register, vfs_init, vfs_register_fs.
  cbn [fs_registry mount_table fmap list_fmap length fs_heap inodes tmpfs_inode_counter vfs_root app].
  change (Z.of_nat 0 <? MAX_FS) with true. cbn [fs_heap].
  pose proof (kcalloc_spec fuel 1 TMPFS_INODE_SIZEOF h bs Hi ltac:(unfold TMPFS_INODE_SIZEOF; lia) Hf) as Hk.
  destruct (kcalloc _ _ _ _) as [[root h']| | |]; [|done..]. cbn [mbind outcome_bind].
  destruct (Z.eqb_spec root 0) as [->|Hnz]; [by left|].
  destruct Hk as [[? _]|(b & -> & _ & Hal & _)]; [done|].
  destruct (allocated_grows _ _ _ _ _ _ Hal) as (bs' & Hg & Hb & Hsz & _ & _).
  set (y := mk_inode [116; 109; 112; 102; 115] VFS_DIRECTORY 493 1 0 true 0 0 0 []).
  right. exists bs', (mk_fs h' {[b_data b := y]} (1 +₆₄ 1) (b_data b) [(codes "/", b_data b)] [t]).
  split; [done|]. split; [unfold vfs_mount; destruct (Z.eqb_spec (b_data b) 0); [done|reflexivity]|].
  split; [|split; [split; [done|by exists y]|exact Hg]].
  split; cbn [fs_heap inodes vfs_root]; [apply Hg| |].
  - split.
    + by rewrite lookup_singleton_ne.
    + by intros a z [<- <-]%lookup_singleton_Some.
    + by intros a z [<- <-]%lookup_singleton_Some.
    + by intros a z [<- <-]%lookup_singleton_Some.
    + intros _. rewrite lookup_singleton_eq. by eexists.
  - apply (store_wf_insert ∅ []); [by split|by intros c Hc%elem_of_nil| |done..].
    by exists b.
Qed.

Lemma filesystem_step fuel es h0 c h bs x g r n N :
  kheap_inv h bs → spares es h bs → (length bs + 3 ≤ fuel)%nat → 0 ≤ N → funded R n (N + DIR_COST) h →
  wp R (boot_filesystem st fuel) (early c h (mk_fs h0 ∅ 1 0 [] []) x g r)
    (fun _ b => ∃ h' bs' f, b = early c h' f x g r ∧ fs_wf (fs_with_heap h' f) bs' ∧ fresh_fs f ∧
       (length bs' ≤ length bs + 2)%nat ∧ spares es h' bs' ∧ same_reserved es (kh_mem h) (kh_mem h') ∧
       funded R n N h').
Proof.
  intros Hi Hs Hf HN Hc. unfold boot_filesystem. apply wp_bind, wp_zoom.
  change (boot_fs (early c h _ x g r)) with (mk_fs h ∅ 1 0 [] []).
  pose proof (create_root_spec fuel (st_tmpfs st) h bs Hi Hf) as Hr.
  eapply wp_mono; [apply (wp_pays R _ _ (fun root f1 => root = 0 ∨ ∃ bs' f', root ≠ 0 ∧
      vfs_mount (Some (codes "/")) root f1 = (0, f') ∧ fs_wf f' bs' ∧ fresh_fs f' ∧ heap_grows 2 h bs (fs_heap f') bs')
      (fun root f1 => root ≠ 0 ∧ credited n N (fs_heap f1)))|].
  - unfold wp. destruct (tmpfs_create_root _ _) as [[root f1]| | |]; [exact Hr|done..].
  - destruct Hc as [|Hc]; [by left|right]. by apply (tmpfs_mount_pays fuel (tmpfs_register _ _) bs).
  - cbn beta. intros root f1 [Hroot Hc1]. destruct (Z.eqb_spec root 0) as [->|Hnz].
    { destruct Hc1 as [HR|[? _]]; [exact HR|done]. }
    destruct Hroot as [|(bs' & f' & _ & Em & Hwf & Hff & Hg)]; [done|].
    assert (fs_heap f' = fs_heap f1) as Eh.
    { unfold vfs_mount in Em. destruct (root =? 0); [done|]. destruct (_ <=? _); [done|]. by injection Em as <-. }
    destruct (spares_grows _ _ _ _ _ Hs (hg_foreign _ _ _ _ _ Hg)) as [Hs' Hm].
    apply wp_bind, wp_zoom. change (boot_fs (put_fs f1 _)) with (fs_with_heap (fs_heap f1) f1).
    assert (fs_with_heap (fs_heap f1) f1 = f1) as -> by (by destruct f1).
    unfold wp at 1. rewrite Em. apply wp_ret. exists (fs_heap f'), bs', f'. split; [done|].
    split; [by destruct f'|]. split_and!; [done|apply Hg|done|done|].
    destruct Hc1 as [|[_ Hc1]]; [by left|right]. by rewrite Eh.
Qed.
End Early.

(** ** The frame buffer *)

(** What the screen shows at the end: the first frame buffer tag, if it gives an
    address, is the frame buffer of [x], and in memory [m'] it shows the empty
    terminal. *)
Definition screen_up (es : list mmap_entry) (m : mem) (mb2 : Z) (x : fb) (m' : mem) : Prop :=
  ∃ t, first_tag m (mb2 + load32 m mb2) MB2_TAG_FRAMEBUFFER (mb2 + 8) t ∧
    (t ≠ 0 → load64 m (t + 8) ≠ 0 →
     g_fb x = fb_info_of_tag m t ∧ screen_ok es (g_fb x) ∧ shows (fb_with_mem m' x) Term.initial).

Lemma screen_up_frame es m mb2 x m' m'' :
  screen_up es m mb2 x m' → mem_bytes m'' → same_reserved es m' m'' → screen_up es m mb2 x m''.
Proof.
  intros (t & Ht & H) Hm Hs. exists t. split; [done|]. intros H1 H2. destruct (H H1 H2) as (E & Hok & Hsh).
  split_and!; [done..|]. apply (shows_frame _ m'' _ Hsh Hm). intros a Ha. apply Hs, Hok, Ha.
Qed.

Lemma fs_wf_heap h h' bs (f : fs pmm) :
  fs_wf (fs_with_heap h f) bs → kheap_inv h' bs → fs_wf (fs_with_heap h' f) bs.
Proof. intros [_ Ht Hs] Hi. by split. Qed.

Section Screen.
Context (fuel : nat) (m : mem) (mb2 : Z) (es : list mmap_entry).
Hypothesis Hld : loader fuel m mb2 es.

(** The boot information still stands in memory. *)
Lemma find_fb_tag m' :
  same_reserved es m m' →
  ∃ t, mb2_find_tag (S fuel) m' mb2 MB2_TAG_FRAMEBUFFER = Ok t ∧
    first_tag m (mb2 + load32 m mb2) MB2_TAG_FRAMEBUFFER (mb2 + 8) t ∧
    (t ≠ 0 → load64 m' (t + 8) = load64 m (t + 8) ∧ fb_info_of_tag m' t = fb_info_of_tag m t).
Proof.
  intros Hs. destruct Hld as [Hby Hmb Htags Hf _ _ Hlow _ _ _]. pose proof (load32_range m mb2 Hby) as Hr. unfold is_u32 in Hr.
  rewrite (mb2_find_tag_ext _ m m'); [|intros y Hy; apply Hs, Hlow; lia|lia].
  destruct (find_tag_spec fuel m (mb2 + load32 m mb2) (mb2 + 8) MB2_TAG_FRAMEBUFFER Htags ltac:(lia) ltac:(lia))
    as (t & E & Ht).
  exists t. split; [unfold mb2_find_tag; destruct (Z.eqb_spec mb2 0); [lia|exact E]|]. split; [done|].
  intros Hz. destruct (ft_some _ _ _ _ _ Ht Hz) as [[Hp _]%reaches_above _].
  assert (∀ y, t ≤ y < t + 32 → m' y = m y) as He by (intros y Hy; apply Hs, Hlow; lia).
  unfold fb_info_of_tag. rewrite !(load64_ext m m'), !(load32_ext m m') by (intros y Hy; apply He; lia).
  unfold load8. by rewrite !He by lia.
Qed.

Context (st : statics) (c3 : Z) (R : Prop).

Lemma driver_at_ok r d x : drivers r !! d = Some x → driver_at r d = Ok x.
Proof. unfold driver_at. by intros ->. Qed.

Lemma draw_in_reserved h bs i :
  kheap_inv h bs → spares es h bs → screen_ok es i →
  let s := fb_term_init (fb_init i (fb_static (kh_mem h))) in
  kheap_inv (with_mem (fun _ => fb_mem s) h) bs ∧ g_fb s = i ∧ shows s Term.initial.
Proof.
  intros Hi Hs (Hg & Hw & Hh & _ & Hr) s. destruct (init_wf i (kh_mem h) Hg (ki_bytes _ _ Hi)) as [Hwf Hd].
  destruct (draws_config _ _ _ Hd) as (E & _). split; [|split; [exact E|]].
  2: { apply init_shows; [done|exact (ki_bytes _ _ Hi)|done|done]. }
  apply outside_write_inv; [done|apply Hwf|]. intros y Hy.
  destruct (decide (addr i ≤ y < addr i + pitch i * height i)) as [Hin|Hout]; [by apply Hs, Hr|].
  exfalso. apply Hy. symmetry. apply (dr_out _ _ _ Hd). unfold fb_size. cbn [g_fb g_fb_mem]. lia.
Qed.

Lemma framebuffer_step c h bs f m0 g r n N :
  kheap_inv h bs → spares es h bs → same_reserved es m (kh_mem h) → funded R n N h →
  wp R (boot_framebuffer (S fuel) mb2) (early c3 c h f (fb_static m0) g r)
    (fun _ b => ∃ h' x, b = early c3 c h' f x g r ∧ kheap_inv h' bs ∧ spares es h' bs ∧
       fb_term_init x = x ∧ screen_up es m mb2 x (kh_mem h') ∧ funded R n N h').
Proof.
  intros Hi Hs Hm Hc. destruct (find_fb_tag _ Hm) as (t & E & Ht & Hread). unfold boot_framebuffer, wp.
  change (kh_mem (boot_heap _)) with (kh_mem h). rewrite E. cbn [mbind outcome_bind].
  destruct (Z.eqb_spec t 0) as [->|Hz]; cbn [orb].
  { exists h, (fb_static m0). split_and!; [done..|by exists 0|done]. }
  destruct (Hread Hz) as [-> ->]. destruct (Z.eqb_spec (load64 m (t + 8)) 0) as [H0|H0].
  { exists h, (fb_static m0). split_and!; [done..|by exists t|done]. }
  change (boot_fb _) with (fb_static (kh_mem h)).
  destruct (ft_some _ _ _ _ _ Ht Hz) as (Hreach & Hty & _).
  destruct (ld_screen _ _ _ _ Hld t Hreach Hty) as [|Hok]; [done|].
  destruct (draw_in_reserved h bs _ Hi Hs Hok) as (Hi' & Eg & Hsh). set (x := fb_term_init _) in *.
  exists (with_mem (fun _ => fb_mem x) h), x. split_and!; [done|done|exact Hs|done| |].
  2: { destruct Hc as [|Hc]; [by left|right]. by apply (credited_same n N h _ bs). }
  exists t. split; [done|]. intros _ _. split; [done|]. rewrite Eg. split; [done|]. exact Hsh.
Qed.

(** ** The drivers *)

Record statics_ok : Prop := mk_statics_ok {
  so_kbd : kbd_driver st ≠ 0;
  so_fb : fb_driver st ≠ 0;
  so_apart : kbd_driver st ≠ fb_driver st;
}.
Hypothesis Hst : statics_ok.

Record drivers_linked (r : registry) : Prop := mk_drivers_linked {
  dk_head : driver_list_head r = fb_driver st;
  dk_fb : ∃ y, drivers r !! fb_driver st = Some y ∧ d_next y = kbd_driver st;
  dk_kbd : ∃ z, drivers r !! kbd_driver st = Some z ∧ d_next z = 0 ∧ d_probe z = Some 0;
}.

(** Both drivers have been probed: the keyboard runs, the frame buffer if there
    is one. *)
Record drivers_probed (x : fb) (r : registry) : Prop := mk_drivers_probed {
  dp_kbd : ∃ z, drivers r !! kbd_driver st = Some z ∧ d_state z = DRIVER_RUNNING;
  dp_fb : ∃ y, drivers r !! fb_driver st = Some y ∧
    d_state y = if g_fb_mem x =? 0 then DRIVER_ERROR else DRIVER_RUNNING;
}.

Lemma drivers_step c h f x g :
  wp R (fun b : boot pmm => r ← driver_register (kbd_driver st) (bt_drivers b);
               r ← driver_register (fb_driver st) r; Ok (tt, put_drivers r b))
    (early c3 c h f x g (static_registry st))
    (fun _ b => ∃ r, b = early c3 c h f x g r ∧ drivers_linked r).
Proof.
  destruct Hst as [Hk Hf Ha]. unfold wp, driver_register, driver_at.
  cbn [bt_drivers early static_registry drivers driver_list_head].
  destruct (Z.eqb_spec (kbd_driver st) 0); [done|]. rewrite lookup_insert_eq. cbn [mbind outcome_bind drivers driver_list_head].
  destruct (Z.eqb_spec (fb_driver st) 0); [done|].
  rewrite lookup_insert_ne by done. rewrite lookup_insert_ne by done. rewrite lookup_insert_eq.
  cbn [mbind outcome_bind]. eexists. split; [reflexivity|]. split; cbn [drivers driver_list_head]; [done| |].
  - rewrite lookup_insert_eq. by eexists.
  - rewrite lookup_insert_ne by done. rewrite lookup_insert_eq. by eexists.
Qed.

Lemma probe_both k f r y z ret fuel' :
  k ≠ 0 → f ≠ 0 → k ≠ f → driver_list_head r = f →
  drivers r !! f = Some y → d_next y = k → d_probe y = Some ret →
  drivers r !! k = Some z → d_next z = 0 → d_probe z = Some 0 →
  ∃ p q r', drivers_probe_all (S (S (S fuel'))) r = Ok (p, q, r') ∧
    drivers r' !! k = Some (set_d_state DRIVER_RUNNING z) ∧
    drivers r' !! f = Some (set_d_state (if ret =? 0 then DRIVER_RUNNING else DRIVER_ERROR) y).
Proof.
  intros Hk Hf Hkf Hhd Hy Hyn Hyp Hz Hzn Hzp. unfold drivers_probe_all. rewrite Hhd. cbn [probe_loop].
  destruct (Z.eqb_spec f 0); [done|]. rewrite (driver_at_ok r f y Hy). cbn [mbind outcome_bind]. rewrite Hyp, Hyn.
  assert (∀ ok fail v, ∃ p q r', probe_loop (S (S fuel')) k ok fail (put_driver f v r) = Ok (p, q, r') ∧
    drivers r' !! k = Some (set_d_state DRIVER_RUNNING z) ∧ drivers r' !! f = Some v) as Hrest.
  { intros ok fail v. cbn [probe_loop]. destruct (Z.eqb_spec k 0); [done|].
    rewrite (driver_at_ok (put_driver f v r) k z) by (cbn [drivers put_driver]; by rewrite lookup_insert_ne).
    cbn [mbind outcome_bind]. rewrite Hzp, Hzn. eexists _, _, _. split; [reflexivity|]. cbn [drivers put_driver].
    rewrite lookup_insert_eq, lookup_insert_ne, lookup_insert_eq by done. done. }
  destruct (ret =? 0); apply Hrest.
Qed.

Lemma probe_step fuel' c h f x g r :
  drivers_linked r → fb_term_init x = x → irq_handlers c = <[0%nat := pit_handler st]> (replicate 16 0) →
  wp R (boot_probe st (S (S (S fuel')))) (early c3 c h f x g r)
    (fun _ b => ∃ c' r', b = early c3 c' h f x g r' ∧ drivers_probed x r' ∧
       irq_handlers c' = <[1%nat := kbd_handler st]> (<[0%nat := pit_handler st]> (replicate 16 0))).
Proof.
  destruct Hst as [Hk Hf Ha]. intros [Hhd (y & Hy & Hyn) (z & Hz & Hzn & Hzp)] Hx Hc. unfold wp, boot_probe.
  change (bt_fb (early _ _ _ _ _ _ _)) with x. change (bt_drivers (early _ _ _ _ _ _ _)) with r.
  assert (fb_probe x = (if g_fb_mem x =? 0 then -1 else 0, x)) as -> by (unfold fb_probe; rewrite Hx; by destruct (_ =? 0)).
  rewrite (driver_at_ok r _ y Hy). cbn [mbind outcome_bind].
  set (y1 := mk_driver _ _ _ _ _). set (r1 := put_driver _ y1 r).
  destruct (probe_both (kbd_driver st) (fb_driver st) r1 y1 z (if g_fb_mem x =? 0 then -1 else 0) fuel')
    as (p & q & r2 & E & Ek & Ef); try done.
  { unfold r1. cbn [drivers put_driver]. by rewrite lookup_insert_eq. }
  { unfold r1. cbn [drivers put_driver]. by rewrite lookup_insert_ne. }
  rewrite E. cbn [mbind outcome_bind]. eexists _, r2. split; [reflexivity|]. split.
  - split; [by eexists|]. eexists. split; [exact Ef|]. by destruct (g_fb_mem x =? 0).
  - cbn [with_handlers irq_handlers irq_register_handler]. by rewrite <- Hc.
Qed.
End Screen.

(** ** The well-formed machine *)

(** File system, processes and scheduler on one heap, their objects apart. *)
Record boot_wf (b : boot pmm) (bs : list blk) (l : list Z) : Prop := mk_boot_wf {
  bw_fs : fs_wf (boot_fs b) bs;
  bw_root : vfs_root (boot_fs b) ≠ 0;
  bw_sys : sys_wf (boot_sys b) bs l;
  bw_apart : ∀ a, is_Some (inodes (boot_fs b) !! a) → procs (boot_sys b) !! a = None;
}.

(** A node of the file system is a block in use. *)
Lemma node_in_use b bs l a :
  boot_wf b bs l → is_Some (inodes (boot_fs b) !! a) → in_use bs a 1.
Proof.
  intros Hb [y Hy]. destruct (sw_node _ _ (fw_store _ _ (bw_fs _ _ _ Hb)) a y Hy) as (c & Hc & Hca & Hsz).
  exists c. unfold TMPFS_INODE_SIZEOF in Hsz. split_and!; [done|done|lia].
Qed.

Lemma sys_wf_grows k s bs l h' bs' :
  sys_wf s bs l → heap_grows k (mm_heap (sys_mmu s)) bs h' bs' →
  sys_wf (with_mmu (on_heap (fun _ => h') (sys_mmu s)) s) bs' l.
Proof.
  intros [Hh Hs Ht Hp] Hg. split; [apply Hg|by apply sched_inv_mmu|done|].
  intros q x Hx. destruct (Hp q x Hx) as [|Hu]; [by left|right]. eapply in_use_mono; [apply Hg|done].
Qed.

(** The file system takes from the heap. *)
Lemma boot_wf_fs k b bs l f' bs' :
  boot_wf b bs l → fs_wf f' bs' → heap_grows k (boot_heap b) bs (fs_heap f') bs' → vfs_root f' ≠ 0 →
  (∀ a, is_Some (inodes f' !! a) → is_Some (inodes (boot_fs b) !! a) ∨ ∀ c, c ∈ used_blocks bs → b_data c ≠ a) →
  boot_wf (put_fs f' b) bs' l.
Proof.
  intros [Hf Hr Hs Hap] Hf' Hg Hr' Hnew. split; [by destruct f'|done|exact (sys_wf_grows _ _ _ _ _ _ Hs Hg)|].
  intros a Ha. destruct (Hnew a Ha) as [Ha'|Hno]; [by apply Hap|].
  destruct (procs (boot_sys b) !! a) as [x|] eqn:Hx; [|exact Hx]. exfalso. destruct Ha as [y Hy].
  destruct (sy_procs _ _ _ Hs a x Hx) as [->|(c & Hc & Hca & _)]; [|by apply (Hno c)].
  pose proof (sw_node _ _ (fw_store _ _ Hf') _ _ Hy) as Hin.
  by destruct (in_use_address bs' IDLE_PROC _ _ (hg_inv _ _ _ _ _ Hg) Hin).
Qed.

(** The process system does. *)
Lemma boot_wf_sys k b bs l s' bs' l' :
  boot_wf b bs l → sys_wf s' bs' l' → heap_grows k (boot_heap b) bs (mm_heap (sys_mmu s')) bs' →
  (∀ a, in_use bs a 1 → procs (boot_sys b) !! a = None → procs s' !! a = None) →
  boot_wf (put_sys s' b) bs' l'.
Proof.
  intros Hb Hs' Hg Hold. pose proof Hb as [Hf Hr Hs Hap].
  split; [by apply (fs_wf_grows k (boot_heap b) bs)|done|exact Hs'|].
  intros a Ha. apply Hold; [by apply (node_in_use b bs l)|by apply Hap].
Qed.

(** The first process, as [kmain] leaves it. *)
Record init_ready (st : statics) (s : sys pmm) (p : Z) : Prop := mk_init_ready {
  ir_slot : proc_get 1 s = p;
  ir_proc : ∃ x, procs s !! p = Some x ∧ pid x = 1 ∧ state x = PROC_READY ∧ name x = "init"%string ∧
    rip (context x) = init_main_addr st ∧ flags x = PROC_FLAG_KERNEL ∧ vruntime x = 0;
}.

(** The idle process has not been charged a tick. *)
Definition idle_fresh (s : sys pmm) : Prop :=
  ∃ x, procs s !! IDLE_PROC = Some x ∧ state x = PROC_READY ∧ runtime_ticks x = 0 ∧ pid x = 0.

(** The machine at the idle loop of [kmain]. *)
Record booted (st : statics) (es : list mmap_entry) (m : mem) (mb2 : Z) (b : boot pmm) : Prop := mk_booted {
  bo_wf : ∃ bs p, boot_wf b bs [p] ∧ init_ready st (boot_sys b) p ∧ slot_free (boot_sys b) ∧ (length bs ≤ 7)%nat ∧
    spares es (boot_heap b) bs;
  bo_fs : fresh_fs (boot_fs b);
  bo_idle : current (rq (boot_sys b)) = IDLE_PROC ∧ idle_fresh (boot_sys b);
  bo_handlers : handlers_ready (pit_handler st) (kbd_handler st) (bt_machine b);
  bo_syscalls : table_ready (m_kern (bt_machine b));
  bo_drivers : drivers_probed st (boot_fb b) (bt_drivers b);
  bo_screen : screen_up es m mb2 (boot_fb b) (kh_mem (boot_heap b));
  bo_irqs : bt_irqs_on b = true;
  bo_keys : kbd_inv (m_kbd (bt_machine b));
  bo_parked : m_parked (bt_machine b) = ∅;
}.

(** What init still needs after [kmain]: two more processes' worth of pages. *)
Definition INIT_PAGES : Z := 5.
Definition INIT_BYTES : Z := 61920.

Section Processes.
Context (st : statics) (c3 : Z) (es : list mmap_entry) (m : mem) (mb2 : Z) (R : Prop).

Definition late (s : sys pmm) (tbl : list (option syscall_fn)) (c : cpu) (f : fs pmm) (x : fb)
    (g : gdt_state) (r : registry) : boot pmm :=
  mk_boot (mk_machine (mk_kern s [] tbl) kbd_static 0 c ∅) f x g r false.

Definition idle_table : list Z := IDLE_PROC :: replicate 1023 0.

Lemma idle_step c h bs f x g r n N :
  kheap_inv h bs → 0 ≤ n → funded R (n + STACK_PAGES) N h →
  wp R (on_boot_sys (proc_init (idle_task st))) (early c3 c h f x g r)
    (fun _ b => ∃ h' idle, heap_grows 0 h bs h' bs ∧ (state idle = PROC_READY ∧ runtime_ticks idle = 0 ∧ pid idle = 0) ∧
       b = late (mk_sys {[IDLE_PROC := idle]} idle_table 1 (mk_rq 0 0 0 0 0) [] (mk_mmu h' c3 []))
             (replicate 128 None) c f x g r ∧ funded R n N h').
Proof.
  intros Hi Hn Hc. apply wp_zoom. set (s0 := boot_sys _).
  eapply wp_mono; [apply (wp_pays R _ _ (fun _ s => ∃ h' idle, heap_grows 0 h bs h' bs ∧ (state idle = PROC_READY ∧ runtime_ticks idle = 0 ∧ pid idle = 0) ∧
      s = mk_sys {[IDLE_PROC := idle]} idle_table 1 (mk_rq 0 0 0 0 0) [] (mk_mmu h' c3 []))
      (fun _ s => credited n N (mm_heap (sys_mmu s))))|].
  - unfold wp, proc_init. change (mm_pages (sys_mmu s0)) with (kh_pages h).
    pose proof (alloc_pages_spec (KERNEL_STACK_SIZE / PAGE_SIZE) (kh_pages h) (ki_pages _ _ Hi)
      ltac:(by unfold KERNEL_STACK_SIZE, PAGE_SIZE)) as Hg.
    destruct (alloc_pages _ (kh_pages h)) as [[stack p]| | |]; [|done..]. cbn [mbind outcome_bind].
    eexists (with_pages p h), _. split; [by eapply grabbed_grows|]. split; [|reflexivity]. by split_and!.
  - destruct Hc as [|Hc]; [by left|right]. exists tt. by apply (proc_init_pays (idle_task st) s0).
  - cbn beta. intros [] s [(h' & idle & Hg & Hst & ->) Hc']. by exists h', idle.
Qed.

(** With the scheduler on, the idle process runs and the queue is empty. *)
Lemma idle_sched_inv idle (mm : mmu pmm) :
  state idle = PROC_READY →
  sched_inv (sched_init (mk_sys {[IDLE_PROC := idle]} idle_table 1 (mk_rq 0 0 0 0 0) [] mm)) [].
Proof.
  intros Hst. set (s := sched_init _).
  assert (is_Some (procs s !! IDLE_PROC)) as Hidle by (exists idle; apply lookup_singleton_eq).
  split.
  - by split; [| | |apply NoDup_nil|].
  - right. exact Hidle.
  - done.
  - intros i Hi. unfold proc_get. destruct (Z.leb_spec MAX_PROCESSES i); [by left|]. unfold MAX_PROCESSES in *.
    change (proc_table s) with idle_table. unfold idle_table. destruct (Z.to_nat i) as [|k] eqn:E.
    + right. exact Hidle.
    + left. change ((IDLE_PROC :: replicate 1023 0) !!! S k) with (replicate 1023 0 !!! k). apply lookup_total_replicate_2. lia.
  - intros p y Hy. change (procs s) with ({[IDLE_PROC := idle]} : gmap Z process) in Hy.
    apply lookup_singleton_Some in Hy as [<- <-]. congruence.
Qed.

Lemma same_core_lookup {A} (s s' : sys A) q x :
  same_core s s' → procs s !! q = Some x → ∃ y, procs s' !! q = Some y ∧ core y = core x.
Proof.
  intros Hc Hx. specialize (Hc q). rewrite Hx in Hc. destruct (procs s' !! q) as [y|]; [|done].
  exists y. split; [done|]. cbn in Hc. congruence.
Qed.

Lemma init_step fuel s bs idle tbl c f x g r n N :
  sys_wf s bs [] → procs s = {[IDLE_PROC := idle]} → state idle = PROC_READY ∧ runtime_ticks idle = 0 ∧ pid idle = 0 →
  proc_table s = idle_table → (length bs + 5 ≤ fuel)%nat →
  0 ≤ n → 0 ≤ N → funded R (n + PROC_PAGES) (N + PROC_COST) (mm_heap (sys_mmu s)) →
  wp R (boot_init_process st fuel) (late s tbl c f x g r)
    (fun _ b => ∃ s' bs' p, b = late s' tbl c f x g r ∧
       heap_grows 4 (mm_heap (sys_mmu s)) bs (mm_heap (sys_mmu s')) bs' ∧ sys_wf s' bs' [p] ∧
       init_ready st s' p ∧ slot_free s' ∧ (current (rq s') = current (rq s) ∧ idle_fresh s') ∧
       (∀ a, in_use bs a 1 → procs s' !! a = None) ∧ funded R n N (mm_heap (sys_mmu s'))).
Proof.
  intros Hs Hp Hidle Ht Hf Hn' HN Hc0. unfold boot_init_process. apply wp_bind, wp_zoom. change (boot_sys (late _ _ _ _ _ _ _)) with s.
  assert (slot_free s) as Hfree by (exists 1; rewrite Ht; by split; [unfold MAX_PROCESSES; lia|]).
  eapply wp_mono; [by apply (thread_spec R n N)|]. cbn beta. intros p s1 [(bs' & Hg & Hs1 & Hc) Hc1].
  destruct Hc as [(-> & _)|(Hnz & _ & Hnone & Hold & Hcr)]; [by destruct Hc1 as [|[? _]]|].
  destruct (Z.eqb_spec p 0); [done|]. apply wp_zoom. change (boot_sys (put_sys s1 _)) with s1.
  destruct (cr_proc _ _ _ _ _ _ _ _ Hcr) as (y & Ey & Hpid & Hst & Hn & Hfl & _ & Hvr & _ & _ & Hrip & _).
  assert (procs s1 !! p = Some y) as Hy by (by rewrite Ey, lookup_insert_eq).
  rewrite Ht in Hcr, Hpid. change (free_slot idle_table) with 1 in Hcr, Hpid.
  eapply wp_mono; [apply (enqueue_spec R p y s1 bs' [] Hs1 Hy Hst Hnz); [by intros H%elem_of_nil|done]|].
  cbn beta. intros _ s' (Hs' & Hcore & Hm & Htab & Hcur). exists s', bs', p.
  split; [done|]. split; [by rewrite Hm|]. split; [done|]. split; [|split; [|split; [|split]]].
  - destruct (same_core_lookup s1 s' p y Hcore Hy) as (z & Hz & Hcz). split.
    + unfold proc_get. cbn [Z.leb MAX_PROCESSES]. rewrite Htab, (cr_table _ _ _ _ _ _ _ _ Hcr), Ht. done.
    + exists z. split; [done|].
      change (pid z) with (pid (core z)). change (state z) with (state (core z)). change (name z) with (name (core z)).
      change (context z) with (context (core z)). change (flags z) with (flags (core z)).
      change (vruntime z) with (vruntime (core z)). by rewrite Hcz.
  - exists 2. rewrite Htab, (cr_table _ _ _ _ _ _ _ _ Hcr), Ht. by split; [unfold MAX_PROCESSES; lia|].
  - split; [by rewrite Hcur, (cr_queue _ _ _ _ _ _ _ _ Hcr)|].
    assert (p ≠ IDLE_PROC) as Hne by (intros ->; by rewrite Hp, lookup_singleton_eq in Hnone).
    assert (procs s1 !! IDLE_PROC = Some idle) as H1 by (by rewrite Ey, lookup_insert_ne, Hp, lookup_singleton_eq).
    destruct (same_core_lookup s1 s' IDLE_PROC idle Hcore H1) as (z & Hz & Hcz). exists z. split; [done|].
    change (state z) with (state (core z)). change (runtime_ticks z) with (runtime_ticks (core z)).
    change (pid z) with (pid (core z)). by rewrite Hcz.
  - intros a Ha. specialize (Hcore a). rewrite Ey, lookup_insert_ne, Hp, lookup_singleton_ne in Hcore.
    + by destruct (procs s' !! a).
    + intros <-. by destruct (in_use_address bs IDLE_PROC 1 _ (sy_heap _ _ _ Hs) Ha).
    + apply not_eq_sym, Hold, Ha.
  - rewrite Hm. destruct Hc1 as [|[_ Hc1]]; [by left|by right].
Qed.
End Processes.

Lemma wp_modify R (f : boot pmm → boot pmm) b (Q : unit → boot pmm → Prop) : Q tt (f b) → wp R (modify f) b Q.
Proof. done. Qed.

Lemma gdt_step R (st : statics) c3 c h f x g r :
  wp R (modify (fun b : boot pmm => put_gdt (gdt_init (st_gdt st) (st_tss st) (bt_gdt b)) b)) (early c3 c h f x g r)
    (fun _ b => ∃ g', b = early c3 c h f x g' r).
Proof. eapply wp_ok; [reflexivity|]. by eexists. Qed.

(** The last steps of [kmain], from the empty process table on. *)
#[local] Abbreviation kmain_rest st fuel :=
  (_ ← on_boot_sys (proc_init (idle_task st));
   _ ← modify (fun b => put_sys (sched_init (boot_sys b)) b);
   _ ← modify (fun b => put_machine (put_kern (syscall_init (m_kern (bt_machine b))) (bt_machine b)) b);
   _ ← boot_init_process st fuel;
   modify irq_enable) (only parsing).

Lemma kmain_rest_spec R st c3 fuel es m mb2 c h bs f x g r :
  fs_wf (fs_with_heap h f) bs → fresh_fs f → spares es h bs → screen_up es m mb2 x (kh_mem h) →
  drivers_probed st x r →
  irq_handlers c = <[1%nat := kbd_handler st]> (<[0%nat := pit_handler st]> (replicate 16 0)) →
  (length bs ≤ 3)%nat → (8 ≤ fuel)%nat → funded R 14 (INIT_BYTES + PROC_COST) h →
  wp R (kmain_rest st fuel) (early c3 c h f x g r)
    (fun _ b => booted st es m mb2 b ∧ funded R INIT_PAGES INIT_BYTES (boot_heap b)).
Proof.
  intros Hfs Hff Hs Hup Hdr Hc Hlen Hf Hcr.
  eapply wp_step; [apply (idle_step _ _ _ _ _ bs _ _ _ _ 10 (INIT_BYTES + PROC_COST)); [apply (fw_heap _ _ Hfs)|lia|exact Hcr]|]; cbn beta.
  intros _ ? (h1 & idle & Hg1 & Hidle & -> & Hcr1).
  apply wp_bind, wp_modify.
  set (s1 := sched_init (mk_sys {[IDLE_PROC := idle]} idle_table 1 (mk_rq 0 0 0 0 0) [] (mk_mmu h1 c3 []))).
  assert (sys_wf s1 bs []) as Hs1.
  { split; [apply Hg1|by apply idle_sched_inv, Hidle|done|].
    intros q y Hy. left. change (procs s1) with ({[IDLE_PROC := idle]} : gmap Z process) in Hy.
    by apply lookup_singleton_Some in Hy as [<- _]. }
  change (put_sys _ _) with (late s1 (replicate 128 None) c f x g r). apply wp_bind, wp_modify.
  set (tbl := syscall_table (syscall_init (mk_kern s1 [] (replicate 128 None)))).
  change (put_machine _ _) with (late s1 tbl c f x g r).
  eapply wp_step; [apply (init_step st R fuel s1 bs idle _ _ _ _ _ _ INIT_PAGES INIT_BYTES); [done|done|done|done|lia|done|done|exact Hcr1]|]; cbn beta.
  intros _ ? (s2 & bs2 & p & -> & Hg2 & Hs2 & Hinit & Hslot & Hcur & Hapart & Hcr2). apply wp_modify. split; [|exact Hcr2].
  assert (heap_grows 4 h bs (mm_heap (sys_mmu s2)) bs2) as Hg by (by apply (heap_grows_trans 0 4 4 _ _ _ _ _ _ Hg1)).
  destruct (spares_grows _ _ _ _ _ Hs (hg_foreign _ _ _ _ _ Hg)) as [Hsp Hm].
  split; try done.
  - exists bs2, p. pose proof (hg_len _ _ _ _ _ Hg). split; [|split_and!; [done|done|lia|exact Hsp]]. split; [by eapply fs_wf_grows|apply Hff|done|].
    intros a [y Hy]. apply Hapart. destruct (sw_node _ _ (fw_store _ _ Hfs) a y Hy) as (k & Hk & Ha & Hsz).
    exists k. unfold TMPFS_INODE_SIZEOF in Hsz. split_and!; [done|done|lia].
  - destruct Hff. by split.
  - destruct Hdr. by split.
  - change (screen_up es m mb2 x (kh_mem (mm_heap (sys_mmu s2)))).
    apply (screen_up_frame _ _ _ _ (kh_mem h)); [done|apply Hg|done].
Qed.

Lemma kmain_spec (R : Prop) (dev : nat → Z → Z) (st : statics) (fuel : nat) (m : mem) (mb2 c3 : Z)
    (es : list mmap_entry) (p : ports)
    (Hld : loader fuel m mb2 es) (Hst : statics_ok st) (Hf : (8 ≤ fuel)%nat) (Hmem : R ∨ enough_memory es) :
  wp R (kmain dev st (S fuel) mb2) (power_on st m c3 p)
    (fun _ b => booted st es m mb2 b ∧ funded R INIT_PAGES INIT_BYTES (boot_heap b)).
Proof.
  pose proof (ld_bytes _ _ _ _ Hld) as Hby.
  unfold power_on. cbv zeta.
  assert (pmm_last_free_hint pmm_static = 0) as Hhint by done. revert Hhint. generalize pmm_static. intros p0 Hhint.
  set (h0 := mk_kheap m p0 0 0 0 0). set (c0 := mk_cpu _ _ _ _). set (g0 := mk_gdt_state _ _ _ _).
  change (mk_boot _ _ _ _ _ _) with (early c3 c0 h0 (mk_fs h0 ∅ 1 0 [] []) (fb_static m) g0 (static_registry st)).
  unfold kmain.
  eapply wp_step; [apply serial_step|]; cbn beta. intros _ ? (c1 & ->).
  eapply wp_step; [apply gdt_step|]; cbn beta. intros _ ? (g1 & ->).
  eapply wp_step; [apply idt_step|]; cbn beta. intros _ ? (c2 & -> & Hc2).
  eapply wp_step; [by apply pmm_step|]; cbn beta. intros _ ? (p1 & -> & Hp & Hp0 & Hs0 & Hr0).
  eapply wp_step; [by apply (kheap_step _ _ _ es)|]; cbn beta. intros _ ? (h1 & bs1 & -> & Hi1 & Hlen & _ & Hs1 & Hm1 & Hr1).
  eapply wp_step; [by apply pit_step|]; cbn beta. intros _ ? (c4 & -> & Hc4).
  eapply wp_step; [apply (filesystem_step _ _ _ _ es _ _ _ _ _ _ _ 14 (INIT_BYTES + PROC_COST) Hi1 Hs1); [lia|done|exact Hr1]|]; cbn beta.
  intros _ ? (h2 & bs2 & f & -> & Hfs & Hff & Hlen2 & Hs2 & Hm2 & Hr2).
  eapply wp_step; [by apply drivers_step|]; cbn beta. intros _ ? (r1 & -> & Hk1).
  eapply wp_step; [apply (framebuffer_step fuel m mb2 es Hld c3 R c4 h2 bs2 f m g1 r1 14 (INIT_BYTES + PROC_COST) (fw_heap _ _ Hfs) Hs2); [by eapply same_reserved_trans|exact Hr2]|]; cbn beta.
  intros _ ? (h3 & x & -> & Hi3 & Hs3 & Hx & Hup & Hr3).
  destruct fuel as [|[|fuel']]; [lia..|].
  eapply wp_step; [by apply probe_step|]; cbn beta. intros _ ? (c5 & r2 & -> & Hk2 & Hc5).
  assert (length bs2 ≤ 3 ∧ 8 ≤ S (S (S fuel')))%nat as [Hl2 Hfuel] by (clear -Hf Hlen Hlen2; lia).
  exact (kmain_rest_spec R st c3 (S (S (S fuel'))) es m mb2 c5 h3 bs2 f x g1 r2
    (fs_wf_heap _ _ _ _ Hfs Hi3) Hff Hs3 Hup Hk2 Hc5 Hl2 Hfuel Hr3).
Qed.

Lemma booted_mapped fuel m mb2 es st b :
  loader fuel m mb2 es → booted st es m mb2 b → ∀ bs, kheap_inv (boot_heap b) bs → heap_mapped bs.
Proof.
  intros Hld Hb bs Hi. destruct (bo_wf _ _ _ _ _ Hb) as (bs' & p & Hwf & _ & _ & _ & Hs).
  rewrite (kheap_inv_unique _ _ _ Hi (sy_heap _ _ _ (bw_sys _ _ _ Hwf))).
  by apply (spares_mapped fuel m mb2 es (boot_heap b)); [|apply (bw_sys _ _ _ Hwf)|].
Qed.

(** (C3) [kmain] on a machine a boot loader hands over as [loader] asks: the tags form a
    well-formed chain that lies in memory [pmm_init] leaves alone (reported as reserved,
    or the low 1 MiB), the frame buffer, if there is one, has 32-bit pixels, and memory
    and screen lie in the first GiB, which boot.asm maps.  Multiboot2 promises only the
    chain: see [tags_overwritten] for what happens when the tags lie in free memory.
    Then [kmain] reaches its idle loop on a well-formed machine, and panics only if the
    memory map has no 30 free pages in a row: at the idle loop the file system has an
    empty root, init is process 1, READY at [init_main] and the only one queued while
    the idle process runs, all objects are apart on one well-formed heap in mapped
    memory, the timer and keyboard handlers and the system calls are in place, the
    drivers are probed, the terminal is empty on the screen the boot loader gave, and
    interrupts are on. *)
Theorem kmain_boots (dev : nat → Z → Z) (st : statics) (fuel : nat) (m : mem) (mb2 c3 : Z)
    (es : list mmap_entry) (p : ports)
    (Hld : loader fuel m mb2 es) (Hst : statics_ok st) (Hf : (8 ≤ fuel)%nat) :
  wp (¬ enough_memory es) (kmain dev st (S fuel) mb2) (power_on st m c3 p)
    (fun _ b => booted st es m mb2 b ∧ ∀ bs, kheap_inv (boot_heap b) bs → heap_mapped bs).
Proof.
  apply wp_not.
  - eapply wp_mono; [exact (kmain_spec True dev st fuel m mb2 c3 es p Hld Hst Hf (or_introl I))|].
    intros _ b [Hb _]. split; [done|]. by apply (booted_mapped fuel m mb2 es st).
  - intros He. eapply wp_mono; [exact (kmain_spec False dev st fuel m mb2 c3 es p Hld Hst Hf (or_intror He))|].
    intros _ b [Hb _]. split; [done|]. by apply (booted_mapped fuel m mb2 es st).
Qed.

(** ** A concrete boot

    4 MiB of memory and a frame buffer of 32 by 32 pixels. *)
Definition small_boot : mem := mem_image 36864
  [88; 0;  6; 40; 24; 0;  0; 0; 4194304; 0; 1; 0;
   8; 32; 1023410176; 0; 128; 32; 32; 32;  0; 8].
Definition sample_statics : statics :=
  mk_statics 16777216 16777280 16781312 (fun n => 16790000 + 16 * n) (fun n => 16800000 + 16 * n)
    16810000 16810016 16810032 16810048 16810064 16810080 16810096 16810112 16810128.

Definition small_entries : list mmap_entry := [mk_mmap_entry 0 4194304 1].

Lemma small_boot_tags : tags_wf small_boot (36864 + load32 small_boot 36864) (36864 + 8).
Proof.
  apply tags_next; [vm_compute; split; discriminate|intros _; vm_compute; discriminate|].
  apply tags_next; [vm_compute; split; discriminate|intros H; vm_compute in H; discriminate H|].
  apply tags_end. vm_compute. reflexivity.
Qed.

Lemma small_boot_reaches t :
  reaches small_boot (36864 + load32 small_boot 36864) (36864 + 8) t → t = 36872 ∨ t = 36912.
Proof.
  intros H. inversion H as [|q1 q2 _ _ H1]; subst; [by left|]. change (36864 + 8 + _) with 36912 in H1.
  inversion H1 as [|q3 q4 _ _ H2]; subst; [by right|]. change (36912 + _) with 36944 in H2.
  inversion H2 as [? _ Hz|? ? _ Hz _]; subst; by destruct Hz.
Qed.

Lemma small_reserved x :
  0 ≤ x < 1048576 ∨ 4194304 ≤ x → reserved small_entries x.
Proof.
  intros Hx Hq. unfold boot_used, reported_available, small_entries, avail_covers. cbn [existsb base_addr length_ type_].
  change (0 / PAGE_SIZE + 4194304 / PAGE_SIZE) with 1024. change (1 =? MB2_MMAP_TYPE_AVAILABLE) with true.
  assert (x / PAGE_SIZE < 256 ∨ 1024 ≤ x / PAGE_SIZE) by (unfold PAGE_SIZE in *; Z.div_mod_to_equations; lia).
  zcases; (done || lia).
Qed.

Lemma small_loader : loader 12 small_boot 36864 small_entries.
Proof.
  assert (load32 small_boot 36864 = 88) as Hsz by (vm_compute; reflexivity).
  split; rewrite ?Hsz.
  - apply mem_image_bytes.
  - lia.
  - rewrite <- Hsz. exact small_boot_tags.
  - lia.
  - vm_compute. reflexivity.
  - by repeat constructor.
  - intros x Hx. apply small_reserved. lia.
  - unfold MAPPED. lia.
  - intros q Hq. change (MAPPED / PAGE_SIZE) with 262144 in Hq. pose proof (small_reserved (q * PAGE_SIZE)) as Hr.
    unfold reserved in Hr. rewrite Z.div_mul in Hr by done. unfold PAGE_SIZE in Hr. apply Hr; lia.
  - intros t Ht. rewrite <- Hsz in Ht. apply small_boot_reaches in Ht as [->| ->].
    { intros H. vm_compute in H. discriminate H. }
    intros _. right. replace (fb_info_of_tag small_boot 36912) with (mk_fb_info 1023410176 128 32 32 32 0)
      by (vm_compute; reflexivity).
    split; [by split|]. split; [done|]. split; [done|]. split; [done|]. intros x Hx. apply small_reserved. cbn in Hx. lia.
Qed.

Lemma small_memory : enough_memory small_entries.
Proof.
  exists 256. unfold PAGE_LIMIT. split; [lia|]. split; [lia|]. intros q Hq.
  unfold boot_used, reported_available, small_entries, avail_covers. cbn [existsb base_addr length_ type_].
  change (0 / PAGE_SIZE + 4194304 / PAGE_SIZE) with 1024. change (1 =? MB2_MMAP_TYPE_AVAILABLE) with true.
  change (0 / PAGE_SIZE) with 0. zcases; (done || lia).
Qed.

Lemma small_booted :
  ∃ b, kmain (fun _ _ => 0) sample_statics 13 36864 (power_on sample_statics small_boot 0 (mk_ports 0 [])) = Ok (tt, b) ∧
    booted sample_statics small_entries small_boot 36864 b ∧ credited INIT_PAGES INIT_BYTES (boot_heap b).
Proof.
  destruct (wp_false _ _ _ (kmain_spec False (fun _ _ => 0) sample_statics 12 small_boot 36864 0 small_entries (mk_ports 0 [])
    small_loader ltac:(split; discriminate) ltac:(lia) (or_intror small_memory))) as ([] & b & E & Hb & [[]|Hc]).
  exists b. exact (conj E (conj Hb Hc)).
Qed.

Lemma kmain_boots_witness :
  loader 12 small_boot 36864 small_entries ∧ enough_memory small_entries ∧
  ∃ b, kmain (fun _ _ => 0) sample_statics 13 36864 (power_on sample_statics small_boot 0 (mk_ports 0 [])) = Ok (tt, b) ∧
    booted sample_statics small_entries small_boot 36864 b ∧ ∀ bs, kheap_inv (boot_heap b) bs → heap_mapped bs.
Proof.
  split; [exact small_loader|]. split; [exact small_memory|].
  apply (wp_run_ok (enough_memory small_entries)); [exact small_memory|].
  exact (kmain_boots (fun _ _ => 0) sample_statics 12 small_boot 36864 0 small_entries (mk_ports 0 [])
    small_loader ltac:(split; discriminate) ltac:(lia)).
Defined.

(** The same information at 1 MiB, in memory the loader reports as available: the heap
    takes that page and its first header overwrites the structure.  Step 9 then reads a
    tag of size 0 there, and the loop of [mb2_find_tag] does not advance. *)
Example tags_overwritten :
  let image at_ := mem_image at_
    [88; 0;  6; 40; 24; 0;  0; 0; 4194304; 0; 1; 0;
     8; 32; 1023410176; 0; 128; 32; 32; 32;  0; 8] in
  let screen (fuel : nat) (at_ : Z) := (fun x => g_fb_mem (bt_fb x.2)) <$>
     kmain (fun _ _ => 0) sample_statics fuel at_ (power_on sample_statics (image at_) 0 (mk_ports 0 [])) in
  (screen 13%nat 36864, screen 13%nat 1048576, screen 200%nat 1048576) = (Ok 1023410176, Diverge, Diverge).
Proof. vm_compute. reflexivity. Qed.
