(* ===== verification/InitSpec.v ===== *)
(** * The first process

    [init_main] makes the directories of the root and starts the shell.  [flat] is
    the shape of the file system while it does: directories below the root, all
    empty. *)
From S2P Require Import Prelude Mem LibString PageAlloc Pmm Kheap KheapInv KheapSpec KmallocSpec Paging Process ProcessSpec SchedSpec ProcCreateSpec HeapCredit.
From S2P Require Import Fs FsSpec Keyboard Driver Rtc PortIO Serial Gdt Idt Font Framebuffer FramebufferSpec Syscall SyscallSpec Interrupts Boot CreditSpec BootSpec KmainSpec.

(** ** Directories below the root *)

Record flat (f : gmap Z inode) (root : Z) (k : nat) : Prop := mk_flat {
  fl_root : ∃ x, f !! root = Some x ∧ (root ∉ i_children x) ∧ (length (i_children x) ≤ k)%nat;
  fl_dirs : ∀ a x, f !! a = Some x → i_type x = VFS_DIRECTORY;
  fl_empty : ∀ a x, f !! a = Some x → a ≠ root → i_children x = [];
}.

Lemma flat_add f root k child p name mode ino :
  flat f root k → f !! root = Some p → f !! child = None →
  flat (add_child root child p (new_dir name mode ino) f) root (S k).
Proof.
  intros [(x & Hx & Hni & Hlen) Hd He] Hp Hc. assert (x = p) as -> by congruence.
  assert (child ≠ root) as Hne by congruence. split.
  - eexists. rewrite add_child_at, decide_True by done. split; [done|]. cbn [set_i_children i_children].
    rewrite length_app, elem_of_app, list_elem_of_singleton. cbn. split; [intros [?|?]; congruence|lia].
  - intros a y. rewrite add_child_at. repeat case_decide; [intros [= <-]; cbn; by eapply Hd|by intros [= <-]|apply Hd].
  - intros a y. rewrite add_child_at. repeat case_decide; [done|by intros [= <-]|apply He].
Qed.

(** Nothing is found two levels below the root. *)
Lemma flat_depth f root k c1 c2 cs : flat f root k → walk f root (c1 :: c2 :: cs) = None.
Proof.
  intros [(x & Hx & Hni & _) _ He]. change (walk f root (c1 :: c2 :: cs)) with
    (c ← lookup_child f root c1; d ← lookup_child f c c2; walk f d cs).
  destruct (lookup_child f root c1) as [c|] eqn:E; [|done]. cbn [mbind option_bind].
  unfold lookup_child in E. rewrite Hx in E. cbn [mbind option_bind] in E.
  apply fmap_Some in E as ([i c'] & E & ->). apply list_find_Some in E as (Hi & _). cbn [snd].
  assert (c' ≠ root) as Hne by (intros ->; by apply Hni, list_elem_of_lookup; exists i).
  unfold lookup_child. destruct (f !! c') as [y|] eqn:Hy; [|done]. cbn [mbind option_bind].
  by rewrite (He _ _ Hy Hne).
Qed.

(** Throughout, [R] is what it means to run out of memory. *)
Section Run.
Context (R : Prop).

(** The result of one call of [vfs_mkdir]: out of memory, or the name is there. *)
Definition made (f : gmap Z inode) (root : Z) (name : list Z) (r : Z) : Prop :=
  (R ∧ r = -12) ∨ r = 0 ∧ ∃ n, walk f root [name] = Some n.

Definition root_path (name : list Z) : list Z := path_body [name].

(** What making directories does to a file system with blocks [bs]. *)
Record grown (k : nat) (f : fs pmm) (bs : list blk) (f' : fs pmm) (bs' : list blk) : Prop := mk_grown {
  gr_wf : fs_wf f' bs';
  gr_heap : heap_grows (2 * k) (fs_heap f) bs (fs_heap f') bs';
  gr_root : vfs_root f' = vfs_root f;
  gr_keep : ∀ cs n, walk (inodes f) (vfs_root f) cs = Some n → walk (inodes f') (vfs_root f') cs = Some n;
  gr_new : ∀ a, is_Some (inodes f' !! a) → is_Some (inodes f !! a) ∨ ∀ c, c ∈ used_blocks bs → b_data c ≠ a;
}.

Lemma grown_refl f bs : fs_wf f bs → grown 0 f bs f bs.
Proof. intros Hf. split; try done; [apply heap_grows_refl, Hf|auto]. Qed.

Lemma grown_trans k1 k2 f1 b1 f2 b2 f3 b3 :
  grown k1 f1 b1 f2 b2 → grown k2 f2 b2 f3 b3 → grown (k1 + k2) f1 b1 f3 b3.
Proof.
  intros [H1 H2 H3 H4 H5] [G1 G2 G3 G4 G5]. split; [done| |congruence|auto|].
  - eapply heap_grows_trans; [done..|lia].
  - intros a [Ha|Ha]%G5; [by apply H5|]. right. intros c Hc. by apply Ha, H2.
Qed.

Lemma mkdir_spec fuel name mode f bs k n N :
  fs_wf f bs → vfs_root f ≠ 0 → flat (inodes f) (vfs_root f) k → (k < 64)%nat → (length bs + 3 ≤ fuel)%nat →
  creatable [] name → Z.of_nat (length name) ≤ VFS_NAME_MAX → 0 ≤ N → funded R n (N + DIR_COST) (fs_heap f) →
  wp R (vfs_mkdir fuel (root_path name) mode) f (fun r f' => ∃ bs', grown 1 f bs f' bs' ∧
    flat (inodes f') (vfs_root f') (S k) ∧ made (inodes f') (vfs_root f') name r ∧ funded R n N (fs_heap f')).
Proof.
  intros Hf Hr Hfl Hk Hfuel Hc Hn HN Hcr. destruct (fl_root _ _ _ Hfl) as (p & Hp & Hni & Hlen).
  eapply wp_mono; [apply (wp_pays R _ _ (fun r f' => ∃ bs', grown 1 f bs f' bs' ∧
      flat (inodes f') (vfs_root f') (S k) ∧ (r = -12 ∨ r = 0 ∧ ∃ n, walk (inodes f') (vfs_root f') [name] = Some n))
      (fun r f' => r = 0 ∧ credited n N (fs_heap f')))|].
  2: { destruct Hcr as [|Hcr]; [by left|right].
       destruct (vfs_mkdir_pays fuel [] name mode f bs (vfs_root f) p n N Hf Hr Hc eq_refl Hp) as (f' & E & Hc'); try done.
       - unfold TMPFS_MAX_CHILDREN. lia.
       - by exists 0, f'. }
  2: { cbn beta. intros r f' [(bs' & Hg & Hfl' & Hm) Hpay]. exists bs'. split_and!; [done|done| |].
       - destruct Hm as [->|Hm]; [|by right]. destruct Hpay as [|[? _]]; [by left|done].
       - destruct Hpay as [|[_ ?]]; [by left|by right]. }
  unfold wp.
  pose proof (vfs_mkdir_spec fuel [] name mode f bs (vfs_root f) p Hf Hr Hfuel Hc Hn eq_refl Hp) as Hm.
  change (path_body ([] ++ [name])) with (root_path name) in Hm.
  destruct (vfs_mkdir _ _ _ _) as [[r f']| | |]; [|done..].
  destruct Hm as [(_ & _ & Hfull)|[(-> & Hwf & Hi & Hroot & Hg)|(child & bs' & -> & Hwf & Hg & Hroot & Hnew & Hfresh & _ & Hi & Hkeep & Hres)]].
  - unfold TMPFS_MAX_CHILDREN in Hfull. lia.
  - exists bs. split; [split; rewrite ?Hi, ?Hroot; try done; auto|]. rewrite Hi, Hroot. split; [|by left].
    destruct Hfl as [H1 H2 H3]. split; try done. exists p. split_and!; [done..|lia].
  - exists bs'. split; [|split].
    + split; try done. intros a Ha. rewrite Hi, add_child_at in Ha. repeat case_decide; subst; eauto.
    + rewrite Hi, Hroot. by apply flat_add.
    + right. split; [done|]. destruct (walk (inodes f) (vfs_root f) [name]) as [n0|] eqn:E; [eauto|].
      specialize (Hres E). rewrite <- (app_nil_r (root_path name)) in Hres. unfold root_path in Hres.
      pose proof Hc as [H1 H2 H3 H4 H5].
      rewrite resolve_spec in Hres; [|apply Hwf|by rewrite Hroot| | |by left|by rewrite app_nil_r].
      * destruct (walk _ _ [name]) as [n0|]; [by exists n0|]. cbn in Hres. injection Hres as <-.
        pose proof (tw_null _ _ (fw_tree _ _ Hwf)) as Hz. rewrite Hi, add_child_at in Hz.
        by repeat case_decide.
      * by constructor.
      * unfold ends_named. cbn. congruence.
Qed.

Lemma made_keep f root f' root' name r :
  (∀ cs n, walk f root cs = Some n → walk f' root' cs = Some n) → made f root name r → made f' root' name r.
Proof. intros Hk [[? ->]|[-> (n & Hn)]]; [by left|right]. split; [done|]. exists n. by apply Hk. Qed.

(** [make_dirs] on names below the root. *)
Definition dir_ok (d : list Z * Z) : Prop := creatable [] d.1 ∧ Z.of_nat (length d.1) ≤ VFS_NAME_MAX.

Lemma make_dirs_spec fuel ds f bs k n N :
  fs_wf f bs → vfs_root f ≠ 0 → flat (inodes f) (vfs_root f) k → (k + length ds ≤ 64)%nat →
  (length bs + 2 * length ds + 3 ≤ fuel)%nat → Forall dir_ok ds →
  0 ≤ N → funded R n (N + Z.of_nat (length ds) * DIR_COST) (fs_heap f) →
  wp R (make_dirs fuel ((fun d => (root_path d.1, d.2)) <$> ds)) f (fun rs f' => ∃ bs', grown (length ds) f bs f' bs' ∧
    flat (inodes f') (vfs_root f') (k + length ds) ∧
    Forall2 (fun d r => made (inodes f') (vfs_root f') d.1 r) ds rs ∧ funded R n N (fs_heap f')).
Proof.
  intros Hf Hr Hfl Hk Hfuel Hds HN. revert f bs k Hf Hr Hfl Hk Hfuel.
  induction Hds as [|d ds [Hc Hn] _ IH]; intros f bs k Hf Hr Hfl Hk Hfuel Hcr; cbn [fmap list_fmap make_dirs length] in *.
  - apply wp_ret. exists bs. split; [by apply grown_refl|]. rewrite Z.add_0_r in Hcr. by rewrite Nat.add_0_r.
  - assert (0 ≤ Z.of_nat (length ds) * DIR_COST) as Hcost by (unfold DIR_COST, TMPFS_INODE_SIZEOF; lia).
    eapply wp_step; [apply (mkdir_spec fuel d.1 d.2 f bs k n (N + Z.of_nat (length ds) * DIR_COST) Hf Hr Hfl); [lia|lia|done|done|lia|]|].
    { replace (N + _ + _) with (N + Z.of_nat (S (length ds)) * DIR_COST) by lia. exact Hcr. }
    cbn beta. intros r f1 (bs1 & Hg1 & Hfl1 & Hm1 & Hcr1). pose proof (hg_len _ _ _ _ _ (gr_heap _ _ _ _ _ Hg1)).
    eapply wp_step; [apply (IH f1 bs1 (S k)); [apply Hg1|by rewrite (gr_root _ _ _ _ _ Hg1)|done|lia|lia|exact Hcr1]|].
    cbn beta. intros rs f2 (bs2 & Hg2 & Hfl2 & Hm2 & Hcr2). apply wp_ret. exists bs2.
    split; [by apply (grown_trans 1 (length ds) _ _ _ _ _ _ Hg1)|].
    split; [by rewrite Nat.add_succ_r|]. split; [|done]. constructor; [|done].
    eapply made_keep; [apply Hg2|done].
Qed.

(** ** The directories of init.c *)

Definition init_names : list (list Z * Z) :=
  [(codes "tmp", 511); (codes "dev", 493); (codes "bin", 493); (codes "proc", 365);
   (codes "home", 493); (codes "etc", 493); (codes "var", 493)].

Lemma init_names_paths : init_dirs = (fun d => (root_path d.1, d.2)) <$> init_names.
Proof. reflexivity. Qed.

(** A name of a few bytes, none of them a slash. *)
Lemma dir_ok_small (d : list Z * Z) :
  forallb (fun c => negb (c =? SLASH)) d.1 = true → d.1 ≠ [] → (length d.1 ≤ 100)%nat → dir_ok d.
Proof.
  intros Hs Hne Hlen. split; [|unfold VFS_NAME_MAX; lia]. split; [done|done| |done|].
  - intros Hin. rewrite forallb_forall in Hs. specialize (Hs SLASH ltac:(by apply list_elem_of_In)). by rewrite Z.eqb_refl in Hs.
  - cbn [app path_body length]. rewrite app_nil_r. unfold VFS_PATH_MAX. lia.
Qed.

Lemma init_names_ok : Forall dir_ok init_names.
Proof. repeat (apply Forall_cons; split; [apply dir_ok_small; [reflexivity|discriminate|cbn; lia]|]). by apply Forall_nil. Qed.

(** The paths that exist afterwards. *)
Definition present (f : fs pmm) (path : list Z) : Prop :=
  ∃ n x, vfs_resolve_path (Some path) f = Ok n ∧ inodes f !! n = Some x ∧ i_type x = VFS_DIRECTORY.

Lemma made_present f bs k d r :
  fs_wf f bs → vfs_root f ≠ 0 → flat (inodes f) (vfs_root f) k → dir_ok d →
  made (inodes f) (vfs_root f) d.1 r → (R ∧ r = -12) ∨ r = 0 ∧ present f (root_path d.1).
Proof.
  intros Hf Hr Hfl [[H1 H2 H3 H4 H5] _] [[? ->]|[-> (n & Hn)]]; [by left|right]. split; [done|].
  destruct (walk_node _ _ _ _ _ (fw_tree _ _ Hf) (tw_root _ _ (fw_tree _ _ Hf) Hr) Hn) as [[x Hx] _].
  exists n, x. split; [|split; [done|by eapply fl_dirs]]. unfold root_path. rewrite <- (app_nil_r (path_body _)).
  rewrite resolve_spec; [by rewrite Hn|apply Hf|done|by constructor| |by left|by rewrite app_nil_r].
  unfold ends_named. cbn. congruence.
Qed.

Lemma motd_absent f bs k :
  fs_wf f bs → vfs_root f ≠ 0 → flat (inodes f) (vfs_root f) k →
  vfs_resolve_path (Some (codes "/etc/motd")) f = Ok 0.
Proof.
  intros Hf Hr Hfl. change (codes "/etc/motd") with (path_body [codes "etc"; codes "motd"] ++ []).
  rewrite resolve_spec; [|apply Hf|done| | |by left|reflexivity].
  - by rewrite (flat_depth _ _ _ _ _ _ Hfl).
  - unfold no_slash. repeat constructor; intros H; repeat (apply elem_of_cons in H as [H|H]; [discriminate H|]); by apply elem_of_nil in H.
  - discriminate.
Qed.

Lemma directories_present f bs k rs :
  fs_wf f bs → vfs_root f ≠ 0 → flat (inodes f) (vfs_root f) k →
  Forall2 (fun d r => made (inodes f) (vfs_root f) d.1 r) init_names rs →
  Forall2 (fun d r => (R ∧ r = -12) ∨ r = 0 ∧ present f d.1) init_dirs rs.
Proof.
  intros Hf Hr Hfl Hm. rewrite init_names_paths. apply Forall2_fmap_l.
  pose proof init_names_ok as Hok. revert Hok Hm. generalize init_names. intros ds Hok Hm.
  induction Hm as [|d r ds rs Hd _ IH]; [constructor|]. apply Forall_cons in Hok as [Hd' Hok].
  constructor; [|by apply IH]. by apply (made_present f bs k d r).
Qed.

Lemma init_filesystem_spec fuel msg f bs k n N :
  fs_wf f bs → vfs_root f ≠ 0 → flat (inodes f) (vfs_root f) k → (k ≤ 57)%nat → (length bs + 17 ≤ fuel)%nat →
  0 ≤ N → funded R n (N + 7 * DIR_COST) (fs_heap f) →
  wp R (init_filesystem fuel msg) f (fun rs f' => ∃ bs', grown 7 f bs f' bs' ∧
    flat (inodes f') (vfs_root f') (k + 7) ∧
    Forall2 (fun d r => made (inodes f') (vfs_root f') d.1 r) init_names rs ∧ funded R n N (fs_heap f')).
Proof.
  intros Hf Hr Hfl Hk Hfuel HN Hcr. unfold init_filesystem. rewrite init_names_paths.
  eapply wp_step; [apply (make_dirs_spec fuel init_names f bs k n N Hf Hr Hfl); [cbn; lia|cbn; lia|exact init_names_ok|done|exact Hcr]|].
  cbn beta. intros rs f' (bs' & Hg & Hfl' & Hm & Hcr').
  assert (vfs_root f' ≠ 0) as Hr' by (by rewrite (gr_root _ _ _ _ _ Hg)).
  pose proof (motd_absent f' bs' _ (gr_wf _ _ _ _ _ Hg) Hr' Hfl') as Hmotd.
  apply wp_bind. unfold wp at 1, vfs_open. rewrite Hmotd. cbn [mbind outcome_bind Z.eqb]. apply wp_ret. by exists bs'.
Qed.

(** ** The services *)

(** The processes there were are still there, with nothing but their links changed, and
    the same one runs. *)
Definition keeps_procs (s s' : sys pmm) : Prop :=
  current (rq s') = current (rq s) ∧
  ∀ q y, procs s !! q = Some y → ∃ z, procs s' !! q = Some z ∧ core z = core y.

(** The shell is a READY process at the end of the queue, or could not be created. *)
Definition shell_started (st : statics) (l : list Z) (l' : list Z) (svcs : list service) (s' : sys pmm) : Prop :=
  (R ∧ svcs = services st ∧ l' = l) ∨
  ∃ p x, l' = l ++ [p] ∧ procs s' !! p = Some x ∧ state x = PROC_READY ∧ name x = "heroshell"%string ∧
    rip (context x) = heroshell_main st ∧ vruntime x = 0 ∧
    svcs = [mk_service "heroshell" (heroshell_main st) true true (pid x);
            mk_service "heroserved" (heroserve_main st) false false 0].

Lemma start_services_spec st fuel s bs l n N :
  sys_wf s bs l → slot_free s → (length bs + 5 ≤ fuel)%nat → Z.of_nat (length l) < 4294967295 →
  0 ≤ n → 0 ≤ N → funded R (n + PROC_PAGES) (N + PROC_COST) (mm_heap (sys_mmu s)) →
  wp R (start_services fuel (services st)) s (fun svcs s' => ∃ bs' l',
    heap_grows 4 (mm_heap (sys_mmu s)) bs (mm_heap (sys_mmu s')) bs' ∧ sys_wf s' bs' l' ∧
    shell_started st l l' svcs s' ∧ (∀ a, in_use bs a 1 → procs s !! a = None → procs s' !! a = None) ∧
    keeps_procs s s').
Proof.
  intros Hs Hfree Hf Hlen Hn' HN Hcr0. cbn [services start_services autostart].
  eapply (wp_step R _ _ _ (fun svc s' => ∃ bs' l',
    heap_grows 4 (mm_heap (sys_mmu s)) bs (mm_heap (sys_mmu s')) bs' ∧ sys_wf s' bs' l' ∧
    shell_started st l l' [svc; mk_service "heroserved" (heroserve_main st) false false 0] s' ∧
    (∀ a, in_use bs a 1 → procs s !! a = None → procs s' !! a = None) ∧ keeps_procs s s')); [|intros svc s' H; exact H].
  unfold start_service. cbn [running svc_name svc_entry autostart].
  eapply wp_step; [by apply (thread_spec R n N)|]. cbn beta. intros p s1 [(bs1 & Hg1 & Hs1 & Hc) Hpay].
  destruct Hc as [(-> & E1 & _ & E2)|(Hnz & Hl & Hnone & Hold & Hcr)].
  - rewrite Z.eqb_refl. apply wp_ret. exists bs1, l. split; [done|]. split; [done|]. split; [|split; [by rewrite E1|]].
    + left. by destruct Hpay as [|[? _]].
    + split; [by rewrite E2|]. intros q y Hy. exists y. by rewrite E1.
  - destruct (Z.eqb_spec p 0); [done|].
    destruct (cr_proc _ _ _ _ _ _ _ _ Hcr) as (y & Ey & Hpid & Hst & Hn & _ & _ & Hvr & _ & _ & Hrip & _).
    assert (procs s1 !! p = Some y) as Hy by (by rewrite Ey, lookup_insert_eq).
    eapply wp_step; [by apply (enqueue_spec R p y s1 bs1 l)|]. cbn beta. intros _ s' (Hs' & Hcore & Hm & Htab & Hcur).
    destruct (same_core_lookup s1 s' p y Hcore Hy) as (z & Hz & Hcz).
    apply wp_bind. unfold wp at 1, deref. rewrite Hz. cbn [mbind outcome_bind]. apply wp_ret.
    exists bs1, (l ++ [p]). split; [by rewrite Hm|]. split; [done|]. split.
    + right. exists p, z. split; [done|]. split; [done|].
      change (state z) with (state (core z)). change (name z) with (name (core z)).
      change (context z) with (context (core z)). change (pid z) with (pid (core z)).
      change (vruntime z) with (vruntime (core z)). by rewrite Hcz.
    + split.
      * intros a Ha Hna. specialize (Hcore a). rewrite Ey, lookup_insert_ne, Hna in Hcore.
        -- by destruct (procs s' !! a).
        -- apply not_eq_sym, Hold, Ha.
      * split; [by rewrite Hcur, (cr_queue _ _ _ _ _ _ _ _ Hcr)|]. intros q w Hw.
        apply (same_core_lookup s1 s' q w Hcore). rewrite Ey, lookup_insert_ne; [done|congruence].
Qed.

(** ** init_main *)

(** The credit [init_main] needs. *)
Definition INIT_COST : Z := 7 * DIR_COST + PROC_COST.

(** What [init_main] leaves behind. *)
Record init_done (st : statics) (l : list Z) (rs : list Z) (svcs : list service) (b : boot pmm) : Prop := mk_init_done {
  id_wf : ∃ bs l', boot_wf b bs l' ∧ shell_started st l l' svcs (boot_sys b);
  id_dirs : Forall2 (fun d r => (R ∧ r = -12) ∨ r = 0 ∧ present (boot_fs b) d.1) init_dirs rs;
  id_motd : vfs_resolve_path (Some (codes "/etc/motd")) (boot_fs b) = Ok 0;
}.

(** What [init_main] does not touch. *)
Record kept (b b' : boot pmm) : Prop := mk_kept {
  kp_cpu : m_cpu (bt_machine b') = m_cpu (bt_machine b);
  kp_parked : m_parked (bt_machine b') = m_parked (bt_machine b);
  kp_keys : m_kbd (bt_machine b') = m_kbd (bt_machine b);
  kp_calls : syscall_table (m_kern (bt_machine b')) = syscall_table (m_kern (bt_machine b));
  kp_irqs : bt_irqs_on b' = bt_irqs_on b;
  kp_procs : keeps_procs (boot_sys b) (boot_sys b');
}.

Lemma init_main_spec (st : statics) (fuel : nat) (msg : Z) (b : boot pmm) (bs : list blk) (l : list Z) (k : nat)
    (Hb : boot_wf b bs l) (Hflat : flat (inodes (boot_fs b)) (vfs_root (boot_fs b)) k) (Hk : (k ≤ 57)%nat)
    (Hslot : slot_free (boot_sys b)) (Hlen : Z.of_nat (length l) < 4294967295) (Hfuel : (length bs + 19 ≤ fuel)%nat)
    (Hcr : funded R PROC_PAGES INIT_COST (boot_heap b)) :
  wp R (init_main st fuel msg) b (fun '(rs, svcs) b' => init_done st l rs svcs b' ∧ kept b b').
Proof.
  pose proof Hb as [Hfs Hroot Hsys Hapart]. unfold init_main. apply wp_bind, wp_zoom.
  eapply wp_mono; [apply (init_filesystem_spec fuel msg (boot_fs b) bs k PROC_PAGES PROC_COST);
    [done|done|done|done|lia|done|]|].
  { destruct Hcr as [|Hcr]; [by left|right]. eapply credited_weaken; [exact Hcr|]. unfold INIT_COST. lia. }
  cbn beta. intros rs f1 (bs1 & Hg & Hfl & Hm & Hcr1). pose proof (gr_heap _ _ _ _ _ Hg) as Hgh.
  set (b1 := put_fs f1 b).
  assert (boot_wf b1 bs1 l) as Hb1.
  { apply (boot_wf_fs 14 b bs l f1 bs1 Hb); [apply Hg|exact Hgh|by rewrite (gr_root _ _ _ _ _ Hg)|apply Hg]. }
  apply wp_bind, wp_zoom. pose proof (hg_len _ _ _ _ _ Hgh) as Hl1.
  eapply wp_mono; [apply (start_services_spec st fuel (boot_sys b1) bs1 l 0 0); [apply Hb1|done|lia|done|done|done|exact Hcr1]|].
  cbn beta. intros svcs s2 (bs2 & l' & Hg2 & Hs2 & Hstart & Hold & Hkeep). apply wp_ret. split; [|by split].
  pose proof (boot_wf_sys 4 b1 bs1 l s2 bs2 l' Hb1 Hs2 Hg2 Hold) as Hb2. pose proof Hb2 as [Hfs2 Hroot2 _ _].
  split; [|by apply (directories_present _ bs2 (k + 7))|by apply (motd_absent _ bs2 (k + 7))].
  by exists bs2, l'.
Qed.

End Run.

(** (Property) [init_main] on a well-formed machine, up to its idle loop, panics at most
    when memory runs out ([R]); otherwise each of the seven directories is there or,
    only without memory, its call returned -ENOMEM, the message of the day is not
    there (its open with O_CREAT creates nothing), the shell is a READY process at the
    end of the queue unless there was no memory for it, heroserved is not started, and
    file system, processes and scheduler are well formed again, their objects apart. *)
Theorem init_main_starts (R : Prop) (st : statics) (fuel : nat) (msg : Z) (b : boot pmm) (bs : list blk) (l : list Z) (k : nat)
    (Hb : boot_wf b bs l) (Hflat : flat (inodes (boot_fs b)) (vfs_root (boot_fs b)) k) (Hk : (k ≤ 57)%nat)
    (Hslot : slot_free (boot_sys b)) (Hlen : Z.of_nat (length l) < 4294967295) (Hfuel : (length bs + 19 ≤ fuel)%nat)
    (Hcr : R ∨ credited PROC_PAGES INIT_COST (boot_heap b)) :
  wp R (init_main st fuel msg) b (fun '(rs, svcs) b' => init_done R st l rs svcs b').
Proof.
  eapply wp_mono; [by apply (init_main_spec R st fuel msg b bs l k)|]. by intros [rs svcs] b' [Hd _].
Qed.

(** ** After a concrete boot *)

Lemma fresh_flat f : fresh_fs f → flat (inodes f) (vfs_root f) 0.
Proof.
  intros [_ (x & Hi & Ht & Hc)]. split; rewrite Hi.
  - exists x. rewrite lookup_singleton_eq, Hc. split; [done|]. split; [by intros H%elem_of_nil|done].
  - by intros a y [<- <-]%lookup_singleton_Some.
  - by intros a y [<- <-]%lookup_singleton_Some.
Qed.

Lemma booted_start st es m mb2 b :
  booted st es m mb2 b → ∃ bs p, boot_wf b bs [p] ∧ flat (inodes (boot_fs b)) (vfs_root (boot_fs b)) 0 ∧
    slot_free (boot_sys b) ∧ (length bs ≤ 7)%nat.
Proof.
  intros Hb. destruct (bo_wf _ _ _ _ _ Hb) as (bs & p & Hwf & _ & Hs & Hl & _). exists bs, p.
  split_and!; [done|apply fresh_flat, (bo_fs _ _ _ _ _ Hb)|done|done].
Qed.

(** What [kmain] leaves is enough. *)
Lemma init_credit h : credited INIT_PAGES INIT_BYTES h → credited PROC_PAGES INIT_COST h.
Proof. intros Hc. apply (credited_weaken 5 INIT_BYTES); [exact Hc|]. by vm_compute. Qed.

Lemma small_started :
  ∃ b p rs svcs b', kmain (fun _ _ => 0) sample_statics 13 36864 (power_on sample_statics small_boot 0 (mk_ports 0 [])) = Ok (tt, b) ∧
    init_main sample_statics 32 16900000 b = Ok ((rs, svcs), b') ∧ init_done False sample_statics [p] rs svcs b'.
Proof.
  destruct small_booted as (b & E & Hb & Hc). destruct (booted_start _ _ _ _ _ Hb) as (bs & p & Hwf & Hfl & Hs & Hl).
  destruct (wp_false _ _ _ (init_main_spec False sample_statics 32 16900000 b bs [p] 0 Hwf Hfl ltac:(lia) Hs ltac:(cbn; lia) ltac:(lia)
    (or_intror (init_credit _ Hc)))) as ([rs svcs] & b' & E' & Hd & _).
  exists b, p, rs, svcs, b'. exact (conj E (conj E' Hd)).
Qed.

(** What the user finds: the directories are there and the shell is the last of two
    processes in the queue. *)
Record shell_ready (st : statics) (svcs : list service) (b : boot pmm) : Prop := mk_shell_ready {
  sh_wf : ∃ bs i p x, boot_wf b bs [i; p] ∧ procs (boot_sys b) !! p = Some x ∧ state x = PROC_READY ∧
    name x = "heroshell"%string ∧ rip (context x) = heroshell_main st ∧ vruntime x = 0 ∧ svc_pid <$> svcs = [pid x; 0];
  sh_running : (fun s => (svc_name s, running s)) <$> svcs = [("heroshell"%string, true); ("heroserved"%string, false)];
  sh_dirs : Forall (fun d => present (boot_fs b) d.1) init_dirs;
}.

Lemma init_done_ready st i rs svcs b :
  init_done False st [i] rs svcs b → rs = replicate (length init_dirs) 0 ∧ shell_ready st svcs b.
Proof.
  intros [(bs & l' & Hwf & Hst) Hd _].
  assert (rs = replicate (length init_dirs) 0 ∧ Forall (fun d => present (boot_fs b) d.1) init_dirs) as [Hrs Hp].
  { clear -Hd. induction Hd as [|d r ds rs H _ [-> IH]]; [done|].
    destruct H as [[[] _]|[-> H]]. split; [done|by constructor]. }
  split; [done|]. destruct Hst as [[[] _]|(p & x & -> & Hx & Hs & Hn & Hr & Hv & ->)].
  split; [|done|done]. by exists bs, i, p, x.
Qed.

Lemma init_main_starts_witness :
  ∃ b p rs svcs b', init_main sample_statics 32 16900000 b = Ok ((rs, svcs), b') ∧
    init_done False sample_statics [p] rs svcs b'.
Proof.
  destruct small_booted as (b & E & Hb & Hc). destruct (booted_start _ _ _ _ _ Hb) as (bs & p & Hwf & Hfl & Hs & Hl).
  destruct (wp_false _ _ _ (init_main_starts False sample_statics 32 16900000 b bs [p] 0 Hwf Hfl ltac:(lia) Hs ltac:(cbn; lia) ltac:(lia)
    (or_intror (init_credit _ Hc)))) as ([rs svcs] & b' & E' & Hd).
  exists b, p, rs, svcs, b'. exact (conj E' Hd).
Defined.

Example small_init_results :
  fst <$> (kmain (fun _ _ => 0) sample_statics 13 36864 (power_on sample_statics small_boot 0 (mk_ports 0 [])) ≫=
    fun x => init_main sample_statics 32 16900000 x.2) =
  Ok ([0; 0; 0; 0; 0; 0; 0], [mk_service "heroshell" 16810112 true true 2; mk_service "heroserved" 16810128 false false 0]).
Proof. vm_compute. reflexivity. Qed.
