(* ===== verification/System.v ===== *)
(** * The running system

    What the processor does once [kmain] has enabled interrupts.  Three pieces of code
    run, all with interrupts on: the [hlt] loop at the end of [kmain] (the idle
    process), [init_main] from its entry, and its reaper loop, which only calls
    [sched_sleep].  A hardware interrupt is taken between two instructions when the
    controllers deliver its line; its code runs with interrupts off (the gates are
    interrupt gates), up to the next instruction of the process that runs afterwards.

    [life] is this system as a step relation.  A step of [init_main] or of its loop is
    taken as a whole, though interrupts are on while it runs: [SystemSpec.system_life]
    shows that no line is deliverable then, so that nothing can come in between.
    Exceptions, non-maskable and spurious interrupts are left out. *)
From S2P Require Import Prelude Mem PageAlloc Pmm Kheap KheapInv KheapSpec KmallocSpec HeapCredit Paging Process ProcessSpec SchedSpec.
From S2P Require Import Fs FsSpec Keyboard Driver Rtc PortIO Serial Gdt Idt Font Framebuffer Syscall SyscallSpec Interrupts Boot.

(** Where a process stands: in the [hlt] loop of kmain.c, at the entry of its thread, or
    in the reaper loop of init.c. *)
Inductive activity : Type :=
  | Halted
  | Entry (addr : Z)
  | Reaping.

(** The machine, its interrupt controllers, and where the processes that have run
    stand; one that has not run stands at its entry. *)
Record world : Type := mk_world {
  w_boot : boot pmm;
  w_pics : pics;
  w_code : gmap Z activity;
}.

(** At the end of [kmain]. *)
Definition start (b : boot pmm) : world := mk_world b idle_pics {[IDLE_PROC := Halted]}.

Definition w_running (w : world) : Z := running_proc (bt_machine (w_boot w)).

Definition activity_of (w : world) : option activity :=
  match w_code w !! w_running w with
  | Some a => Some a
  | None => (fun x => Entry (rip (context x))) <$> procs (boot_sys (w_boot w)) !! w_running w
  end.

(** The port accesses of a run from [c] to [c']. *)
Definition new_log (c c' : cpu) : list io :=
  drop (length (io_log (cpu_ports c))) (io_log (cpu_ports c')).

Section Life.
Context (dev : nat → Z → Z) (st : statics) (fuel : nat).

(** An interrupt of line [n]: taken, handled, and what the handler sent to the
    controllers. *)
Definition interrupt (n : Z) (regs : interrupt_frame) (w : world) : outcome world :=
  '(_, m) ← irq_entry dev (pit_handler st) (kbd_handler st) fuel regs (bt_machine (w_boot w));
  Ok (mk_world (put_machine m (w_boot w))
        (fold_left pics_see (new_log (m_cpu (bt_machine (w_boot w))) (m_cpu m)) (taken n (w_pics w)))
        (w_code w)).

Definition can_interrupt (n : Z) (regs : interrupt_frame) (w : world) : Prop :=
  bt_irqs_on (w_boot w) = true ∧ device_line n ∧ f_int_no regs = IRQ n ∧ deliverable n (w_pics w) = true.

(** [init_main] up to its loop; [msg] is the address of its literal. *)
Definition run_init (msg : Z) (w : world) : outcome world :=
  '(_, b) ← init_main st fuel msg (w_boot w);
  Ok (mk_world b (w_pics w) (<[w_running w := Reaping]> (w_code w))).

(** One turn of init's loop: [sched_sleep(100)], up to the next instruction of the
    process that runs afterwards. *)
Definition reap (w : world) : outcome world :=
  let before := w_running w in
  '(_, b) ← on_boot_sys (fun s => s ← sched_sleep fuel 100 s; Ok (tt, s)) (w_boot w);
  '(_, m) ← (if running_proc (bt_machine b) =? before then Ok (tt, bt_machine b) else resume_process (bt_machine b));
  Ok (mk_world (put_machine m b) (fold_left pics_see (new_log (m_cpu (bt_machine b)) (m_cpu m)) (w_pics w)) (w_code w)).

Inductive life (w w' : world) : Prop :=
  | life_interrupt n regs : can_interrupt n regs w → interrupt n regs w = Ok w' → life w w'
  | life_init msg : activity_of w = Some (Entry (init_main_addr st)) → run_init msg w = Ok w' → life w w'
  | life_reap : activity_of w = Some Reaping → reap w = Ok w' → life w w'.

(** A series of interrupts, one after the other. *)
Inductive served : list (Z * interrupt_frame) → world → world → Prop :=
  | served_nil w : served [] w w
  | served_cons n regs irqs w w1 w2 :
      can_interrupt n regs w → interrupt n regs w = Ok w1 → served irqs w1 w2 → served ((n, regs) :: irqs) w w2.
End Life.
