(* ===== verification/SystemSpec.v ===== *)
(** * Properties of the running system

    [system_ok] is the invariant of the whole machine.  [phase] follows the system
    through its life: the idle process waits for the timer, the tenth tick brings init to
    its entry with the timer's line still in service, and [init_main] ends in its loop,
    which never gives the processor away. *)
From S2P Require Import Prelude Mem PageAlloc Pmm Kheap KheapInv KheapSpec KmallocSpec HeapCredit Paging Process ProcessSpec SchedSpec ProcCreateSpec.
From S2P Require Import Fs FsSpec Keyboard Driver Rtc PortIO Serial Gdt Idt Font Framebuffer FramebufferSpec Syscall SyscallSpec Interrupts Boot CreditSpec BootSpec KmainSpec InitSpec System.

(** ** Parts of the machine *)

(** Processes change, their memory does not. *)
Lemma boot_wf_sched b b' bs l l' :
  boot_wf b bs l → frame (boot_sys b) (boot_sys b') → bt_fs b' = bt_fs b → sched_inv (boot_sys b') l' →
  boot_wf b' bs l'.
Proof.
  intros [Hf Hr [H1 H2 H3 H4] Hap] [Fm Ft Fp] E Hs.
  assert (boot_fs b' = boot_fs b) as Ef by (unfold boot_fs, boot_heap; by rewrite E, Fm).
  assert (∀ p x, procs (boot_sys b') !! p = Some x → ∃ y, procs (boot_sys b) !! p = Some y) as Hback.
  { intros p x Hx. apply Fp. by exists x. }
  split; [by rewrite Ef|by rewrite Ef| |].
  - split; [by rewrite Fm|done|by rewrite Ft|]. intros p x Hx. destruct (Hback p x Hx) as [y Hy]. by apply (H4 p y).
  - intros a Ha. rewrite Ef in Ha. specialize (Hap a Ha). destruct (procs (boot_sys b') !! a) as [x|] eqn:Hx; [|done].
    destruct (Hback a x Hx) as [y Hy]. congruence.
Qed.

(** The two interrupt handlers are functions, and not the same one. *)
Definition handlers_apart (st : statics) : Prop :=
  pit_handler st ≠ 0 ∧ kbd_handler st ≠ 0 ∧ pit_handler st ≠ kbd_handler st.

Section Running.
Context (dev : nat → Z → Z) (st : statics) (fuel : nat).
Hypothesis Hdev : ∀ n p, 0 ≤ dev n p < 256.
Hypothesis Hst : handlers_apart st.

(** The invariant of the running system: heap, file system, processes and queue are
    well formed and apart, the handlers, the system call table and the keyboard ring
    are as boot set them up, interrupts are on. *)
Record system_ok (b : boot pmm) (bs : list blk) (l : list Z) : Prop := mk_system_ok {
  so_boot : boot_wf b bs l;
  so_handlers : handlers_ready (pit_handler st) (kbd_handler st) (bt_machine b);
  so_calls : table_ready (m_kern (bt_machine b));
  so_keys : kbd_inv (m_kbd (bt_machine b));
  so_irqs : bt_irqs_on b = true;
}.

(** A step to a machine with the same memory. *)
Lemma system_ok_machine b m bs l l' :
  system_ok b bs l → frame (k_sys (m_kern (bt_machine b))) (k_sys (m_kern m)) → sched_inv (k_sys (m_kern m)) l' →
  irq_handlers (m_cpu m) = irq_handlers (m_cpu (bt_machine b)) →
  syscall_table (m_kern m) = syscall_table (m_kern (bt_machine b)) → kbd_inv (m_kbd m) →
  system_ok (put_machine m b) bs l'.
Proof.
  intros [Hb Hh Ht Hk Hi] Hf Hs E1 E2 Hk'. split; [| |by unfold table_ready in *; cbn; rewrite E2|done|done].
  2: { unfold handlers_ready in *. cbn. by rewrite E1. }
  by apply (boot_wf_sched b (put_machine m b) bs l).
Qed.

Lemma frame_refl (s : sys pmm) : frame s s.
Proof. by split. Qed.

(** What a handler leaves alone, and what it sends to the controllers: nothing. *)
Record handled (s s1 : machine pmm) : Prop := mk_handled {
  hd_frame : frame (k_sys (m_kern s)) (k_sys (m_kern s1));
  hd_handlers : irq_handlers (m_cpu s1) = irq_handlers (m_cpu s);
  hd_calls : syscall_table (m_kern s1) = syscall_table (m_kern s);
  hd_keys : kbd_inv (m_kbd s) → kbd_inv (m_kbd s1);
  hd_log : ∃ tr, io_log (cpu_ports (m_cpu s1)) = io_log (cpu_ports (m_cpu s)) ++ tr ∧ ∀ p, fold_left pics_see tr p = p;
}.

Lemma serviced_handled n s s1 : serviced dev fuel n s s1 → handled s s1.
Proof.
  unfold serviced. destruct (n =? 0); [|destruct (n =? 1)].
  - intros (x & Ex & ->). split; try done; [exact (framed_op fuel OpTick _ _ Ex)|].
    exists []. split; [by rewrite app_nil_r|done].
  - intros ->. split; try done; [intros Hk; by apply kbd_irq_refines|]. eexists [In _ _]. split; [reflexivity|done].
  - intros ->. split; try done. exists []. split; [by rewrite app_nil_r|done].
Qed.

Lemma new_log_app c c' tr :
  io_log (cpu_ports c') = io_log (cpu_ports c) ++ tr → new_log c c' = tr.
Proof. unfold new_log. intros ->. apply drop_app_length. Qed.

(** An interrupt on a well-formed machine: it is handled, and either the interrupted
    process goes on and the controllers are as before, or another one runs that owes
    nothing, and the line stays in service. *)
Lemma interrupt_ok n regs w bs l :
  system_ok (w_boot w) bs l → can_interrupt n regs w → (length l < fuel)%nat →
  ∃ s1 w', serviced dev fuel n (bt_machine (w_boot w)) s1 ∧ interrupt dev st fuel n regs w = Ok w' ∧
    system_ok (w_boot w') bs l ∧ w_code w' = w_code w ∧ m_kern (bt_machine (w_boot w')) = m_kern s1 ∧
    bt_fs (w_boot w') = bt_fs (w_boot w) ∧
    (running_proc s1 = w_running w → w_pics w' = w_pics w ∧
       m_parked (bt_machine (w_boot w')) = m_parked (bt_machine (w_boot w))) ∧
    (running_proc s1 ≠ w_running w → m_parked (bt_machine (w_boot w)) !! running_proc s1 = None →
       n = 0 ∧ w_pics w' = taken n (w_pics w) ∧
       m_parked (bt_machine (w_boot w')) = <[w_running w := n]> (m_parked (bt_machine (w_boot w)))).
Proof.
  intros Hok (_ & [Hn _] & Hregs & Hdel) Hfuel. pose proof Hok as [Hb Hh Ht Hk Hi]. destruct Hst as (H1 & H2 & H3).
  destruct (irq_entry_spec dev (pit_handler st) (kbd_handler st) H1 H2 H3 fuel n regs (bt_machine (w_boot w)) l Hh Hregs Hn
    (sy_sched _ _ _ (bw_sys _ _ _ Hb)) Hfuel) as (s1 & Hserv & Hs1 & Hh1 & Hpk & H0 & E).
  pose proof (serviced_handled n _ s1 Hserv) as [F1 F2 F3 F4 (tr & Etr & Hsee)].
  exists s1. unfold interrupt. rewrite E. cbn [mbind outcome_bind]. eexists. split; [exact Hserv|]. split; [reflexivity|].
  set (m' := ended n _ s1).
  assert (m_kern m' = m_kern s1 ∧ irq_handlers (m_cpu m') = irq_handlers (m_cpu s1) ∧ m_kbd m' = m_kbd s1) as (E1 & E2 & E3).
  { unfold m', ended, resumed, acknowledged. destruct (_ =? _); [done|]. by destruct (_ !! _). }
  split; [|split; [done|split; [exact E1|split; [done|split]]]].
  - apply (system_ok_machine _ m' bs l); [done|by rewrite E1|by rewrite E1|by rewrite E2|by rewrite E1|rewrite E3; by apply F4].
  - intros Hr. cbn [w_pics w_boot bt_machine put_machine]. unfold m', ended. change (running_proc (bt_machine (w_boot w))) with (w_running w).
    rewrite Hr, Z.eqb_refl. split; [|exact Hpk].
    rewrite (new_log_app _ _ (tr ++ eoi n)); [by rewrite fold_left_app, Hsee, eoi_ends|].
    cbn [acknowledged put_cpu m_cpu add_log with_ports cpu_ports io_log]. by rewrite Etr, app_assoc.
  - intros Hr Hnone. cbn [w_pics w_boot bt_machine put_machine]. split; [by apply H0|]. unfold m', ended.
    change (running_proc (bt_machine (w_boot w))) with (w_running w) in *. destruct (Z.eqb_spec (running_proc s1) (w_running w)) as [|Hne]; [done|].
    unfold resumed. change (running_proc (put_parked _ s1)) with (running_proc s1). cbn [put_parked m_parked].
    rewrite lookup_insert_ne, Hpk, Hnone by congruence. split; [|cbn; by rewrite Hpk].
    rewrite (new_log_app _ _ tr) by (exact Etr). apply Hsee.
Qed.

(** ** Before init runs *)

(** Process [p] stands at the entry of init, in state [v]. *)
Definition init_at (s : sys pmm) (p : Z) (v : proc_state) : Prop :=
  ∃ y, procs s !! p = Some y ∧ state y = v ∧ rip (context y) = init_main_addr st ∧ vruntime y = 0.

Record before_init (w : world) (bs : list blk) (p : Z) : Prop := mk_before_init {
  bi_ok : system_ok (w_boot w) bs [p];
  bi_flat : flat (inodes (boot_fs (w_boot w))) (vfs_root (boot_fs (w_boot w))) 0;
  bi_slot : slot_free (boot_sys (w_boot w));
  bi_len : (length bs ≤ 7)%nat;
  bi_credit : credited PROC_PAGES INIT_COST (boot_heap (w_boot w));
  bi_code : w_code w = {[IDLE_PROC := Halted]};
  bi_apart : p ≠ IDLE_PROC;
}.

(** [k] ticks have come; the idle process halts, nothing is in service. *)
Record waiting (k : Z) (w : world) (bs : list blk) (p : Z) : Prop := mk_waiting {
  wt_before : before_init w bs p;
  wt_running : w_running w = IDLE_PROC;
  wt_ticks : 0 ≤ k < SCHED_DEFAULT_QUANTUM ∧
    ∃ x, procs (boot_sys (w_boot w)) !! IDLE_PROC = Some x ∧ runtime_ticks x = k;
  wt_init : init_at (boot_sys (w_boot w)) p PROC_READY;
  wt_pics : w_pics w = idle_pics;
  wt_parked : m_parked (bt_machine (w_boot w)) = ∅;
}.

(** The quantum is over: init runs, and the timer's line is still in service. *)
Record at_entry (w : world) (bs : list blk) (p : Z) : Prop := mk_at_entry {
  ae_before : before_init w bs p;
  ae_running : w_running w = p;
  ae_init : init_at (boot_sys (w_boot w)) p PROC_RUNNING;
  ae_pics : w_pics w = mk_pics 1 0;
  ae_parked : m_parked (bt_machine (w_boot w)) = {[IDLE_PROC := 0]};
}.

Lemma frame_heap (b b' : boot pmm) :
  frame (boot_sys b) (boot_sys b') → bt_fs b' = bt_fs b → boot_heap b' = boot_heap b ∧ boot_fs b' = boot_fs b.
Proof. intros [Fm _ _] E. unfold boot_fs, boot_heap. by rewrite E, Fm. Qed.

Lemma before_init_irq w w' bs p :
  before_init w bs p → system_ok (w_boot w') bs [p] → frame (boot_sys (w_boot w)) (boot_sys (w_boot w')) →
  bt_fs (w_boot w') = bt_fs (w_boot w) → w_code w' = w_code w → before_init w' bs p.
Proof.
  intros [_ H2 H3 H4 H5 H6 H7] Hok Hf E1 E2. destruct (frame_heap _ _ Hf E1) as [Eh Ef].
  split; rewrite ?Ef, ?Eh, ?E2; try done. unfold slot_free in *. by rewrite (fr_table _ _ Hf).
Qed.

Lemma first_least_single m (p r : Z) : first_least m [p] r → r = p.
Proof.
  intros [_ (l1 & l2 & E & _)]. destruct l1 as [|a [|]]; [by injection E|discriminate E..].
Qed.

(** A tick of the waiting system. *)
Lemma tick_waiting k (s : sys pmm) p x y :
  sched_inv s [p] → (1 < fuel)%nat → current (rq s) = IDLE_PROC → p ≠ IDLE_PROC →
  procs s !! IDLE_PROC = Some x → runtime_ticks x = k → 0 ≤ k < SCHED_DEFAULT_QUANTUM →
  procs s !! p = Some y → state y = PROC_READY →
  ∃ s', sched_tick fuel s = Ok s' ∧
    if k + 1 =? SCHED_DEFAULT_QUANTUM then
      current (rq s') = p ∧ procs s' !! p = Some (set_state PROC_RUNNING y)
    else current (rq s') = IDLE_PROC ∧ procs s' !! p = Some y ∧
      ∃ x', procs s' !! IDLE_PROC = Some x' ∧ runtime_ticks x' = k + 1.
Proof.
  intros Hi Hf Hc Hne Hx Hk Hb Hy Hys. unfold SCHED_DEFAULT_QUANTUM in *.
  assert (current (rq s) ≠ 0) as Hcz by (rewrite Hc; done).
  pose proof Hx as Hx'. rewrite <- Hc in Hx'.
  destruct (sched_tick_spec fuel s [p] x Hi Hf Hcz Hx') as (s' & E & _ & _ & Hcase). exists s'. split; [done|].
  rewrite Hc, Hk, (wrap64_small (k + 1)) in Hcase by lia. unfold SCHED_DEFAULT_QUANTUM in Hcase.
  assert (Htick : ticked (tick (rq s) +₆₄ 1) IDLE_PROC (procs s) [p] p = Some y).
  { unfold ticked. destruct (decide (p = IDLE_PROC)) as [|_]; [done|].
    destruct (decide (p ∈ [p])) as [_|Hn]; [|destruct Hn; by left]. rewrite Hy. cbn.
    unfold wake_one. by rewrite bool_decide_eq_false_2 by (by rewrite Hys). }
  destruct (Z.eqb_spec (k + 1) 10) as [E10|E10].
  - rewrite E10 in Hcase. change (10 mod 10 =? 0) with true in Hcase.
    destruct Hcase as (r & m & Hm & Hpick & Hcur & _ & Hp). pose proof (Hm p) as Hmp.
    rewrite decide_False, Htick in Hmp by done.
    assert (r = p) as ->.
    { destruct Hpick as [[Hnone _]|Hl]; [|by apply (first_least_single m)]. exfalso.
      by apply (Hnone p y ltac:(by apply list_elem_of_singleton) Hmp). }
    split; [done|]. rewrite Hp, Z.eqb_refl. destruct (Z.eqb_spec p IDLE_PROC); [done|]. cbn. by rewrite Hmp.
  - destruct (Z.eqb_spec ((k + 1) mod 10) 0) as [E0|_]; [exfalso; rewrite Z.mod_small in E0; lia|].
    destruct Hcase as (Hcur & _ & Hp). split; [done|]. split; [by rewrite Hp|].
    destruct (ticked_current (tick (rq s) +₆₄ 1) IDLE_PROC (procs s) [p] x Hx) as (x' & Hx1 & Hr).
    exists x'. rewrite Hp, Hr, Hk, (wrap64_small (k + 1)) by lia. done.
Qed.

(** An interrupt while the system waits: only the tenth tick of the timer ends it. *)
Lemma waiting_irq k w bs p n regs :
  waiting k w bs p → can_interrupt n regs w → (1 < fuel)%nat →
  ∃ w', interrupt dev st fuel n regs w = Ok w' ∧
    if n =? 0 then
      if k + 1 =? SCHED_DEFAULT_QUANTUM then at_entry w' bs p else waiting (k + 1) w' bs p
    else waiting k w' bs p.
Proof.
  intros [Hbi Hrun [Hk (x & Hx & Hxk)] (y & Hy & Hys & Hyr & Hyv) Hpics Hpark] Hcan Hf.
  pose proof (bi_apart _ _ _ Hbi) as Hne.
  destruct (interrupt_ok n regs w bs [p] (bi_ok _ _ _ Hbi) Hcan Hf)
    as (s1 & w' & Hserv & E & Hok' & Hcode & Hkern & Hfs & Hsame & Hother).
  exists w'. split; [exact E|]. pose proof (hd_frame _ _ (serviced_handled _ _ _ Hserv)) as Hfr. rewrite <- Hkern in Hfr.
  pose proof (before_init_irq w w' bs p Hbi Hok' Hfr Hfs Hcode) as Hbi'.
  assert (Hwr : w_running w' = running_proc s1) by (unfold w_running, running_proc; by rewrite Hkern).
  assert (Hsys : boot_sys (w_boot w') = k_sys (m_kern s1)) by (unfold boot_sys; by rewrite Hkern).
  unfold serviced in Hserv. destruct (Z.eqb_spec n 0) as [Hn|Hn].
  - destruct Hserv as (z & Ez & Es1).
    destruct (tick_waiting k (boot_sys (w_boot w)) p x y (sy_sched _ _ _ (bw_sys _ _ _ (so_boot _ _ _ (bi_ok _ _ _ Hbi))))
      Hf Hrun Hne Hx Hxk Hk Hy Hys) as (z' & Ez' & Hz).
    assert (z' = z) as -> by (unfold boot_sys in Ez'; congruence).
    assert (Hr1 : running_proc s1 = current (rq z)) by (by rewrite Es1).
    assert (Hs1 : k_sys (m_kern s1) = z) by (by rewrite Es1).
    rewrite Hs1 in Hsys. destruct (k + 1 =? SCHED_DEFAULT_QUANTUM) eqn:Ek.
    + destruct Hz as [Hcur Hzp]. destruct Hother as (_ & Hp1 & Hp2); [congruence|by rewrite Hpark|].
      split; [done|congruence| | |]; [|by rewrite Hp1, Hpics, Hn|by rewrite Hp2, Hpark, Hrun, Hn].
      exists (set_state PROC_RUNNING y). rewrite Hsys. by split_and!.
    + destruct Hz as (Hcur & Hzp & x' & Hx' & Hxk'). destruct Hsame as [Hp1 Hp2]; [congruence|]. apply Z.eqb_neq in Ek.
      split; [done|congruence| | |congruence|congruence].
      * split; [lia|]. exists x'. by rewrite Hsys.
      * exists y. by rewrite Hsys.
  - assert (Hk1 : m_kern s1 = m_kern (bt_machine (w_boot w))) by (by destruct (n =? 1); rewrite Hserv).
    assert (Hr1 : running_proc s1 = w_running w) by (unfold running_proc; by rewrite Hk1).
    destruct (Hsame Hr1) as [Hp1 Hp2]. unfold boot_sys in *. rewrite Hk1 in Hsys.
    split; [done|congruence| | |congruence|congruence].
    + split; [done|]. exists x. unfold boot_sys. by rewrite Hsys.
    + exists y. unfold boot_sys. by rewrite Hsys.
Qed.

(** ** From the entry of init to its loop *)

(** Init [i] in its loop, the shell [q] behind it in the queue; the timer's line is still
    in service. *)
Record in_loop (svcs : list service) (w : world) (bs : list blk) (i q : Z) : Prop := mk_in_loop {
  il_ok : system_ok (w_boot w) bs [i; q];
  il_running : w_running w = i;
  il_init : ∃ y, procs (boot_sys (w_boot w)) !! i = Some y ∧ vruntime y = 0;
  il_shell : ∃ z, procs (boot_sys (w_boot w)) !! q = Some z ∧ state z = PROC_READY ∧ name z = "heroshell"%string ∧
    rip (context z) = heroshell_main st ∧ vruntime z = 0 ∧ svc_pid <$> svcs = [pid z; 0];
  il_services : (fun s => (svc_name s, running s)) <$> svcs = [("heroshell"%string, true); ("heroserved"%string, false)];
  il_dirs : Forall (fun d => present (boot_fs (w_boot w)) d.1) init_dirs;
  il_code : w_code w !! i = Some Reaping;
  il_pics : w_pics w = mk_pics 1 0;
}.

Lemma entry_activity w bs p : at_entry w bs p → activity_of w = Some (Entry (init_main_addr st)).
Proof.
  intros [Hbi Hr (y & Hy & _ & Hrip & _) _ _]. unfold activity_of. rewrite Hr, (bi_code _ _ _ Hbi).
  rewrite lookup_singleton_ne by (apply not_eq_sym, (bi_apart _ _ _ Hbi)). rewrite Hy. cbn. by rewrite Hrip.
Qed.

Lemma entry_runs msg w bs p :
  at_entry w bs p → (26 ≤ fuel)%nat →
  ∃ w' svcs bs' q, run_init st fuel msg w = Ok w' ∧ in_loop svcs w' bs' p q.
Proof.
  intros [Hbi Hrun (y & Hy & _ & _ & Hyv) Hpics _] Hf. destruct Hbi as [Hok Hfl Hslot Hlen Hcr _ _].
  pose proof Hok as [Hb Hh Ht Hk Hi].
  destruct (wp_false _ _ _ (init_main_spec False st fuel msg (w_boot w) bs [p] 0 Hb Hfl ltac:(lia) Hslot ltac:(cbn; lia)
    ltac:(lia) (or_intror Hcr))) as ([rs svcs] & b' & E & Hd & [K1 K2 K3 K4 K5 [K6 K7]]).
  pose proof (init_done_ready _ _ _ _ _ Hd) as [_ [_ Hsv Hdirs]].
  destruct Hd as [(bs' & l' & Hb' & [[[] _]|(q & z & -> & Hz & Hzs & Hzn & Hzr & Hzv & Esv)]) _ _].
  unfold run_init. rewrite E. cbn [mbind outcome_bind]. eexists _, svcs, bs', q. split; [reflexivity|].
  destruct (K7 p y Hy) as (y' & Hy' & Hcore).
  split; cbn [w_boot w_pics w_code]; [|by rewrite <- Hrun; unfold w_running, running_proc, proc_current| | |done|done|by rewrite Hrun, lookup_insert_eq|done].
  - split; [exact Hb'| | |by rewrite K3|by rewrite K5].
    + unfold handlers_ready. by rewrite K1.
    + unfold table_ready in *. by rewrite K4.
  - exists y'. split; [exact Hy'|]. change (vruntime y') with (vruntime (core y')). rewrite Hcore. exact Hyv.
  - exists z. split_and!; [done..|]. by rewrite Esv.
Qed.

(** With equal virtual runtimes the first in the queue is the next. *)
Lemma first_of_two m (i q r : Z) y z :
  m !! i = Some y → m !! q = Some z → state y = PROC_READY → state z = PROC_READY → vruntime y = vruntime z →
  first_least m [i; q] r → r = i.
Proof.
  intros Hy Hz Hys Hzs Hv [_ (l1 & l2 & E & Hmin)]. destruct l1 as [|a [|b l1]]; cbn in E.
  - by injection E.
  - injection E as <- <- _. destruct (Hmin (vruntime z)) as [H1 _]; [by exists z|].
    specialize (H1 i (vruntime y) ltac:(by left) ltac:(by exists y)). lia.
  - destruct l1; discriminate E.
Qed.

(** One turn of the loop changes nothing but the wake-up time init does not keep to. *)
Lemma reap_stays svcs w bs i q :
  in_loop svcs w bs i q → (2 < fuel)%nat →
  ∃ w', reap fuel w = Ok w' ∧ in_loop svcs w' bs i q.
Proof.
  intros [Hok Hrun (y & Hy & Hyv) (z & Hz & Hzs & Hzn & Hzr & Hzv & Hpid) Hsv Hdirs Hcode Hpics] Hf.
  pose proof Hok as [Hb Hh Ht Hk Hi]. set (s := boot_sys (w_boot w)) in *.
  pose proof (sy_sched _ _ _ (bw_sys _ _ _ Hb)) as Hsi. fold s in Hsi.
  assert (Hcur : current (rq s) = i) by exact Hrun.
  assert (i ≠ q) as Hne by (pose proof (rw_nodup _ _ (si_wf _ _ Hsi)) as Hnd; apply NoDup_cons in Hnd as [Hnd _]; intros ->; apply Hnd; by left).
  assert (i ≠ 0) as Hi0 by (destruct (rw_linked _ _ (si_wf _ _ Hsi)) as [? _]; done).
  set (y' := overslept (tick (rq s) +₆₄ 100) y).
  destruct (sched_sleep_stays fuel s [i; q] y 100 Hsi Hf) as (s' & E & Hsi' & Hcur' & Hp');
    [by rewrite Hcur|rewrite Hcur; by left|by rewrite Hcur| |].
  { rewrite Hcur. intros r Hr. apply (first_of_two _ i q r y' z) in Hr; [done|by rewrite lookup_insert_eq|by rewrite lookup_insert_ne|done|done|].
    change (vruntime y') with (vruntime y). congruence. }
  rewrite Hcur in Hcur', Hp'. fold y' in Hp'.
  assert (Hfr : frame s s') by exact (framed_op fuel (OpSleep 100) s s' E).
  set (b' := put_sys s' (w_boot w)). unfold reap. unfold on_boot_sys, kzoom. fold s. rewrite E. cbn [mbind outcome_bind]. fold b'.
  change (running_proc (bt_machine b')) with (current (rq s')). rewrite Hcur', Hrun, Z.eqb_refl. cbn [mbind outcome_bind].
  eexists. split; [reflexivity|]. change (put_machine (bt_machine b') b') with b'.
  assert (new_log (m_cpu (bt_machine b')) (m_cpu (bt_machine b')) = []) as -> by (apply new_log_app; by rewrite app_nil_r).
  destruct (frame_heap (w_boot w) b' Hfr eq_refl) as [Eh Ef].
  split; cbn [w_boot w_pics w_code fold_left]; rewrite ?Ef; [|done| | |done|done|done|done].
  - apply (system_ok_machine (w_boot w) _ bs [i; q] [i; q]); done.
  - exists y'. change (boot_sys b') with s'. rewrite Hp', lookup_insert_eq. done.
  - exists z. change (boot_sys b') with s'. rewrite Hp', lookup_insert_ne by done. done.
Qed.

(** ** The life of the system *)

Lemma start_waits es m mb2 b :
  booted st es m mb2 b → credited INIT_PAGES INIT_BYTES (boot_heap b) →
  ∃ bs p, init_ready st (boot_sys b) p ∧ waiting 0 (start b) bs p.
Proof.
  intros Hb Hc. pose proof Hb as [(bs & p & Hwf & Hinit & Hslot & Hlen & _) Hff [Hidle (x & Hx & Hxs & Hxr & Hxp)] Hh Ht _ _ Hi Hk Hpk].
  exists bs, p. split; [exact Hinit|]. destruct Hinit as [_ (y & Hy & Hyp & Hys & _ & Hyr & _ & Hyv)].
  assert (p ≠ IDLE_PROC) as Hne by (intros ->; congruence).
  split; [split|done| | |done|done].
  - by split.
  - by apply fresh_flat.
  - done.
  - done.
  - by apply init_credit.
  - done.
  - done.
  - split; [by unfold SCHED_DEFAULT_QUANTUM|]. by exists x.
  - by exists y.
Qed.

(** Where the system can be; [p] is init. *)
Inductive phase (p : Z) (w : world) : Prop :=
  | ph_waiting k bs : waiting k w bs p → phase p w
  | ph_entry bs : at_entry w bs p → phase p w
  | ph_loop svcs bs q : in_loop svcs w bs p q → phase p w.

Lemma waiting_activity k w bs p : waiting k w bs p → activity_of w = Some Halted.
Proof. intros [Hbi Hr _ _ _ _]. unfold activity_of. by rewrite Hr, (bi_code _ _ _ Hbi), lookup_singleton_eq. Qed.

Lemma loop_activity svcs w bs i q : in_loop svcs w bs i q → activity_of w = Some Reaping.
Proof. intros [_ Hr _ _ _ _ Hc _]. unfold activity_of. by rewrite Hr, Hc. Qed.

Lemma in_service_blocks w n :
  w_pics w = mk_pics 1 0 → 0 ≤ n < 16 → deliverable n (w_pics w) = false.
Proof. intros -> Hn. by apply timer_blocks. Qed.

Lemma no_interrupt w n regs : w_pics w = mk_pics 1 0 → ¬ can_interrupt n regs w.
Proof. intros Hp (_ & [Hn _] & _ & Hd). by rewrite in_service_blocks in Hd. Qed.

Lemma loop_life svcs w w' bs i q :
  (26 ≤ fuel)%nat → in_loop svcs w bs i q → life dev st fuel w w' → in_loop svcs w' bs i q.
Proof.
  intros Hf Hl [n regs Hc _|msg Ha _|_ E].
  - by destruct (no_interrupt w n regs (il_pics _ _ _ _ _ Hl)).
  - by rewrite (loop_activity _ _ _ _ _ Hl) in Ha.
  - destruct (reap_stays svcs w bs i q Hl ltac:(lia)) as (w2 & E2 & Hl2). congruence.
Qed.

Lemma phase_life p w w' : (26 ≤ fuel)%nat → phase p w → life dev st fuel w w' → phase p w'.
Proof.
  intros Hf [k bs Hw|bs He|svcs bs q Hl] Hstep.
  - destruct Hstep as [n regs Hc E|msg Ha _|Ha _]; [|by rewrite (waiting_activity _ _ _ _ Hw) in Ha..].
    destruct (waiting_irq k w bs p n regs Hw Hc ltac:(lia)) as (w2 & E2 & H2). assert (w2 = w') as -> by congruence.
    destruct (n =? 0); [|by eapply ph_waiting]. destruct (_ =? _); [by eapply ph_entry|by eapply ph_waiting].
  - destruct Hstep as [n regs Hc _|msg _ E|Ha _]; [|destruct (entry_runs msg w bs p He Hf) as (w2 & svcs & bs' & q & E2 & Hl)
      |by rewrite (entry_activity _ _ _ He) in Ha].
    + by destruct (no_interrupt w n regs (ae_pics _ _ _ He)).
    + assert (w2 = w') as -> by congruence. by eapply ph_loop.
  - eapply ph_loop. by apply (loop_life svcs w w' bs p q).
Qed.

Lemma phase_reached p w w' : (26 ≤ fuel)%nat → phase p w → rtc (life dev st fuel) w w' → phase p w'.
Proof. intros Hf Hp. induction 1 as [|w w1 w' Hs _ IH]; [done|]. apply IH. by apply (phase_life p w). Qed.

Lemma loop_reached svcs w w' bs i q :
  (26 ≤ fuel)%nat → in_loop svcs w bs i q → rtc (life dev st fuel) w w' → in_loop svcs w' bs i q.
Proof. intros Hf Hp. induction 1 as [|w w1 w' Hs _ IH]; [done|]. apply IH. by apply (loop_life svcs w). Qed.

(** Nine ticks among any other interrupts, and the tenth. *)
Lemma served_waits irqs k w bs p :
  Forall (fun x => device_line x.1 ∧ f_int_no x.2 = IRQ x.1) irqs →
  waiting k w bs p → k + Z.of_nat (length (filter (fun x => x.1 = 0) irqs)) < SCHED_DEFAULT_QUANTUM → (1 < fuel)%nat →
  ∃ w', served dev st fuel irqs w w' ∧ waiting (k + Z.of_nat (length (filter (fun x => x.1 = 0) irqs))) w' bs p.
Proof.
  intros Hirqs. revert k w. induction Hirqs as [|[n regs] irqs [Hn Hr] _ IH]; intros k w Hw Hk Hf.
  { exists w. split; [constructor|]. cbn. by rewrite Z.add_0_r. }
  cbn [fst snd] in Hn, Hr.
  assert (can_interrupt n regs w) as Hcan.
  { split_and!; [apply (so_irqs _ _ _ (bi_ok _ _ _ (wt_before _ _ _ _ Hw)))|done|done|].
    rewrite (wt_pics _ _ _ _ Hw). apply idle_delivers, Hn. }
  destruct (waiting_irq k w bs p n regs Hw Hcan Hf) as (w1 & E & H1).
  rewrite filter_cons in Hk |- *. cbn [fst] in *. destruct (Z.eqb_spec n 0) as [->|Hne].
  - rewrite decide_True in Hk |- * by done. cbn [length] in Hk |- *. rewrite Nat2Z.inj_succ in Hk |- *.
    destruct (Z.eqb_spec (k + 1) SCHED_DEFAULT_QUANTUM); [lia|].
    destruct (IH (k + 1) w1 H1 ltac:(lia) Hf) as (w' & Hs & Hw'). exists w'. split; [by eapply served_cons|].
    by replace (k + Z.succ _) with (k + 1 + Z.of_nat (length (filter (fun x : Z * interrupt_frame => x.1 = 0) irqs))) by lia.
  - rewrite decide_False in Hk |- * by done. destruct (IH k w1 H1 Hk Hf) as (w' & Hs & Hw').
    exists w'. split; [by eapply served_cons|done].
Qed.

Lemma served_app irqs1 irqs2 w w1 w2 :
  served dev st fuel irqs1 w w1 → served dev st fuel irqs2 w1 w2 → served dev st fuel (irqs1 ++ irqs2) w w2.
Proof. induction 1; intros H2; [exact H2|]. eapply served_cons; [done..|]. auto. Qed.

Lemma tenth_tick irqs regs w bs p :
  Forall (fun x => device_line x.1 ∧ f_int_no x.2 = IRQ x.1) irqs → length (filter (fun x => x.1 = 0) irqs) = 9%nat →
  f_int_no regs = IRQ 0 → waiting 0 w bs p → (1 < fuel)%nat →
  ∃ w', served dev st fuel (irqs ++ [(0, regs)]) w w' ∧ at_entry w' bs p.
Proof.
  intros Hirqs Hlen Hregs Hw Hf. destruct (served_waits irqs 0 w bs p Hirqs Hw) as (w1 & Hs & Hw1);
    [unfold SCHED_DEFAULT_QUANTUM; lia|done|]. rewrite Hlen in Hw1. change (0 + Z.of_nat 9) with 9 in Hw1.
  assert (can_interrupt 0 regs w1) as Hcan.
  { split_and!; [apply (so_irqs _ _ _ (bi_ok _ _ _ (wt_before _ _ _ _ Hw1)))|by split|done|].
    rewrite (wt_pics _ _ _ _ Hw1). by apply idle_delivers. }
  destruct (waiting_irq 9 w1 bs p 0 regs Hw1 Hcan Hf) as (w2 & E & H2). exists w2. split; [|exact H2].
  eapply served_app; [exact Hs|]. eapply served_cons; [done|exact E|constructor].
Qed.
End Running.

Lemma kmain_starts (dev : nat → Z → Z) (st : statics) (fuel : nat) (m : mem) (mb2 c3 : Z) (es : list mmap_entry) (p : ports) :
  loader fuel m mb2 es → statics_ok st → (8 ≤ fuel)%nat → enough_memory es →
  ∃ b bs i, kmain dev st (S fuel) mb2 (power_on st m c3 p) = Ok (tt, b) ∧ booted st es m mb2 b ∧
    init_ready st (boot_sys b) i ∧ waiting st 0 (start b) bs i.
Proof.
  intros Hld Hst Hf Hmem.
  destruct (wp_false _ _ _ (kmain_spec False dev st fuel m mb2 c3 es p Hld Hst Hf (or_intror Hmem)))
    as ([] & b & E & Hb & [[]|Hc]).
  destruct (start_waits st es m mb2 b Hb Hc) as (bs & i & Hi & Hw). exists b, bs, i.
  exact (conj E (conj Hb (conj Hi Hw))).
Qed.

(** (C1) From power on to the loop of init, and for ever after, on a machine handed over
    as [loader] asks, with 30 free pages in a row.  [kmain] reaches its idle loop.  Any
    series of interrupts of the device lines with nine timer ticks among them, and a
    tenth tick, are delivered, handled and leave the processor at the entry of
    [init_main], which runs to its loop without a panic: the seven paths of init.c
    resolve to directories, the shell is a READY process behind init in the queue, its
    pid is in the table of services, and everything is well formed.  But the tenth tick
    switched to init inside the timer's interrupt, before its end-of-interrupt command
    (idt.c:118): the line stays in service, no interrupt is ever delivered again, and
    since each [sched_sleep] of init picks init itself (its virtual runtime is no larger
    than the shell's), the shell stays READY and never gets the processor. *)
Theorem boot_to_init (dev : nat → Z → Z) (st : statics) (fuel fuel' : nat) (m : mem) (mb2 c3 msg : Z)
    (es : list mmap_entry) (p : ports)
    (Hdev : ∀ n p, 0 ≤ dev n p < 256) (Hap : handlers_apart st)
    (Hld : loader fuel m mb2 es) (Hst : statics_ok st) (Hf : (8 ≤ fuel)%nat) (Hf' : (26 ≤ fuel')%nat)
    (Hmem : enough_memory es) :
  ∃ b i, kmain dev st (S fuel) mb2 (power_on st m c3 p) = Ok (tt, b) ∧ booted st es m mb2 b ∧
    init_ready st (boot_sys b) i ∧
    ∀ irqs regs, Forall (fun x => device_line x.1 ∧ f_int_no x.2 = IRQ x.1) irqs →
      length (filter (fun x => x.1 = 0) irqs) = 9%nat → f_int_no regs = IRQ 0 →
    ∃ w1 w2 svcs bs q, served dev st fuel' (irqs ++ [(0, regs)]) (start b) w1 ∧
      activity_of w1 = Some (Entry (init_main_addr st)) ∧ run_init st fuel' msg w1 = Ok w2 ∧
      ∀ w3, rtc (life dev st fuel') w2 w3 →
        in_loop st svcs w3 bs i q ∧ (∀ n, 0 ≤ n < 16 → deliverable n (w_pics w3) = false) ∧
        ∃ w4, life dev st fuel' w3 w4.
Proof.
  destruct (kmain_starts dev st fuel m mb2 c3 es p Hld Hst Hf Hmem) as (b & bs & i & E & Hb & Hi & Hw).
  exists b, i. split; [exact E|]. split; [exact Hb|]. split; [exact Hi|]. intros irqs regs Hirqs Hnine Hregs.
  destruct (tenth_tick dev st fuel' Hdev Hap irqs regs (start b) bs i Hirqs Hnine Hregs Hw ltac:(lia)) as (w1 & Hs & He).
  destruct (entry_runs st fuel' msg w1 bs i He Hf') as (w2 & svcs & bs' & q & E2 & Hl).
  exists w1, w2, svcs, bs', q. split; [exact Hs|]. split; [by apply (entry_activity st w1 bs i)|]. split; [exact E2|].
  intros w3 Hlife. pose proof (loop_reached dev st fuel' svcs w2 w3 bs' i q Hf' Hl Hlife) as Hl3. split; [exact Hl3|]. split.
  - intros n Hn. apply in_service_blocks; [apply (il_pics _ _ _ _ _ _ Hl3)|done].
  - destruct (reap_stays st fuel' svcs w3 bs' i q Hl3 ltac:(lia)) as (w4 & E4 & _). exists w4.
    apply life_reap; [by apply (loop_activity st svcs w3 bs' i q)|exact E4].
Qed.

(** (C2) The life of the system after [kmain], as [life] has it, never goes wrong.  In
    every state it reaches, by any interrupts and steps in any order: heap, file system,
    process table and run queue are well formed and share no object, at most the current
    process is RUNNING, the handlers, the system call table and the keyboard ring are in
    place; the processor is in the idle loop, or at the entry of [init_main] or in its
    loop, and runs no process but the idle one and init; outside the idle loop no line
    is deliverable, so that nothing interrupts what runs with interrupts on; and what
    can happen next returns without a panic: an interrupt of any device line in the idle
    loop, [init_main], and a turn of its loop. *)
Theorem system_life (dev : nat → Z → Z) (st : statics) (fuel fuel' : nat) (m : mem) (mb2 c3 : Z)
    (es : list mmap_entry) (p : ports)
    (Hdev : ∀ n p, 0 ≤ dev n p < 256) (Hap : handlers_apart st)
    (Hld : loader fuel m mb2 es) (Hst : statics_ok st) (Hf : (8 ≤ fuel)%nat) (Hf' : (26 ≤ fuel')%nat)
    (Hmem : enough_memory es) :
  ∃ b i, kmain dev st (S fuel) mb2 (power_on st m c3 p) = Ok (tt, b) ∧ init_ready st (boot_sys b) i ∧
    ∀ w, rtc (life dev st fuel') (start b) w →
      (∃ bs l, system_ok st (w_boot w) bs l) ∧
      (activity_of w = Some Halted ∧ w_running w = IDLE_PROC ∧
         (∀ n regs, device_line n → f_int_no regs = IRQ n →
            can_interrupt n regs w ∧ ∃ w', interrupt dev st fuel' n regs w = Ok w') ∨
       activity_of w = Some (Entry (init_main_addr st)) ∧ w_running w = i ∧
         (∀ n, 0 ≤ n < 16 → deliverable n (w_pics w) = false) ∧ (∀ msg, ∃ w', run_init st fuel' msg w = Ok w') ∨
       activity_of w = Some Reaping ∧ w_running w = i ∧
         (∀ n, 0 ≤ n < 16 → deliverable n (w_pics w) = false) ∧ ∃ w', reap fuel' w = Ok w').
Proof.
  destruct (kmain_starts dev st fuel m mb2 c3 es p Hld Hst Hf Hmem) as (b & bs & i & E & _ & Hi & Hw).
  exists b, i. split; [exact E|]. split; [exact Hi|]. intros w Hlife.
  destruct (phase_reached dev st fuel' Hdev Hap i (start b) w Hf' (ph_waiting st i _ 0 bs Hw) Hlife) as [k bs1 H1|bs1 H1|svcs bs1 q H1].
  - split; [exists bs1, [i]; apply (bi_ok _ _ _ _ (wt_before _ _ _ _ _ H1))|]. left.
    split; [by apply (waiting_activity st k w bs1 i)|]. split; [apply H1|]. intros n regs Hn Hr.
    assert (can_interrupt n regs w) as Hc.
    { split_and!; [apply (so_irqs _ _ _ _ (bi_ok _ _ _ _ (wt_before _ _ _ _ _ H1)))|done|done|].
      rewrite (wt_pics _ _ _ _ _ H1). apply idle_delivers, Hn. }
    split; [exact Hc|]. destruct (waiting_irq dev st fuel' Hdev Hap k w bs1 i n regs H1 Hc ltac:(lia)) as (w' & E' & _). by exists w'.
  - split; [exists bs1, [i]; apply (bi_ok _ _ _ _ (ae_before _ _ _ _ H1))|]. right. left.
    split; [by apply (entry_activity st w bs1 i)|]. split; [apply H1|].
    split; [intros n Hn; by apply in_service_blocks; [apply H1|]|]. intros msg.
    destruct (entry_runs st fuel' msg w bs1 i H1 Hf') as (w' & _ & _ & _ & E' & _). by exists w'.
  - split; [exists bs1, [i; q]; apply H1|]. right. right.
    split; [by apply (loop_activity st svcs w bs1 i q)|]. split; [apply H1|].
    split; [intros n Hn; by apply in_service_blocks; [apply H1|]|].
    destruct (reap_stays st fuel' svcs w bs1 i q H1 ltac:(lia)) as (w' & E' & _). by exists w'.
Qed.

(** ** A concrete machine: ten ticks and a key *)

Definition ten_ticks : list (Z * interrupt_frame) :=
  (1, irq_frame 1) :: replicate 9 (0, irq_frame 0).

Lemma boot_to_init_witness :
  ∃ b i w1 w2 svcs bs q, kmain (fun _ _ => 30) sample_statics 13 36864 (power_on sample_statics small_boot 0 (mk_ports 0 [])) = Ok (tt, b) ∧
    served (fun _ _ => 30) sample_statics 32 (ten_ticks ++ [(0, irq_frame 0)]) (start b) w1 ∧
    run_init sample_statics 32 16900000 w1 = Ok w2 ∧
    ∀ w3, rtc (life (fun _ _ => 30) sample_statics 32) w2 w3 → in_loop sample_statics svcs w3 bs i q.
Proof.
  destruct (boot_to_init (fun _ _ => 30) sample_statics 12 32 small_boot 36864 0 16900000 small_entries (mk_ports 0 []))
    as (b & i & E & _ & _ & Hall);
    [lia|by split_and!|exact small_loader|split; discriminate|lia|lia|exact small_memory|].
  destruct (Hall ten_ticks (irq_frame 0)) as (w1 & w2 & svcs & bs & q & H1 & _ & H2 & H3);
    [repeat constructor; cbn; (lia || reflexivity)|reflexivity|reflexivity|].
  exists b, i, w1, w2, svcs, bs, q. split; [exact E|]. split; [exact H1|]. split; [exact H2|].
  intros w3 Hw3. apply (H3 w3 Hw3).
Defined.

Lemma system_life_witness :
  ∃ b i, kmain (fun _ _ => 30) sample_statics 13 36864 (power_on sample_statics small_boot 0 (mk_ports 0 [])) = Ok (tt, b) ∧
    init_ready sample_statics (boot_sys b) i ∧
    ∀ w, rtc (life (fun _ _ => 30) sample_statics 32) (start b) w → ∃ bs l, system_ok sample_statics (w_boot w) bs l.
Proof.
  destruct (system_life (fun _ _ => 30) sample_statics 12 32 small_boot 36864 0 small_entries (mk_ports 0 []))
    as (b & i & E & Hi & Hall);
    [lia|by split_and!|exact small_loader|split; discriminate|lia|lia|exact small_memory|].
  exists b, i. split; [exact E|]. split; [exact Hi|]. intros w Hw. apply (Hall w Hw).
Defined.
